(* ===== verification/_CoqProject ===== *)
-Q . S2P
Prelude.v
GoInt.v
GoText.v
GoTime.v
Pagination.v
TimeParse.v
Model.v
Errors.v
World.v
Effects.v
Logic.v
Repository.v
RepoPayments.v
RepoAccounts.v
GoFloat.v
Config.v
GoJson.v
History.v
RepoHistory.v
EventBus.v
Provider.v
Schema.v
Sample.v
PaymentSvc.v
SubscriptionSvc.v
InvoiceSvc.v
CatalogSvc.v
Background.v
QueueSpec.v
Draining.v
WebhookSvc.v
Http.v
Wire.v
Csv.v
Ingress.v
Auth.v
PaymentHandlers.v
AccountHandlers.v
ApiKeys.v
Reporting.v
Edge.v
Sdk.v
SdkContract.v
Subscriber.v
Cli.v
Router.v
Answering.v
Serving.v
Replies.v
QuietRoutes.v
System.v
Server.v
Restart.v
Shared.v
Migrate.v
Hub.v
WebSocket.v
Telemetry.v
