(* ===== verification/Prelude.v ===== *)
(** * Helix Seller: a verification development

    Helix Seller is a payment back end in Go: an HTTP interface under
    [/api/v1], the services and repositories behind it over PostgreSQL, Redis
    for sessions and rate limits, NATS for events, adapters to payment
    providers, a queue of background tasks, outgoing and incoming webhooks and
    a WebSocket hub. This library is a model of that program and the theorems
    that say what it guarantees. File names below are those of the repository.

    ** How the model works

    A method of the program is a value of the monad [World.M]: a tree of
    interactions with a [world] - the tables, Redis, the events stored, the
    calls made to providers and the HTTP requests sent. [run] executes one
    method alone; [Effects.pool_step] interleaves any number of them between
    interactions, and a theorem about [rtc pool_step] is a theorem about every
    schedule. An outcome is a value, a Go error or a panic, and effects made
    before an error stay. Inside a database transaction the statements are one
    interaction.

    What the outside answers is the class [World.Externals], indexed by the
    number of the interaction: clocks, fresh identifiers, random bytes, whether
    a statement is accepted, refused or applied with its acknowledgement lost,
    which rows other transactions lock, where a stream of rows breaks, HTTP and
    Redis. Nothing is assumed of it where a theorem does not say so, so the
    theorems hold for failures at every point. A statement is what its SQL does
    to finite maps from identifiers to rows.

    Integers are [Z] with the wrap-around of their width written out, times are
    nanoseconds since 1970 with Go's calendar arithmetic, [float64] is IEEE 754,
    a [json.RawMessage] is an optional text, an error keeps its identity and the
    chain of its [%w] wrappings so that [errors.Is] and [errors.As] are
    computed.

    ** The files

    Foundations.
    - [Prelude]: record updates, tactics, lemmas on lists and options.
    - [GoInt], [GoFloat], [GoText], [GoTime], [TimeParse]: Go's integers,
      floats, text, [time] and [time.Parse].
    - [GoJson], [Csv]: [encoding/json] decoding and [encoding/csv].
    - [Pagination]: [internal/model/pagination.go] and [strconv.Atoi].
    - [Config]: [internal/config/config.go] with [time.ParseDuration].
    - [Model], [Errors]: the structs and constants of [internal/model]; errors
      of [internal/model/errors.go].
    - [World], [Effects]: the monad, statements, clocks, HTTP, Redis, threads.
    - [Logic]: rewriting rules for [run]; [Acts R m], every interaction of [m]
      stays within a relation [R]; [Keeps I m], an invariant through one method
      of many; [Spends], a budget shared by concurrent methods.
    - [History], [RepoHistory]: the order [db_le] between a database and its
      later states, and each repository method within it.
    - [Schema]: the constraints of [migrations/] the code can run into.
    - [Sample]: one concrete outside world, where theorems are instantiated.

    Data access: [Repository], [RepoPayments], [RepoAccounts] are
    [internal/repository]; [XRepo_Method] is the method [Method] of [XRepo].

    Services.
    - [EventBus]: [internal/eventbus]; the class [PublishesOnly] is what clients
      rely on.
    - [Provider]: [internal/provider]; [PaymentProvider] is the Go interface as
      a record, [ProviderLaws] and [FactoryLaws] its contract, proved of the
      mock, Stripe, PayPal and Square adapters and of [NewFactory].
    - [PaymentSvc], [SubscriptionSvc], [InvoiceSvc], [CatalogSvc] (disputes,
      payouts, products), [WebhookSvc], [ApiKeys], [Reporting] (billing,
      analytics, exchange rates, reconciliation): the files of
      [internal/service] of the same names.
    - [Background]: [background.go] and [task_handlers.go]; a worker is given
      the number of turns it makes.
    - [QueueSpec]: the job queue as a specification of its own - jobs that wait,
      are worked on, finish or are buried - which the task table refines.
    - [Draining]: a worker brings every waiting task to its end.
    - [Auth]: passwords, tokens, MFA, the handlers of [handler/auth.go] and the
      middleware of [middleware/auth.go], [rbac.go], [rate_limit.go].
    - [Hub]: [websocket/hub.go], as a step relation over the hub's maps and the
      clients' channels (capacity 256, as the code has it). [WebSocket]: around
      it the connections with their two pumps ([websocket/handler.go]) and the
      channel of [BroadcastToAll]; a step of it is a step of the hub or none.
    - [Subscriber]: the other end of the bus, [Subscribe] of [eventbus.go].

    The HTTP interface.
    - [Http]: requests, answers, binding of bodies and its validation tags.
    - [Wire]: the JSON of every answer, from the field tags of [internal/model].
    - [Ingress]: [handler/webhook_ingress.go].
    - [PaymentHandlers], [AccountHandlers], [ApiKeys], [Reporting]: the other
      handlers of [internal/handler].
    - [Edge]: the middleware [main] adds after the routes, which gin runs for
      requests no route takes.
    - [Router]: every route of [router.go] with its chain of middleware, the
      audit middleware included; [ServeHTTP] is what a request runs.
    - [Answering], [Serving], [Replies], [QuietRoutes]: no handler panics; every
      request is answered and protected routes are protected; the form of the
      answers; which routes may touch providers and money records.
    - [System]: requests, workers, producers and internal operations at once.

    - [Server]: [cmd/server/main.go]: from the environment to the process that
      listens or the error it dies of, with [internal/database].
    - [Restart]: the end of [main]; lives of the process, which may stop between
      any two interactions, one after the other over one database.

    Clients and tools.
    - [Sdk]: [sdk/go]; [SdkContract]: what it reads of what the server answers.
    - [Cli]: the commands of [cmd/cli]; [Migrate]: [cmd/migrate].
    - [Telemetry]: [internal/observability], the middleware that counts and logs,
      [pkg/logger].
    - [Shared]: [pkg/crypto], [pkg/errors], [pkg/utils], [internal/validator].

    ** What the theorems show

    - The whole system, under every schedule and every answer of the outside:
      an idempotency key is charged at most once, money records never disappear
      and never change owner or amount, no task is claimed more than five times,
      the task table refines the abstract queue and drains while the database works,
      products stay sellable, API keys behave as created, expired and revoked.
    - Crashes and restarts: charges stay at most one for a key, the books go on,
      and a task that was being worked on is never taken up again.
    - The interface: every request is answered, by its own handler but for the
      one that panics on a token without a subject; protected routes need a valid
      token and role, errors have one form, webhook configurations of one merchant are out of reach of
      requests of another; an incoming webhook of Stripe is published exactly when
      its signature is right.
    - The services: what each operation does on each branch; the state machine
      of invoices, call by call; the calendar of subscriptions, interval by
      interval; the queue as a priority queue with retries; deliveries that end
      with the first 2xx or after five requests; billing, exports and
      reconciliation.
    - Messages: what is posted to the hub is broadcast in order and reaches
      every client it keeps, in order and without a gap, and a message to a room
      is the one thing that can panic; an event reaches its subscriber as JSON
      read without a type (numbers are floats) and is not sent again if its
      handler fails.
    - The process and its clients: what a start needs and what it only uses,
      how settings are read, sessions that last as configured if the keys are a
      pair, what the
      Go client and the command line make of the answers.
    - Where the code falls short of its documents, a theorem shows the
      behaviour it has: refunds that reach the provider and are never recorded,
      deliveries whose outcome PostgreSQL refuses to store, keys nobody compares,
      cancellations that are overwritten, invoices reopened by a task, tokens
      without a user id, refreshes of revoked tokens, a panic in the hub, a
      migration command that goes elsewhere.

    ** Termination and bounds

    Methods are finite trees of interactions, so a run always ends. Fuel appears
    in few places. [Background.worker] repeats its turn the number of times it
    is given, any number in the theorems, and [Draining] shows that some number
    is enough. [WebhookSvc.sendWithRetry] recurses over its five attempts, the
    constant of the code. The loops over a text, in [Config.ParseDuration] and
    [GoText], have its length as fuel, and lemmas say that more changes nothing. Integers wrap at 64 bits
    where Go's do; the bounds theorems say where they cannot.

    ** Parameters

    Code outside the repository is a class with the laws relied upon: [Crypto]
    (HMAC), [Digest] (SHA-256), [PasswordHash] (Argon2), [JWTLib] (signing and
    parsing of tokens), [TOTP], [PKI] (PEM, X.509, RSA), [FloatText] (parsing a
    float), [NetURL], [Validator] (the email rule of the struct validator),
    [RowOrder] (a sort by the database), [Gin] with [GinLaws] (the routing tree finds routes of its table; the page of
    Prometheus and the reply of a WebSocket handshake are arbitrary), [Machine] with
    [KeysWork] (what the libraries answer when the process starts; a token is read
    with the public half of the key that signed it), [AES_GCM], [OTel], [JetStream],
    [Migrate] (golang-migrate), [Fmt] and [Viper] (verbs of fmt and the settings of
    the command line client); and a function that prints floats in [Wire]. Witnesses instantiate them with concrete functions.

    ** Not modelled

    - The libraries of logs, metrics and traces ([middleware/tracing.go] is one
      call); the log lines inside services and handlers.
    - The cobra declarations of [cmd/cli] and the alignment of its tables;
      the delivery of signals, the timeouts of the HTTP server, a listener that
      breaks while it serves, and the settings of connection pools in [cmd/server].
    - [IsValidEmail] (the address parser of net/mail) and [errors.Is] (identity
      of pointers) in the shared packages: nothing calls them.
    - The handshake and the frames of a WebSocket connection. The range over a
      map of clients is one step: Go runs it under a lock that other readers
      share, and two of them at once would be a data race.
    - The normalisation of JSONB (a raw message is stored
      compacted, as it was written); lengths of VARCHAR columns and foreign
      keys, which only make the database refuse more, as it may at any point.
    - Times to live in Redis are kept to the nanosecond, where go-redis sends
      whole milliseconds: an entry may go up to a millisecond earlier than
      [Auth.Logout_revokes] says.
    - Header names are compared as ASCII; the server runs in UTC.
*)

From Stdlib Require Export Ascii.
From stdpp Require Export base gmap strings list fin_maps sorting pretty.
From Stdlib Require Export ZArith Lia.

#[export] Set Default Goal Selector "!".

(** ** Records with named updates

    Go code mutates one field of a struct at a time.  [r <| f := v |>] is the
    same record with the field [f] replaced; it is built from the record's eta
    expansion, given once per record as an [Eta] instance. *)

Class Eta (R : Type) := eta : R → R.
Class FieldSet {R T : Type} (proj : R → T) := field_set : (T → T) → R → R.
Arguments field_set {_ _} _ {_} _ _ /.

Ltac build_field_set :=
  lazymatch goal with
  | |- @FieldSet ?R ?T ?proj =>
      let e := constr:(_ : Eta R) in
      let e := eval hnf in e in
      let e := eval pattern proj in e in
      lazymatch e with
      | ?g _ =>
          let s := constr:(λ (f : T → T) (r : R), g (λ r' : R, f (proj r')) r) in
          let s := eval cbv beta in s in
          exact s
      end
  end.
#[export] Hint Extern 0 (FieldSet _) => build_field_set : typeclass_instances.

Notation "r <| f := v |>" := (field_set f (λ _, v) r)
  (at level 1, f at level 0, left associativity, format "r  <| f  :=  v |>").

(** ** Proof automation

    [helix] collects the lemmas that close the routine goals of the
    components; [case_all] destructs the [match]es and [decide]s of the goal
    and of the hypotheses. *)

Create HintDb helix.

Ltac case_all :=
  repeat (case_match || case_decide || case_bool_decide); simplify_eq/=.

(** ** Generic lemmas on lists *)

Section lists.
Context {A : Type}.
Implicit Types l : list A.

(** A list is the concatenation of its consecutive chunks. *)
Definition chunk (size : nat) (i : nat) l : list A := take size (drop (i * size) l).

Lemma chunk_concat size n l :
  concat (map (λ i, chunk size i l) (seq 0 n)) = take (n * size) l.
Proof.
  induction n as [|n IH]; [done|].
  rewrite seq_S, map_app, concat_app, IH; simpl.
  rewrite app_nil_r; unfold chunk.
  replace (size + n * size)%nat with (n * size + size)%nat by lia.
  by rewrite take_take_drop.
Qed.

Lemma length_chunk size i l : (length (chunk size i l) ≤ size)%nat.
Proof. unfold chunk. rewrite length_take. lia. Qed.

(** [count P l] elements of [l] satisfy [P]. *)
Definition count_true (P : A → bool) l : nat := length (List.filter P l).

Lemma count_true_app P l k :
  count_true P (l ++ k) = (count_true P l + count_true P k)%nat.
Proof. unfold count_true. by rewrite List.filter_app, length_app. Qed.

Lemma count_true_zero P l : (∀ x, x ∈ l → P x = false) → count_true P l = 0%nat.
Proof.
  unfold count_true. induction l as [|a l IH]; intros H; [done|]. simpl.
  rewrite (H a) by set_solver. apply IH. set_solver.
Qed.
End lists.

(** ** Generic lemmas on strings *)

Lemma append_cons (c : ascii) (s t : string) : String c s +:+ t = String c (s +:+ t).
Proof. done. Qed.

Lemma append_assoc (s t u : string) : (s +:+ t) +:+ u = s +:+ (t +:+ u).
Proof. induction s as [|c s IH]; [done|]. rewrite !append_cons. by rewrite IH. Qed.

Lemma append_empty (s : string) : s +:+ "" = s.
Proof. induction s as [|c s IH]; [done|]. rewrite !append_cons. by rewrite IH. Qed.

Lemma append_nil_l (s : string) : "" +:+ s = s.
Proof. done. Qed.

Lemma append_snoc (s : string) (c : ascii) t : (s +:+ String c "") +:+ t = s +:+ String c t.
Proof. by rewrite append_assoc. Qed.

#[export] Instance eq_preorder {A} : PreOrder (@eq A).
Proof. split; [by intros ?|by intros ???->]. Qed.

(** ** Reflexive and transitive closure with a length

    The components' step relations use stdpp's [rtc]; [rtc_invariant] is the
    rule induction they share. *)

Lemma rtc_invariant {A} (R : relation A) (I : A → Prop) x y :
  (∀ a b, I a → R a b → I b) → I x → rtc R x y → I y.
Proof. intros Hstep Hx Hrtc. induction Hrtc; eauto. Qed.
