(* ===== verification/GoInt.v ===== *)
(** Go's fixed-width integers: wrap-around at 64 and 16 bits, division that
    truncates towards zero. *)

From S2P Require Import Prelude.

Open Scope Z_scope.

(** ** Widths *)

Definition wrap (w : Z) (z : Z) : Z := (z + 2 ^ (w - 1)) mod 2 ^ w - 2 ^ (w - 1).
Definition wrap64 : Z → Z := wrap 64.
Definition wrap16 : Z → Z := wrap 16.

Definition int64_min : Z := - 2 ^ 63.
Definition int64_max : Z := 2 ^ 63 - 1.

Definition in_int64 (z : Z) : Prop := int64_min ≤ z ≤ int64_max.
#[export] Instance in_int64_dec z : Decision (in_int64 z).
Proof. unfold in_int64. apply _. Defined.

Definition in_int16 (z : Z) : Prop := - 2 ^ 15 ≤ z < 2 ^ 15.
#[export] Instance in_int16_dec z : Decision (in_int16 z).
Proof. unfold in_int16. apply _. Defined.

(** [+], [-], [*] on [int64] (and on [int], which is 64 bits wide). *)
Definition add64 (x y : Z) : Z := wrap64 (x + y).
Definition sub64 (x y : Z) : Z := wrap64 (x - y).
Definition mul64 (x y : Z) : Z := wrap64 (x * y).

(** [/] and [%] truncate; [None] is the run-time panic on a zero divisor. *)
Definition quot64 (x y : Z) : option Z :=
  if decide (y = 0) then None else Some (wrap64 (Z.quot x y)).
Definition rem64 (x y : Z) : option Z :=
  if decide (y = 0) then None else Some (Z.rem x y).

Lemma wrap64_id z : in_int64 z → wrap64 z = z.
Proof.
  unfold in_int64, int64_min, int64_max, wrap64, wrap. intros H.
  change (64 - 1) with 63. rewrite Z.mod_small; lia.
Qed.

Lemma wrap64_range z : in_int64 (wrap64 z).
Proof.
  unfold in_int64, int64_min, int64_max, wrap64, wrap. change (64 - 1) with 63.
  pose proof (Z.mod_pos_bound (z + 2 ^ 63) (2 ^ 64)). lia.
Qed.

Lemma wrap16_id z : in_int16 z → wrap16 z = z.
Proof.
  unfold in_int16, wrap16, wrap. intros H. change (16 - 1) with 15.
  rewrite Z.mod_small; lia.
Qed.

Lemma quot64_Some x y : y ≠ 0 → quot64 x y = Some (wrap64 (Z.quot x y)).
Proof. intros. unfold quot64. by rewrite decide_False. Qed.

Lemma rem64_Some x y : y ≠ 0 → rem64 x y = Some (Z.rem x y).
Proof. intros. unfold rem64. by rewrite decide_False. Qed.

#[export] Hint Resolve wrap64_range : helix.
