(* ===== verification/GoText.v ===== *)
(** Go's text: [strings.TrimSpace] and the runes of a string, which is UTF-8 as
    far as it is valid. *)

From S2P Require Import Prelude.

Open Scope Z_scope.

(** [strings.TrimSpace]: Unicode's white space, as the bytes of its encoding.
    A sequence that is complete is read the same from both ends. *)
Definition bytes_of (l : list N) : string := foldr (λ n, String (ascii_of_N n)) "" l.
Definition white_space : list string :=
  map bytes_of ([[9]; [10]; [11]; [12]; [13]; [32]; [194; 133]; [194; 160]; [225; 154; 128];
    [226; 128; 168]; [226; 128; 169]; [226; 128; 175]; [226; 129; 159]; [227; 128; 128]] ++
    map (λ n, [226; 128; 128 + N.of_nat n]) (seq 0 11))%N.

(** What follows [prefix], when [s] starts with it. *)
Fixpoint after_prefix (prefix s : string) : option string :=
  match prefix, s with
  | "", _ => Some s
  | String p prefix, String c s => if decide (p = c) then after_prefix prefix s else None
  | _, _ => None
  end.

Definition trim_one (spaces : list string) (s : string) : option string :=
  foldr (λ p r, match after_prefix p s with Some s' => Some s' | None => r end) None spaces.

(** A white space is not empty, so [length s] rounds are enough. *)
Fixpoint trim_from (fuel : nat) (spaces : list string) (s : string) : string :=
  match fuel with
  | O => s
  | S fuel => match trim_one spaces s with Some s' => trim_from fuel spaces s' | None => s end
  end.
Definition TrimLeft (s : string) : string := trim_from (String.length s) white_space s.
Definition TrimRight (s : string) : string :=
  String.rev (trim_from (String.length s) (map String.rev white_space) (String.rev s)).
Definition TrimSpace (s : string) : string := TrimRight (TrimLeft s).

Example TrimSpace_ends : TrimSpace (bytes_of [194; 160; 9]%N +:+ "a b" +:+ bytes_of [226; 128; 131; 10]%N) = "a b".
Proof. vm_compute. reflexivity. Qed.

(** The length of the first rune of a text; what is no UTF-8 counts byte by
    byte. *)
Definition between (lo hi : N) (s : string) : option string :=
  match s with
  | String c s => if decide (lo ≤ N_of_ascii c ≤ hi)%N then Some s else None
  | "" => None
  end.
Definition rune_tail (c : ascii) (s : string) : string :=
  let n := N_of_ascii c in
  default s
    (if decide (194 ≤ n ≤ 223)%N then between 128 191 s
     else if decide (224 ≤ n ≤ 239)%N then
       s1 ← between (if decide (n = 224)%N then 160 else 128)
                    (if decide (n = 237)%N then 159 else 191) s;
       between 128 191 s1
     else if decide (240 ≤ n ≤ 244)%N then
       s1 ← between (if decide (n = 240)%N then 144 else 128)
                    (if decide (n = 244)%N then 143 else 191) s;
       s2 ← between 128 191 s1;
       between 128 191 s2
     else None).

Fixpoint count_runes (fuel : nat) (s : string) : Z :=
  match fuel, s with
  | S fuel, String c s => 1 + count_runes fuel (rune_tail c s)
  | _, _ => 0
  end.
(** [len([\]rune(s))] *)
Definition RuneCount (s : string) : Z := count_runes (String.length s) s.

Lemma between_length lo hi s t :
  between lo hi s = Some t → (String.length t < String.length s)%nat.
Proof. destruct s; simpl; [done|]. case_decide; [|done]. intros [= ->]. lia. Qed.

Lemma rune_tail_length c s : (String.length (rune_tail c s) ≤ String.length s)%nat.
Proof.
  unfold rune_tail. destruct (if decide _ then _ else _) as [t|] eqn:Ht; [simpl|done].
  repeat case_decide; try done;
    repeat (apply bind_Some in Ht as (? & ?%between_length & Ht)); apply between_length in Ht; lia.
Qed.

(** More fuel counts no more runes. *)
Lemma count_runes_fuel n m s :
  (String.length s ≤ n)%nat → (String.length s ≤ m)%nat → count_runes n s = count_runes m s.
Proof.
  revert m s. induction n as [|n IH]; intros m [|c s] Hn Hm; simpl in Hn; try lia;
    [by destruct m..|].
  destruct m as [|m]; simpl in Hm; [lia|]. simpl. pose proof (rune_tail_length c s).
  by rewrite (IH m) by lia.
Qed.

Lemma RuneCount_cons c s : RuneCount (String c s) = 1 + RuneCount (rune_tail c s).
Proof.
  unfold RuneCount. simpl. f_equal. apply count_runes_fuel; [apply rune_tail_length|done].
Qed.
