(* ===== verification/GoTime.v ===== *)
(** Go's [time] package, as far as the services use it: instants, durations,
    and [AddDate] over the proleptic Gregorian calendar.

    An instant is a number of nanoseconds since 1970-01-01T00:00:00Z.  The
    server runs in UTC, so the wall clock of [AddDate] is the UTC one. *)

From S2P Require Import Prelude GoInt.

Open Scope Z_scope.

Definition time : Type := Z.
Definition Duration : Type := Z.

#[export] Instance time_eq_dec : EqDecision time := Z.eq_dec.

Definition Millisecond : Duration := 10 ^ 6.
Definition Second : Duration := 10 ^ 9.
Definition Minute : Duration := 60 * Second.
Definition Hour : Duration := 60 * Minute.
Definition day : Duration := 24 * Hour.

(** The zero [time.Time]: midnight of January 1 of year 1. *)
Definition time_zero : time := - 62135596800 * Second.

Definition Add (t : time) (d : Duration) : time := t + d.
Definition Sub (t u : time) : Duration := t - u.
Definition Before (t u : time) : bool := bool_decide (t < u).
Definition After (t u : time) : bool := bool_decide (u < t).
Definition Unix (t : time) : Z := t / Second.
Definition UnixMilli (t : time) : Z := t / Millisecond.

(** ** The calendar

    A month is counted from March of year 0, so that a leap day ends a year:
    month [k] lies in the year [k / 12] that begins in March, and [k mod 12] is
    0 for March and 11 for February. *)

Definition year_start (y : Z) : Z := 365 * y + y / 4 - y / 100 + y / 400.

(** The day number (0 is 1970-01-01) of the first day of month [k]. *)
Definition month_start (k : Z) : Z :=
  year_start (k / 12) + (153 * (k mod 12) + 2) / 5 - 719468.

Definition month_length (k : Z) : Z := month_start (k + 1) - month_start k.

(** [time.Date]'s day number: the day may lie outside the month and then
    counts on into the neighbouring months. *)
Definition day_number (k d : Z) : Z := month_start k + d - 1.

(** The month and the day of the month of a day number. *)
Definition civil (n : Z) : Z * Z :=
  let z := n + 719468 in
  let era := z / 146097 in
  let doe := z mod 146097 in
  let yoe := (doe - doe / 1460 + doe / 36524 - doe / 146096) / 365 in
  let doy := doe - (365 * yoe + yoe / 4 - yoe / 100) in
  let mp := (5 * doy + 2) / 153 in
  (12 * (yoe + 400 * era) + mp, doy - (153 * mp + 2) / 5 + 1).

Definition Year (n : Z) : Z := (fst (civil n) + 2) / 12.
Definition Month (n : Z) : Z := (fst (civil n) + 2) mod 12 + 1.
Definition Day (n : Z) : Z := snd (civil n).

(** [t.AddDate(years, months, days)]. *)
Definition AddDate (t : time) (years months days : Z) : time :=
  let '(k, d) := civil (t / day) in
  day_number (k + 12 * years + months) (d + days) * day + t mod day.

(** ** Lemmas *)

Lemma month_start_step k : 28 ≤ month_start (k + 1) - month_start k ≤ 31.
Proof. unfold month_start, year_start. Z.div_mod_to_equations. lia. Qed.

Lemma month_length_range k : 28 ≤ month_length k ≤ 31.
Proof. apply month_start_step. Qed.

Lemma month_start_add k (n : nat) :
  28 * Z.of_nat n ≤ month_start (k + Z.of_nat n) - month_start k ≤ 31 * Z.of_nat n.
Proof.
  induction n as [|n IH]; [replace (k + Z.of_nat 0) with k by lia; lia|].
  pose proof (month_start_step (k + Z.of_nat n)).
  replace (k + Z.of_nat (S n)) with (k + Z.of_nat n + 1) by lia. lia.
Qed.

Lemma month_start_lt k j : k < j → 28 * (j - k) ≤ month_start j - month_start k.
Proof.
  intros H. pose proof (month_start_add k (Z.to_nat (j - k))) as Hn.
  replace (k + Z.of_nat (Z.to_nat (j - k))) with j in Hn by lia. lia.
Qed.

(** The calendar date of a day number is inside its month and is that day. *)
Lemma civil_spec n :
  day_number (fst (civil n)) (snd (civil n)) = n ∧
  1 ≤ snd (civil n) ≤ month_length (fst (civil n)).
Proof.
  unfold civil, day_number, month_length, month_start, year_start; simpl.
  set (z := n + 719468). replace n with (z - 719468) by (unfold z; lia). clearbody z.
  pose proof (Z.div_mod z 146097 ltac:(lia)) as Hz.
  pose proof (Z.mod_pos_bound z 146097 ltac:(lia)) as Hdoe.
  set (era := z / 146097) in *. set (doe := z mod 146097) in *. clearbody era doe. subst z.
  set (yoe := (doe - doe / 1460 + doe / 36524 - doe / 146096) / 365).
  assert (0 ≤ yoe ≤ 399) as Hyoe.
  { unfold yoe. Z.div_mod_to_equations. lia. }
  assert (0 ≤ doe - (365 * yoe + yoe / 4 - yoe / 100) ≤ 365) as Hdoy.
  { unfold yoe. Z.div_mod_to_equations. lia. }
  assert (doe < 365 * (yoe + 1) + (yoe + 1) / 4 - (yoe + 1) / 100 + (yoe + 1) / 400) as Hnext.
  { unfold yoe in *. Z.div_mod_to_equations. lia. }
  clearbody yoe.
  set (doy := doe - (365 * yoe + yoe / 4 - yoe / 100)) in *.
  set (mp := (5 * doy + 2) / 153).
  assert (0 ≤ mp ≤ 11 ∧ (153 * mp + 2) / 5 ≤ doy < (153 * (mp + 1) + 2) / 5) as [Hmp Hd].
  { unfold mp. Z.div_mod_to_equations. lia. }
  assert ((12 * (yoe + 400 * era) + mp) / 12 = yoe + 400 * era) as ->.
  { Z.div_mod_to_equations. lia. }
  assert ((12 * (yoe + 400 * era) + mp) mod 12 = mp) as ->.
  { Z.div_mod_to_equations. lia. }
  clearbody mp. split.
  { unfold doy. Z.div_mod_to_equations. lia. }
  destruct (decide (mp = 11)) as [->|].
  - replace ((12 * (yoe + 400 * era) + 11 + 1) / 12) with (yoe + 1 + 400 * era)
      by (Z.div_mod_to_equations; lia).
    replace ((12 * (yoe + 400 * era) + 11 + 1) mod 12) with 0
      by (Z.div_mod_to_equations; lia).
    change ((153 * 0 + 2) / 5) with 0. destruct Hd as [Hd _].
    split; [lia|]. clear Hd Hdoy Hmp. unfold doy. Z.div_mod_to_equations. lia.
  - replace ((12 * (yoe + 400 * era) + mp + 1) / 12) with (yoe + 400 * era)
      by (Z.div_mod_to_equations; lia).
    replace ((12 * (yoe + 400 * era) + mp + 1) mod 12) with (mp + 1)
      by (Z.div_mod_to_equations; lia).
    clearbody doy. lia.
Qed.

Lemma day_number_inj k d k' d' :
  1 ≤ d ≤ month_length k → 1 ≤ d' ≤ month_length k' →
  day_number k d = day_number k' d' → k = k' ∧ d = d'.
Proof.
  unfold day_number, month_length. intros Hd Hd' Heq.
  destruct (Z.lt_trichotomy k k') as [Hlt|[->|Hlt]]; [|lia|].
  - destruct (decide (k + 1 = k')) as [<-|]; [lia|].
    pose proof (month_start_lt (k + 1) k' ltac:(lia)). lia.
  - destruct (decide (k' + 1 = k)) as [<-|]; [lia|].
    pose proof (month_start_lt (k' + 1) k ltac:(lia)). lia.
Qed.

(** Conversely a valid calendar date is the date of its day number. *)
Lemma civil_day_number k d :
  1 ≤ d ≤ month_length k → civil (day_number k d) = (k, d).
Proof.
  intros Hd. destruct (civil_spec (day_number k d)) as [Hn Hr].
  destruct (civil (day_number k d)) as [k' d']; simpl in *.
  by destruct (day_number_inj k' d' k d Hr Hd Hn) as [-> ->].
Qed.

Lemma day_split t : t / day * day + t mod day = t.
Proof. pose proof (Z.div_mod t day ltac:(done)). lia. Qed.

Lemma tod_range t : 0 ≤ t mod day < day.
Proof. by apply Z.mod_pos_bound. Qed.

Lemma day_of_sum n t : (n * day + t mod day) / day = n.
Proof.
  pose proof (tod_range t). rewrite Z.div_add_l by done.
  rewrite (Z.div_small (t mod day)) by done. lia.
Qed.

(** Adding days is adding 24-hour days. *)
Lemma AddDate_days t d : AddDate t 0 0 d = t + d * day.
Proof.
  unfold AddDate. destruct (civil_spec (t / day)) as [Hn _].
  destruct (civil (t / day)) as [k d0]; simpl in *.
  replace (k + 12 * 0 + 0) with k by lia.
  unfold day_number in *. pose proof (day_split t). nia.
Qed.

(** Adding [m] months moves [t] by exactly the days between the first days of
    the two months: at most 31 a month, and 365 or 366 in every twelve. *)
Lemma AddDate_months_exact t m :
  AddDate t 0 m 0 =
    t + (month_start (fst (civil (t / day)) + m) - month_start (fst (civil (t / day)))) * day.
Proof.
  unfold AddDate. destruct (civil_spec (t / day)) as [Hn _].
  destruct (civil (t / day)) as [k d]; simpl in *.
  replace (k + 12 * 0 + m) with (k + m) by lia. rewrite Z.add_0_r.
  pose proof (day_split t). unfold day_number in *. nia.
Qed.

Lemma month_start_upper k m : 0 ≤ m → month_start (k + m) - month_start k ≤ 31 * m.
Proof.
  intros Hm. pose proof (month_start_add k (Z.to_nat m)) as Hn.
  rewrite Z2Nat.id in Hn by done. lia.
Qed.

Lemma year_start_step y : 365 ≤ year_start (y + 1) - year_start y ≤ 366.
Proof. unfold year_start. Z.div_mod_to_equations. lia. Qed.

Lemma month_start_year k (n : nat) :
  365 * Z.of_nat n ≤ month_start (k + 12 * Z.of_nat n) - month_start k ≤ 366 * Z.of_nat n.
Proof.
  unfold month_start.
  replace (k + 12 * Z.of_nat n) with (k + Z.of_nat n * 12) by lia.
  rewrite Z.mod_add, Z.div_add by done.
  enough (365 * Z.of_nat n ≤ year_start (k / 12 + Z.of_nat n) - year_start (k / 12)
            ≤ 366 * Z.of_nat n) by lia.
  generalize (k / 12). clear k. intros y. induction n as [|n IH].
  { replace (y + Z.of_nat 0) with y by lia. lia. }
  pose proof (year_start_step (y + Z.of_nat n)).
  replace (y + Z.of_nat (S n)) with (y + Z.of_nat n + 1) by lia. lia.
Qed.

Lemma AddDate_years t y : AddDate t y 0 0 = AddDate t 0 (12 * y) 0.
Proof.
  unfold AddDate. destruct (civil (t / day)) as [k d].
  do 2 f_equal. by replace (k + 12 * y + 0) with (k + 12 * 0 + 12 * y) by lia.
Qed.

(** A month later is the same day of the month, when that month has it ... *)
Lemma AddDate_months_same_day t m :
  Day (t / day) ≤ month_length (fst (civil (t / day)) + m) →
  civil (AddDate t 0 m 0 / day) = (fst (civil (t / day)) + m, Day (t / day)) ∧
  AddDate t 0 m 0 mod day = t mod day.
Proof.
  unfold Day, AddDate. destruct (civil_spec (t / day)) as [_ Hd].
  destruct (civil (t / day)) as [k d]; simpl in *. intros Hle.
  replace (k + 12 * 0 + m) with (k + m) by lia. rewrite Z.add_0_r.
  rewrite day_of_sum. split; [apply civil_day_number; lia|].
  rewrite Z.add_comm, Z.mod_add by done. by rewrite Z.mod_mod.
Qed.

(** ... and otherwise spills over into the month after it. *)
Lemma AddDate_months_spill t m :
  month_length (fst (civil (t / day)) + m) < Day (t / day) →
  civil (AddDate t 0 m 0 / day) =
    (fst (civil (t / day)) + m + 1,
     Day (t / day) - month_length (fst (civil (t / day)) + m)).
Proof.
  unfold Day, AddDate. destruct (civil_spec (t / day)) as [_ Hd].
  destruct (civil (t / day)) as [k d]; simpl in *. intros Hlt.
  replace (k + 12 * 0 + m) with (k + m) by lia. rewrite Z.add_0_r, day_of_sum.
  replace (day_number (k + m) d)
    with (day_number (k + m + 1) (d - month_length (k + m)))
    by (unfold day_number, month_length; lia).
  apply civil_day_number. pose proof (month_length_range k).
  pose proof (month_length_range (k + m)).
  pose proof (month_length_range (k + m + 1)). lia.
Qed.

(** The date and the length of [m] months, in one piece. *)
Lemma AddDate_months_date t m :
  let '(k, d) := civil (t / day) in
  AddDate t 0 m 0 mod day = t mod day ∧
  civil (AddDate t 0 m 0 / day) =
    (if decide (d ≤ month_length (k + m)) then (k + m, d)
     else (k + m + 1, d - month_length (k + m))).
Proof.
  pose proof (AddDate_months_same_day t m) as Hs. pose proof (AddDate_months_spill t m) as Hp.
  unfold Day in *. destruct (civil (t / day)) as [k d] eqn:Hc; simpl in *. split.
  - unfold AddDate. rewrite Hc, Z.add_comm, Z.mod_add by done. by rewrite Z.mod_mod.
  - case_decide; [by apply Hs|apply Hp; lia].
Qed.

Lemma AddDate_months_bounds t m :
  1 ≤ m → t + m * (28 * day) ≤ AddDate t 0 m 0 ≤ t + m * (31 * day).
Proof.
  intros Hm. rewrite AddDate_months_exact. set (k := fst _).
  pose proof (month_start_lt k (k + m) ltac:(lia)). pose proof (month_start_upper k m ltac:(lia)).
  assert (0 < day) by done. nia.
Qed.

Lemma AddDate_years_bounds t y :
  1 ≤ y → t + y * (365 * day) ≤ AddDate t 0 (12 * y) 0 ≤ t + y * (366 * day).
Proof.
  intros Hy. rewrite AddDate_months_exact. set (k := fst _).
  pose proof (month_start_year k (Z.to_nat y)) as Hn. rewrite Z2Nat.id in Hn by lia.
  assert (0 < day) by done. nia.
Qed.

(** ** Printing

    [time.RFC3339Nano] in UTC, as [MarshalJSON] writes it: trailing zeros of
    the fraction are dropped. *)

Fixpoint digits (width : nat) (n : Z) : string :=
  match width with
  | 0%nat => ""
  | S width => digits width (n / 10) +:+ String (ascii_of_nat (48 + Z.to_nat (n mod 10))) ""
  end.

Fixpoint trim_zeros (width : nat) (n : Z) : string :=
  match width with
  | 0%nat => ""
  | S width' => if decide (n mod 10 = 0) then trim_zeros width' (n / 10) else digits width n
  end.

Definition RFC3339_seconds (t : time) : string :=
  let n := t / day in
  let s := (t mod day) / Second in
  digits 4 (Year n) +:+ "-" +:+ digits 2 (Month n) +:+ "-" +:+ digits 2 (Day n) +:+ "T" +:+
  digits 2 (s / 3600) +:+ ":" +:+ digits 2 (s / 60 mod 60) +:+ ":" +:+ digits 2 (s mod 60).

Definition RFC3339 (t : time) : string := RFC3339_seconds t +:+ "Z".

Definition RFC3339Nano (t : time) : string :=
  let frac := trim_zeros 9 (t mod Second) in
  RFC3339_seconds t +:+ (if decide (frac = "") then "" else "." +:+ frac) +:+ "Z".

Example RFC3339Nano_example :
  RFC3339Nano (1706659261 * Second + 120000000) = "2024-01-31T00:01:01.12Z".
Proof. reflexivity. Qed.
