(* ===== verification/Pagination.v ===== *)
(** Page arithmetic: [internal/model/pagination.go], the page and page-size
    clamps the list handlers share, and [strconv.Atoi], which feeds them. *)

From S2P Require Import Prelude GoInt.

Open Scope Z_scope.

(** ** strconv.Atoi *)

Inductive scan := Syntax | Range | Digits (u : Z).

Definition uint64_max : Z := 2 ^ 64 - 1.

Definition digit_val (c : ascii) : option Z :=
  let n := Z.of_N (N_of_ascii c) in
  if decide (48 ≤ n ≤ 57) then Some (n - 48) else None.

(** [ParseUint] in base 10: the scan stops at the first character that is not
    a digit, or at the first digit that overflows 64 bits. *)
Fixpoint scan_digits (acc : Z) (s : string) : scan :=
  match s with
  | "" => Digits acc
  | String c s =>
      match digit_val c with
      | None => Syntax
      | Some d =>
          if decide (uint64_max < acc * 10 + d) then Range
          else scan_digits (acc * 10 + d) s
      end
  end.

(** The value [Atoi] returns, and whether its error is nil.  The callers here
    discard the error: a syntax error gives 0, a range error the nearest
    64-bit value. *)
Definition Atoi (s : string) : Z * bool :=
  let '(neg, body) :=
    match s with
    | String "-" r => (true, r)
    | String "+" r => (false, r)
    | _ => (false, s)
    end%char in
  if decide (body = "") then (0, false)
  else match scan_digits 0 body with
       | Syntax => (0, false)
       | Range => (if (neg : bool) then int64_min else int64_max, false)
       | Digits u =>
           if neg then if decide (2 ^ 63 < u) then (int64_min, false) else (- u, true)
           else if decide (2 ^ 63 ≤ u) then (int64_max, false) else (u, true)
       end.

(** ** model.PaginationParams and model.PaginatedResponse *)

Record PaginationParams := MkPaginationParams { Page : Z; PageSize : Z }.
#[export] Instance eta_PaginationParams : Eta PaginationParams :=
  λ p, MkPaginationParams (Page p) (PageSize p).

Definition Normalize (p : PaginationParams) : PaginationParams :=
  let p := if decide (Page p < 1) then p <| Page := 1 |> else p in
  let p := if decide (PageSize p < 1) then p <| PageSize := 20 |> else p in
  if decide (PageSize p > 100) then p <| PageSize := 100 |> else p.

Definition Offset (p : PaginationParams) : Z := mul64 (sub64 (Page p) 1) (PageSize p).

Record PaginatedResponse := MkPaginatedResponse {
  pr_Page : Z; pr_PageSize : Z; pr_Total : Z; pr_TotalPages : Z
}.

(** [None] is the division-by-zero panic for [pageSize = 0].  The [Data] field
    is carried through untouched and left out. *)
Definition NewPaginatedResponse (page pageSize total : Z) : option PaginatedResponse :=
  totalPages ← quot64 total pageSize;
  r ← rem64 total pageSize;
  let totalPages := if decide (r > 0) then add64 totalPages 1 else totalPages in
  Some (MkPaginatedResponse page pageSize total totalPages).

(** ** The clamps of the list handlers

    [page, _ := strconv.Atoi(c.DefaultQuery("page", "1"))] and so on; a query
    value that is absent takes the default.  A page size out of range becomes
    20 here, not 100 as in [Normalize]. *)
Definition query_page (q : option string) : Z :=
  let page := fst (Atoi (default "1" q)) in
  if decide (page < 1) then 1 else page.

Definition query_page_size (q : option string) : Z :=
  let pageSize := fst (Atoi (default "20" q)) in
  if decide (pageSize < 1 ∨ pageSize > 100) then 20 else pageSize.

(** The row offset of the repositories that list by merchant: the product may
    wrap, and a negative result is clamped. *)
Definition repo_offset (page pageSize : Z) : Z :=
  let offset := mul64 (sub64 page 1) pageSize in
  if decide (offset < 0) then 0 else offset.

(** ** Lemmas *)

Lemma query_page_pos q : 1 ≤ query_page q.
Proof. unfold query_page. case_decide; lia. Qed.

Lemma query_page_size_range q : 1 ≤ query_page_size q ≤ 100.
Proof. unfold query_page_size. case_decide; lia. Qed.

Lemma repo_offset_nonneg page pageSize : 0 ≤ repo_offset page pageSize.
Proof. unfold repo_offset. case_decide; lia. Qed.

Lemma scan_digits_bound s acc u :
  0 ≤ acc ≤ uint64_max → scan_digits acc s = Digits u → 0 ≤ u ≤ uint64_max.
Proof.
  revert acc. induction s as [|c s IH]; intros acc Hacc; simpl; [by intros [= <-]|].
  unfold digit_val. repeat case_decide; try done. apply IH. lia.
Qed.

Lemma Atoi_in_int64 s : in_int64 (fst (Atoi s)).
Proof.
  unfold Atoi, in_int64, int64_min, int64_max.
  destruct (match s with String "-" r => _ | String "+" r => _ | _ => _ end%char) as [neg body].
  case_decide; [done|].
  destruct (scan_digits 0 body) as [| |u] eqn:Hu; simpl; [done|destruct neg; done|].
  apply scan_digits_bound in Hu; [|done].
  destruct neg; case_decide; simpl; lia.
Qed.

Lemma query_page_in_int64 q : in_int64 (query_page q).
Proof.
  pose proof (Atoi_in_int64 (default "1" q)) as H. unfold query_page.
  unfold in_int64, int64_min, int64_max in *. case_decide; lia.
Qed.

(** No wrap-around up to page 2^56, for any page size the clamps let through. *)
Lemma repo_offset_exact page pageSize :
  1 ≤ page ≤ 2 ^ 56 → 1 ≤ pageSize ≤ 100 →
  repo_offset page pageSize = (page - 1) * pageSize.
Proof.
  intros Hp Hs. unfold repo_offset, mul64, sub64.
  rewrite (wrap64_id (page - 1)) by (unfold in_int64, int64_min, int64_max; lia).
  rewrite wrap64_id by (unfold in_int64, int64_min, int64_max; nia).
  case_decide; nia.
Qed.

#[export] Hint Resolve query_page_pos query_page_size_range repo_offset_nonneg : helix.

(** ** Properties *)

(** [Normalize] returns a page of at least 1 and a page size between 1 and
    100, leaves a request already in range alone, and so is idempotent. *)
Theorem Normalize_spec p :
  1 ≤ Page (Normalize p) ∧ 1 ≤ PageSize (Normalize p) ≤ 100 ∧
  (1 ≤ Page p → 1 ≤ PageSize p ≤ 100 → Normalize p = p) ∧
  Normalize (Normalize p) = Normalize p.
Proof.
  destruct p as [pg sz]. unfold Normalize; simpl.
  repeat (case_decide; simpl in *; try lia); split_and!; (lia || (intros; f_equal; lia) || done).
Qed.

(** For a page size that [Normalize] can produce, [TotalPages] is the
    ceiling of [Total / PageSize]: it is the least number of pages that hold
    every row, and 0 when there is none. *)
Theorem NewPaginatedResponse_ceiling page pageSize total :
  1 ≤ pageSize ≤ 100 → 0 ≤ total < 2 ^ 63 →
  ∃ r, NewPaginatedResponse page pageSize total = Some r ∧
       pr_Total r = total ∧
       total ≤ pr_TotalPages r * pageSize < total + pageSize.
Proof.
  intros Hs Ht. unfold NewPaginatedResponse.
  rewrite quot64_Some, rem64_Some by lia. simpl.
  pose proof (Z.quot_rem' total pageSize) as Hqr.
  pose proof (Z.rem_bound_pos total pageSize ltac:(lia) ltac:(lia)).
  assert (0 ≤ Z.quot total pageSize ≤ total).
  { split; [apply Z.quot_pos; lia|]. apply Z.quot_le_upper_bound; nia. }
  rewrite wrap64_id by (unfold in_int64, int64_min, int64_max; lia).
  eexists; split; [reflexivity|]. simpl. split; [done|]. case_decide.
  - unfold add64. rewrite wrap64_id; [nia|].
    unfold in_int64, int64_min, int64_max.
    destruct (decide (pageSize = 1)) as [->|]; [rewrite Z.rem_1_r in *; lia|nia].
  - nia.
Qed.

Lemma NewPaginatedResponse_ceiling_witness :
  ∃ r, NewPaginatedResponse 1 20 41 = Some r ∧ pr_Total r = 41 ∧
       41 ≤ pr_TotalPages r * 20 < 41 + 20.
Proof. apply (NewPaginatedResponse_ceiling 1 20 41); lia. Defined.
