(* ===== verification/TimeParse.v ===== *)
(** [time.Parse] of Go's [time] package for the layouts the handlers use. *)

From S2P Require Import Prelude GoInt GoTime Pagination.

Open Scope Z_scope.

(** ** [time.Parse(time.RFC3339, s)]

    The general parser of the [time] package: a one-digit hour and a comma
    before the fraction are accepted too. *)
Section parser.
(** A reader consumes the front of a string. *)
Definition reader (A : Type) : Type := string → option (A * string).

Definition read_digit : reader Z := λ s,
  match s with String c s => d ← digit_val c; Some (d, s) | "" => None end.

Fixpoint read_digits (n : nat) (acc : Z) : reader Z := λ s,
  match n with
  | O => Some (acc, s)
  | S n => '(d, s) ← read_digit s; read_digits n (acc * 10 + d) s
  end.

(** [getnum(value, false)]: one digit or two. *)
Definition read_one_or_two : reader Z := λ s,
  match read_digits 2 0 s with Some r => Some r | None => read_digit s end.

Definition read_char (c : ascii) : reader unit := λ s,
  match s with String c' s => if decide (c = c') then Some ((), s) else None | "" => None end.

(** All the digits at the front, of which the first nine count. *)
Fixpoint read_fraction (room : nat) (acc : Z) (s : string) : Z * string :=
  match s with
  | "" => (acc * 10 ^ Z.of_nat room, "")
  | String c s' =>
      match digit_val c with
      | None => (acc * 10 ^ Z.of_nat room, s)
      | Some d =>
          match room with
          | O => read_fraction O acc s'
          | S room => read_fraction room (acc * 10 + d) s'
          end
      end
  end.

Definition read_nanoseconds : reader Z := λ s,
  match s with
  | String c (String d _ as rest) =>
      if decide ((c = "." ∨ c = ",")%char ∧ digit_val d ≠ None)
      then Some (read_fraction 9 0 rest) else Some (0, s)
  | _ => Some (0, s)
  end.

(** The offset in seconds: [Z] or a sign with hours and minutes. *)
Definition read_zone : reader Z := λ s,
  match s with
  | String "Z"%char s => Some (0, s)
  | String c s =>
      sign ← (if decide (c = "+")%char then Some 1
              else if decide (c = "-")%char then Some (-1) else None);
      '(hr, s) ← read_digits 2 0 s;
      '(_, s) ← read_char ":" s;
      '(mm, s) ← read_digits 2 0 s;
      if decide (hr ≤ 24 ∧ mm ≤ 60) then Some (sign * (hr * 3600 + mm * 60), s) else None
  | "" => None
  end.

(** Months are counted from March of the year 0: [GoTime.day_number]. *)
Definition month_index (year month : Z) : Z := 12 * year + month - 3.

Definition time_Parse_RFC3339 (s : string) : option time :=
  '(year, s) ← read_digits 4 0 s;
  '(_, s) ← read_char "-" s;
  '(month, s) ← read_digits 2 0 s;
  '(_, s) ← read_char "-" s;
  '(dy, s) ← read_digits 2 0 s;
  '(_, s) ← read_char "T" s;
  '(hour, s) ← read_one_or_two s;
  '(_, s) ← read_char ":" s;
  '(min, s) ← read_digits 2 0 s;
  '(_, s) ← read_char ":" s;
  '(sec, s) ← read_digits 2 0 s;
  '(nsec, s) ← read_nanoseconds s;
  '(zone, s) ← read_zone s;
  let k := month_index year month in
  if decide (s = "" ∧ 1 ≤ month ≤ 12 ∧ 1 ≤ dy ≤ month_length k ∧
             hour < 24 ∧ min < 60 ∧ sec < 60)
  then Some (day_number k dy * day +
             (hour * 3600 + min * 60 + sec - zone) * Second + nsec)
  else None.
End parser.

Example parse_example :
  time_Parse_RFC3339 "2024-01-31T01:02:03.5+01:00" = Some (1706659200 * Second + 123500000000).
Proof. reflexivity. Qed.

Example parse_leap : time_Parse_RFC3339 "2023-02-29T00:00:00Z" = None.
Proof. reflexivity. Qed.

(** The layout [2006-01-02]: printing, and parsing, where a text of any other
    shape is an error. *)
Definition FormatDate (t : time) : string :=
  let n := t / day in
  digits 4 (Year n) +:+ "-" +:+ digits 2 (Month n) +:+ "-" +:+ digits 2 (Day n).

Definition time_Parse_Date (s : string) : option time :=
  '(year, s) ← read_digits 4 0 s;
  '(_, s) ← read_char "-" s;
  '(month, s) ← read_digits 2 0 s;
  '(_, s) ← read_char "-" s;
  '(dy, s) ← read_digits 2 0 s;
  let k := month_index year month in
  if decide (s = "" ∧ 1 ≤ month ≤ 12 ∧ 1 ≤ dy ≤ month_length k)
  then Some (day_number k dy * day) else None.

Example parse_date : time_Parse_Date (FormatDate (1706659261 * Second)) = Some (1706659200 * Second).
Proof. reflexivity. Qed.

(** ** Reading what was printed *)

Lemma digit_val_digit d :
  0 ≤ d < 10 → digit_val (ascii_of_nat (48 + Z.to_nat d)) = Some d.
Proof.
  intros Hd. assert (d ∈ [0; 1; 2; 3; 4; 5; 6; 7; 8; 9]) as Hin by set_solver by lia.
  repeat (apply elem_of_cons in Hin as [->|Hin]; [reflexivity|]). by apply not_elem_of_nil in Hin.
Qed.

Lemma read_digit_digit d rest :
  0 ≤ d < 10 → read_digit (String (ascii_of_nat (48 + Z.to_nat d)) rest) = Some (d, rest).
Proof. intros Hd. unfold read_digit. by rewrite digit_val_digit. Qed.

Lemma read_digits_snoc n acc s :
  read_digits (S n) acc s =
  ('(a, s) ← read_digits n acc s; '(d, s) ← read_digit s; Some (a * 10 + d, s)).
Proof.
  revert acc s. induction n as [|n IH]; intros acc s; [by simpl; destruct (read_digit s) as [[]|]|].
  change (read_digits (S (S n)) acc s) with ('(d, s) ← read_digit s; read_digits (S n) (acc * 10 + d) s).
  simpl (read_digits (S n) acc s). destruct (read_digit s) as [[d s']|]; [|done]. simpl. apply IH.
Qed.

Lemma read_digits_digits n v acc rest :
  0 ≤ v < 10 ^ Z.of_nat n →
  read_digits n acc (digits n v +:+ rest) = Some (acc * 10 ^ Z.of_nat n + v, rest).
Proof.
  revert v rest. induction n as [|n IH]; intros v rest Hv; [simpl in *; do 2 f_equal; lia|].
  rewrite read_digits_snoc. cbn [digits]. rewrite append_snoc.
  rewrite Nat2Z.inj_succ, Z.pow_succ_r in * by lia.
  pose proof (Z.mod_pos_bound v 10 ltac:(lia)). pose proof (Z.div_mod v 10 ltac:(lia)).
  rewrite IH by (split; [apply Z.div_pos; lia|apply Z.div_lt_upper_bound; lia]).
  unfold mbind, option_bind. rewrite read_digit_digit by done. do 2 f_equal. lia.
Qed.

Lemma read_fraction_digits room n v acc rest :
  0 ≤ v < 10 ^ Z.of_nat n → (n ≤ room)%nat →
  read_fraction room acc (digits n v +:+ rest) =
  read_fraction (room - n) (acc * 10 ^ Z.of_nat n + v) rest.
Proof.
  revert v rest. induction n as [|n IH]; intros v rest Hv Hroom.
  { simpl in *. f_equal; lia. }
  cbn [digits]. rewrite append_snoc.
  rewrite Nat2Z.inj_succ, Z.pow_succ_r in * by lia.
  pose proof (Z.mod_pos_bound v 10 ltac:(lia)). pose proof (Z.div_mod v 10 ltac:(lia)).
  rewrite IH by first [lia|split; [apply Z.div_pos; lia|apply Z.div_lt_upper_bound; lia]].
  replace (room - n)%nat with (S (room - S n)) by lia. cbn [read_fraction].
  rewrite digit_val_digit by done. f_equal. lia.
Qed.

(** What is printed of a fraction: its digits up to the last that is not 0. *)
Lemma trim_zeros_spec w n :
  0 ≤ n < 10 ^ Z.of_nat w →
  ∃ k v, (k ≤ w)%nat ∧ trim_zeros w n = digits k v ∧ 0 ≤ v < 10 ^ Z.of_nat k ∧
    n = v * 10 ^ Z.of_nat (w - k).
Proof.
  revert n. induction w as [|w IH]; intros n Hn; [exists 0%nat, 0; simpl in *; split_and!; lia || done|].
  rewrite Nat2Z.inj_succ, Z.pow_succ_r in Hn by lia. cbn [trim_zeros]. case_decide as Hz.
  - pose proof (Z.div_mod n 10 ltac:(lia)).
    destruct (IH (n / 10)) as (k & v & Hk & Hd & Hv & Heq).
    { split; [apply Z.div_pos; lia|apply Z.div_lt_upper_bound; lia]. }
    exists k, v. split; [lia|]. split; [done|]. split; [done|].
    replace (S w - k)%nat with (S (w - k)) by lia.
    rewrite Nat2Z.inj_succ, Z.pow_succ_r by lia. lia.
  - exists (S w), n. rewrite Nat.sub_diag, Nat2Z.inj_succ, Z.pow_succ_r by lia.
    split_and!; done || lia.
Qed.

Lemma read_nanoseconds_printed n :
  0 ≤ n < Second →
  read_nanoseconds ((if decide (trim_zeros 9 n = "") then "" else "." +:+ trim_zeros 9 n) +:+ "Z")
  = Some (n, "Z").
Proof.
  intros Hn. destruct (trim_zeros_spec 9 n) as (k & v & Hk & -> & Hv & Heq); [done|].
  destruct k as [|k].
  { rewrite decide_True by done. simpl in *. do 2 f_equal. lia. }
  assert (digits (S k) v ≠ "") as Hne by (cbn [digits]; by destruct (digits k (v / 10))).
  rewrite decide_False by done. rewrite append_assoc.
  pose proof (read_fraction_digits 9 (S k) v 0 "Z" Hv Hk) as Hread.
  pose proof (read_digits_digits (S k) v 0 "Z" Hv) as Hdigits.
  destruct (digits (S k) v +:+ "Z") as [|d s] eqn:Hs; [done|].
  change ("." +:+ String d s) with (String "." (String d s)). unfold read_nanoseconds.
  rewrite decide_True.
  - rewrite Hread. cbn [read_fraction]. change (digit_val "Z") with (@None Z). cbv beta iota.
    do 2 f_equal. by rewrite Heq.
  - split; [by left|]. intros Hd. cbn [read_digits] in Hdigits. unfold read_digit in Hdigits.
    by rewrite Hd in Hdigits.
Qed.

Lemma month_index_civil n : month_index (Year n) (Month n) = fst (civil n).
Proof.
  unfold month_index, Year, Month. pose proof (Z.div_mod (fst (civil n) + 2) 12 ltac:(lia)). lia.
Qed.

Lemma read_char_cons c s : read_char c (String c s) = Some ((), s).
Proof. unfold read_char. by rewrite decide_True. Qed.

Lemma read_lit {B} c rest (k : unit * string → option B) :
  (match read_char c (String c "" +:+ rest) with Some p => k p | None => None end) = k ((), rest).
Proof. by rewrite append_cons, append_nil_l, read_char_cons. Qed.

Lemma read_two v rest : 0 ≤ v < 100 → read_digits 2 0 (digits 2 v +:+ rest) = Some (v, rest).
Proof. intros Hv. by rewrite read_digits_digits. Qed.
Lemma read_four v rest : 0 ≤ v < 10000 → read_digits 4 0 (digits 4 v +:+ rest) = Some (v, rest).
Proof. intros Hv. by rewrite read_digits_digits. Qed.

(** A time of the years 0 to 9999 is read back from its text. *)
Lemma RFC3339Nano_Parse t :
  0 ≤ Year (t / day) ≤ 9999 → time_Parse_RFC3339 (RFC3339Nano t) = Some t.
Proof.
  intros Hyear. unfold RFC3339Nano, RFC3339_seconds.
  pose proof (tod_range t) as Htod. pose proof (day_split t) as Hsplit.
  set (n := t / day) in *. set (s := t mod day / Second).
  assert (0 ≤ s < 86400) as Hs.
  { unfold s. change day with (86400 * Second) in *. unfold Second in *.
    split; [apply Z.div_pos; lia|apply Z.div_lt_upper_bound; lia]. }
  assert (t = n * day + s * Second + t mod Second) as Ht.
  { unfold s. change day with (86400 * Second) in *. unfold Second in *.
    rewrite <- Hsplit at 1. Z.div_mod_to_equations. lia. }
  destruct (civil_spec n) as [Hdn Hday].
  assert (1 ≤ Month n ≤ 12) as Hmonth.
  { unfold Month. pose proof (Z.mod_pos_bound (fst (civil n) + 2) 12 ltac:(lia)). lia. }
  pose proof (month_length_range (fst (civil n))) as Hlen.
  assert (0 ≤ s / 3600 < 24 ∧ 0 ≤ s / 60 mod 60 < 60 ∧ 0 ≤ s mod 60 < 60 ∧
          s = s / 3600 * 3600 + s / 60 mod 60 * 60 + s mod 60) as (Hh & Hm & Hsec & Hclock).
  { clear -Hs. Z.div_mod_to_equations. lia. }
  clearbody n s. clear Hs Htod Hsplit.
  set (hh := s / 3600) in *. set (mm := s / 60 mod 60) in *. set (ss := s mod 60) in *.
  clearbody hh mm ss. subst s. replace (Some t) with (Some (n * day + (hh * 3600 + mm * 60 + ss) * Second + t mod Second))
    by (by rewrite <- Ht).
  assert (0 ≤ t mod Second < Second) as Hfrac by (by apply Z.mod_pos_bound).
  set (frac := t mod Second) in *. clearbody frac. clear Ht.
  unfold time_Parse_RFC3339, mbind, option_bind, read_one_or_two, Day in *.
  rewrite !append_assoc.
  rewrite read_four by lia. cbv beta iota.
  do 5 (rewrite ?read_lit; rewrite read_two by lia; cbv beta iota).
  rewrite read_nanoseconds_printed by done. cbv zeta.
  change (read_zone "Z") with (Some (0, "")). cbv beta iota.
  rewrite month_index_civil, decide_True by (split_and!; done || lia).
  rewrite Hdn. f_equal. lia.
Qed.
