(* ===== verification/Model.v ===== *)
(** The domain model: the structs and the constants of [internal/model].

    A Go [type X string] is a string here too: handlers store request strings
    in them unchecked.  A [*T] is an [option], a [json.RawMessage] an optional
    text ([None] is the nil slice), a [uuid.UUID] a natural number below 2^128
    with [uuid.Nil] = 0.  Field names carry a prefix per struct. *)

From S2P Require Import Prelude GoInt GoTime.

Open Scope Z_scope.

Abbreviation uuid := N (only parsing).
Definition uuid_Nil : uuid := 0%N.

Definition RawMessage : Type := option string.

Definition TransactionType : Type := string.
Definition TransactionTypeCharge : TransactionType := "charge".
Definition TransactionTypeRefund : TransactionType := "refund".
Definition TransactionTypePayout : TransactionType := "payout".

Definition TransactionStatus : Type := string.
Definition TransactionStatusPending : TransactionStatus := "pending".
Definition TransactionStatusProcessing : TransactionStatus := "processing".
Definition TransactionStatusSucceeded : TransactionStatus := "succeeded".
Definition TransactionStatusFailed : TransactionStatus := "failed".
Definition TransactionStatusCancelled : TransactionStatus := "cancelled".
Definition TransactionStatusReversed : TransactionStatus := "reversed".

Record Transaction := MkTransaction {
  tx_ID : uuid; tx_MerchantID : uuid; tx_CustomerID : uuid;
  tx_Provider : string; tx_ProviderTransactionID : string;
  tx_Type : TransactionType; tx_Amount : Z; tx_Currency : string;
  tx_Status : TransactionStatus; tx_PaymentMethodID : uuid;
  tx_IdempotencyKey : option string; tx_Description : option string;
  tx_Metadata : RawMessage; tx_ErrorCode : option string;
  tx_ErrorMessage : option string; tx_FeeAmount : Z; tx_NetAmount : option Z;
  tx_ProcessedAt : option time; tx_CreatedAt : time; tx_UpdatedAt : time
}.
#[export] Instance eta_Transaction : Eta Transaction := λ r,
  MkTransaction (tx_ID r) (tx_MerchantID r) (tx_CustomerID r) (tx_Provider r)
  (tx_ProviderTransactionID r) (tx_Type r) (tx_Amount r) (tx_Currency r)
  (tx_Status r) (tx_PaymentMethodID r) (tx_IdempotencyKey r)
  (tx_Description r) (tx_Metadata r) (tx_ErrorCode r) (tx_ErrorMessage r)
  (tx_FeeAmount r) (tx_NetAmount r) (tx_ProcessedAt r) (tx_CreatedAt r)
  (tx_UpdatedAt r).

Definition PaymentMethodType : Type := string.
Definition PaymentMethodTypeCard : PaymentMethodType := "card".
Definition PaymentMethodTypeBankAccount : PaymentMethodType := "bank_account".
Definition PaymentMethodTypeWallet : PaymentMethodType := "wallet".

Record PaymentMethod := MkPaymentMethod {
  pm_ID : uuid; pm_MerchantID : uuid; pm_CustomerID : uuid;
  pm_Type : PaymentMethodType; pm_Provider : string;
  pm_ProviderToken : string; pm_Fingerprint : string; pm_Brand : string;
  pm_Last4 : string; pm_ExpMonth : Z; pm_ExpYear : Z; pm_IsDefault : bool;
  pm_Metadata : RawMessage; pm_CreatedAt : time; pm_UpdatedAt : time
}.
#[export] Instance eta_PaymentMethod : Eta PaymentMethod := λ r,
  MkPaymentMethod (pm_ID r) (pm_MerchantID r) (pm_CustomerID r) (pm_Type r)
  (pm_Provider r) (pm_ProviderToken r) (pm_Fingerprint r) (pm_Brand r)
  (pm_Last4 r) (pm_ExpMonth r) (pm_ExpYear r) (pm_IsDefault r)
  (pm_Metadata r) (pm_CreatedAt r) (pm_UpdatedAt r).

Definition SubscriptionStatus : Type := string.
Definition SubscriptionStatusActive : SubscriptionStatus := "active".
Definition SubscriptionStatusPastDue : SubscriptionStatus := "past_due".
Definition SubscriptionStatusCancelled : SubscriptionStatus := "cancelled".
Definition SubscriptionStatusUnpaid : SubscriptionStatus := "unpaid".
Definition SubscriptionStatusTrialing : SubscriptionStatus := "trialing".

Definition SubscriptionInterval : Type := string.
Definition SubscriptionIntervalDay : SubscriptionInterval := "day".
Definition SubscriptionIntervalWeek : SubscriptionInterval := "week".
Definition SubscriptionIntervalMonth : SubscriptionInterval := "month".
Definition SubscriptionIntervalYear : SubscriptionInterval := "year".

Record Subscription := MkSubscription {
  sub_ID : uuid; sub_MerchantID : uuid; sub_CustomerID : uuid;
  sub_Provider : string; sub_ProviderSubscriptionID : string;
  sub_PlanID : string; sub_Status : SubscriptionStatus; sub_Amount : Z;
  sub_Currency : string; sub_Interval : SubscriptionInterval;
  sub_IntervalCount : Z; sub_CurrentPeriodStart : time;
  sub_CurrentPeriodEnd : time; sub_CancelAt : option time;
  sub_CancelledAt : option time; sub_TrialStart : option time;
  sub_TrialEnd : option time; sub_Metadata : RawMessage;
  sub_CreatedAt : time; sub_UpdatedAt : time
}.
#[export] Instance eta_Subscription : Eta Subscription := λ r,
  MkSubscription (sub_ID r) (sub_MerchantID r) (sub_CustomerID r)
  (sub_Provider r) (sub_ProviderSubscriptionID r) (sub_PlanID r)
  (sub_Status r) (sub_Amount r) (sub_Currency r) (sub_Interval r)
  (sub_IntervalCount r) (sub_CurrentPeriodStart r) (sub_CurrentPeriodEnd r)
  (sub_CancelAt r) (sub_CancelledAt r) (sub_TrialStart r) (sub_TrialEnd r)
  (sub_Metadata r) (sub_CreatedAt r) (sub_UpdatedAt r).

Definition InvoiceStatus : Type := string.
Definition InvoiceStatusDraft : InvoiceStatus := "draft".
Definition InvoiceStatusOpen : InvoiceStatus := "open".
Definition InvoiceStatusPaid : InvoiceStatus := "paid".
Definition InvoiceStatusVoid : InvoiceStatus := "void".
Definition InvoiceStatusUncollectible : InvoiceStatus := "uncollectible".

Record Invoice := MkInvoice {
  inv_ID : uuid; inv_MerchantID : uuid; inv_CustomerID : uuid;
  inv_SubscriptionID : option uuid; inv_Provider : string;
  inv_ProviderInvoiceID : string; inv_Amount : Z; inv_Currency : string;
  inv_Status : InvoiceStatus; inv_DueDate : time; inv_PaidAt : option time;
  inv_PeriodStart : time; inv_PeriodEnd : time; inv_Metadata : RawMessage;
  inv_CreatedAt : time; inv_UpdatedAt : time
}.
#[export] Instance eta_Invoice : Eta Invoice := λ r,
  MkInvoice (inv_ID r) (inv_MerchantID r) (inv_CustomerID r)
  (inv_SubscriptionID r) (inv_Provider r) (inv_ProviderInvoiceID r)
  (inv_Amount r) (inv_Currency r) (inv_Status r) (inv_DueDate r)
  (inv_PaidAt r) (inv_PeriodStart r) (inv_PeriodEnd r) (inv_Metadata r)
  (inv_CreatedAt r) (inv_UpdatedAt r).

Definition PayoutStatus : Type := string.
Definition PayoutStatusPending : PayoutStatus := "pending".
Definition PayoutStatusInTransit : PayoutStatus := "in_transit".
Definition PayoutStatusPaid : PayoutStatus := "paid".
Definition PayoutStatusFailed : PayoutStatus := "failed".
Definition PayoutStatusCancelled : PayoutStatus := "cancelled".

Definition PayoutMethod : Type := string.
Definition PayoutMethodStandard : PayoutMethod := "standard".
Definition PayoutMethodInstant : PayoutMethod := "instant".

Record Payout := MkPayout {
  po_ID : uuid; po_MerchantID : uuid; po_Provider : string;
  po_ProviderPayoutID : string; po_Amount : Z; po_Currency : string;
  po_Status : PayoutStatus; po_Method : PayoutMethod;
  po_ArrivalDate : option time; po_FeeAmount : Z; po_Metadata : RawMessage;
  po_CreatedAt : time; po_UpdatedAt : time
}.
#[export] Instance eta_Payout : Eta Payout := λ r,
  MkPayout (po_ID r) (po_MerchantID r) (po_Provider r)
  (po_ProviderPayoutID r) (po_Amount r) (po_Currency r) (po_Status r)
  (po_Method r) (po_ArrivalDate r) (po_FeeAmount r) (po_Metadata r)
  (po_CreatedAt r) (po_UpdatedAt r).

Definition DisputeStatus : Type := string.
Definition DisputeStatusWarningNeedsResponse : DisputeStatus := "warning_needs_response".
Definition DisputeStatusUnderReview : DisputeStatus := "under_review".
Definition DisputeStatusLost : DisputeStatus := "lost".
Definition DisputeStatusWon : DisputeStatus := "won".
Definition DisputeStatusClosed : DisputeStatus := "closed".

Record Dispute := MkDispute {
  dp_ID : uuid; dp_TransactionID : uuid; dp_MerchantID : uuid;
  dp_Provider : string; dp_ProviderDisputeID : string; dp_Reason : string;
  dp_Status : DisputeStatus; dp_Amount : Z;
  dp_EvidenceDeadline : option time; dp_EvidenceSubmittedAt : option time;
  dp_Resolution : string; dp_Evidence : RawMessage; dp_Metadata : RawMessage;
  dp_CreatedAt : time; dp_UpdatedAt : time
}.
#[export] Instance eta_Dispute : Eta Dispute := λ r,
  MkDispute (dp_ID r) (dp_TransactionID r) (dp_MerchantID r) (dp_Provider r)
  (dp_ProviderDisputeID r) (dp_Reason r) (dp_Status r) (dp_Amount r)
  (dp_EvidenceDeadline r) (dp_EvidenceSubmittedAt r) (dp_Resolution r)
  (dp_Evidence r) (dp_Metadata r) (dp_CreatedAt r) (dp_UpdatedAt r).

Definition ProductStatus : Type := string.
Definition ProductStatusActive : ProductStatus := "active".
Definition ProductStatusInactive : ProductStatus := "inactive".
Definition ProductStatusArchived : ProductStatus := "archived".

Record Product := MkProduct {
  pd_ID : string; pd_MerchantID : string; pd_Name : string;
  pd_Description : string; pd_Price : Z; pd_Currency : string;
  pd_Status : ProductStatus; pd_Metadata : RawMessage; pd_CreatedAt : time;
  pd_UpdatedAt : time; pd_DeletedAt : option time
}.
#[export] Instance eta_Product : Eta Product := λ r,
  MkProduct (pd_ID r) (pd_MerchantID r) (pd_Name r) (pd_Description r)
  (pd_Price r) (pd_Currency r) (pd_Status r) (pd_Metadata r) (pd_CreatedAt r)
  (pd_UpdatedAt r) (pd_DeletedAt r).

Definition MerchantStatus : Type := string.
Definition MerchantStatusActive : MerchantStatus := "active".
Definition MerchantStatusSuspended : MerchantStatus := "suspended".
Definition MerchantStatusPendingVerification : MerchantStatus := "pending_verification".
Definition MerchantStatusPending : MerchantStatus := "pending".

Definition KycStatus : Type := string.
Definition KycStatusPending : KycStatus := "pending".
Definition KycStatusVerified : KycStatus := "verified".
Definition KycStatusRejected : KycStatus := "rejected".
Definition KycStatusInProgress : KycStatus := "in_progress".

Record Merchant := MkMerchant {
  me_ID : uuid; me_LegalName : string; me_TradeName : string;
  me_Name : string; me_Email : string; me_Phone : string;
  me_Country : string; me_Currency : string; me_Slug : string;
  me_Status : MerchantStatus; me_KycStatus : KycStatus; me_Timezone : string;
  me_Branding : RawMessage; me_Settings : RawMessage; me_CreatedAt : time;
  me_UpdatedAt : time; me_DeletedAt : option time
}.
#[export] Instance eta_Merchant : Eta Merchant := λ r,
  MkMerchant (me_ID r) (me_LegalName r) (me_TradeName r) (me_Name r)
  (me_Email r) (me_Phone r) (me_Country r) (me_Currency r) (me_Slug r)
  (me_Status r) (me_KycStatus r) (me_Timezone r) (me_Branding r)
  (me_Settings r) (me_CreatedAt r) (me_UpdatedAt r) (me_DeletedAt r).

Record Customer := MkCustomer {
  cu_ID : uuid; cu_MerchantID : uuid; cu_ExternalID : string;
  cu_Name : string; cu_Email : string; cu_Phone : string;
  cu_Metadata : RawMessage; cu_CreatedAt : time; cu_UpdatedAt : time;
  cu_DeletedAt : option time
}.
#[export] Instance eta_Customer : Eta Customer := λ r,
  MkCustomer (cu_ID r) (cu_MerchantID r) (cu_ExternalID r) (cu_Name r)
  (cu_Email r) (cu_Phone r) (cu_Metadata r) (cu_CreatedAt r) (cu_UpdatedAt r)
  (cu_DeletedAt r).

Definition UserRole : Type := string.
Definition RoleRootAdmin : UserRole := "root_admin".
Definition RoleAccountAdmin : UserRole := "account_admin".
Definition RoleUser : UserRole := "user".

Record User := MkUser {
  us_ID : uuid; us_Email : string; us_PasswordHash : string;
  us_Name : string; us_Role : UserRole; us_MerchantID : uuid;
  us_IsActive : bool; us_MfaEnabled : bool; us_MfaSecret : option string;
  us_CreatedAt : time; us_UpdatedAt : time
}.
#[export] Instance eta_User : Eta User := λ r,
  MkUser (us_ID r) (us_Email r) (us_PasswordHash r) (us_Name r) (us_Role r)
  (us_MerchantID r) (us_IsActive r) (us_MfaEnabled r) (us_MfaSecret r)
  (us_CreatedAt r) (us_UpdatedAt r).

Record ApiKey := MkApiKey {
  ak_ID : uuid; ak_MerchantID : uuid; ak_UserID : uuid; ak_Name : string;
  ak_KeyPrefix : string; ak_KeyHash : string; ak_Scopes : option (list string);
  ak_RateLimit : Z; ak_IsActive : bool; ak_ExpiresAt : option time;
  ak_CreatedAt : time; ak_LastUsedAt : option time
}.
#[export] Instance eta_ApiKey : Eta ApiKey := λ r,
  MkApiKey (ak_ID r) (ak_MerchantID r) (ak_UserID r) (ak_Name r)
  (ak_KeyPrefix r) (ak_KeyHash r) (ak_Scopes r) (ak_RateLimit r)
  (ak_IsActive r) (ak_ExpiresAt r) (ak_CreatedAt r) (ak_LastUsedAt r).

Record WebhookConfig := MkWebhookConfig {
  wc_ID : uuid; wc_MerchantID : uuid; wc_URL : string; wc_Secret : string;
  wc_Events : list string; wc_IsActive : bool; wc_Metadata : RawMessage;
  wc_CreatedAt : time; wc_UpdatedAt : time
}.
#[export] Instance eta_WebhookConfig : Eta WebhookConfig := λ r,
  MkWebhookConfig (wc_ID r) (wc_MerchantID r) (wc_URL r) (wc_Secret r)
  (wc_Events r) (wc_IsActive r) (wc_Metadata r) (wc_CreatedAt r)
  (wc_UpdatedAt r).

Definition WebhookDeliveryStatus : Type := string.
Definition WebhookDeliveryPending : WebhookDeliveryStatus := "pending".
Definition WebhookDeliveryDelivered : WebhookDeliveryStatus := "delivered".
Definition WebhookDeliveryFailed : WebhookDeliveryStatus := "failed".
Definition WebhookDeliveryRetrying : WebhookDeliveryStatus := "retrying".

Record WebhookDelivery := MkWebhookDelivery {
  wd_ID : uuid; wd_WebhookID : uuid; wd_MerchantID : uuid;
  wd_EventType : string; wd_EventPayload : string;
  wd_Status : WebhookDeliveryStatus; wd_Attempts : Z; wd_MaxAttempts : Z;
  wd_ResponseCode : Z; wd_ResponseBody : string; wd_LastError : string;
  wd_CompletedAt : option time; wd_CreatedAt : time; wd_UpdatedAt : time
}.
#[export] Instance eta_WebhookDelivery : Eta WebhookDelivery := λ r,
  MkWebhookDelivery (wd_ID r) (wd_WebhookID r) (wd_MerchantID r)
  (wd_EventType r) (wd_EventPayload r) (wd_Status r) (wd_Attempts r)
  (wd_MaxAttempts r) (wd_ResponseCode r) (wd_ResponseBody r) (wd_LastError r)
  (wd_CompletedAt r) (wd_CreatedAt r) (wd_UpdatedAt r).

Definition HealthStatus : Type := string.
Definition HealthStatusHealthy : HealthStatus := "healthy".
Definition HealthStatusDegraded : HealthStatus := "degraded".
Definition HealthStatusUnhealthy : HealthStatus := "unhealthy".

Record ProviderConfig := MkProviderConfig {
  pc_ID : uuid; pc_MerchantID : uuid; pc_Provider : string;
  pc_IsActive : bool; pc_Config : RawMessage; pc_FallbackOrder : Z;
  pc_HealthStatus : HealthStatus; pc_LastHealthCheck : option time;
  pc_Metadata : RawMessage; pc_CreatedAt : time; pc_UpdatedAt : time
}.
#[export] Instance eta_ProviderConfig : Eta ProviderConfig := λ r,
  MkProviderConfig (pc_ID r) (pc_MerchantID r) (pc_Provider r)
  (pc_IsActive r) (pc_Config r) (pc_FallbackOrder r) (pc_HealthStatus r)
  (pc_LastHealthCheck r) (pc_Metadata r) (pc_CreatedAt r) (pc_UpdatedAt r).

Definition ActorType : Type := string.
Definition ActorTypeRootAdmin : ActorType := "root_admin".
Definition ActorTypeAccountAdmin : ActorType := "account_admin".
Definition ActorTypeUser : ActorType := "user".
Definition ActorTypeSystem : ActorType := "system".
Definition ActorTypeAPIKey : ActorType := "api_key".

Record AuditLog := MkAuditLog {
  al_ID : uuid; al_MerchantID : uuid; al_ActorID : uuid;
  al_ActorType : ActorType; al_Action : string; al_ResourceType : string;
  al_ResourceID : string; al_Changes : RawMessage; al_IPAddress : string;
  al_UserAgent : string; al_CreatedAt : time
}.
#[export] Instance eta_AuditLog : Eta AuditLog := λ r,
  MkAuditLog (al_ID r) (al_MerchantID r) (al_ActorID r) (al_ActorType r)
  (al_Action r) (al_ResourceType r) (al_ResourceID r) (al_Changes r)
  (al_IPAddress r) (al_UserAgent r) (al_CreatedAt r).

Definition TaskStatus : Type := string.
Definition TaskStatusPending : TaskStatus := "pending".
Definition TaskStatusRunning : TaskStatus := "running".
Definition TaskStatusCompleted : TaskStatus := "completed".
Definition TaskStatusFailed : TaskStatus := "failed".
Definition TaskStatusDead : TaskStatus := "dead".

Record BackgroundTask := MkBackgroundTask {
  bt_ID : uuid; bt_Type : string; bt_Payload : RawMessage;
  bt_Status : TaskStatus; bt_Priority : Z; bt_Attempts : Z;
  bt_MaxAttempts : Z; bt_LastError : string; bt_NextRunAt : option time;
  bt_LockedBy : string; bt_LockedAt : option time; bt_CreatedAt : time;
  bt_UpdatedAt : time
}.
#[export] Instance eta_BackgroundTask : Eta BackgroundTask := λ r,
  MkBackgroundTask (bt_ID r) (bt_Type r) (bt_Payload r) (bt_Status r)
  (bt_Priority r) (bt_Attempts r) (bt_MaxAttempts r) (bt_LastError r)
  (bt_NextRunAt r) (bt_LockedBy r) (bt_LockedAt r) (bt_CreatedAt r)
  (bt_UpdatedAt r).

Record IdempotencyKey := MkIdempotencyKey {
  ik_ID : Z; ik_KeyHash : string; ik_Response : RawMessage;
  ik_StatusCode : Z; ik_MerchantID : uuid; ik_CreatedAt : time;
  ik_ExpiresAt : time
}.
#[export] Instance eta_IdempotencyKey : Eta IdempotencyKey := λ r,
  MkIdempotencyKey (ik_ID r) (ik_KeyHash r) (ik_Response r) (ik_StatusCode r)
  (ik_MerchantID r) (ik_CreatedAt r) (ik_ExpiresAt r).

Record ExchangeRate := MkExchangeRate {
  er_ID : Z; er_BaseCurrency : string; er_QuoteCurrency : string;
  er_Rate : string; er_Source : string; er_FetchedAt : time;
  er_ExpiresAt : time
}.
#[export] Instance eta_ExchangeRate : Eta ExchangeRate := λ r,
  MkExchangeRate (er_ID r) (er_BaseCurrency r) (er_QuoteCurrency r)
  (er_Rate r) (er_Source r) (er_FetchedAt r) (er_ExpiresAt r).
