(* ===== verification/Errors.v ===== *)
(** Go errors: [internal/model/errors.go], and the
    wrapping of [fmt.Errorf] with [%w] that [errors.Is] and [errors.As] see
    through.

    An error variable of [internal/model] is a pointer, so [errors.Is]
    compares identities: two errors with the same fields made by
    [NewNotFoundError] are not [ErrNotFound].  [EVar] keeps that identity. *)

From S2P Require Import Prelude GoInt.

Open Scope Z_scope.

Definition StatusOK : Z := 200.
Definition StatusCreated : Z := 201.
Definition StatusBadRequest : Z := 400.
Definition StatusUnauthorized : Z := 401.
Definition StatusPaymentRequired : Z := 402.
Definition StatusForbidden : Z := 403.
Definition StatusNotFound : Z := 404.
Definition StatusConflict : Z := 409.
Definition StatusUnprocessableEntity : Z := 422.
Definition StatusTooManyRequests : Z := 429.
Definition StatusInternalServerError : Z := 500.
Definition StatusServiceUnavailable : Z := 503.
Definition StatusGatewayTimeout : Z := 504.

(** ** internal/model/errors.go *)

Record AppError := MkAppError { ae_Code : string; ae_Message : string; ae_HTTPStatus : Z }.

Inductive error_var :=
  | ErrNotFound | ErrUnauthorized | ErrForbidden | ErrConflict
  | ErrValidation | ErrInternal | ErrRateLimited.
#[export] Instance error_var_eq_dec : EqDecision error_var.
Proof. solve_decision. Defined.

Definition error_var_value (v : error_var) : AppError :=
  match v with
  | ErrNotFound => MkAppError "NOT_FOUND" "resource not found" StatusNotFound
  | ErrUnauthorized => MkAppError "UNAUTHORIZED" "unauthorized" StatusUnauthorized
  | ErrForbidden => MkAppError "FORBIDDEN" "forbidden" StatusForbidden
  | ErrConflict => MkAppError "CONFLICT" "resource conflict" StatusConflict
  | ErrValidation =>
      MkAppError "VALIDATION_ERROR" "validation failed" StatusUnprocessableEntity
  | ErrInternal =>
      MkAppError "INTERNAL_ERROR" "internal server error" StatusInternalServerError
  | ErrRateLimited => MkAppError "RATE_LIMITED" "rate limit exceeded" StatusTooManyRequests
  end.

(** Every error value the modelled code makes or receives. *)
Inductive error :=
  | EVar (v : error_var)                (** a variable of [internal/model] *)
  | ENew (a : AppError)                 (** a fresh [*model.AppError] *)
  | EDriver (msg : string)              (** an error of a driver or a library *)
  | ENoRows                             (** [pgx.ErrNoRows] *)
  | EText (msg : string)                (** [fmt.Errorf] without [%w] *)
  | EAPI (status : Z) (body : string)   (** [*helixsdk.APIError], of the client *)
  | EWrap (prefix : string) (e : error) (** [fmt.Errorf("prefix: %w", err)] *).

Definition NewNotFoundError (resource : string) : error :=
  ENew (MkAppError "NOT_FOUND" (resource +:+ " not found") StatusNotFound).
Definition NewValidationError (message : string) : error :=
  ENew (MkAppError "VALIDATION_ERROR" message StatusUnprocessableEntity).
Definition NewConflictError (message : string) : error :=
  ENew (MkAppError "CONFLICT" message StatusConflict).

(** [err.Error()]. *)
Fixpoint Error (e : error) : string :=
  match e with
  | EVar v => ae_Message (error_var_value v)
  | ENew a => ae_Message a
  | EDriver msg => msg
  | ENoRows => "no rows in result set"
  | EText msg => msg
  | EAPI status body => "API error " +:+ pretty status +:+ ": " +:+ body
  | EWrap prefix e => prefix +:+ ": " +:+ Error e
  end.

(** [errors.Is(err, v)] for a variable [v] of [internal/model]. *)
Fixpoint Is (e : error) (v : error_var) : bool :=
  match e with
  | EVar w => bool_decide (w = v)
  | EWrap _ e => Is e v
  | _ => false
  end.

(** [errors.As(err, &appErr)] with an [*model.AppError] target. *)
Fixpoint As (e : error) : option AppError :=
  match e with
  | EVar v => Some (error_var_value v)
  | ENew a => Some a
  | EWrap _ e => As e
  | _ => None
  end.

Lemma Is_As e v : Is e v = true → As e = Some (error_var_value v).
Proof. induction e; simpl; auto; try done. by intros ->%bool_decide_eq_true. Qed.
