(* ===== verification/World.v ===== *)
(** The world the services act on, and the monad their methods run in.

    A service method reads and writes PostgreSQL, publishes events, calls
    payment providers, reads clocks and draws identifiers.  All of that is a
    sequence of interactions [M A] with a [world]; what the outside world
    answers comes from the class [Externals], an oracle indexed by the number
    of interactions made so far, so every theorem holds for all answers.  A Go
    method returns a value or an error and keeps its effects either way; a
    panic is a third outcome. *)

From S2P Require Import Prelude GoInt GoTime Model Errors.

Open Scope Z_scope.

(** ** Tables

    A row is the Go struct it is scanned into, except where a column can hold
    a NULL that the struct cannot: [customers.external_id], [users.merchant_id]. *)

Record CustomerRow := MkCustomerRow {
  cr_id : uuid; cr_merchant_id : uuid; cr_external_id : option string;
  cr_name : string; cr_email : string; cr_phone : string;
  cr_metadata : RawMessage; cr_created_at : time; cr_updated_at : time
}.
#[export] Instance eta_CustomerRow : Eta CustomerRow := λ r,
  MkCustomerRow (cr_id r) (cr_merchant_id r) (cr_external_id r) (cr_name r)
  (cr_email r) (cr_phone r) (cr_metadata r) (cr_created_at r) (cr_updated_at r).

Record UserRow := MkUserRow {
  ur_user : User; (** every column but [merchant_id] *)
  ur_merchant_id : option uuid
}.
#[export] Instance eta_UserRow : Eta UserRow := λ r,
  MkUserRow (ur_user r) (ur_merchant_id r).

Record database := MkDatabase {
  db_transactions : gmap uuid Transaction;
  db_payment_methods : gmap uuid PaymentMethod;
  db_subscriptions : gmap uuid Subscription;
  db_invoices : gmap uuid Invoice;
  db_payouts : gmap uuid Payout;
  db_disputes : gmap uuid Dispute;
  db_products : gmap uuid Product;
  db_merchants : gmap uuid Merchant;
  db_customers : gmap uuid CustomerRow;
  db_users : gmap uuid UserRow;
  db_api_keys : gmap uuid ApiKey;
  db_webhook_configs : gmap uuid WebhookConfig;
  db_webhook_deliveries : gmap uuid WebhookDelivery;
  db_provider_configs : gmap uuid ProviderConfig;
  db_background_tasks : gmap uuid BackgroundTask;
  db_idempotency_keys : gmap string IdempotencyKey;
  db_audit_logs : list AuditLog;
  db_exchange_rates : list ExchangeRate
}.
#[export] Instance eta_database : Eta database := λ r,
  MkDatabase (db_transactions r) (db_payment_methods r) (db_subscriptions r)
  (db_invoices r) (db_payouts r) (db_disputes r) (db_products r)
  (db_merchants r) (db_customers r) (db_users r) (db_api_keys r)
  (db_webhook_configs r) (db_webhook_deliveries r) (db_provider_configs r)
  (db_background_tasks r) (db_idempotency_keys r) (db_audit_logs r)
  (db_exchange_rates r).

Definition empty_database : database :=
  MkDatabase ∅ ∅ ∅ ∅ ∅ ∅ ∅ ∅ ∅ ∅ ∅ ∅ ∅ ∅ ∅ ∅ [] [].

(** ** Requests that leave the process *)

(** [provider.ChargeRequest] and [provider.RefundRequest]. *)
Record ChargeRequest := MkChargeRequest {
  ch_Amount : Z; ch_Currency : string; ch_Source : string;
  ch_Description : string; ch_IdempotencyKey : string;
  ch_Metadata : gmap string string
}.
Record RefundRequest := MkRefundRequest {
  rf_TransactionID : string; rf_Amount : option Z; rf_Reason : string;
  rf_IdempotencyKey : string; rf_Metadata : gmap string string
}.

Inductive provider_call :=
  | CallCharge (provider : string) (req : ChargeRequest)
  | CallRefund (provider : string) (req : RefundRequest).

(** JSON values: the bodies of requests and responses.  A number that is not
    written as an integer keeps its text. *)
Inductive json :=
  | JNull | JBool (b : bool) | JNum (z : Z) | JFrac (text : string) | JStr (s : string)
  | JArr (l : list json) | JObj (members : list (string * json)).
#[export] Instance json_eq_dec : EqDecision json.
Proof.
  refine (fix same (v v' : json) {struct v} : Decision (v = v') :=
    let _ : EqDecision json := @same in
    match v, v' with
    | JNull, JNull => left eq_refl
    | JBool b, JBool b' => cast_if (decide (b = b'))
    | JNum z, JNum z' => cast_if (decide (z = z'))
    | JFrac s, JFrac s' => cast_if (decide (s = s'))
    | JStr s, JStr s' => cast_if (decide (s = s'))
    | JArr l, JArr l' => cast_if (decide (l = l'))
    | JObj ms, JObj ms' => cast_if (decide (ms = ms'))
    | _, _ => right _
    end); abstract congruence.
Defined.

Record http_request := MkHttpRequest {
  hq_method : string; hq_url : string;
  hq_headers : list (string * string); hq_body : json + string
}.

(** What the client gets: a transport error, or a status and the body: what
    could be read of it, and the error that ended the read. *)
Definition http_response : Type := string + (Z * (string * option string)).

(** [eventbus.Event]; the payload is marshalled when it is published. *)
Inductive event_data :=
  | DTransaction (t : Transaction) | DSubscription (s : Subscription)
  | DInvoice (i : Invoice) | DPayout (p : Payout) | DDispute (d : Dispute)
  | DDiscrepancy (merchant : uuid) (provider : string) (amount : Z) (severity : string)
      (detected : time)
  | DString (s : string).
Record Event := MkEvent {
  ev_Type : string; ev_Source : string; ev_Data : event_data; ev_Timestamp : Z
}.
#[export] Instance eta_Event : Eta Event := λ r,
  MkEvent (ev_Type r) (ev_Source r) (ev_Data r) (ev_Timestamp r).

Record redis_entry := MkRedisEntry { re_value : Z; re_expires : option time }.

Record world := MkWorld {
  w_tick : nat;                         (** interactions made so far *)
  w_db : database;
  w_redis : gmap string redis_entry;
  w_events : list (string * Event);     (** stored by JetStream, oldest first *)
  w_calls : list provider_call;         (** made to payment providers, oldest first *)
  w_http : list http_request            (** sent by HTTP clients, oldest first *)
}.
#[export] Instance eta_world : Eta world := λ r,
  MkWorld (w_tick r) (w_db r) (w_redis r) (w_events r) (w_calls r) (w_http r).

Definition world_of (db : database) : world := MkWorld 0 db ∅ [] [] [].

(** ** What the outside world answers *)

(** A statement or a published message takes effect, is rejected (a
    constraint, a lost connection, a timeout), or takes effect and its
    acknowledgement is lost. *)
Inductive verdict := Accepted | Rejected (msg : string) | AckLost (msg : string).

(** [ORDER BY]: a permutation of the rows, sorted; the order of rows with
    equal keys is the database's choice. *)
Class RowOrder := {
  order_by {R : Type} : (R → R → bool) → list R → list R;
  order_by_perm {R : Type} (le : R → R → bool) l : order_by le l ≡ₚ l;
  order_by_sorted {R : Type} (le : R → R → bool) l :
    (∀ x y, le x y || le y x) → (∀ x y z, le x y → le y z → le x z) →
    StronglySorted (λ x y, le x y) (order_by le l)
}.

Class Externals := {
  ext_now : nat → time;                     (** [time.Now()] *)
  ext_db_now : nat → time;                  (** [NOW()] in a statement *)
  ext_uuid : nat → uuid;                    (** [uuid.New()] *)
  ext_rand : nat → nat → string + list ascii; (** [rand.Read] of so many bytes *)
  ext_db : nat → database → database → verdict; (** before and after it *)
  ext_locked : nat → uuid → bool;           (** rows locked by other transactions *)
  ext_rows : nat → option nat;              (** a row stream breaks after so many *)
  ext_publish : nat → verdict;              (** [js.Publish] *)
  ext_http : nat → http_request → http_response;
  ext_redis : nat → option string;          (** a Redis command fails *)
  ext_json : string → string + json;        (** [json.Unmarshal] to a tree *)
  uuid_String : uuid → string;              (** github.com/google/uuid *)
  uuid_Parse : string → string + uuid;
  pg_uuid_in : string → option uuid;        (** PostgreSQL reading a UUID *)
  ext_order :: RowOrder
}.

(** ** The monad

    A method is the tree of its atomic interactions with the world: [Act f k]
    does [f] and goes on with its answer.  Run alone it is a state-passing
    function ([run]); several run together interleave between interactions
    ([Effects.pool_step]). *)

Inductive outcome (A : Type) := Ret (a : A) | Err (e : error) | Panic (msg : string).
Arguments Ret {_} _.
Arguments Err {_} _.
Arguments Panic {_} _.

Inductive M (A : Type) : Type :=
  | Done (o : outcome A)
  | Act {X : Type} (f : world → X * world) (k : X → M A).
Arguments Done {_} _.
Arguments Act {_ _} _ _.

(** What follows the outcome of [m], whatever it is. *)
Fixpoint on_outcome {A B} (k : outcome A → M B) (m : M A) : M B :=
  match m with
  | Done o => k o
  | Act f g => Act f (λ x, on_outcome k (g x))
  end.

#[export] Instance M_ret : MRet M := λ A a, Done (Ret a).
#[export] Instance M_bind : MBind M := λ A B k m,
  on_outcome (λ o, match o with
                   | Ret a => k a
                   | Err e => Done (Err e)
                   | Panic s => Done (Panic s)
                   end) m.

Fixpoint run {A} (m : M A) (w : world) : outcome A * world :=
  match m with
  | Done o => (o, w)
  | Act f k => let '(x, w) := f w in run (k x) w
  end.

Definition fail {A} (e : error) : M A := Done (Err e).
Definition panic {A} (msg : string) : M A := Done (Panic msg).

(** [v, err := m]: the error as a value. *)
Definition attempt {A} (m : M A) : M (error + A) :=
  on_outcome (λ o, match o with
                   | Ret a => Done (Ret (inr a))
                   | Err e => Done (Ret (inl e))
                   | Panic s => Done (Panic s)
                   end) m.

(** [if err := m; err != nil { log }]: an error that is logged and dropped. *)
Definition ignore_err {A} (m : M A) : M unit := _ ← attempt m; mret ().

(** [return nil, fmt.Errorf("prefix: %w", err)] on error. *)
Definition wrap_err {A} (prefix : string) (m : M A) : M A :=
  r ← attempt m;
  match r with inl e => fail (EWrap prefix e) | inr a => mret a end.
