(* ===== verification/Effects.v ===== *)
(** The primitive effects of the services - statements and queries, clocks,
    identifiers, HTTP and Redis commands - the statements on one table they are
    made of, and the concurrent execution of several methods. *)

From S2P Require Import Prelude GoInt GoTime Model Errors World.

Open Scope Z_scope.

Section primitives.
Context `{!Externals}.

(** Every interaction has a number, and gets its own answer. *)
Definition act {A} (f : nat → world → outcome A * world) : M A :=
  Act (λ w, f (w_tick w) (w <| w_tick := S (w_tick w) |>)) Done.

(** An interaction that changes nothing the program keeps. *)
Definition ask {A} (f : nat → A) : M A := act (λ n w, (Ret (f n), w)).

Definition now : M time := ask ext_now.
Definition uuid_New : M uuid := ask ext_uuid.
Definition rand_Read (len : nat) : M (list ascii) :=
  r ← ask (λ n, ext_rand n len);
  match r with inl msg => fail (EDriver msg) | inr bs => mret bs end.

(** ** PostgreSQL

    A statement maps the time of its transaction and the database to the
    new database and the number of rows affected; [None] is a violated
    primary key or unique index. *)
Definition stmt : Type := time → database → option (database * Z).

Definition db_Exec (s : stmt) : M Z := act (λ n w,
  match s (ext_db_now n) (w_db w) with
  | None => (Err (EDriver "unique violation"), w)
  | Some (db, rows) =>
      match ext_db n (w_db w) db with
      | Accepted => (Ret rows, w <| w_db := db |>)
      | Rejected msg => (Err (EDriver msg), w)
      | AckLost msg => (Err (EDriver msg), w <| w_db := db |>)
      end
  end).

(** A query only reads; it may fail as a statement does. *)
Definition db_read {A} (q : time → database → A) : M A := act (λ n w,
  match ext_db n (w_db w) (w_db w) with
  | Accepted => (Ret (q (ext_db_now n) (w_db w)), w)
  | Rejected msg | AckLost msg => (Err (EDriver msg), w)
  end).

(** [QueryRow(...).Scan(...)]: no row is [pgx.ErrNoRows]; a value the
    destination cannot hold is a scan error. *)
Definition db_QueryRow {R A} (q : time → database → option R) (scan : R → string + A) : M A :=
  r ← db_read q;
  match r with
  | None => fail ENoRows
  | Some row => match scan row with inl msg => fail (EDriver msg) | inr a => mret a end
  end.

(** [Query] - [None] is a query the server refuses, a negative LIMIT or
    OFFSET - and the loop over [rows.Next()]: the first row that fails to
    scan ends it with an error. *)
Fixpoint scan_rows {R A} (scan : R → string + A) (rows : list R) : string + list A :=
  match rows with
  | [] => inr []
  | r :: rows =>
      match scan r with
      | inl msg => inl msg
      | inr a =>
          match scan_rows scan rows with inl msg => inl msg | inr l => inr (a :: l) end
      end
  end.

(** [rows.Err()] is never looked at: a stream that breaks after [k] rows
    ends there, without an error. *)
Definition db_rows {R A} (scan : R → string + A) (rows : list R) : M (list A) :=
  broken ← ask ext_rows;
  match scan_rows scan (match broken with None => rows | Some k => take k rows end) with
  | inl msg => fail (EDriver msg)
  | inr l => mret l
  end.

Definition db_Query {R} (q : database → option (list R)) : M (list R) :=
  r ← db_read (λ _, q);
  match r with None => fail (EDriver "invalid LIMIT or OFFSET") | Some l => mret l end.

(** ** HTTP *)
Definition http_Do (req : http_request) : M (Z * (string * option string)) := act (λ n w,
  (match ext_http n req with inl msg => Err (EDriver msg) | inr r => Ret r end,
   w <| w_http := w_http w ++ [req] |>)).

Definition log_call (c : provider_call) : M unit := act (λ _ w,
  (Ret (), w <| w_calls := w_calls w ++ [c] |>)).

(** ** Redis

    [INCR], [EXPIRE], [SET ... EX] and [EXISTS]: an expired key is absent. *)
Definition redis_live (t : time) (store : gmap string redis_entry) (key : string)
    : option redis_entry :=
  match store !! key with
  | Some e =>
      match re_expires e with
      | Some x => if decide (x ≤ t) then None else Some e
      | None => Some e
      end
  | None => None
  end.

Definition redis_command {A} (f : time → gmap string redis_entry → A * gmap string redis_entry)
    : M A := act (λ n w,
  match ext_redis n with
  | Some msg => (Err (EDriver msg), w)
  | None => let '(a, store) := f (ext_db_now n) (w_redis w) in
            (Ret a, w <| w_redis := store |>)
  end).

Definition redis_Incr (key : string) : M Z :=
  redis_command (λ t store,
    let '(v, x) := match redis_live t store key with
                   | Some e => (re_value e + 1, re_expires e)
                   | None => (1, None)
                   end in
    (v, <[key := MkRedisEntry v x]> store)).

Definition redis_Expire (key : string) (ttl : Duration) : M unit :=
  redis_command (λ t store,
    ((), match redis_live t store key with
         | Some e => <[key := MkRedisEntry (re_value e) (Some (t + ttl))]> store
         | None => store
         end)).

Definition redis_Set (key : string) (v : Z) (ttl : Duration) : M unit :=
  redis_command (λ t store, ((), <[key := MkRedisEntry v (Some (t + ttl))]> store)).

Definition redis_Exists (key : string) : M Z :=
  redis_command (λ t store,
    (match redis_live t store key with Some _ => 1 | None => 0 end, store)).
End primitives.

(** ** Statements on one table *)

Section tables.
Context {K R : Type} `{Countable K}.

(** INSERT: the primary key must be new. *)
Definition row_insert (k : K) (r : R) (t : gmap K R) : option (gmap K R * Z) :=
  match t !! k with Some _ => None | None => Some (<[k:=r]> t, 1) end.

(** UPDATE ... WHERE id = k. *)
Definition row_update (k : K) (f : R → R) (t : gmap K R) : option (gmap K R * Z) :=
  match t !! k with Some r => Some (<[k:=f r]> t, 1) | None => Some (t, 0) end.

(** DELETE ... WHERE id = k. *)
Definition row_delete (k : K) (t : gmap K R) : option (gmap K R * Z) :=
  match t !! k with Some _ => Some (delete k t, 1) | None => Some (t, 0) end.

(** SELECT ... WHERE P, in no particular order. *)
Definition rows_where (P : R → bool) (t : gmap K R) : list R :=
  List.filter P (snd <$> map_to_list t).

Lemma elem_of_rows_where P t r :
  r ∈ rows_where P t ↔ P r = true ∧ ∃ k, t !! k = Some r.
Proof.
  unfold rows_where. rewrite list_elem_of_In, List.filter_In, <-list_elem_of_In.
  rewrite list_elem_of_fmap. split.
  - intros [[[k r'] [-> Hk%elem_of_map_to_list]] HP]. eauto.
  - intros [HP [k Hk%elem_of_map_to_list]]. split; [by exists (k, r)|done].
Qed.
End tables.

(** The statement on the table [proj]. *)
Definition on_table {T} (proj : database → T) `{!FieldSet proj}
    (f : T → option (T * Z)) : database → option (database * Z) :=
  λ db, '(t, n) ← f (proj db); Some (db <| proj := t |>, n).

(** LIMIT and OFFSET. *)
Definition sql_page {R} (limit offset : Z) (l : list R) : option (list R) :=
  if decide (limit < 0 ∨ offset < 0) then None
  else Some (take (Z.to_nat limit) (drop (Z.to_nat offset) l)).

(** ** Concurrency

    Several requests and workers run at once: a step of the pool is the next
    interaction of any one of them. *)

Inductive thread : Type :=
  | Thread (A : Type) (m : M A).
Arguments Thread {_} _.

Inductive pool_step : list thread * world → list thread * world → Prop :=
  | PoolStep {A X} ths1 ths2 (f : world → X * world) (k : X → M A) w :
      pool_step (ths1 ++ Thread (Act f k) :: ths2, w)
                (ths1 ++ Thread (k (f w).1) :: ths2, (f w).2).
