(* ===== verification/Logic.v ===== *)
(** How to reason about methods: the equations and inversions of [run], the
    compositional predicate [Acts R m] - every interaction of [m] relates the
    world before and after by [R] - and the accounting of [Spends Phi c m Q],
    with which a bounded resource is followed through concurrent runs. *)

From S2P Require Import Prelude GoInt GoTime Model Errors World Effects.

Open Scope Z_scope.

(** ** Running *)

Lemma run_on_outcome {A B} (k : outcome A → M B) m w :
  run (on_outcome k m) w = let '(o, w) := run m w in run (k o) w.
Proof.
  revert w. induction m as [o|X f g IH]; intros w; [done|].
  simpl. destruct (f w). apply IH.
Qed.

Lemma run_ret {A} (a : A) w : run (mret a) w = (Ret a, w).
Proof. done. Qed.
Lemma run_fail {A} e w : run (@fail A e) w = (Err e, w).
Proof. done. Qed.

Lemma run_act {A} (f : nat → world → outcome A * world) w :
  run (act f) w = f (w_tick w) (w <| w_tick := S (w_tick w) |>).
Proof. simpl. by destruct (f _ _). Qed.

Lemma run_bind {A B} (m : M A) (k : A → M B) w :
  run (m ≫= k) w = match run m w with
                   | (Ret a, w) => run (k a) w
                   | (Err e, w) => (Err e, w)
                   | (Panic s, w) => (Panic s, w)
                   end.
Proof. unfold mbind, M_bind. rewrite run_on_outcome. by destruct (run m w) as [[]]. Qed.

Lemma run_attempt {A} (m : M A) w :
  run (attempt m) w = match run m w with
                      | (Ret a, w) => (Ret (inr a), w)
                      | (Err e, w) => (Ret (inl e), w)
                      | (Panic s, w) => (Panic s, w)
                      end.
Proof. unfold attempt. rewrite run_on_outcome. by destruct (run m w) as [[]]. Qed.

Lemma run_wrap_err {A} prefix (m : M A) w :
  run (wrap_err prefix m) w = match run m w with
                              | (Err e, w) => (Err (EWrap prefix e), w)
                              | r => r
                              end.
Proof.
  unfold wrap_err. rewrite run_bind, run_attempt. by destruct (run m w) as [[]].
Qed.

Lemma run_ignore_err {A} (m : M A) w :
  run (ignore_err m) w = match run m w with
                         | (Panic s, w) => (Panic s, w)
                         | (_, w) => (Ret (), w)
                         end.
Proof.
  unfold ignore_err. rewrite run_bind, run_attempt. by destruct (run m w) as [[]].
Qed.

(** Whether a run returns, decided by evaluation. *)
Definition returns {A} (r : outcome A * world) : bool :=
  match r.1 with Ret _ => true | _ => false end.

Lemma run_returns {A} (m : M A) w :
  returns (run m w) = true → ∃ a w', run m w = (Ret a, w').
Proof. destruct (run m w) as [[] w']; [eauto|done..]. Qed.

(** A run that returned went through both parts. *)
Lemma run_bind_Ret {A B} (m : M A) (k : A → M B) w b w' :
  run (m ≫= k) w = (Ret b, w') →
  ∃ a w1, run m w = (Ret a, w1) ∧ run (k a) w1 = (Ret b, w').
Proof. rewrite run_bind. destruct (run m w) as [[]]; naive_solver. Qed.

Lemma run_wrap_err_Ret {A} prefix (m : M A) w a w' :
  run (wrap_err prefix m) w = (Ret a, w') → run m w = (Ret a, w').
Proof. rewrite run_wrap_err. destruct (run m w) as [[]]; naive_solver. Qed.

(** [run_inv H] takes a returning run apart, one bind at a time. *)
Ltac run_inv H :=
  lazymatch type of H with
  | run (mbind _ _) _ = (Ret _, _) =>
      let a := fresh "a" in let w := fresh "w" in let H1 := fresh "Hrun" in
      apply run_bind_Ret in H as (a & w & H1 & H); run_inv H1; run_inv H
  | run (wrap_err _ _) _ = (Ret _, _) => apply run_wrap_err_Ret in H; run_inv H
  | run (mret _) _ = (Ret _, _) => injection H as ? ?; subst
  | run (fail _) _ = (Ret _, _) => discriminate H
  | _ => idtac
  end.

(** ** Every interaction satisfies a relation *)

Section acts.
Variable R : relation world.

Fixpoint Acts {A} (m : M A) : Prop :=
  match m with
  | Done _ => True
  | Act f k => ∀ w, R w (f w).2 ∧ Acts (k (f w).1)
  end.

Lemma Acts_on_outcome {A B} (k : outcome A → M B) m :
  Acts m → (∀ o, Acts (k o)) → Acts (on_outcome k m).
Proof.
  intros Hm Hk. induction m as [o|X f g IH]; simpl in *; [done|].
  intros w. destruct (Hm w). auto.
Qed.

Lemma Acts_ret {A} (a : A) : Acts (mret a).
Proof. done. Qed.
Lemma Acts_fail {A} e : Acts (@fail A e).
Proof. done. Qed.
Lemma Acts_panic {A} s : Acts (@panic A s).
Proof. done. Qed.
Lemma Acts_bind {A B} (m : M A) (k : A → M B) :
  Acts m → (∀ a, Acts (k a)) → Acts (m ≫= k).
Proof. intros Hm Hk. apply Acts_on_outcome; [done|]. by intros []. Qed.
Lemma Acts_attempt {A} (m : M A) : Acts m → Acts (attempt m).
Proof. intros Hm. apply Acts_on_outcome; [done|]. by intros []. Qed.
Lemma Acts_wrap_err {A} s (m : M A) : Acts m → Acts (wrap_err s m).
Proof. intros Hm. apply Acts_bind; [by apply Acts_attempt|]. by intros []. Qed.
Lemma Acts_ignore_err {A} (m : M A) : Acts m → Acts (ignore_err m).
Proof. intros Hm. apply Acts_bind; [by apply Acts_attempt|done]. Qed.

(** A run, and any interleaving of runs, relates its worlds by [R]. *)
Context `{!PreOrder R}.

Lemma Acts_run {A} (m : M A) w : Acts m → R w (run m w).2.
Proof.
  revert w. induction m as [o|X f g IH]; intros w Hm; simpl; [done|].
  destruct (Hm w) as [HR Hg]. destruct (f w) as [x w1]; simpl in *.
  etrans; [done|]. by apply IH.
Qed.

Definition thread_acts (th : thread) : Prop := match th with Thread m => Acts m end.

Lemma Acts_pool ths w ths' w' :
  rtc pool_step (ths, w) (ths', w') → Forall thread_acts ths →
  R w w' ∧ Forall thread_acts ths'.
Proof.
  intros Hsteps Hths.
  refine (rtc_invariant pool_step (λ c, R w c.2 ∧ Forall thread_acts c.1)
            (ths, w) (ths', w') _ _ Hsteps); [|by split].
  intros [] [] [HR HF] Hstep. inversion Hstep; subst; simpl in *.
  apply Forall_app in HF as [HF1 HF2]. apply Forall_cons in HF2 as [Hm HF2].
  destruct (Hm w0) as [HR0 Hk]. split; [by etrans|].
  apply Forall_app. split; [done|]. by constructor.
Qed.
End acts.

(** ** Invariants

    [Keeps I m Post]: every interaction of [m] preserves the invariant [I], and
    what [m] returns satisfies [Post].  Answers are only those given in worlds
    where [I] holds, so values read under the invariant may be relied upon; and
    since [I] is preserved step by step it holds under any interleaving. *)

Section invariant.
Variable I : world → Prop.

Fixpoint Keeps {A} (m : M A) (Post : A → Prop) : Prop :=
  match m with
  | Done (Ret a) => Post a
  | Done _ => True
  | Act f k => ∀ w, I w → I (f w).2 ∧ Keeps (k (f w).1) Post
  end.

Lemma Keeps_ret {A} (a : A) (Post : A → Prop) : Post a → Keeps (mret a) Post.
Proof. done. Qed.
Lemma Keeps_fail {A} e (Post : A → Prop) : Keeps (fail e) Post.
Proof. done. Qed.

Lemma Keeps_bind {A B} (m : M A) (k : A → M B) Post Post' :
  Keeps m Post → (∀ a, Post a → Keeps (k a) Post') → Keeps (m ≫= k) Post'.
Proof.
  intros Hm Hk. induction m as [[a|e|s]|X f g IH]; simpl in *; [by apply Hk|done|done|].
  intros w Hw. destruct (Hm w Hw) as [HI Hg]. split; [done|]. by apply IH.
Qed.

Lemma Keeps_attempt {A} (m : M A) Post :
  Keeps m Post → Keeps (attempt m) (λ r, match r with inl _ => True | inr a => Post a end).
Proof.
  intros Hm. induction m as [[a|e|s]|X f g IH]; simpl in *; [done..|].
  intros w Hw. destruct (Hm w Hw) as [HI Hg]. split; [done|]. by apply IH.
Qed.

Lemma Keeps_wrap_err {A} prefix (m : M A) Post : Keeps m Post → Keeps (wrap_err prefix m) Post.
Proof.
  intros Hm. eapply Keeps_bind; [by apply Keeps_attempt|]. by intros [].
Qed.

Lemma Keeps_act {A} (f : nat → world → outcome A * world) (Post : A → Prop) :
  (∀ w, I w → let '(o, w') := f (w_tick w) (w <| w_tick := S (w_tick w) |>) in
        I w' ∧ match o with Ret a => Post a | _ => True end) →
  Keeps (act f) Post.
Proof.
  intros Hf w Hw. specialize (Hf w Hw). simpl in *. destruct (f _ _) as [[] w'];
    simpl in *; tauto.
Qed.

Lemma Keeps_acts {A} (R : relation world) (m : M A) :
  (∀ w w', R w w' → I w → I w') → Acts R m → Keeps m (λ _, True).
Proof.
  intros HR. induction m as [[]|X f g IH]; simpl; [done..|]. intros Hm w Hw.
  destruct (Hm w) as [HRw Hg]. split; [by eapply HR|]. by apply IH.
Qed.

Definition thread_keeps (th : thread) : Prop :=
  match th with Thread m => Keeps m (λ _, True) end.

Lemma Keeps_mono {A} (m : M A) (Post Post' : A → Prop) :
  Keeps m Post → (∀ a, Post a → Post' a) → Keeps m Post'.
Proof.
  intros Hm HP. induction m as [[]|X f g IH]; simpl in *; auto.
  intros w Hw. destruct (Hm w Hw) as [HI Hg]. split; [done|]. by apply IH.
Qed.

Lemma Keeps_pool ths w ths' w' :
  rtc pool_step (ths, w) (ths', w') → Forall thread_keeps ths → I w → I w'.
Proof.
  intros Hsteps Hths Hw.
  refine (proj1 (rtc_invariant pool_step (λ c, I c.2 ∧ Forall thread_keeps c.1)
            (ths, w) (ths', w') _ _ Hsteps)); [|by split].
  intros [] [] [HI HF] Hstep. inversion Hstep; subst; simpl in *.
  apply Forall_app in HF as [HF1 HF2]. apply Forall_cons in HF2 as [Hm HF2].
  destruct (Hm w0 HI) as [HI' Hk]. split; [done|].
  apply Forall_app. split; [done|]. by constructor.
Qed.
End invariant.

(** ** Methods that never panic *)

Fixpoint Safe {A} (m : M A) : Prop :=
  match m with
  | Done (Panic _) => False
  | Done _ => True
  | Act f k => ∀ w, Safe (k (f w).1)
  end.

Lemma Safe_on_outcome {A B} (k : outcome A → M B) m :
  Safe m → (∀ a, Safe (k (Ret a))) → (∀ e, Safe (k (Err e))) → Safe (on_outcome k m).
Proof.
  intros Hm Ha He. induction m as [[]|X f g IH]; simpl in *; auto; done.
Qed.

Lemma Safe_ret {A} (a : A) : Safe (mret a).
Proof. done. Qed.
Lemma Safe_fail {A} e : Safe (@fail A e).
Proof. done. Qed.
Lemma Safe_bind {A B} (m : M A) (k : A → M B) : Safe m → (∀ a, Safe (k a)) → Safe (m ≫= k).
Proof. intros Hm Hk. by apply Safe_on_outcome. Qed.
Lemma Safe_attempt {A} (m : M A) : Safe m → Safe (attempt m).
Proof. intros Hm. by apply Safe_on_outcome. Qed.
Lemma Safe_wrap_err {A} s (m : M A) : Safe m → Safe (wrap_err s m).
Proof. intros Hm. apply Safe_bind; [by apply Safe_attempt|]. by intros []. Qed.
Lemma Safe_ignore_err {A} (m : M A) : Safe m → Safe (ignore_err m).
Proof. intros Hm. apply Safe_bind; [by apply Safe_attempt|done]. Qed.

Lemma Safe_run {A} (m : M A) w msg w' : Safe m → run m w ≠ (Panic msg, w').
Proof.
  revert w. induction m as [o|X f g IH]; intros w; simpl.
  - destruct o; simpl; [congruence..|done].
  - intros Hm. specialize (Hm w). destruct (f w) as [x w1]; simpl in *. by apply IH.
Qed.

(** ** Methods that always return *)

Fixpoint Answers {A} (m : M A) : Prop :=
  match m with
  | Done (Ret _) => True
  | Done _ => False
  | Act f k => ∀ w, Answers (k (f w).1)
  end.

Lemma Answers_ret {A} (a : A) : Answers (mret a).
Proof. done. Qed.

Lemma Answers_on_outcome {A B} (k : outcome A → M B) m :
  Safe m → (∀ a, Answers (k (Ret a))) → (∀ e, Answers (k (Err e))) → Answers (on_outcome k m).
Proof. intros Hm Ha He. induction m as [[]|X f g IH]; simpl in *; auto; done. Qed.

Lemma Answers_on_answer {A B} (k : outcome A → M B) m :
  Answers m → (∀ a, Answers (k (Ret a))) → Answers (on_outcome k m).
Proof. intros Hm Ha. induction m as [[]|X f g IH]; simpl in *; auto; done. Qed.

Lemma Answers_bind {A B} (m : M A) (k : A → M B) :
  Answers m → (∀ a, Answers (k a)) → Answers (m ≫= k).
Proof.
  intros Hm Hk. unfold mbind, M_bind.
  induction m as [[]|X f g IH]; simpl in *; auto; done.
Qed.

Lemma Answers_attempt {A} (m : M A) : Safe m → Answers (attempt m).
Proof. intros Hm. by apply Answers_on_outcome. Qed.

Lemma Answers_ignore_err {A} (m : M A) : Safe m → Answers (ignore_err m).
Proof. intros Hm. apply Answers_bind; [by apply Answers_attempt|done]. Qed.

Lemma Answers_act {A} (f : nat → world → outcome A * world) :
  (∀ n w, ∃ a, (f n w).1 = Ret a) → Answers (act f).
Proof.
  intros Hf w. simpl. destruct (Hf (w_tick w) (w <| w_tick := S (w_tick w) |>)) as [a Ha].
  destruct (f _ _) as [o w']; simpl in *. by rewrite Ha.
Qed.

Lemma Answers_ask `{!Externals} {A} (f : nat → A) : Answers (ask f).
Proof. apply Answers_act. eauto. Qed.

Lemma Answers_run {A} (m : M A) w : Answers m → ∃ a w', run m w = (Ret a, w').
Proof.
  revert w. induction m as [[a|e|s]|X f g IH]; intros w Hm; simpl in *; [eauto|done|done|].
  specialize (Hm w). destruct (f w) as [x w1]; simpl in *. by apply IH.
Qed.

(** ** Credits

    [Spends Phi c m Q]: started with [c] credits, every interaction of [m]
    raises the measure [Phi] of the world by no more than the credits it gives
    up, and [m] ends with at least [Q o] of them left.  Over any interleaving
    the measure and the credits of all threads together never grow. *)

Section credits.
Variable Phi : world → nat.
Open Scope nat_scope.

Fixpoint Spends {A} (c : nat) (m : M A) (Q : outcome A → nat) : Prop :=
  match m with
  | Done o => Q o ≤ c
  | Act f k => ∀ w, ∃ c', Phi (f w).2 + c' ≤ Phi w + c ∧ Spends c' (k (f w).1) Q
  end.

Lemma Spends_mono {A} c c' (m : M A) (Q Q' : outcome A → nat) :
  Spends c m Q → c ≤ c' → (∀ o, Q' o ≤ Q o) → Spends c' m Q'.
Proof.
  revert c c'. induction m as [o|X f g IH]; intros c c'; simpl; intros Hm Hc HQ.
  - specialize (HQ o). lia.
  - intros w. destruct (Hm w) as (c1 & Hphi & Hg). exists c1. split; [lia|].
    by eapply IH.
Qed.

Lemma Spends_ret {A} c (a : A) Q : Q (Ret a) ≤ c → Spends c (mret a) Q.
Proof. done. Qed.
Lemma Spends_fail {A} c e (Q : outcome A → nat) : Q (Err e) ≤ c → Spends c (fail e) Q.
Proof. done. Qed.

Lemma Spends_act {A} c (f : nat → world → outcome A * world) Q :
  (∀ w, let '(o, w') := f (w_tick w) (w <| w_tick := S (w_tick w) |>) in
        Phi w' + Q o ≤ Phi w + c) →
  Spends c (act f) Q.
Proof.
  intros Hf w. specialize (Hf w). exists (Q (f (w_tick w) (w <| w_tick := S (w_tick w) |>)).1).
  simpl in *. by destruct (f _ _).
Qed.

Lemma Spends_on_outcome {A B} c (k : outcome A → M B) m Q Q' :
  Spends c m Q → (∀ o, Spends (Q o) (k o) Q') → Spends c (on_outcome k m) Q'.
Proof.
  intros Hm Hk. revert c Hm. induction m as [o|X f g IH]; intros c; simpl; intros Hm.
  - eapply Spends_mono; [apply Hk|done|done].
  - intros w. destruct (Hm w) as (c1 & Hphi & Hg). exists c1. auto.
Qed.

(** Credits after an error or a panic are not needed any more. *)
Lemma Spends_bind {A B} c (m : M A) (k : A → M B) Q Q' :
  Spends c m (λ o, match o with Ret a => Q a | _ => 0 end) →
  (∀ a, Spends (Q a) (k a) Q') → (∀ e, Q' (Err e) = 0) → (∀ s, Q' (Panic s) = 0) →
  Spends c (m ≫= k) Q'.
Proof.
  intros Hm Hk He Hs. eapply Spends_on_outcome; [done|].
  intros [a|e|s]; simpl; [auto|by rewrite He|by rewrite Hs].
Qed.

Lemma Spends_attempt {A} c (m : M A) q :
  Spends c m (λ _, q) → Spends c (attempt m) (λ _, q).
Proof. intros Hm. eapply Spends_on_outcome; [done|]. by intros []; simpl. Qed.

Lemma Spends_wrap_err {A} c prefix (m : M A) (Q : A → nat) :
  Spends c m (λ o, match o with Ret a => Q a | _ => 0 end) →
  Spends c (wrap_err prefix m) (λ o, match o with Ret a => Q a | _ => 0 end).
Proof.
  intros Hm. unfold wrap_err.
  eapply (Spends_bind _ _ _ (λ r, match r with inl _ => 0 | inr a => Q a end));
    [|intros []; simpl; lia|done..].
  eapply Spends_on_outcome; [done|]. by intros []; simpl.
Qed.

(** What never raises the measure keeps its credits. *)
Lemma Spends_frame {A} c (m : M A) :
  Acts (λ w w', Phi w' ≤ Phi w) m → Spends c m (λ _, c).
Proof.
  revert c. induction m as [o|X f g IH]; intros c; simpl; [done|]. intros Hm w.
  destruct (Hm w). exists c. split; [lia|auto].
Qed.

Lemma Spends_run {A} c (m : M A) Q w :
  Spends c m Q → Phi (run m w).2 + Q (run m w).1 ≤ Phi w + c.
Proof.
  revert c w. induction m as [o|X f g IH]; intros c w; simpl; [lia|]. intros Hm.
  destruct (Hm w) as (c1 & Hphi & Hg). destruct (f w) as [x w1]; simpl in *.
  specialize (IH x c1 w1 Hg). lia.
Qed.

Definition thread_spends (th : thread) (c : nat) : Prop :=
  match th with Thread m => Spends c m (λ _, 0) end.

Lemma Spends_pool ths w ths' w' cs :
  rtc pool_step (ths, w) (ths', w') → Forall2 thread_spends ths cs →
  ∃ cs', Forall2 thread_spends ths' cs' ∧
    Phi w' + sum_list cs' ≤ Phi w + sum_list cs.
Proof.
  intros Hsteps Hths.
  refine (rtc_invariant pool_step (λ p, ∃ cs', Forall2 thread_spends p.1 cs' ∧
            Phi p.2 + sum_list cs' ≤ Phi w + sum_list cs)
            (ths, w) (ths', w') _ _ Hsteps); [|by eexists].
  intros [] [] (cs1 & HF & Hle) Hstep. inversion Hstep; subst; simpl in *.
  apply Forall2_app_inv_l in HF as (c1 & c2 & HF1 & HF2 & ->).
  apply Forall2_cons_inv_l in HF2 as (c & c3 & Hm & HF2 & ->).
  destruct (Hm w0) as (c' & Hphi & Hk).
  exists (c1 ++ c' :: c3). rewrite !sum_list_with_app in *; simpl in *.
  split; [|lia]. apply Forall2_app; [done|]. by constructor.
Qed.
End credits.

(** ** Credits with facts

    [Rely R Phi F c m Q]: the same accounting for a method that knows the fact
    [F] of the world, stable under [R], the steps any thread may take; what it
    learns on the way is stable too. *)

Section rely.
Variables (R : relation world) (Phi : world → nat).
Open Scope nat_scope.

Definition stable_fact (F : world → Prop) : Prop := ∀ w w', F w → R w w' → F w'.

Fixpoint Rely {A} (F : world → Prop) (c : nat) (m : M A)
    (Q : outcome A → nat * (world → Prop)) : Prop :=
  match m with
  | Done o => (Q o).1 ≤ c ∧ (∀ w, F w → (Q o).2 w) ∧ stable_fact (Q o).2
  | Act f k => ∀ w, F w → R w (f w).2 ∧
      ∃ c' F', stable_fact F' ∧ F' (f w).2 ∧ Phi (f w).2 + c' ≤ Phi w + c ∧
        Rely F' c' (k (f w).1) Q
  end.

Lemma Rely_mono {A} F F' c c' (m : M A) Q :
  Rely F c m Q → c ≤ c' → (∀ w, F' w → F w) → Rely F' c' m Q.
Proof.
  revert F F' c c'. induction m as [o|X f g IH]; intros F F' c c'; simpl; intros Hm Hc HF.
  - destruct Hm as (Hle & Hfact & Hst). split_and!; [lia|auto|done].
  - intros w Hw. destruct (Hm w (HF w Hw)) as (HR & c1 & F1 & Hst & Hf1 & Hphi & Hg).
    split; [done|]. exists c1, F1. split_and!; [done|done|lia|done].
Qed.

Lemma Rely_on_outcome {A B} F c (k : outcome A → M B) m Q Q' :
  Rely F c m Q → (∀ o, Rely (Q o).2 (Q o).1 (k o) Q') → Rely F c (on_outcome k m) Q'.
Proof.
  intros Hm Hk. revert F c Hm. induction m as [o|X f g IH]; intros F c; simpl; intros Hm.
  - destruct Hm as (Hle & Hfact & _). eapply Rely_mono; [apply Hk|done|done].
  - intros w Hw. destruct (Hm w Hw) as (HR & c1 & F1 & Hst & Hf1 & Hphi & Hg).
    split; [done|]. exists c1, F1. split_and!; [done..|]. auto.
Qed.

Lemma Rely_act {A} F c (f : nat → world → outcome A * world) Q :
  (∀ o, stable_fact (Q o).2) →
  (∀ w, F w → let '(o, w') := f (w_tick w) (w <| w_tick := S (w_tick w) |>) in
        R w w' ∧ (Q o).2 w' ∧ Phi w' + (Q o).1 ≤ Phi w + c) →
  Rely F c (act f) Q.
Proof.
  intros Hst Hf w Hw. specialize (Hf w Hw). simpl in *.
  destruct (f _ _) as [o w']; simpl in *. destruct Hf as (HR & Hfact & Hphi).
  split; [done|]. exists (Q o).1, (Q o).2. by split_and!.
Qed.

(** The continuation of an error or a panic is the end. *)
Lemma Rely_bind {A B} F c (m : M A) (k : A → M B) Q q Q' :
  Rely F c m (λ o, match o with Ret a => Q a | _ => q end) →
  (∀ a, Rely (Q a).2 (Q a).1 (k a) Q') →
  (∀ e, Q' (Err e) = q) → (∀ s, Q' (Panic s) = q) → stable_fact q.2 →
  Rely F c (m ≫= k) Q'.
Proof.
  intros Hm Hk He Hs Hst. eapply Rely_on_outcome; [done|].
  intros [a|e|s]; simpl; [auto|by rewrite He|by rewrite Hs].
Qed.

Lemma Rely_attempt {A} F c (m : M A) Q q :
  Rely F c m (λ o, match o with Ret a => Q (inr a) | Err e => Q (inl e) | Panic _ => q end) →
  (∀ r, stable_fact (Q r).2) → stable_fact q.2 →
  Rely F c (attempt m) (λ o, match o with Ret r => Q r | _ => q end).
Proof.
  intros Hm HQ Hq. eapply Rely_on_outcome; [done|]. intros []; by split_and!; simpl.
Qed.

(** What never raises the measure keeps credits and facts. *)
Lemma Rely_frame {A} F c (m : M A) :
  stable_fact F → Acts (λ w w', R w w' ∧ Phi w' ≤ Phi w) m → Rely F c m (λ _, (c, F)).
Proof.
  intros HF. induction m as [o|X f g IH]; simpl; [done|]. intros Hm w Hw.
  destruct (Hm w) as [[HR Hphi] Hg]. split; [done|]. exists c, F.
  split_and!; [done|by eapply HF|lia|by apply IH].
Qed.

Lemma Rely_weaken {A} F c (m : M A) Q Q' :
  Rely F c m Q →
  (∀ o, (Q' o).1 ≤ (Q o).1 ∧ (∀ w, (Q o).2 w → (Q' o).2 w) ∧ stable_fact (Q' o).2) →
  Rely F c m Q'.
Proof.
  intros Hm HQ. revert F c Hm. induction m as [o|X f g IH]; simpl; intros F c Hm.
  - destruct Hm as (Hle & Hfact & _), (HQ o) as (Hle' & Hfact' & Hst). split_and!; [lia|auto|done].
  - intros w Hw. destruct (Hm w Hw) as (HR & c1 & F1 & Hst & Hf1 & Hphi & Hg).
    split; [done|]. exists c1, F1. split_and!; auto.
Qed.

Definition thread_relies (th : thread) (fc : (world → Prop) * nat) : Prop :=
  stable_fact fc.1 ∧ match th with Thread m => Rely fc.1 fc.2 m (λ _, (0, λ _, True)) end.

Definition total (fcs : list ((world → Prop) * nat)) : nat := sum_list (snd <$> fcs).

Lemma Rely_pool ths w ths' w' fcs :
  rtc pool_step (ths, w) (ths', w') →
  Forall2 thread_relies ths fcs → Forall (λ fc, fc.1 w) fcs →
  ∃ fcs', Forall2 thread_relies ths' fcs' ∧ Phi w' + total fcs' ≤ Phi w + total fcs.
Proof.
  intros Hsteps Hths Hfacts.
  refine (match rtc_invariant pool_step (λ p, ∃ fcs', Forall2 thread_relies p.1 fcs' ∧
            Forall (λ fc, fc.1 p.2) fcs' ∧ Phi p.2 + total fcs' ≤ Phi w + total fcs)
            (ths, w) (ths', w') _ _ Hsteps with ex_intro _ f H => _ end);
    [|by eexists|destruct H as (? & _ & ?); by exists f].
  intros [] [] (fcs1 & HF & Hf & Hle) Hstep. inversion Hstep; subst; simpl in *.
  apply Forall2_app_inv_l in HF as (f1 & f2 & HF1 & HF2 & ->).
  apply Forall2_cons_inv_l in HF2 as ([F c] & f3 & [HstF Hm] & HF2 & ->). simpl in Hm, HstF.
  apply Forall_app in Hf as [Hf1 Hf2]. apply Forall_cons in Hf2 as [HFw Hf3]. simpl in HFw.
  destruct (Hm w0 HFw) as (HR & c' & F' & HstF' & HF' & Hphi & Hk).
  exists (f1 ++ (F', c') :: f3). split_and!.
  - apply Forall2_app; [done|]. by constructor.
  - assert (∀ fcs ths, Forall2 thread_relies ths fcs → Forall (λ fc, fc.1 w0) fcs →
            Forall (λ fc, fc.1 (f w0).2) fcs) as Hpush.
    { intros fcs' ths'' HFs Hw. induction HFs as [|th fc ? ? [Hst _]]; [done|].
      apply Forall_cons in Hw as [? ?]. constructor; [by eapply Hst|auto]. }
    apply Forall_app. split; [by eapply Hpush|]. constructor; [done|by eapply Hpush].
  - unfold total in *. rewrite !fmap_app, !sum_list_with_app in *; simpl in *. lia.
Qed.
End rely.

(** ** Schedules

    A schedule names, step by step, the thread that moves; running one is a
    way to exhibit an interleaving. *)

Definition step_thread (th : thread) (w : world) : option (thread * world) :=
  match th with
  | Thread (Done _) => None
  | Thread (Act f k) => let '(x, w') := f w in Some (Thread (k x), w')
  end.

Fixpoint run_schedule (sched : list nat) (c : list thread * world) : option (list thread * world) :=
  match sched with
  | [] => Some c
  | i :: sched =>
      th ← c.1 !! i;
      '(th', w') ← step_thread th c.2;
      run_schedule sched (<[i := th']> c.1, w')
  end.

Lemma run_schedule_steps sched c c' : run_schedule sched c = Some c' → rtc pool_step c c'.
Proof.
  revert c. induction sched as [|i sched IH]; intros [ths w]; simpl; [by intros [= <-]|].
  destruct (ths !! i) as [th|] eqn:Hi; simpl; [|done].
  destruct (step_thread th w) as [[th' w']|] eqn:Hstep; simpl; [|done].
  intros Hrun%IH. eapply rtc_l; [|exact Hrun].
  rewrite <- (take_drop_middle _ _ _ Hi) at 1.
  rewrite insert_take_drop by (by eapply lookup_lt_Some).
  destruct th as [A [o|X f k]]; [done|]. simpl in Hstep.
  assert (th' = Thread (k (f w).1) ∧ w' = (f w).2) as [-> ->].
  { destruct (f w). by injection Hstep as <- <-. }
  constructor.
Qed.

(** A thread that has returned. *)
Definition returned (th : thread) : bool :=
  match th with Thread (Done (Ret _)) => true | _ => false end.
