(* ===== verification/Repository.v ===== *)
(** What the methods of [internal/repository] have in common: one statement
    that must affect a row, one row by its key, a page of a listing with its
    total; and how values change on their way into a column. *)

From S2P Require Import Prelude GoInt GoTime Pagination Model Errors World Effects Logic.

Open Scope Z_scope.

(** ** Columns

    A TIMESTAMPTZ keeps microseconds; a DATE keeps the day. *)
Definition pg_timestamptz (t : time) : time := t / 1000 * 1000.
Definition pg_date (t : time) : time := t / (24 * Hour) * (24 * Hour).

Lemma pg_timestamptz_idem t : pg_timestamptz (pg_timestamptz t) = pg_timestamptz t.
Proof. unfold pg_timestamptz. by rewrite Z.div_mul. Qed.

(** ORDER BY ... DESC on a timestamp. *)
Definition newest_first {R} (created_at : R → time) (r r' : R) : bool :=
  bool_decide (created_at r' ≤ created_at r).

(** A column that scans without loss. *)
Definition scan_ok {R} (r : R) : string + R := inr r.

(** A statement the server refuses when it parses it: whatever its arguments
    and the rows, nothing is read or written. *)
Definition db_refused {A} (msg : string) : M A := act (λ _ w, (Err (EDriver msg), w)).

(** A nullable reference compared in WHERE: NULL, stored as [uuid_Nil], is
    equal to nothing. *)
Definition sql_eq (col v : uuid) : bool := bool_decide (col = v ∧ v ≠ uuid_Nil).

Section repository.
Context `{!Externals}.

(** [_, err := Exec(...); if err != nil { return fmt.Errorf(prefix: %w) }]. *)
Definition exec_any (prefix : string) (s : stmt) : M unit :=
  wrap_err prefix (db_Exec s);; mret ().

(** The same, and [if tag.RowsAffected() == 0 { return model.ErrNotFound }]. *)
Definition exec_one (prefix : string) (s : stmt) : M unit :=
  rows ← wrap_err prefix (db_Exec s);
  if decide (rows = 0) then fail (EVar ErrNotFound) else mret ().

(** [err == pgx.ErrNoRows] becomes [model.ErrNotFound]; others are wrapped. *)
Definition query_row {R A} (prefix : string) (q : database → option R)
    (scan : R → string + A) : M A :=
  r ← attempt (db_QueryRow (λ _, q) scan);
  match r with
  | inl ENoRows => fail (EVar ErrNotFound)
  | inl e => fail (EWrap prefix e)
  | inr a => mret a
  end.

Definition query_count (prefix : string) (q : database → Z) : M Z :=
  wrap_err prefix (db_read (λ _, q)).

Definition query_rows {R A} (listing scanning : string) (q : database → option (list R))
    (scan : R → string + A) : M (list A) :=
  rows ← wrap_err listing (db_Query q);
  wrap_err scanning (db_rows scan rows).

(** COUNT of the rows, then the page [limit], [offset] of them by [le]. *)
Definition query_listing {R A} (counting listing scanning : string)
    (rows : database → list R) (le : R → R → bool) (limit offset : Z)
    (scan : R → string + A) : M (list A * Z) :=
  total ← query_count counting (λ db, Z.of_nat (length (rows db)));
  l ← query_rows listing scanning (λ db, sql_page limit offset (order_by le (rows db))) scan;
  mret (l, total).
End repository.
