(* ===== verification/RepoPayments.v ===== *)
(** The repositories of money: [idempotency_repo.go], [transaction_repo.go],
    [payment_method_repo.go], [subscription_repo.go], [invoice_repo.go],
    [payout_repo.go] and [dispute_repo.go] of [internal/repository].

    A definition [XRepo_Method] is the method [Method] of [XRepo]; [x_row] is
    the row an INSERT stores, [x_set] what an UPDATE does to the row it finds
    (only the columns it names). *)

From S2P Require Import Prelude GoInt GoTime Pagination Model Errors World Effects Repository.

Open Scope Z_scope.

(** ** Rows *)

Definition idempotency_row (id : Z) (t : time) (key : string) (merchant : uuid) : IdempotencyKey :=
  MkIdempotencyKey id key (Some "{}") 0 merchant t (t + 24 * Hour).

Definition transaction_row (t : time) (x : Transaction) : Transaction :=
  x <| tx_ProcessedAt := pg_timestamptz <$> tx_ProcessedAt x |>
    <| tx_CreatedAt := t |> <| tx_UpdatedAt := t |>.

Definition transaction_set (t : time) (x row : Transaction) : Transaction :=
  row <| tx_Provider := tx_Provider x |>
      <| tx_ProviderTransactionID := tx_ProviderTransactionID x |>
      <| tx_Status := tx_Status x |>
      <| tx_ErrorCode := tx_ErrorCode x |>
      <| tx_ErrorMessage := tx_ErrorMessage x |>
      <| tx_FeeAmount := tx_FeeAmount x |>
      <| tx_NetAmount := tx_NetAmount x |>
      <| tx_ProcessedAt := pg_timestamptz <$> tx_ProcessedAt x |>
      <| tx_UpdatedAt := t |>.

Definition payment_method_row (t : time) (x : PaymentMethod) : PaymentMethod :=
  x <| pm_CreatedAt := t |> <| pm_UpdatedAt := t |>.

Definition subscription_row (t : time) (x : Subscription) : Subscription :=
  x <| sub_CurrentPeriodStart := pg_timestamptz (sub_CurrentPeriodStart x) |>
    <| sub_CurrentPeriodEnd := pg_timestamptz (sub_CurrentPeriodEnd x) |>
    <| sub_CancelAt := pg_timestamptz <$> sub_CancelAt x |>
    <| sub_CancelledAt := pg_timestamptz <$> sub_CancelledAt x |>
    <| sub_TrialStart := pg_timestamptz <$> sub_TrialStart x |>
    <| sub_TrialEnd := pg_timestamptz <$> sub_TrialEnd x |>
    <| sub_CreatedAt := t |> <| sub_UpdatedAt := t |>.

(** The UPDATE names every column but the identity of the row, its owner and
    its creation time. *)
Definition subscription_set (t : time) (x row : Subscription) : Subscription :=
  (subscription_row t x)
    <| sub_ID := sub_ID row |> <| sub_MerchantID := sub_MerchantID row |>
    <| sub_CustomerID := sub_CustomerID row |> <| sub_CreatedAt := sub_CreatedAt row |>.

Definition invoice_row (t : time) (x : Invoice) : Invoice :=
  x <| inv_DueDate := pg_date (inv_DueDate x) |>
    <| inv_PaidAt := pg_timestamptz <$> inv_PaidAt x |>
    <| inv_PeriodStart := pg_timestamptz (inv_PeriodStart x) |>
    <| inv_PeriodEnd := pg_timestamptz (inv_PeriodEnd x) |>
    <| inv_CreatedAt := t |> <| inv_UpdatedAt := t |>.

Definition payout_row (t : time) (x : Payout) : Payout :=
  x <| po_ArrivalDate := pg_date <$> po_ArrivalDate x |>
    <| po_CreatedAt := t |> <| po_UpdatedAt := t |>.

Definition dispute_row (t : time) (x : Dispute) : Dispute :=
  x <| dp_EvidenceDeadline := pg_timestamptz <$> dp_EvidenceDeadline x |>
    <| dp_EvidenceSubmittedAt := pg_timestamptz <$> dp_EvidenceSubmittedAt x |>
    <| dp_CreatedAt := t |> <| dp_UpdatedAt := t |>.

(** Deleting a payment method: [transactions.payment_method_id] references it
    ON DELETE SET NULL, which fires the table's update trigger. *)
Definition delete_payment_method (t : time) (id : uuid) (db : database) : database :=
  db <| db_payment_methods := delete id (db_payment_methods db) |>
     <| db_transactions :=
          (λ x, if decide (tx_PaymentMethodID x = id)
                then x <| tx_PaymentMethodID := uuid_Nil |> <| tx_UpdatedAt := t |> else x)
            <$> db_transactions db |>.

Section repositories.
Context `{!Externals}.

(** ** idempotency_repo.go

    ON CONFLICT DO NOTHING: a key already there, expired or not, affects no
    row.  The surrogate [id] is read by nothing. *)
Definition insert_idempotency_key (key : string) (merchant : uuid) : stmt := λ t db,
  match db_idempotency_keys db !! key with
  | Some _ => Some (db, 0)
  | None =>
      let row := idempotency_row (Z.of_nat (S (size (db_idempotency_keys db)))) t key merchant in
      Some (db <| db_idempotency_keys := <[key := row]> (db_idempotency_keys db) |>, 1)
  end.

Definition IdempotencyRepo_CheckAndSave (key merchantID : string) : M bool :=
  rows ← wrap_err "idempotency: save" (
    match pg_uuid_in merchantID with
    | None => fail (EDriver "invalid input syntax for type uuid")
    | Some merchant => db_Exec (insert_idempotency_key key merchant)
    end);
  mret (bool_decide (rows ≠ 0)).

(** ** transaction_repo.go *)

Definition TransactionRepo_Create (x : Transaction) : M unit :=
  exec_any "insert transaction" (λ t,
    on_table db_transactions (row_insert (tx_ID x) (transaction_row t x))).

Definition TransactionRepo_GetByID (id : uuid) : M Transaction :=
  query_row "query transaction by id" (λ db, db_transactions db !! id) scan_ok.

Definition transactions_of (merchantID : uuid) (db : database) : list Transaction :=
  rows_where (λ x, bool_decide (tx_MerchantID x = merchantID)) (db_transactions db).

Definition TransactionRepo_ListByMerchant (merchantID : uuid) (page pageSize : Z)
    : M (list Transaction * Z) :=
  query_listing "count transactions" "list transactions" "scan transaction"
    (transactions_of merchantID) (newest_first tx_CreatedAt)
    pageSize (repo_offset page pageSize) scan_ok.

Definition TransactionRepo_Update (x : Transaction) : M unit :=
  exec_one "update transaction" (λ t,
    on_table db_transactions (row_update (tx_ID x) (transaction_set t x))).

Definition TransactionRepo_UpdateStatus (id : uuid) (status : TransactionStatus) : M unit :=
  exec_one "update transaction status" (λ t,
    on_table db_transactions (row_update id
      (λ row, row <| tx_Status := status |> <| tx_UpdatedAt := t |>))).

(** ** payment_method_repo.go *)

Definition PaymentMethodRepo_Create (x : PaymentMethod) : M unit :=
  db_Exec (λ t, on_table db_payment_methods (row_insert (pm_ID x) (payment_method_row t x)));;
  mret ().

Definition PaymentMethodRepo_GetByID (id : uuid) : M PaymentMethod :=
  query_row "query payment method by id" (λ db, db_payment_methods db !! id) scan_ok.

(** ORDER BY is_default DESC, created_at DESC. *)
Definition default_first (x y : PaymentMethod) : bool :=
  if decide (pm_IsDefault x = pm_IsDefault y) then newest_first pm_CreatedAt x y
  else pm_IsDefault x.

Definition PaymentMethodRepo_ListByCustomer (customerID : uuid) : M (list PaymentMethod) :=
  query_rows "list payment methods" "scan payment method"
    (λ db, Some (order_by default_first
      (rows_where (λ x, sql_eq (pm_CustomerID x) customerID) (db_payment_methods db))))
    scan_ok.

Definition PaymentMethodRepo_Delete (id : uuid) : M unit :=
  exec_one "delete payment method" (λ t db,
    match db_payment_methods db !! id with
    | Some _ => Some (delete_payment_method t id db, 1)
    | None => Some (db, 0)
    end).

(** ** subscription_repo.go *)

Definition SubscriptionRepo_Create (x : Subscription) : M unit :=
  exec_any "insert subscription" (λ t,
    on_table db_subscriptions (row_insert (sub_ID x) (subscription_row t x))).

Definition SubscriptionRepo_GetByID (id : uuid) : M Subscription :=
  query_row "query subscription by id" (λ db, db_subscriptions db !! id) scan_ok.

Definition SubscriptionRepo_ListByMerchant (merchantID : uuid) (page pageSize : Z)
    : M (list Subscription * Z) :=
  query_listing "count subscriptions" "list subscriptions" "scan subscription"
    (λ db, rows_where (λ x, bool_decide (sub_MerchantID x = merchantID)) (db_subscriptions db))
    (newest_first sub_CreatedAt) pageSize (repo_offset page pageSize) scan_ok.

Definition SubscriptionRepo_Update (x : Subscription) : M unit :=
  exec_one "update subscription" (λ t,
    on_table db_subscriptions (row_update (sub_ID x) (subscription_set t x))).

Definition set_subscription_status (prefix : string) (id : uuid) (status : SubscriptionStatus)
    : M unit :=
  exec_one prefix (λ t,
    on_table db_subscriptions (row_update id
      (λ row, row <| sub_Status := status |> <| sub_UpdatedAt := t |>))).

Definition SubscriptionRepo_UpdateStatus : uuid → SubscriptionStatus → M unit :=
  set_subscription_status "update subscription status".

Definition SubscriptionRepo_Delete (id : uuid) : M unit :=
  set_subscription_status "soft delete subscription" id SubscriptionStatusCancelled.

(** ** invoice_repo.go *)

Definition InvoiceRepo_Create (x : Invoice) : M unit :=
  exec_any "insert invoice" (λ t,
    on_table db_invoices (row_insert (inv_ID x) (invoice_row t x))).

Definition InvoiceRepo_GetByID (id : uuid) : M Invoice :=
  query_row "query invoice by id" (λ db, db_invoices db !! id) scan_ok.

Definition InvoiceRepo_ListByMerchant (merchantID : uuid) (page pageSize : Z)
    : M (list Invoice * Z) :=
  query_listing "count invoices" "list invoices" "scan invoice"
    (λ db, rows_where (λ x, bool_decide (inv_MerchantID x = merchantID)) (db_invoices db))
    (newest_first inv_CreatedAt) pageSize (repo_offset page pageSize) scan_ok.

Definition InvoiceRepo_UpdateStatus (id : uuid) (status : InvoiceStatus) : M unit :=
  exec_one "update invoice status" (λ t,
    on_table db_invoices (row_update id
      (λ row, row <| inv_Status := status |> <| inv_UpdatedAt := t |>))).

(** ** payout_repo.go *)

Definition PayoutRepo_Create (x : Payout) : M unit :=
  exec_any "insert payout" (λ t,
    on_table db_payouts (row_insert (po_ID x) (payout_row t x))).

Definition PayoutRepo_GetByID (id : uuid) : M Payout :=
  query_row "query payout by id" (λ db, db_payouts db !! id) scan_ok.

Definition PayoutRepo_ListByMerchant (merchantID : uuid) (page pageSize : Z)
    : M (list Payout * Z) :=
  query_listing "count payouts" "list payouts" "scan payout"
    (λ db, rows_where (λ x, bool_decide (po_MerchantID x = merchantID)) (db_payouts db))
    (newest_first po_CreatedAt) pageSize (repo_offset page pageSize) scan_ok.

Definition PayoutRepo_UpdateStatus (id : uuid) (status : PayoutStatus) : M unit :=
  exec_one "update payout status" (λ t,
    on_table db_payouts (row_update id
      (λ row, row <| po_Status := status |> <| po_UpdatedAt := t |>))).

(** ** dispute_repo.go *)

Definition DisputeRepo_Create (x : Dispute) : M unit :=
  exec_any "insert dispute" (λ t,
    on_table db_disputes (row_insert (dp_ID x) (dispute_row t x))).

Definition DisputeRepo_GetByID (id : uuid) : M Dispute :=
  query_row "query dispute by id" (λ db, db_disputes db !! id) scan_ok.

Definition DisputeRepo_ListByMerchant (merchantID : uuid) (page pageSize : Z)
    : M (list Dispute * Z) :=
  query_listing "count disputes" "list disputes" "scan dispute"
    (λ db, rows_where (λ x, bool_decide (dp_MerchantID x = merchantID)) (db_disputes db))
    (newest_first dp_CreatedAt) pageSize (repo_offset page pageSize) scan_ok.

Definition DisputeRepo_UpdateEvidence (id : uuid) (evidence : RawMessage) : M unit :=
  exec_one "update dispute evidence" (λ t,
    on_table db_disputes (row_update id
      (λ row, row <| dp_Evidence := evidence |> <| dp_UpdatedAt := t |>))).

Definition DisputeRepo_UpdateStatus (id : uuid) (status : DisputeStatus) : M unit :=
  exec_one "update dispute status" (λ t,
    on_table db_disputes (row_update id
      (λ row, row <| dp_Status := status |> <| dp_UpdatedAt := t |>))).
End repositories.
