(* ===== verification/RepoAccounts.v ===== *)
(** The other repositories of [internal/repository]: merchants, customers,
    users and products; webhook configurations and deliveries, provider
    configurations, the audit log.  Names as in [RepoPayments.v]. *)

From S2P Require Import Prelude GoInt GoTime Pagination Model Errors World Effects Repository.

Open Scope Z_scope.

(** ** Rows *)

Definition merchant_row (t : time) (x : Merchant) : Merchant :=
  x <| me_CreatedAt := t |> <| me_UpdatedAt := t |> <| me_DeletedAt := None |>.

Definition merchant_set (t : time) (x row : Merchant) : Merchant :=
  x <| me_ID := me_ID row |> <| me_CreatedAt := me_CreatedAt row |>
    <| me_UpdatedAt := t |> <| me_DeletedAt := me_DeletedAt row |>.

(** The defaults [MerchantRepo.Create] writes into its argument. *)
Definition merchant_defaults (x : Merchant) : Merchant :=
  let x := if decide (me_Timezone x = "") then x <| me_Timezone := "UTC" |> else x in
  let x := if decide (me_Branding x = None) then x <| me_Branding := Some "{}" |> else x in
  if decide (me_Settings x = None) then x <| me_Settings := Some "{}" |> else x.

(** An empty [ExternalID] is stored as NULL. *)
Definition customer_row (t : time) (x : Customer) : CustomerRow :=
  MkCustomerRow (cu_ID x) (cu_MerchantID x)
    (if decide (cu_ExternalID x = "") then None else Some (cu_ExternalID x))
    (cu_Name x) (cu_Email x) (cu_Phone x) (cu_Metadata x) t t.

(** The scan into a Go [string] refuses NULL. *)
Definition scan_customer (r : CustomerRow) : string + Customer :=
  match cr_external_id r with
  | None => inl "cannot scan NULL into *string"
  | Some external =>
      inr (MkCustomer (cr_id r) (cr_merchant_id r) external (cr_name r) (cr_email r)
             (cr_phone r) (cr_metadata r) (cr_created_at r) (cr_updated_at r) None)
  end.

Definition customer_set (t : time) (x : Customer) (row : CustomerRow) : CustomerRow :=
  row <| cr_name := cu_Name x |> <| cr_email := cu_Email x |> <| cr_phone := cu_Phone x |>
      <| cr_metadata := cu_Metadata x |> <| cr_updated_at := t |>.

(** Deleting a customer: [payment_methods.customer_id] and
    [transactions.customer_id] reference it ON DELETE SET NULL, which fires the
    tables' update triggers. *)
Definition delete_customer (t : time) (id : uuid) (db : database) : database :=
  db <| db_customers := delete id (db_customers db) |>
     <| db_payment_methods :=
          (λ x, if decide (pm_CustomerID x = id)
                then x <| pm_CustomerID := uuid_Nil |> <| pm_UpdatedAt := t |> else x)
            <$> db_payment_methods db |>
     <| db_transactions :=
          (λ x, if decide (tx_CustomerID x = id)
                then x <| tx_CustomerID := uuid_Nil |> <| tx_UpdatedAt := t |> else x)
            <$> db_transactions db |>.

(** [uuid.Nil] is stored as NULL; the timestamps default to [now()]. *)
Definition user_row (t : time) (x : User) : UserRow :=
  MkUserRow (x <| us_CreatedAt := t |> <| us_UpdatedAt := t |>)
    (if decide (us_MerchantID x = uuid_Nil) then None else Some (us_MerchantID x)).

(** NULL leaves the field of the fresh [User] at [uuid.Nil]. *)
Definition scan_user (r : UserRow) : string + User :=
  inr ((ur_user r) <| us_MerchantID := default uuid_Nil (ur_merchant_id r) |>).

Definition user_set (t : time) (x : User) (row : UserRow) : UserRow :=
  row <| ur_user := (ur_user row) <| us_Name := us_Name x |> <| us_Role := us_Role x |>
        <| us_IsActive := us_IsActive x |> <| us_MfaEnabled := us_MfaEnabled x |>
        <| us_MfaSecret := us_MfaSecret x |> <| us_Email := us_Email x |>
        <| us_UpdatedAt := t |> |>.

Definition webhook_config_row (t : time) (x : WebhookConfig) : WebhookConfig :=
  x <| wc_CreatedAt := t |> <| wc_UpdatedAt := t |>.

Definition webhook_config_set (t : time) (x row : WebhookConfig) : WebhookConfig :=
  row <| wc_URL := wc_URL x |> <| wc_Secret := wc_Secret x |> <| wc_Events := wc_Events x |>
      <| wc_IsActive := wc_IsActive x |> <| wc_Metadata := wc_Metadata x |>
      <| wc_UpdatedAt := t |>.

(** [webhook_deliveries.webhook_id] references the configuration ON DELETE
    CASCADE. *)
Definition delete_webhook_config (id : uuid) (db : database) : database :=
  db <| db_webhook_configs := delete id (db_webhook_configs db) |>
     <| db_webhook_deliveries :=
          filter (λ kd, wd_WebhookID kd.2 ≠ id) (db_webhook_deliveries db) |>.

Definition webhook_delivery_row (t : time) (x : WebhookDelivery) : WebhookDelivery :=
  x <| wd_CompletedAt := pg_timestamptz <$> wd_CompletedAt x |>
    <| wd_CreatedAt := t |> <| wd_UpdatedAt := t |>.

(** The INSERT does not name [last_health_check]. *)
Definition provider_config_row (t : time) (x : ProviderConfig) : ProviderConfig :=
  x <| pc_LastHealthCheck := None |> <| pc_CreatedAt := t |> <| pc_UpdatedAt := t |>.

Definition provider_config_set (t : time) (x row : ProviderConfig) : ProviderConfig :=
  row <| pc_IsActive := pc_IsActive x |> <| pc_Config := pc_Config x |>
      <| pc_FallbackOrder := pc_FallbackOrder x |> <| pc_HealthStatus := pc_HealthStatus x |>
      <| pc_LastHealthCheck := pg_timestamptz <$> pc_LastHealthCheck x |>
      <| pc_Metadata := pc_Metadata x |> <| pc_UpdatedAt := t |>.

Section repositories.
Context `{!Externals}.

(** ** merchant_repo.go

    [Create] changes the merchant it is given: it is the result here. *)
Definition MerchantRepo_Create (x : Merchant) : M Merchant :=
  let x := merchant_defaults x in
  exec_any "create merchant" (λ t,
    on_table db_merchants (row_insert (me_ID x) (merchant_row t x)));;
  mret x.

(** [deleted_at] is not selected; nothing sets it. *)
Definition scan_merchant (r : Merchant) : string + Merchant :=
  inr (r <| me_DeletedAt := None |>).

Definition MerchantRepo_GetByID (id : uuid) : M Merchant :=
  query_row "query merchant by id" (λ db, db_merchants db !! id) scan_merchant.

Definition MerchantRepo_List (page pageSize : Z) : M (list Merchant * Z) :=
  query_listing "count merchants" "list merchants" "scan merchant"
    (λ db, rows_where (λ _, true) (db_merchants db)) (newest_first me_CreatedAt)
    pageSize (repo_offset page pageSize) scan_merchant.

Definition MerchantRepo_Update (x : Merchant) : M unit :=
  exec_one "update merchant" (λ t,
    on_table db_merchants (row_update (me_ID x) (merchant_set t x))).

(** ** customer_repo.go *)

Definition CustomerRepo_Create (x : Customer) : M unit :=
  db_Exec (λ t, on_table db_customers (row_insert (cu_ID x) (customer_row t x)));; mret ().

Definition CustomerRepo_GetByID (id : uuid) : M Customer :=
  query_row "query customer by id" (λ db, db_customers db !! id) scan_customer.

Definition CustomerRepo_ListByMerchant (merchantID : uuid) (page pageSize : Z)
    : M (list Customer * Z) :=
  query_listing "count customers" "list customers" "scan customer"
    (λ db, rows_where (λ x, bool_decide (cr_merchant_id x = merchantID)) (db_customers db))
    (newest_first cr_created_at) pageSize (repo_offset page pageSize) scan_customer.

Definition CustomerRepo_Update (x : Customer) : M unit :=
  exec_one "update customer" (λ t,
    on_table db_customers (row_update (cu_ID x) (customer_set t x))).

Definition CustomerRepo_Delete (id : uuid) : M unit :=
  exec_one "delete customer" (λ t db,
    match db_customers db !! id with
    | Some _ => Some (delete_customer t id db, 1)
    | None => Some (db, 0)
    end).

(** ** user_repo.go *)

Definition UserRepo_Create (x : User) : M unit :=
  db_Exec (λ t, on_table db_users (row_insert (us_ID x) (user_row t x)));; mret ().

Definition UserRepo_GetByID (id : uuid) : M User :=
  query_row "query user by id" (λ db, db_users db !! id) scan_user.

(** At most one row: [email] has a unique index. *)
Definition UserRepo_GetByEmail (email : string) : M User :=
  query_row "query user by email"
    (λ db, head (rows_where (λ x, bool_decide (us_Email (ur_user x) = email)) (db_users db)))
    scan_user.

Definition UserRepo_Update (x : User) : M unit :=
  exec_one "update user" (λ t,
    on_table db_users (row_update (us_ID x) (user_set t x))).

Definition UserRepo_ListByMerchant (merchantID : uuid) (page pageSize : Z)
    : M (list User * Z) :=
  query_listing "count users" "list users" "scan user"
    (λ db, rows_where (λ x, bool_decide (ur_merchant_id x = Some merchantID)) (db_users db))
    (newest_first (λ x, us_CreatedAt (ur_user x)))
    pageSize (repo_offset page pageSize) scan_user.

Definition UserRepo_Delete (id : uuid) : M unit :=
  exec_one "delete user" (λ _, on_table db_users (row_delete id)).

(** ** product_repo.go

    Identifiers are strings here, and UUIDs in the table. *)
Definition with_uuid {A} (s : string) (k : uuid → M A) : M A :=
  match pg_uuid_in s with
  | Some id => k id
  | None => fail (EDriver "invalid input syntax for type uuid")
  end.

(** The stored identifiers print in canonical form. *)
Definition product_row (t : time) (id merchant : uuid) (x : Product) : Product :=
  x <| pd_ID := uuid_String id |> <| pd_MerchantID := uuid_String merchant |>
    <| pd_CreatedAt := t |> <| pd_UpdatedAt := t |> <| pd_DeletedAt := None |>.

Definition product_set (t : time) (x row : Product) : Product :=
  row <| pd_Name := pd_Name x |> <| pd_Description := pd_Description x |>
      <| pd_Price := pd_Price x |> <| pd_Currency := pd_Currency x |>
      <| pd_Status := pd_Status x |> <| pd_Metadata := pd_Metadata x |>
      <| pd_UpdatedAt := t |>.

(** [merchant_id = $2 AND deleted_at IS NULL]. *)
Definition live_product_of (merchant : uuid) (x : Product) : bool :=
  bool_decide (pd_MerchantID x = uuid_String merchant) && bool_decide (pd_DeletedAt x = None).

Definition ProductRepo_Create (x : Product) : M unit :=
  wrap_err "create product" (
    with_uuid (pd_ID x) (λ id, with_uuid (pd_MerchantID x) (λ merchant,
      db_Exec (λ t, on_table db_products (row_insert id (product_row t id merchant x))))));;
  mret ().

Definition find_product (id merchant : uuid) (db : database) : option Product :=
  x ← db_products db !! id; if live_product_of merchant x then Some x else None.

Definition ProductRepo_GetByID (id merchantID : string) : M Product :=
  r ← attempt (with_uuid id (λ id, with_uuid merchantID (λ merchant,
        db_QueryRow (λ _, find_product id merchant) scan_ok)));
  match r with
  | inl ENoRows => fail (EVar ErrNotFound)
  | inl e => fail (EWrap "query product by id" e)
  | inr x => mret x
  end.

Definition ProductRepo_ListByMerchant (merchantID : string) (limit offset : Z)
    : M (list Product * Z) :=
  match pg_uuid_in merchantID with
  | None => fail (EWrap "count products" (EDriver "invalid input syntax for type uuid"))
  | Some merchant =>
      query_listing "count products" "list products" "scan product"
        (λ db, rows_where (live_product_of merchant) (db_products db))
        (newest_first pd_CreatedAt) limit offset scan_ok
  end.

(** UPDATE ... WHERE id AND merchant_id AND deleted_at IS NULL. *)
Definition product_exec (prefix : string) (id merchantID : string)
    (f : time → Product → Product) : M unit :=
  rows ← wrap_err prefix (
    with_uuid id (λ id, with_uuid merchantID (λ merchant,
      db_Exec (λ t db, match find_product id merchant db with
                       | Some _ => on_table db_products (row_update id (f t)) db
                       | None => Some (db, 0)
                       end))));
  if decide (rows = 0) then fail (EVar ErrNotFound) else mret ().

Definition ProductRepo_Update (x : Product) : M unit :=
  product_exec "update product" (pd_ID x) (pd_MerchantID x) (λ t, product_set t x).

(** The trigger on the table sets [updated_at] here as well. *)
Definition ProductRepo_Delete (id merchantID : string) : M unit :=
  deleted_at ← now;
  product_exec "delete product" id merchantID (λ t row,
    row <| pd_DeletedAt := Some (pg_timestamptz deleted_at) |> <| pd_UpdatedAt := t |>).

(** ** webhook_config_repo.go *)

Definition WebhookConfigRepo_Create (x : WebhookConfig) : M unit :=
  exec_any "insert webhook config" (λ t,
    on_table db_webhook_configs (row_insert (wc_ID x) (webhook_config_row t x))).

Definition WebhookConfigRepo_GetByID (id : uuid) : M WebhookConfig :=
  query_row "query webhook config by id" (λ db, db_webhook_configs db !! id) scan_ok.

Definition WebhookConfigRepo_ListByMerchant (merchantID : uuid) : M (list WebhookConfig) :=
  query_rows "list webhook configs" "scan webhook config"
    (λ db, Some (order_by (newest_first wc_CreatedAt)
      (rows_where (λ x, bool_decide (wc_MerchantID x = merchantID)) (db_webhook_configs db))))
    scan_ok.

Definition WebhookConfigRepo_Update (x : WebhookConfig) : M unit :=
  exec_one "update webhook config" (λ t,
    on_table db_webhook_configs (row_update (wc_ID x) (webhook_config_set t x))).

Definition WebhookConfigRepo_Delete (id : uuid) : M unit :=
  exec_one "delete webhook config" (λ _ db,
    match db_webhook_configs db !! id with
    | Some _ => Some (delete_webhook_config id db, 1)
    | None => Some (db, 0)
    end).

(** ** webhook_delivery_repo.go *)

Definition WebhookDeliveryRepo_Create (x : WebhookDelivery) : M unit :=
  exec_any "insert webhook delivery" (λ t,
    on_table db_webhook_deliveries (row_insert (wd_ID x) (webhook_delivery_row t x))).

(** PostgreSQL never executes this UPDATE: [$2] is text where it is compared
    with the literals of [$2 IN ('delivered', 'failed')] and VARCHAR(20) where it
    is assigned to [status], and a parameter has one type (error 42P08). *)
Definition WebhookDeliveryRepo_UpdateStatus (id : uuid) (status : WebhookDeliveryStatus)
    (responseCode : Z) (responseBody lastError : string) : M unit :=
  wrap_err "update webhook delivery status"
    (db_refused "inconsistent types deduced for parameter $2").

Definition WebhookDeliveryRepo_GetByID (id : uuid) : M WebhookDelivery :=
  query_row "query webhook delivery by id" (λ db, db_webhook_deliveries db !! id) scan_ok.

(** The offset is used as given: a negative one makes the query fail. *)
Definition WebhookDeliveryRepo_ListByMerchant (merchantID : uuid) (limit offset : Z)
    : M (list WebhookDelivery * Z) :=
  query_listing "count webhook deliveries" "list webhook deliveries" "scan webhook delivery"
    (λ db, rows_where (λ x, bool_decide (wd_MerchantID x = merchantID))
             (db_webhook_deliveries db))
    (newest_first wd_CreatedAt) limit offset scan_ok.

(** ** provider_config_repo.go *)

Definition ProviderConfigRepo_Create (x : ProviderConfig) : M unit :=
  exec_any "insert provider config" (λ t,
    on_table db_provider_configs (row_insert (pc_ID x) (provider_config_row t x))).

Definition ProviderConfigRepo_GetByID (id : uuid) : M ProviderConfig :=
  query_row "query provider config by id" (λ db, db_provider_configs db !! id) scan_ok.

(** ORDER BY fallback_order ASC, created_at DESC. *)
Definition fallback_first (x y : ProviderConfig) : bool :=
  if decide (pc_FallbackOrder x = pc_FallbackOrder y) then newest_first pc_CreatedAt x y
  else bool_decide (pc_FallbackOrder x ≤ pc_FallbackOrder y).

Definition ProviderConfigRepo_ListByMerchant (merchantID : uuid) : M (list ProviderConfig) :=
  query_rows "list provider configs" "scan provider config"
    (λ db, Some (order_by fallback_first
      (rows_where (λ x, bool_decide (pc_MerchantID x = merchantID)) (db_provider_configs db))))
    scan_ok.

Definition ProviderConfigRepo_Update (x : ProviderConfig) : M unit :=
  exec_one "update provider config" (λ t,
    on_table db_provider_configs (row_update (pc_ID x) (provider_config_set t x))).

Definition ProviderConfigRepo_Delete (id : uuid) : M unit :=
  exec_one "delete provider config" (λ _, on_table db_provider_configs (row_delete id)).

(** ** audit_log_repo.go

    Errors are returned as they are, and the offset is not clamped. *)
Definition AuditLogRepo_Create (x : AuditLog) : M unit :=
  db_Exec (λ t db, Some (db <| db_audit_logs :=
    db_audit_logs db ++ [x <| al_CreatedAt := t |>] |>, 1));;
  mret ().

Definition AuditLogRepo_ListByMerchant (merchantID : uuid) (page pageSize : Z)
    : M (list AuditLog * Z) :=
  let logs db := List.filter (λ x, bool_decide (al_MerchantID x = merchantID)) (db_audit_logs db) in
  total ← db_read (λ _ db, Z.of_nat (length (logs db)));
  let offset := mul64 (sub64 page 1) pageSize in
  rows ← db_Query (λ db,
    sql_page pageSize offset (order_by (newest_first al_CreatedAt) (logs db)));
  l ← db_rows scan_ok rows;
  mret (l, total).
End repositories.
