(* ===== verification/GoFloat.v ===== *)
(** Go's [float64]: IEEE 754 binary64 with rounding to nearest even, from the
    Standard Library's executable specification of floating point.  A product
    and a sum are rounded one after the other, as the compiler does on amd64. *)

From Stdlib Require Import Floats.SpecFloat.
From S2P Require Import Prelude GoInt.

Open Scope Z_scope.

Definition float64 : Type := spec_float.

Definition prec : Z := 53.
Definition emax : Z := 1024.

(** [float64(z)] *)
Definition float64_of_int (z : Z) : float64 := binary_normalize prec emax z 0 false.

Definition fmul (x y : float64) : float64 := SFmul prec emax x y.
Definition fadd (x y : float64) : float64 := SFadd prec emax x y.

(** [strconv.ParseFloat] on the text of a JSON number that is not written as an
    integer. *)
Class FloatText := { parse_float : string → float64 }.

(** [int64(x)]: truncation; a value out of range gives the least integer, as
    the amd64 conversion does. *)
Definition int64_of_float (x : float64) : Z :=
  match x with
  | S754_zero _ => 0
  | S754_finite s m e =>
      let n := if decide (0 ≤ e) then Z.pos m * 2 ^ e else Z.pos m / 2 ^ (- e) in
      let n := if (s : bool) then - n else n in
      if decide (int64_min ≤ n ≤ int64_max) then n else int64_min
  | S754_infinity _ | S754_nan => int64_min
  end.

(** The constants of the fee schedules: the floats nearest to 0.029 and 0.01. *)
Definition float_0_029 : float64 := S754_finite false 8358680908399641 (-58).
Definition float_0_01 : float64 := S754_finite false 5764607523034235 (-59).

Lemma float_0_029_nearest :
  (Z.abs (8358680908399641 * 1000 - 29 * 2 ^ 58) * 2 ≤ 1000)%Z.
Proof. vm_compute. discriminate. Qed.
Lemma float_0_01_nearest :
  (Z.abs (5764607523034235 * 100 - 2 ^ 59) * 2 ≤ 100)%Z.
Proof. vm_compute. discriminate. Qed.

Lemma int64_of_float_range x : in_int64 (int64_of_float x).
Proof.
  unfold int64_of_float, in_int64, int64_min, int64_max.
  destruct x; try lia. case_decide; case_decide; lia.
Qed.

(** ** Integers of 53 bits are exact *)

Lemma digits2_pos_log2 p : Z.pos (digits2_pos p) = Z.log2 (Z.pos p) + 1.
Proof.
  induction p as [p IH|p IH|]; [..|done]; cbn [digits2_pos]; rewrite Pos2Z.inj_succ, IH.
  - rewrite (Pos2Z.inj_xI p), Z.log2_succ_double by lia. lia.
  - rewrite (Pos2Z.inj_xO p), Z.log2_double by lia. lia.
Qed.

Lemma digits2_pos_shift p k :
  Z.pos (digits2_pos (Pos.iter xO p k)) = Z.pos (digits2_pos p) + Z.pos k.
Proof.
  induction k as [|k IH] using Pos.peano_ind; [simpl; lia|].
  rewrite Pos.iter_succ. cbn [digits2_pos]. lia.
Qed.

Lemma pos_shift p k : Z.pos (Pos.iter xO p k) = Z.pos p * 2 ^ Z.pos k.
Proof.
  induction k as [|k IH] using Pos.peano_ind; [simpl; lia|].
  rewrite Pos.iter_succ, Pos2Z.inj_xO, IH, Pos2Z.inj_succ, Z.pow_succ_r by lia. lia.
Qed.

(** A mantissa of 53 bits is not rounded. *)
Lemma round_53 s m e :
  Z.pos (digits2_pos m) = 53 → -1000 ≤ e ≤ 0 →
  binary_round_aux prec emax s (Z.pos m) e loc_Exact = S754_finite s m e.
Proof.
  intros Hm He.
  assert (shr_fexp prec emax (Z.pos m) e loc_Exact = (Build_shr_record (Z.pos m) false false, e)) as Hshr.
  { unfold shr_fexp, fexp, emin, prec, emax. cbn [Zdigits2]. rewrite Hm.
    replace (Z.max (53 + e - 53) (3 - 1024 - 53) - e) with 0 by lia. done. }
  unfold binary_round_aux. rewrite Hshr. cbn -[shr_fexp prec emax]. rewrite Hshr. cbn -[prec emax].
  by rewrite (proj2 (Z.leb_le e (emax - prec))) by (unfold emax, prec; lia).
Qed.

Lemma round_small s p :
  Z.pos p < 2 ^ 53 →
  ∃ m e, binary_round prec emax s p 0 = S754_finite s m e ∧ e ≤ 0 ∧ Z.pos m = Z.pos p * 2 ^ (- e).
Proof.
  intros Hp. set (d := Z.pos (digits2_pos p)).
  assert (1 ≤ d ≤ 53) as Hd.
  { unfold d. split; [lia|]. rewrite digits2_pos_log2.
    apply Z.log2_lt_pow2 in Hp; lia. }
  unfold binary_round. fold d.
  replace (fexp prec emax (d + 0)) with (d - 53) by (unfold fexp, emin, prec, emax; lia).
  unfold shl_align. rewrite Z.sub_0_r. destruct (d - 53) as [|k|k] eqn:Hk; [|lia|].
  - exists p, 0. rewrite (round_53 s p 0) by lia. split; [done|]. split; [done|]. simpl. lia.
  - exists (Pos.iter xO p k), (Z.neg k). rewrite round_53; [|rewrite digits2_pos_shift; lia|lia].
    split; [done|]. split; [lia|]. by rewrite pos_shift.
Qed.

Lemma int64_of_shifted s p m e :
  e ≤ 0 → Z.pos p < 2 ^ 53 → Z.pos m = Z.pos p * 2 ^ (- e) →
  int64_of_float (S754_finite s m e) = if s : bool then Z.neg p else Z.pos p.
Proof.
  intros He Hp Hm. unfold int64_of_float.
  assert ((if decide (0 ≤ e) then Z.pos m * 2 ^ e else Z.pos m / 2 ^ (- e)) = Z.pos p) as ->.
  { rewrite Hm. case_decide; [replace e with 0 by lia; simpl; lia|].
    apply Z.div_mul. assert (0 < 2 ^ (- e)) by (apply Z.pow_pos_nonneg; lia). lia. }
  cbv zeta. rewrite decide_True; [by destruct s|].
  unfold int64_min, int64_max. destruct s; lia.
Qed.

Lemma float64_of_int_exact z :
  Z.abs z ≤ 2 ^ 53 → int64_of_float (float64_of_int z) = z.
Proof.
  intros Hz. destruct (decide (Z.abs z = 2 ^ 53)) as [Heq|Hne].
  { assert (z = 2 ^ 53 ∨ z = - 2 ^ 53) as [->| ->] by lia; by vm_compute. }
  destruct z as [|p|p]; [done|..]; unfold float64_of_int, binary_normalize.
  - destruct (round_small false p) as (m & e & -> & He & Hm); [lia|].
    by rewrite (int64_of_shifted false p) by (done || lia).
  - destruct (round_small true p) as (m & e & -> & He & Hm); [lia|].
    by rewrite (int64_of_shifted true p) by (done || lia).
Qed.

(** The first integer that is not: it becomes its even neighbour. *)
Example float64_of_int_inexact :
  int64_of_float (float64_of_int (2 ^ 53 + 1)) = 2 ^ 53.
Proof. reflexivity. Qed.
