(* ===== verification/GoJson.v ===== *)
(** [encoding/json] on the trees the clients exchange: the members of an
    object decoded into the fields of a struct.

    Keys match exactly or up to the case of ASCII letters, [null] leaves a
    field alone, a later member overwrites an earlier one, and a value of the
    wrong type makes the whole decoding an error. *)

From S2P Require Import Prelude GoInt World.

Open Scope Z_scope.

Definition lower_ascii (c : ascii) : ascii :=
  let n := N_of_ascii c in
  if decide (65 ≤ n ≤ 90)%N then ascii_of_N (n + 32) else c.

Fixpoint lower (s : string) : string :=
  match s with "" => "" | String c s => String (lower_ascii c) (lower s) end.

Definition key_matches (key field : string) : bool := bool_decide (lower key = lower field).

Definition decode_string (v : json) : option string :=
  match v with JStr s => Some s | _ => None end.
Definition decode_int64 (v : json) : option Z :=
  match v with JNum z => if decide (int64_min ≤ z ≤ int64_max) then Some z else None | _ => None end.
Definition decode_bool (v : json) : option bool :=
  match v with JBool b => Some b | _ => None end.

Definition decode_int16 (v : json) : option Z :=
  match v with JNum z => if decide (in_int16 z) then Some z else None | _ => None end.

(** An element of a [[]string]: [null] is the empty string. *)
Definition decode_element (v : json) : option string :=
  match v with JNull => Some "" | v => decode_string v end.
Definition decode_strings (v : json) : option (list string) :=
  match v with JArr l => mapM decode_element l | _ => None end.

(** One field of a struct, starting from its zero value. *)
Fixpoint decode_field {A} (dec : json → option A) (field : string)
    (members : list (string * json)) (zero : A) : option A :=
  match members with
  | [] => Some zero
  | (k, v) :: members =>
      if key_matches k field then
        match v with
        | JNull => decode_field dec field members zero
        | _ => a ← dec v; decode_field dec field members a
        end
      else decode_field dec field members zero
  end.

(** A pointer or a slice: [null] makes it nil. *)
Fixpoint decode_nullable {A} (dec : json → option A) (field : string)
    (members : list (string * json)) (zero : option A) : option (option A) :=
  match members with
  | [] => Some zero
  | (k, v) :: members =>
      if key_matches k field then
        match v with
        | JNull => decode_nullable dec field members None
        | _ => a ← dec v; decode_nullable dec field members (Some a)
        end
      else decode_nullable dec field members zero
  end.

(** The object a struct is decoded from; [null] leaves it at its zero value. *)
Definition decode_members (v : json) : option (list (string * json)) :=
  match v with JObj members => Some members | JNull => Some [] | _ => None end.

(** [omitempty]. *)
Definition omit_if {V} (empty : bool) (key : string) (v : V) : list (string * V) :=
  if empty then [] else [(key, v)].

(** A [map[string]string]: the keys are written in order. *)
Definition encode_map (m : gmap string string) : json :=
  JObj (map (λ kv, (kv.1, JStr kv.2))
    (merge_sort (λ x y, Is_true (String.leb x.1 y.1)) (map_to_list m))).

(** ** json.Marshal

    Strings are escaped as [encoding/json] does by default: the quote, the
    backslash, control characters and the HTML characters.  Bytes above 127
    are copied (the text is valid UTF-8 without U+2028 and U+2029). *)

Definition hex_char (n : N) : ascii :=
  ascii_of_N (if decide (n < 10)%N then 48 + n else 87 + n)%N.

Definition u_escape (n : N) : string :=
  "\u00" +:+ String (hex_char (n / 16)) (String (hex_char (n mod 16)) "").

Definition escape_char (c : ascii) : string :=
  let n := N_of_ascii c in
  if decide (n = 34)%N then "\" +:+ String c ""
  else if decide (n = 92)%N then "\\"
  else if decide (n = 8)%N then "\b"
  else if decide (n = 12)%N then "\f"
  else if decide (n = 10)%N then "\n"
  else if decide (n = 13)%N then "\r"
  else if decide (n = 9)%N then "\t"
  else if decide (n < 32 ∨ n = 38 ∨ n = 60 ∨ n = 62)%N then u_escape n
  else String c "".

Definition quote : string := String (ascii_of_N 34) "".

Fixpoint escape (s : string) : string :=
  match s with "" => "" | String c s => escape_char c +:+ escape s end.

Definition print_string (s : string) : string := quote +:+ escape s +:+ quote.

Fixpoint commas (l : list string) : string :=
  match l with
  | [] => ""
  | [s] => s
  | s :: l => s +:+ "," +:+ commas l
  end.

Fixpoint Marshal (v : json) : string :=
  match v with
  | JNull => "null"
  | JBool b => if b then "true" else "false"
  | JNum z => pretty z
  | JFrac text => text
  | JStr s => print_string s
  | JArr l => "[" +:+ commas (map Marshal l) +:+ "]"
  | JObj ms => "{" +:+ commas (map (λ kv, print_string kv.1 +:+ ":" +:+ Marshal kv.2) ms) +:+ "}"
  end.

Example Marshal_example :
  Marshal (JObj [("a", JNum (-3)); ("b", JArr [JStr "x<y"; JNull])]) =
  "{" +:+ quote +:+ "a" +:+ quote +:+ ":-3," +:+ quote +:+ "b" +:+ quote +:+ ":[" +:+ quote +:+
  "x\u003cy" +:+ quote +:+ ",null]}".
Proof. reflexivity. Qed.

(** A [json.RawMessage] keeps the text of its value, [null] too: here the
    compact text. *)
Fixpoint decode_raw (field : string) (members : list (string * json)) (zero : option string)
    : option string :=
  match members with
  | [] => zero
  | (k, v) :: members =>
      decode_raw field members (if key_matches k field then Some (Marshal v) else zero)
  end.
