(* ===== verification/History.v ===== *)
(** What no operation of the system ever does to the data: the order [db_le]
    between a database and its later states; [db_history] for the whole system.

    Money records - transactions, invoices, payouts, disputes, subscriptions -
    and idempotency keys, merchants, products and background tasks are never
    deleted, and the fields that say who owes what to whom never change.
    [evolves C] lifts [db_le] to worlds, with [C] between the logs of provider
    calls; [Acts (evolves C) m] is then proved once per repository method and
    composed by the [acts] tactic for every service. *)

From S2P Require Import Prelude GoInt GoTime Model Errors World Effects Logic Repository.

Open Scope Z_scope.

(** ** Rows and what is kept of them *)

Definition tx_le (x y : Transaction) : Prop :=
  y = x <| tx_Provider := tx_Provider y |>
        <| tx_ProviderTransactionID := tx_ProviderTransactionID y |>
        <| tx_Status := tx_Status y |> <| tx_ErrorCode := tx_ErrorCode y |>
        <| tx_ErrorMessage := tx_ErrorMessage y |> <| tx_FeeAmount := tx_FeeAmount y |>
        <| tx_NetAmount := tx_NetAmount y |> <| tx_ProcessedAt := tx_ProcessedAt y |>
        <| tx_CustomerID := tx_CustomerID y |>
        <| tx_PaymentMethodID := tx_PaymentMethodID y |>
        <| tx_UpdatedAt := tx_UpdatedAt y |> ∧
  (tx_CustomerID y = tx_CustomerID x ∨ tx_CustomerID y = uuid_Nil) ∧
  (tx_PaymentMethodID y = tx_PaymentMethodID x ∨ tx_PaymentMethodID y = uuid_Nil).

(** The billing period of a stored subscription is a pair of microseconds. *)
Definition period_stored (x : Subscription) : Prop :=
  pg_timestamptz (sub_CurrentPeriodStart x) = sub_CurrentPeriodStart x ∧
  pg_timestamptz (sub_CurrentPeriodEnd x) = sub_CurrentPeriodEnd x.

Definition sub_le (x y : Subscription) : Prop :=
  sub_ID y = sub_ID x ∧ sub_MerchantID y = sub_MerchantID x ∧
  sub_CustomerID y = sub_CustomerID x ∧ sub_CreatedAt y = sub_CreatedAt x ∧
  (period_stored x → period_stored y).

Definition inv_le (x y : Invoice) : Prop :=
  y = x <| inv_Status := inv_Status y |> <| inv_UpdatedAt := inv_UpdatedAt y |>.

Definition po_le (x y : Payout) : Prop :=
  y = x <| po_Status := po_Status y |> <| po_UpdatedAt := po_UpdatedAt y |>.

Definition dp_le (x y : Dispute) : Prop :=
  y = x <| dp_Status := dp_Status y |> <| dp_Evidence := dp_Evidence y |>
        <| dp_UpdatedAt := dp_UpdatedAt y |>.

Definition pd_le (x y : Product) : Prop :=
  pd_ID y = pd_ID x ∧ pd_MerchantID y = pd_MerchantID x ∧ pd_CreatedAt y = pd_CreatedAt x ∧
  (pd_DeletedAt x ≠ None → y = x).

Definition me_le (x y : Merchant) : Prop :=
  me_ID y = me_ID x ∧ me_CreatedAt y = me_CreatedAt x ∧ me_DeletedAt y = me_DeletedAt x.

(** A key is used and revoked; a revoked key stays revoked. *)
Definition ak_le (x y : ApiKey) : Prop :=
  y = x <| ak_IsActive := ak_IsActive y |> <| ak_LastUsedAt := ak_LastUsedAt y |> ∧
  (ak_IsActive x = false → ak_IsActive y = false).

Definition bt_le (x y : BackgroundTask) : Prop :=
  bt_ID y = bt_ID x ∧ bt_Type y = bt_Type x ∧ bt_Payload y = bt_Payload x ∧
  bt_CreatedAt y = bt_CreatedAt x ∧ bt_Attempts x ≤ bt_Attempts y.

#[export] Instance tx_le_preorder : PreOrder tx_le.
Proof.
  split.
  - intros []. unfold tx_le; simpl. auto.
  - intros [] [] []. unfold tx_le; simpl. intros (Hx & Hc & Hp) (Hy & Hc' & Hp').
    injection Hx; injection Hy; intros; subst. split; [done|].
    destruct Hc, Hp, Hc', Hp'; subst; auto.
Qed.
#[export] Instance sub_le_preorder : PreOrder sub_le.
Proof. split; [by intros []|]. unfold sub_le. intros x y z (?&?&?&?&?) (?&?&?&?&?). split_and!; congruence || auto. Qed.
#[export] Instance inv_le_preorder : PreOrder inv_le.
Proof. split; [by intros []|]. unfold inv_le. intros [] [] []; simpl; intros Hx Hy; injection Hx; injection Hy; intros; by subst. Qed.
#[export] Instance po_le_preorder : PreOrder po_le.
Proof. split; [by intros []|]. unfold po_le. intros [] [] []; simpl; intros Hx Hy; injection Hx; injection Hy; intros; by subst. Qed.
#[export] Instance dp_le_preorder : PreOrder dp_le.
Proof. split; [by intros []|]. unfold dp_le. intros [] [] []; simpl; intros Hx Hy; injection Hx; injection Hy; intros; by subst. Qed.
#[export] Instance pd_le_preorder : PreOrder pd_le.
Proof.
  split; [by intros []|]. unfold pd_le. intros x y z (?&?&?&Hx) (?&?&?&Hy).
  split_and!; [congruence..|]. intros Hd. specialize (Hx Hd) as ->. auto.
Qed.
#[export] Instance me_le_preorder : PreOrder me_le.
Proof. split; [by intros []|]. unfold me_le. intros x y z (?&?&?) (?&?&?). split_and!; congruence. Qed.
#[export] Instance ak_le_preorder : PreOrder ak_le.
Proof.
  split; [by intros []|]. unfold ak_le. intros [] [] []; simpl. intros [Hx Ha] [Hy Hb].
  injection Hx; injection Hy; intros; subst. auto.
Qed.
#[export] Instance bt_le_preorder : PreOrder bt_le.
Proof. split; [by intros []|]. unfold bt_le. intros x y z (?&?&?&?&?) (?&?&?&?&?). split_and!; congruence || lia. Qed.

(** ** Tables that only grow

    [table_le P Q]: the rows there stay, related by [P]; the others are new and
    satisfy [Q], or came from an old row by [P]. *)

Section table.
Context {K R : Type} `{Countable K} (P : relation R) (Q : K → R → Prop).

Definition table_le (t t' : gmap K R) : Prop :=
  (∀ k r, t !! k = Some r → ∃ r', t' !! k = Some r' ∧ P r r') ∧
  (∀ k r', t' !! k = Some r' → Q k r' ∨ ∃ r, t !! k = Some r ∧ P r r').

Class Stable := stable k r r' : Q k r → P r r' → Q k r'.

Context `{!PreOrder P, !Stable}.

#[export] Instance table_le_preorder : PreOrder table_le.
Proof.
  split.
  { intros t. split; intros k r Hk; [|right]; exists r; (split; [done|reflexivity]). }
  intros t1 t2 t3 [H12 N12] [H23 N23]. split.
  - intros k r Hk. destruct (H12 k r Hk) as (r2 & Hk2 & HP).
    destruct (H23 k r2 Hk2) as (r3 & Hk3 & HP'). exists r3. split; [done|by etrans].
  - intros k r3 Hk. destruct (N23 k r3 Hk) as [|(r2 & Hk2 & HP)]; [by left|].
    destruct (N12 k r2 Hk2) as [|(r1 & Hk1 & HP')]; [left; by eapply stable|].
    right. exists r1. split; [done|by etrans].
Qed.

Lemma table_le_insert k r t : t !! k = None → Q k r → table_le t (<[k:=r]> t).
Proof.
  intros Hk HQ. split.
  - intros k' r' Hk'. exists r'. split; [|done]. rewrite lookup_insert_ne; [done|congruence].
  - intros k' r' [[<- <-]|[_ Hk']]%lookup_insert_Some; [by left|right].
    exists r'. by split.
Qed.

Lemma table_le_replace k r r' t : t !! k = Some r → P r r' → table_le t (<[k:=r']> t).
Proof.
  intros Hk HP. split.
  - intros k' r2 Hk'. destruct (decide (k = k')) as [->|Hne].
    + simplify_eq. exists r'. by rewrite lookup_insert_eq.
    + exists r2. by rewrite lookup_insert_ne.
  - intros k' r2 [[<- <-]|[_ Hk']]%lookup_insert_Some; right; eexists; by split.
Qed.

Lemma table_le_fmap f t : (∀ r, P r (f r)) → table_le t (f <$> t).
Proof.
  intros Hf. split.
  - intros k r Hk. exists (f r). by rewrite lookup_fmap, Hk.
  - intros k r' Hk. rewrite lookup_fmap in Hk. apply fmap_Some in Hk as (r & ? & ->). eauto.
Qed.

Lemma row_insert_le k r t t' n : Q k r → row_insert k r t = Some (t', n) → table_le t t'.
Proof.
  unfold row_insert. destruct (t !! k) eqn:Hk; intros HQ [= <- <-].
  by apply table_le_insert.
Qed.

Lemma row_update_le k f t t' n :
  (∀ r, P r (f r)) → row_update k f t = Some (t', n) → table_le t t'.
Proof.
  unfold row_update. intros Hf. destruct (t !! k) eqn:Hk; intros [= <- <-]; [|reflexivity].
  by eapply table_le_replace.
Qed.

(** [Q] is an invariant of the rows. *)
Lemma table_le_invariant t t' : table_le t t' → map_Forall Q t → map_Forall Q t'.
Proof.
  intros [_ Hnew] HQ k r' Hk. destruct (Hnew k r' Hk) as [|(r & Hr & HP)]; [done|].
  by eapply stable, HP; apply HQ.
Qed.

Lemma table_le_lookup t t' k r : table_le t t' → t !! k = Some r →
  ∃ r', t' !! k = Some r' ∧ P r r'.
Proof. intros [Hold _]. apply Hold. Qed.
End table.
Arguments Stable {_ _} _ _.
Arguments stable {_ _} _ _ {_}.

(** ** Databases *)

(** What holds of a row of each table when it is inserted, and ever after. *)
Definition tx_row (k : uuid) (x : Transaction) : Prop := tx_ID x = k.
Definition sub_row (k : uuid) (x : Subscription) : Prop := sub_ID x = k ∧ period_stored x.
Definition inv_row (k : uuid) (x : Invoice) : Prop := inv_ID x = k.
Definition po_row (k : uuid) (x : Payout) : Prop := po_ID x = k.
Definition dp_row (k : uuid) (x : Dispute) : Prop := dp_ID x = k.
Definition pd_row (k : uuid) (x : Product) : Prop := True.
Definition me_row (k : uuid) (x : Merchant) : Prop := me_ID x = k.
Definition ak_row (k : uuid) (x : ApiKey) : Prop := ak_ID x = k.
Definition bt_row (k : uuid) (x : BackgroundTask) : Prop := bt_ID x = k.
Definition ik_row (k : string) (x : IdempotencyKey) : Prop := ik_KeyHash x = k.

#[export] Instance tx_stable : Stable tx_le tx_row.
Proof. intros k x y Hx (-> & _ & _). exact Hx. Qed.
#[export] Instance sub_stable : Stable sub_le sub_row.
Proof. intros k x y [Hid Hp] (?&?&?&?&?). split; [congruence|auto]. Qed.
#[export] Instance inv_stable : Stable inv_le inv_row.
Proof. intros k x y Hx ->. exact Hx. Qed.
#[export] Instance po_stable : Stable po_le po_row.
Proof. intros k x y Hx ->. exact Hx. Qed.
#[export] Instance dp_stable : Stable dp_le dp_row.
Proof. intros k x y Hx ->. exact Hx. Qed.
#[export] Instance pd_stable : Stable pd_le pd_row.
Proof. done. Qed.
#[export] Instance me_stable : Stable me_le me_row.
Proof. unfold Stable, me_row. intros k x y Hx (?&?&?). congruence. Qed.
#[export] Instance ak_stable : Stable ak_le ak_row.
Proof. unfold Stable, ak_row. intros k x y Hx [-> _]. exact Hx. Qed.
#[export] Instance bt_stable : Stable bt_le bt_row.
Proof. unfold Stable, bt_row. intros k x y Hx (?&?&?&?&?). congruence. Qed.
#[export] Instance ik_stable : Stable eq ik_row.
Proof. by intros k x y Hx <-. Qed.

(** API keys, besides, never take the hash of one that is there. *)
Definition hashes_new (t t' : gmap uuid ApiKey) : Prop :=
  ∀ k y, t' !! k = Some y → (∃ z, t !! k = Some z ∧ ak_KeyHash z = ak_KeyHash y) ∨
    ∀ k' x, t !! k' = Some x → ak_KeyHash x ≠ ak_KeyHash y.

Definition keys_le (t t' : gmap uuid ApiKey) : Prop :=
  table_le ak_le ak_row t t' ∧ hashes_new t t'.

#[export] Instance keys_le_preorder : PreOrder keys_le.
Proof.
  split; [intros t; split; [reflexivity|intros k y Hk; left; eauto]|].
  intros t1 t2 t3 [H12 N12] [H23 N23]. split; [by etrans|]. intros k y Hy.
  destruct (N23 k y Hy) as [(z & Hz & Hh)|Hnew].
  - destruct (N12 k z Hz) as [(x & Hx & Hh')|Hnew]; [left; exists x; split; congruence|].
    right. intros k' x Hx. rewrite <- Hh. by eapply Hnew.
  - right. intros k' x Hx Heq. destruct (proj1 H12 k' x Hx) as (x2 & Hx2 & Hle & _).
    apply (Hnew k' x2 Hx2). by rewrite Hle.
Qed.

(** [T] relates the task queue of the two: only the queue itself and its workers
    write it, everything else leaves it as it is. *)
Record db_le_by (T : relation (gmap uuid BackgroundTask)) (db db' : database) : Prop := MkDbLe {
  le_transactions : table_le tx_le tx_row (db_transactions db) (db_transactions db');
  le_subscriptions : table_le sub_le sub_row (db_subscriptions db) (db_subscriptions db');
  le_invoices : table_le inv_le inv_row (db_invoices db) (db_invoices db');
  le_payouts : table_le po_le po_row (db_payouts db) (db_payouts db');
  le_disputes : table_le dp_le dp_row (db_disputes db) (db_disputes db');
  le_products : table_le pd_le pd_row (db_products db) (db_products db');
  le_merchants : table_le me_le me_row (db_merchants db) (db_merchants db');
  le_api_keys : keys_le (db_api_keys db) (db_api_keys db');
  le_tasks : T (db_background_tasks db) (db_background_tasks db');
  le_idempotency_keys :
    table_le eq ik_row (db_idempotency_keys db) (db_idempotency_keys db');
  le_audit_logs : db_audit_logs db `prefix_of` db_audit_logs db'
}.
Arguments le_transactions {_ _ _} _.
Arguments le_subscriptions {_ _ _} _.
Arguments le_invoices {_ _ _} _.
Arguments le_payouts {_ _ _} _.
Arguments le_disputes {_ _ _} _.
Arguments le_products {_ _ _} _.
Arguments le_merchants {_ _ _} _.
Arguments le_api_keys {_ _ _} _.
Arguments le_tasks {_ _ _} _.
Arguments le_idempotency_keys {_ _ _} _.
Arguments le_audit_logs {_ _ _} _.

Definition queue_le : relation (gmap uuid BackgroundTask) := table_le bt_le bt_row.
Definition db_le : relation database := db_le_by eq.
Definition db_history : relation database := db_le_by queue_le.

#[export] Instance queue_le_preorder : PreOrder queue_le.
Proof. unfold queue_le. apply _. Qed.

#[export] Instance db_le_by_preorder T : PreOrder T → PreOrder (db_le_by T).
Proof.
  split; [intros db; by split|].
  intros x y z [] []. split; by etrans.
Qed.
#[export] Instance db_le_preorder : PreOrder db_le := db_le_by_preorder _ _.
#[export] Instance db_history_preorder : PreOrder db_history := db_le_by_preorder _ _.

Lemma db_le_history db db' : db_le db db' → db_history db db'.
Proof. intros []. split; try done. unfold queue_le. by replace (db_background_tasks db'). Qed.

(** The invariant it carries: rows are filed under their own identifier. *)
Definition well_formed (db : database) : Prop :=
  map_Forall tx_row (db_transactions db) ∧ map_Forall sub_row (db_subscriptions db) ∧
  map_Forall inv_row (db_invoices db) ∧ map_Forall po_row (db_payouts db) ∧
  map_Forall dp_row (db_disputes db) ∧ map_Forall me_row (db_merchants db) ∧
  map_Forall bt_row (db_background_tasks db) ∧ map_Forall ik_row (db_idempotency_keys db).

Lemma well_formed_history db db' : db_history db db' → well_formed db → well_formed db'.
Proof.
  intros [] (?&?&?&?&?&?&?&?).
  unfold well_formed. split_and!; (eapply table_le_invariant; [apply _|done|done]).
Qed.

(** A statement that respects it. *)
Definition stmt_in (R : relation database) (s : stmt) : Prop :=
  ∀ t db db' n, s t db = Some (db', n) → R db db'.
Definition stmt_le : stmt → Prop := stmt_in db_le.

Lemma on_table_inv {T} (proj : database → T) `{!FieldSet proj} f db db' n :
  on_table proj f db = Some (db', n) → ∃ t, f (proj db) = Some (t, n) ∧ db' = db <| proj := t |>.
Proof. unfold on_table. destruct (f (proj db)) as [[t m]|]; intros [= <- <-]. eauto. Qed.

(** ** Worlds *)

Definition evolves (D : relation database) (C : relation (list provider_call)) : relation world :=
  λ w w', D (w_db w) (w_db w') ∧ C (w_calls w) (w_calls w').

(** No provider is called; calls, if any, are appended. *)
Definition quiet : relation world := evolves db_le eq.
Definition lawful : relation world := evolves db_le prefix.

(** The same, for what writes the task queue too. *)
Definition progress : relation world := evolves db_history prefix.

#[export] Instance evolves_preorder D C : PreOrder D → PreOrder C → PreOrder (evolves D C).
Proof.
  split.
  - by split.
  - intros w1 w2 w3 [] []. split; by etrans.
Qed.
#[export] Instance quiet_preorder : PreOrder quiet := evolves_preorder _ _ _ _.
#[export] Instance lawful_preorder : PreOrder lawful := evolves_preorder _ _ _ _.
#[export] Instance progress_preorder : PreOrder progress := evolves_preorder _ _ _ _.

Lemma Acts_weaken {A} (R R' : relation world) (m : M A) :
  (∀ w w', R w w' → R' w w') → Acts R m → Acts R' m.
Proof.
  intros HR. induction m as [o|X f k IH]; simpl; [done|].
  intros Hm w. destruct (Hm w). auto.
Qed.

(** Reads, clocks, events and HTTP leave the database and the calls alone. *)
Definition unchanged : relation world := λ w w',
  w_db w' = w_db w ∧ w_calls w' = w_calls w.

#[export] Instance unchanged_preorder : PreOrder unchanged.
Proof. split; [by split|]. intros w1 w2 w3 [] []. split; congruence. Qed.

Lemma quiet_lawful {A} (m : M A) : Acts quiet m → Acts lawful m.
Proof. apply Acts_weaken. intros w w' [? HC]. split; [done|]. by rewrite HC. Qed.

Lemma lawful_progress {A} (m : M A) : Acts lawful m → Acts progress m.
Proof. apply Acts_weaken. intros w w' [? HC]. split; [by apply db_le_history|done]. Qed.

Lemma unchanged_quiet {A} (m : M A) : Acts unchanged m → Acts quiet m.
Proof. apply Acts_weaken. intros w w' [Hdb Hc]. split; [by rewrite Hdb|done]. Qed.

Section evolving.
Context `{!Externals}.

Lemma Acts_act {A} (f : nat → world → outcome A * world) :
  (∀ n w, unchanged w (f n w).2) → Acts unchanged (act f).
Proof.
  intros Hf w. split; [|done].
  destruct (Hf (w_tick w) (w <| w_tick := S (w_tick w) |>)) as [H1 H2]. by split.
Qed.

Lemma Acts_ask {A} (f : nat → A) : Acts unchanged (ask f).
Proof. by apply Acts_act. Qed.

Lemma Acts_db_read {A} (q : time → database → A) : Acts unchanged (db_read q).
Proof. apply Acts_act. intros n w. by destruct (ext_db _ _ _). Qed.

Lemma Acts_http_Do req : Acts unchanged (http_Do req).
Proof. by apply Acts_act. Qed.

Lemma Acts_redis {A} (f : time → gmap string redis_entry → A * gmap string redis_entry) :
  Acts unchanged (redis_command f).
Proof.
  apply Acts_act. intros n w. destruct (ext_redis n); [done|]. by destruct (f _ _).
Qed.

Lemma Acts_db_Exec_in (D : relation database) s :
  Reflexive D → stmt_in D s → Acts (evolves D eq) (db_Exec s).
Proof.
  intros HD Hs w. split; [|done]. simpl.
  destruct (s _ _) as [[db n]|] eqn:Heq; [|by split].
  apply Hs in Heq. destruct (ext_db _ _ _); by split.
Qed.

Lemma Acts_db_Exec s : stmt_le s → Acts quiet (db_Exec s).
Proof. apply Acts_db_Exec_in, _. Qed.

(** The primitive interactions return or fail. *)
Lemma Safe_act {A} (f : nat → world → outcome A * world) :
  (∀ n w msg, (f n w).1 ≠ Panic msg) → Safe (act f).
Proof.
  intros Hf w. simpl. specialize (Hf (w_tick w) (w <| w_tick := S (w_tick w) |>)).
  destruct (f _ _) as [[] w']; simpl in *; [done..|by eapply Hf].
Qed.
Lemma Safe_ask {A} (f : nat → A) : Safe (ask f).
Proof. by apply Safe_act. Qed.
Lemma Safe_db_read {A} (q : time → database → A) : Safe (db_read q).
Proof. apply Safe_act. intros n w msg. by destruct (ext_db _ _ _). Qed.
Lemma Safe_http_Do req : Safe (http_Do req).
Proof. apply Safe_act. intros n w msg; simpl. by destruct (ext_http _ _). Qed.
Lemma Safe_redis {A} (f : time → gmap string redis_entry → A * gmap string redis_entry) :
  Safe (redis_command f).
Proof.
  apply Safe_act. intros n w msg. destruct (ext_redis n); [done|]. by destruct (f _ _).
Qed.
Lemma Safe_db_Exec s : Safe (db_Exec s).
Proof.
  apply Safe_act. intros n w msg. destruct (s _ _) as [[]|]; [|done]. by destruct (ext_db _ _ _).
Qed.

(** What an operation does, whatever its outcome. *)
Lemma Acts_outcome {A} (R : relation world) `{!PreOrder R} (m : M A) w o w' :
  Acts R m → run m w = (o, w') → R w w'.
Proof. intros Hm Hrun. pose proof (Acts_run R m w Hm) as HR. by rewrite Hrun in HR. Qed.

(** A statement that returned took effect. *)
Lemma db_Exec_Ret s w n w' :
  run (db_Exec s) w = (Ret n, w') →
  s (ext_db_now (w_tick w)) (w_db w) = Some (w_db w', n) ∧ w_calls w' = w_calls w.
Proof.
  simpl. destruct (s _ _) as [[db m]|]; [|done].
  destruct (ext_db _ _ _); [|done..]. by intros [= -> <-].
Qed.
End evolving.

(** [acts] follows the structure of a method, and closes its parts with the
    lemmas of the [acts] database, for the relation at hand or a stronger one. *)
#[global] Arguments Acts : simpl never.
#[global] Arguments run : simpl never.

#[global] Arguments Safe : simpl never.
#[global] Arguments Spends : simpl never.
#[global] Arguments Keeps : simpl never.
#[global] Arguments Rely : simpl never.

Create HintDb acts.
#[export] Hint Resolve Acts_ret Acts_fail Acts_panic Acts_ask Acts_db_read Acts_http_Do
  Acts_redis : acts.

Ltac acts_close :=
  first [ assumption
        | solve [eauto 2 with acts]
        | apply quiet_lawful; acts_close
        | apply unchanged_quiet; acts_close ].

Ltac acts :=
  repeat (intros; cbv beta; first
    [ acts_close
    | apply Acts_bind
    | apply Acts_attempt
    | apply Acts_wrap_err
    | apply Acts_ignore_err
    | case_match
    | case_decide ]).

#[export] Hint Resolve Safe_ret Safe_fail Safe_ask Safe_db_read Safe_http_Do Safe_redis
  Safe_db_Exec : acts.

Ltac safe :=
  repeat (intros; cbv beta; first
    [ solve [eauto 2 with acts]
    | apply Safe_bind
    | apply Safe_attempt
    | apply Safe_wrap_err
    | apply Safe_ignore_err
    | case_match
    | case_decide ]).
