(* ===== verification/RepoHistory.v ===== *)
(** Every repository method respects [db_le] and calls no provider: the lemmas
    behind the [acts] tactic. *)

From S2P Require Import Prelude GoInt GoTime Model Errors World Effects Logic History.
From S2P Require Import Repository RepoPayments RepoAccounts.

Open Scope Z_scope.

(** ** Statements *)

Lemma transaction_set_le t x row : tx_le row (transaction_set t x row).
Proof. split_and!; [done|by left|by left]. Qed.

Lemma tx_status_le t st row : tx_le row (row <| tx_Status := st |> <| tx_UpdatedAt := t |>).
Proof. split_and!; [done|by left|by left]. Qed.

Lemma subscription_row_stored t x : period_stored (subscription_row t x).
Proof. split; apply pg_timestamptz_idem. Qed.

Lemma subscription_set_le t x row : sub_le row (subscription_set t x row).
Proof. split_and!; [done..|]. intros _. split; apply pg_timestamptz_idem. Qed.

Lemma insert_idempotency_key_le key merchant : stmt_le (insert_idempotency_key key merchant).
Proof.
  intros t db db' n. unfold insert_idempotency_key.
  destruct (db_idempotency_keys db !! key) eqn:Hk; intros [= <- <-]; [reflexivity|].
  split; simpl; try reflexivity. by apply (table_le_insert _ _).
Qed.

Lemma delete_payment_method_le t id db : db_le db (delete_payment_method t id db).
Proof.
  split; simpl; try reflexivity. apply (table_le_fmap _ _). intros r. case_decide; [|done].
  split_and!; [done|by left|by right].
Qed.

Lemma delete_customer_le t id db : db_le db (delete_customer t id db).
Proof.
  split; simpl; try reflexivity. apply (table_le_fmap _ _). intros r. case_decide; [|done].
  split_and!; [done|by right|by left].
Qed.

(** A statement on one table: an INSERT, or an UPDATE of one row, whose effect
    on the row is left to show. *)
Ltac table_stmt :=
  let Hs := fresh "Hs" in
  intros ? ? ? ? (? & Hs & ->)%on_table_inv; split; simpl; try reflexivity;
  first [ refine (row_insert_le _ _ _ _ _ _ _ _ Hs); try done
        | refine (row_update_le _ _ _ _ _ _ _ _ Hs); intros ? ].

Section repositories.
Context `{!Externals}.

Lemma acts_exec_any prefix s : stmt_le s → Acts quiet (exec_any prefix s).
Proof.
  intros Hs. apply Acts_bind; [|done]. apply Acts_wrap_err.
  by apply Acts_db_Exec.
Qed.

Lemma acts_exec_one prefix s : stmt_le s → Acts quiet (exec_one prefix s).
Proof.
  intros Hs. apply Acts_bind; [|intros n; by case_decide].
  apply Acts_wrap_err. by apply Acts_db_Exec.
Qed.

Lemma acts_exec s : stmt_le s → Acts quiet (db_Exec s;; mret ()).
Proof. intros Hs. apply Acts_bind; [|done]. by apply Acts_db_Exec. Qed.

Lemma acts_query_row {R A} prefix (q : database → option R) (scan : R → string + A) :
  Acts unchanged (query_row prefix q scan).
Proof. unfold query_row, db_QueryRow. acts. Qed.

Lemma acts_query_rows {R A} listing scanning (q : database → option (list R))
    (scan : R → string + A) : Acts unchanged (query_rows listing scanning q scan).
Proof. unfold query_rows, db_Query, db_rows. acts. Qed.

Lemma acts_query_listing {R A} counting listing scanning (rows : database → list R) le
    limit offset (scan : R → string + A) :
  Acts unchanged (query_listing counting listing scanning rows le limit offset scan).
Proof.
  unfold query_listing, query_count. apply Acts_bind; [acts|intros total].
  apply Acts_bind; [apply acts_query_rows|done].
Qed.

(** ** The methods that read one row *)

Lemma acts_TransactionRepo_GetByID id : Acts unchanged (TransactionRepo_GetByID id).
Proof. apply acts_query_row. Qed.
Lemma acts_PaymentMethodRepo_GetByID id : Acts unchanged (PaymentMethodRepo_GetByID id).
Proof. apply acts_query_row. Qed.
Lemma acts_SubscriptionRepo_GetByID id : Acts unchanged (SubscriptionRepo_GetByID id).
Proof. apply acts_query_row. Qed.
Lemma acts_InvoiceRepo_GetByID id : Acts unchanged (InvoiceRepo_GetByID id).
Proof. apply acts_query_row. Qed.
Lemma acts_PayoutRepo_GetByID id : Acts unchanged (PayoutRepo_GetByID id).
Proof. apply acts_query_row. Qed.
Lemma acts_DisputeRepo_GetByID id : Acts unchanged (DisputeRepo_GetByID id).
Proof. apply acts_query_row. Qed.
Lemma acts_MerchantRepo_GetByID id : Acts unchanged (MerchantRepo_GetByID id).
Proof. apply acts_query_row. Qed.
Lemma acts_CustomerRepo_GetByID id : Acts unchanged (CustomerRepo_GetByID id).
Proof. apply acts_query_row. Qed.
Lemma acts_UserRepo_GetByID id : Acts unchanged (UserRepo_GetByID id).
Proof. apply acts_query_row. Qed.
Lemma acts_WebhookConfigRepo_GetByID id : Acts unchanged (WebhookConfigRepo_GetByID id).
Proof. apply acts_query_row. Qed.
Lemma acts_WebhookDeliveryRepo_GetByID id : Acts unchanged (WebhookDeliveryRepo_GetByID id).
Proof. apply acts_query_row. Qed.
Lemma acts_ProviderConfigRepo_GetByID id : Acts unchanged (ProviderConfigRepo_GetByID id).
Proof. apply acts_query_row. Qed.

(** ** The methods that write *)

Lemma acts_CheckAndSave key merchantID : Acts quiet (IdempotencyRepo_CheckAndSave key merchantID).
Proof.
  apply Acts_bind; [|done]. apply Acts_wrap_err. case_match; [|done].
  apply Acts_db_Exec. apply insert_idempotency_key_le.
Qed.

Lemma acts_TransactionRepo_Create x : Acts quiet (TransactionRepo_Create x).
Proof. apply acts_exec_any. table_stmt. Qed.
Lemma acts_TransactionRepo_Update x : Acts quiet (TransactionRepo_Update x).
Proof. apply acts_exec_one. table_stmt. apply transaction_set_le. Qed.
Lemma acts_TransactionRepo_UpdateStatus id st : Acts quiet (TransactionRepo_UpdateStatus id st).
Proof. apply acts_exec_one. table_stmt. apply tx_status_le. Qed.

Lemma acts_PaymentMethodRepo_Create x : Acts quiet (PaymentMethodRepo_Create x).
Proof.
  apply acts_exec. intros ? ? ? ? (? & Hs & ->)%on_table_inv. split; simpl; reflexivity.
Qed.
Lemma acts_PaymentMethodRepo_Delete id : Acts quiet (PaymentMethodRepo_Delete id).
Proof.
  apply acts_exec_one. intros t db db' n. case_match; intros [= <- <-]; [|reflexivity].
  apply delete_payment_method_le.
Qed.

Lemma acts_SubscriptionRepo_Create x : Acts quiet (SubscriptionRepo_Create x).
Proof. apply acts_exec_any. table_stmt. split; [done|apply subscription_row_stored]. Qed.
Lemma acts_SubscriptionRepo_Update x : Acts quiet (SubscriptionRepo_Update x).
Proof.
  apply acts_exec_one. table_stmt. apply subscription_set_le.
Qed.
Lemma acts_set_subscription_status prefix id st :
  Acts quiet (set_subscription_status prefix id st).
Proof. apply acts_exec_one. table_stmt. by split_and!. Qed.

Lemma acts_InvoiceRepo_Create x : Acts quiet (InvoiceRepo_Create x).
Proof. apply acts_exec_any. table_stmt. Qed.
Lemma acts_InvoiceRepo_UpdateStatus id st : Acts quiet (InvoiceRepo_UpdateStatus id st).
Proof. apply acts_exec_one. table_stmt. by repeat split. Qed.

Lemma acts_PayoutRepo_Create x : Acts quiet (PayoutRepo_Create x).
Proof. apply acts_exec_any. table_stmt. Qed.
Lemma acts_PayoutRepo_UpdateStatus id st : Acts quiet (PayoutRepo_UpdateStatus id st).
Proof. apply acts_exec_one. table_stmt. by repeat split. Qed.

Lemma acts_DisputeRepo_Create x : Acts quiet (DisputeRepo_Create x).
Proof. apply acts_exec_any. table_stmt. Qed.
Lemma acts_DisputeRepo_UpdateEvidence id ev : Acts quiet (DisputeRepo_UpdateEvidence id ev).
Proof. apply acts_exec_one. table_stmt. by repeat split. Qed.
Lemma acts_DisputeRepo_UpdateStatus id st : Acts quiet (DisputeRepo_UpdateStatus id st).
Proof. apply acts_exec_one. table_stmt. by repeat split. Qed.

(** Tables [db_le] says nothing about. *)
Ltac free_stmt :=
  let Hs := fresh "Hs" in
  intros ? ? ? ? (? & Hs & ->)%on_table_inv; split; simpl; reflexivity.

Lemma acts_MerchantRepo_Create x : Acts quiet (MerchantRepo_Create x).
Proof. apply Acts_bind; [|done]. apply acts_exec_any. table_stmt. Qed.
Lemma acts_MerchantRepo_Update x : Acts quiet (MerchantRepo_Update x).
Proof. apply acts_exec_one. table_stmt. by repeat split. Qed.

Lemma acts_CustomerRepo_Create x : Acts quiet (CustomerRepo_Create x).
Proof. apply acts_exec. free_stmt. Qed.
Lemma acts_CustomerRepo_Update x : Acts quiet (CustomerRepo_Update x).
Proof. apply acts_exec_one. free_stmt. Qed.
Lemma acts_CustomerRepo_Delete id : Acts quiet (CustomerRepo_Delete id).
Proof.
  apply acts_exec_one. intros t db db' n. case_match; intros [= <- <-]; [|reflexivity].
  apply delete_customer_le.
Qed.

Lemma acts_UserRepo_Create x : Acts quiet (UserRepo_Create x).
Proof. apply acts_exec. free_stmt. Qed.
Lemma acts_UserRepo_Update x : Acts quiet (UserRepo_Update x).
Proof. apply acts_exec_one. free_stmt. Qed.
Lemma acts_UserRepo_Delete id : Acts quiet (UserRepo_Delete id).
Proof. apply acts_exec_one. free_stmt. Qed.

Lemma acts_ProductRepo_Create x : Acts quiet (ProductRepo_Create x).
Proof.
  apply Acts_bind; [|done]. apply Acts_wrap_err. unfold with_uuid.
  case_match; [|done]. case_match; [|done]. apply Acts_db_Exec. table_stmt.
Qed.

Lemma acts_ProductRepo_GetByID id merchantID : Acts unchanged (ProductRepo_GetByID id merchantID).
Proof. unfold ProductRepo_GetByID, with_uuid, db_QueryRow. acts. Qed.

Lemma acts_ProductRepo_ListByMerchant m limit offset :
  Acts unchanged (ProductRepo_ListByMerchant m limit offset).
Proof. unfold ProductRepo_ListByMerchant. case_match; [apply acts_query_listing|done]. Qed.

(** An UPDATE that keeps the identity of a row, and only meets live rows. *)
Lemma acts_product_exec prefix id merchantID f :
  (∀ t x, pd_ID (f t x) = pd_ID x ∧ pd_MerchantID (f t x) = pd_MerchantID x ∧
          pd_CreatedAt (f t x) = pd_CreatedAt x) →
  Acts quiet (product_exec prefix id merchantID f).
Proof.
  intros Hf. apply Acts_bind; [|intros n; by case_decide]. apply Acts_wrap_err.
  unfold with_uuid. case_match; [|done]. case_match; [|done].
  apply Acts_db_Exec. intros t db db' m.
  unfold find_product. destruct (db_products db !! _) as [x|] eqn:Hx; simpl;
    [|by intros [= <- <-]].
  destruct (live_product_of _ x) eqn:Hlive; [|by intros [= <- <-]].
  apply andb_true_iff in Hlive as [_ Hnone%bool_decide_eq_true].
  intros (y & Hs & ->)%on_table_inv. split; simpl; try reflexivity.
  unfold row_update in Hs. rewrite Hx in Hs. injection Hs as <- <-.
  eapply (table_le_replace _ _); [done|]. destruct (Hf t x) as (?&?&?). by split_and!.
Qed.

Lemma acts_ProductRepo_Update x : Acts quiet (ProductRepo_Update x).
Proof. by apply acts_product_exec. Qed.
Lemma acts_ProductRepo_Delete id merchantID : Acts quiet (ProductRepo_Delete id merchantID).
Proof. apply Acts_bind; [acts|intros t]. by apply acts_product_exec. Qed.

Lemma acts_WebhookConfigRepo_Create x : Acts quiet (WebhookConfigRepo_Create x).
Proof. apply acts_exec_any. free_stmt. Qed.
Lemma acts_WebhookConfigRepo_Update x : Acts quiet (WebhookConfigRepo_Update x).
Proof. apply acts_exec_one. free_stmt. Qed.
Lemma acts_WebhookConfigRepo_Delete id : Acts quiet (WebhookConfigRepo_Delete id).
Proof.
  apply acts_exec_one. intros t db db' n. case_match; intros [= <- <-]; [|reflexivity].
  split; simpl; reflexivity.
Qed.

Lemma acts_WebhookDeliveryRepo_Create x : Acts quiet (WebhookDeliveryRepo_Create x).
Proof. apply acts_exec_any. free_stmt. Qed.
Lemma acts_WebhookDeliveryRepo_UpdateStatus id st code body err :
  Acts quiet (WebhookDeliveryRepo_UpdateStatus id st code body err).
Proof. apply Acts_wrap_err. intros w. by split. Qed.

Lemma acts_ProviderConfigRepo_Create x : Acts quiet (ProviderConfigRepo_Create x).
Proof. apply acts_exec_any. free_stmt. Qed.
Lemma acts_ProviderConfigRepo_Update x : Acts quiet (ProviderConfigRepo_Update x).
Proof. apply acts_exec_one. free_stmt. Qed.
Lemma acts_ProviderConfigRepo_Delete id : Acts quiet (ProviderConfigRepo_Delete id).
Proof. apply acts_exec_one. free_stmt. Qed.

Lemma acts_AuditLogRepo_Create x : Acts quiet (AuditLogRepo_Create x).
Proof.
  apply acts_exec. intros t db db' n [= <- <-]. split; simpl; try reflexivity.
  by apply prefix_app_r.
Qed.
Lemma acts_AuditLogRepo_ListByMerchant m page size :
  Acts unchanged (AuditLogRepo_ListByMerchant m page size).
Proof. unfold AuditLogRepo_ListByMerchant, db_Query, db_rows. acts. Qed.
End repositories.

(** ** Returning runs of the shared shapes *)

Section returns.
Context `{!Externals}.

Lemma safe_query_row {R A} prefix (q : database → option R) (scan : R → string + A) :
  Safe (query_row prefix q scan).
Proof. unfold query_row, db_QueryRow. safe. Qed.

Lemma exec_any_Ret prefix s w u w' :
  run (exec_any prefix s) w = (Ret u, w') →
  (∃ t n, s t (w_db w) = Some (w_db w', n)) ∧ w_calls w' = w_calls w.
Proof. unfold exec_any. intros Hrun. run_inv Hrun. apply db_Exec_Ret in Hrun0 as []. eauto. Qed.

Lemma exec_one_Ret prefix s w u w' :
  run (exec_one prefix s) w = (Ret u, w') →
  (∃ t n, s t (w_db w) = Some (w_db w', n) ∧ n ≠ 0) ∧ w_calls w' = w_calls w.
Proof.
  unfold exec_one. intros Hrun. run_inv Hrun. apply db_Exec_Ret in Hrun0 as [].
  case_decide; [discriminate|]. run_inv Hrun. eauto.
Qed.

Lemma insert_Ret {K R} `{Countable K} (proj : database → gmap K R) `{!FieldSet proj}
    prefix k (f : time → R) w u w' :
  run (exec_any prefix (λ t, on_table proj (row_insert k (f t)))) w = (Ret u, w') →
  proj (w_db w) !! k = None ∧ w_calls w' = w_calls w ∧
  ∃ t, w_db w' = (w_db w) <| proj := <[k := f t]> (proj (w_db w)) |>.
Proof.
  intros [(t & n & (tbl & Hs & ->)%on_table_inv) Hc]%exec_any_Ret.
  unfold row_insert in Hs. destruct (proj (w_db w) !! k) eqn:Hk; [done|].
  injection Hs as <- <-. eauto.
Qed.

(** Whatever its outcome, an INSERT did nothing or added a row under a new key. *)
Lemma insert_outcome {K R} `{Countable K} (proj : database → gmap K R) `{!FieldSet proj}
    prefix k (f : time → R) w o w' :
  run (exec_any prefix (λ t, on_table proj (row_insert k (f t)))) w = (o, w') →
  w_db w' = w_db w ∨
  ∃ t, proj (w_db w) !! k = None ∧
       w_db w' = (w_db w) <| proj := <[k := f t]> (proj (w_db w)) |>.
Proof.
  unfold exec_any, db_Exec. rewrite run_bind, run_wrap_err, run_act. cbv beta.
  change (w_db (w <| w_tick := S (w_tick w) |>)) with (w_db w).
  unfold on_table, row_insert. destruct (proj (w_db w) !! k) as [r|] eqn:Hk; simpl.
  - intros [= <- <-]. by left.
  - destruct (ext_db _ _ _); rewrite ?run_ret; intros [= <- <-]; simpl; eauto.
Qed.

(** Whatever its outcome, an UPDATE of one row did nothing or did that. *)
Lemma update_outcome {K R} `{Countable K} (proj : database → gmap K R) `{!FieldSet proj}
    prefix k (f : time → R → R) w o w' :
  (∀ db, db <| proj := proj db |> = db) →
  run (exec_one prefix (λ t, on_table proj (row_update k (f t)))) w = (o, w') →
  w_db w' = w_db w ∨
  ∃ r t, proj (w_db w) !! k = Some r ∧
         w_db w' = (w_db w) <| proj := <[k := f t r]> (proj (w_db w)) |>.
Proof.
  intros Hid. unfold exec_one, db_Exec. rewrite run_bind, run_wrap_err, run_act. cbv beta.
  change (w_db (w <| w_tick := S (w_tick w) |>)) with (w_db w).
  unfold on_table, row_update. destruct (proj (w_db w) !! k) as [r|] eqn:Hk; simpl.
  - destruct (ext_db _ _ _); try case_decide; rewrite ?run_fail, ?run_ret; intros [= <- <-];
      simpl; eauto.
  - destruct (ext_db _ _ _); try case_decide; rewrite ?run_fail, ?run_ret; intros [= <- <-];
      left; simpl; done || apply Hid.
Qed.

Lemma update_Ret {K R} `{Countable K} (proj : database → gmap K R) `{!FieldSet proj}
    prefix k (f : time → R → R) w u w' :
  run (exec_one prefix (λ t, on_table proj (row_update k (f t)))) w = (Ret u, w') →
  w_calls w' = w_calls w ∧
  ∃ r t, proj (w_db w) !! k = Some r ∧
         w_db w' = (w_db w) <| proj := <[k := f t r]> (proj (w_db w)) |>.
Proof.
  intros [(t & n & (tbl & Hs & ->)%on_table_inv & Hn) Hc]%exec_one_Ret.
  unfold row_update in Hs. destruct (proj (w_db w) !! k) eqn:Hk; injection Hs as <- <-; [|done].
  eauto 6.
Qed.

(** The outcome of [query_row] on every branch. *)
Lemma run_query_row {R A} prefix (q : database → option R) (scan : R → string + A) w :
  run (query_row prefix q scan) w =
  (match ext_db (w_tick w) (w_db w) (w_db w) with
   | Accepted =>
       match q (w_db w) with
       | None => Err (EVar ErrNotFound)
       | Some r => match scan r with
                   | inl msg => Err (EWrap prefix (EDriver msg))
                   | inr a => Ret a
                   end
       end
   | Rejected msg | AckLost msg => Err (EWrap prefix (EDriver msg))
   end, w <| w_tick := S (w_tick w) |>).
Proof.
  unfold query_row, db_QueryRow, db_read.
  rewrite run_bind, run_attempt, run_bind, run_act. cbv beta. cbn [w_db field_set].
  destruct (ext_db _ _ _); cbv beta iota; [|by rewrite run_fail..].
  change (w_db (w <| w_tick := S (w_tick w) |>)) with (w_db w).
  destruct (q (w_db w)) as [r|]; [|by rewrite !run_fail].
  destruct (scan r); [by rewrite !run_fail|by rewrite !run_ret].
Qed.

Lemma query_row_Ret {R A} prefix (q : database → option R) (scan : R → string + A) w a w' :
  run (query_row prefix q scan) w = (Ret a, w') →
  unchanged w w' ∧ ∃ r, q (w_db w) = Some r ∧ scan r = inr a.
Proof.
  intros Hrun. split; [exact (Acts_outcome _ _ _ _ _ (acts_query_row _ _ _) Hrun)|].
  rewrite run_query_row in Hrun. destruct (ext_db _ _ _); [|done..].
  destruct (q (w_db w)) as [r|]; [|done]. exists r. split; [done|].
  destruct (scan r); [done|]. by injection Hrun as -> _.
Qed.

(** ** When the database accepts every statement *)

Definition db_accepts : Prop := ∀ n db db', ext_db n db db' = Accepted.

Lemma run_exec_any_ok prefix s w :
  db_accepts →
  match s (ext_db_now (w_tick w)) (w_db w) with
  | None => ∃ e w', run (exec_any prefix s) w = (Err e, w') ∧ unchanged w w'
  | Some (db, _) =>
      ∃ w', run (exec_any prefix s) w = (Ret (), w') ∧ w_db w' = db ∧ w_calls w' = w_calls w
  end.
Proof.
  intros Hok. unfold exec_any, db_Exec. rewrite run_bind, run_wrap_err, run_act. simpl.
  destruct (s _ _) as [[db n]|]; [rewrite Hok|]; eauto 6.
  eexists _, _. split; [done|by split].
Qed.

Lemma run_exec_one_ok prefix s w :
  db_accepts →
  match s (ext_db_now (w_tick w)) (w_db w) with
  | None => ∃ e w', run (exec_one prefix s) w = (Err e, w') ∧ unchanged w w'
  | Some (db, n) =>
      ∃ w', run (exec_one prefix s) w =
              (if decide (n = 0) then Err (EVar ErrNotFound) else Ret (), w') ∧
            w_db w' = db ∧ w_calls w' = w_calls w
  end.
Proof.
  intros Hok. unfold exec_one, db_Exec. rewrite run_bind, run_wrap_err, run_act. simpl.
  destruct (s _ _) as [[db n]|]; [rewrite Hok; case_decide|]; eauto 6.
  eexists _, _. split; [done|by split].
Qed.

Lemma run_insert_ok {K R} `{Countable K} (proj : database → gmap K R) `{!FieldSet proj}
    prefix k (f : time → R) w :
  db_accepts →
  let m := exec_any prefix (λ t, on_table proj (row_insert k (f t))) in
  match proj (w_db w) !! k with
  | Some _ => ∃ e w', run m w = (Err e, w') ∧ unchanged w w'
  | None => ∃ w', run m w = (Ret (), w') ∧
      w_db w' = (w_db w) <| proj := <[k := f (ext_db_now (w_tick w))]> (proj (w_db w)) |> ∧
      w_calls w' = w_calls w
  end.
Proof.
  intros Hok m.
  pose proof (run_exec_any_ok prefix (λ t, on_table proj (row_insert k (f t))) w Hok) as Hrun.
  unfold on_table, row_insert in Hrun. by destruct (proj (w_db w) !! k).
Qed.

(** The whole world after an INSERT under a new key. *)
Lemma run_insert_new {K R} `{Countable K} (proj : database → gmap K R) `{!FieldSet proj}
    prefix k (f : time → R) w :
  db_accepts → proj (w_db w) !! k = None →
  run (exec_any prefix (λ t, on_table proj (row_insert k (f t)))) w =
  (Ret (), w <| w_tick := S (w_tick w) |>
             <| w_db := (w_db w) <| proj :=
                  <[k := f (ext_db_now (w_tick w))]> (proj (w_db w)) |> |>).
Proof.
  intros Hok Hk. unfold exec_any, db_Exec. rewrite run_bind, run_wrap_err, run_act. cbv beta.
  change (w_db (w <| w_tick := S (w_tick w) |>)) with (w_db w).
  unfold on_table, row_insert. rewrite Hk. simpl. by rewrite Hok.
Qed.

Lemma run_update_ok {K R} `{Countable K} (proj : database → gmap K R) `{!FieldSet proj}
    prefix k (f : time → R → R) w r :
  db_accepts → proj (w_db w) !! k = Some r →
  ∃ w', run (exec_one prefix (λ t, on_table proj (row_update k (f t)))) w = (Ret (), w') ∧
        w_db w' = (w_db w) <| proj := <[k := f (ext_db_now (w_tick w)) r]> (proj (w_db w)) |> ∧
        w_calls w' = w_calls w.
Proof.
  intros Hok Hk.
  pose proof (run_exec_one_ok prefix (λ t, on_table proj (row_update k (f t))) w Hok) as Hrun.
  unfold on_table, row_update in Hrun. rewrite Hk in Hrun. exact Hrun.
Qed.
End returns.

#[export] Hint Extern 1 (Acts quiet (SubscriptionRepo_UpdateStatus _ _)) =>
  apply acts_set_subscription_status : acts.
#[export] Hint Extern 1 (Acts quiet (SubscriptionRepo_Delete _)) =>
  apply acts_set_subscription_status : acts.
(** ** Invariants of the database *)

Section database_invariant.
Context `{!Externals} (J : database → Prop).

Definition on_db : world → Prop := λ w, J (w_db w).

Lemma keeps_unchanged {A} (m : M A) : Acts unchanged m → Keeps on_db m (λ _, True).
Proof. apply Keeps_acts. unfold on_db. by intros w w' [-> _]. Qed.

Lemma keeps_db_Exec s :
  (∀ t db db' n, J db → s t db = Some (db', n) → J db') → Keeps on_db (db_Exec s) (λ _, True).
Proof.
  intros Hs. apply Keeps_act. intros w Hw. simpl. unfold on_db in *.
  destruct (s _ _) as [[db n]|] eqn:Heq; [|done].
  specialize (Hs _ _ _ _ Hw Heq). by destruct (ext_db _ _ _).
Qed.

Lemma keeps_db_read {A} (q : time → database → A) (Post : A → Prop) :
  (∀ t db, J db → Post (q t db)) → Keeps on_db (db_read q) Post.
Proof.
  intros Hq. apply Keeps_act. intros w Hw. simpl. unfold on_db in *.
  destruct (ext_db _ _ _); simpl; auto.
Qed.
End database_invariant.

#[export] Hint Resolve acts_TransactionRepo_GetByID acts_PaymentMethodRepo_GetByID acts_SubscriptionRepo_GetByID acts_InvoiceRepo_GetByID
  acts_PayoutRepo_GetByID acts_DisputeRepo_GetByID acts_MerchantRepo_GetByID acts_CustomerRepo_GetByID
  acts_UserRepo_GetByID acts_WebhookConfigRepo_GetByID acts_WebhookDeliveryRepo_GetByID acts_ProviderConfigRepo_GetByID : acts.
#[export] Hint Resolve acts_query_row acts_query_rows acts_query_listing acts_CheckAndSave
  acts_TransactionRepo_Create acts_TransactionRepo_Update acts_TransactionRepo_UpdateStatus
  acts_PaymentMethodRepo_Create acts_PaymentMethodRepo_Delete
  acts_SubscriptionRepo_Create acts_SubscriptionRepo_Update
  acts_InvoiceRepo_Create acts_InvoiceRepo_UpdateStatus
  acts_PayoutRepo_Create acts_PayoutRepo_UpdateStatus
  acts_DisputeRepo_Create acts_DisputeRepo_UpdateEvidence acts_DisputeRepo_UpdateStatus
  acts_MerchantRepo_Create acts_MerchantRepo_Update
  acts_CustomerRepo_Create acts_CustomerRepo_Update acts_CustomerRepo_Delete
  acts_UserRepo_Create acts_UserRepo_Update acts_UserRepo_Delete
  acts_ProductRepo_Create acts_ProductRepo_GetByID acts_ProductRepo_ListByMerchant
  acts_ProductRepo_Update acts_ProductRepo_Delete
  acts_WebhookConfigRepo_Create acts_WebhookConfigRepo_Update acts_WebhookConfigRepo_Delete
  acts_WebhookDeliveryRepo_Create acts_WebhookDeliveryRepo_UpdateStatus
  acts_ProviderConfigRepo_Create acts_ProviderConfigRepo_Update acts_ProviderConfigRepo_Delete
  acts_AuditLogRepo_Create acts_AuditLogRepo_ListByMerchant : acts.
