(* ===== verification/EventBus.v ===== *)
(** Events: [internal/eventbus/eventbus.go].

    [EventBus] is the interface as a record; JetStream and the no-op bus
    implement it.  [PublishesOnly] is what its clients rely on: publishing
    touches neither the database nor the payment providers. *)

From S2P Require Import Prelude GoInt GoTime Model Errors World Effects Logic History.

Open Scope Z_scope.

Record EventBus := MkEventBus { Publish : string → Event → M unit }.

Class PublishesOnly (b : EventBus) := {
  publish_unchanged subject e : Acts unchanged (Publish b subject e);
  publish_safe subject e : Safe (Publish b subject e)
}.

Section buses.
Context `{!Externals}.

(** The message is stored with the time of its publication; an event that
    cannot be marshalled counts as [Rejected]. *)
Definition NatsEventBus_Publish (subject : string) (e : Event) : M unit :=
  t ← now;
  let e := e <| ev_Timestamp := UnixMilli t |> in
  act (λ n w,
    let stored := w <| w_events := w_events w ++ [(subject, e)] |> in
    match ext_publish n with
    | Accepted => (Ret (), stored)
    | Rejected msg => (Err (EDriver msg), w)
    | AckLost msg => (Err (EDriver msg), stored)
    end).

Definition NatsEventBus : EventBus := MkEventBus NatsEventBus_Publish.

Definition NoopEventBus : EventBus := MkEventBus (λ _ _, mret ()).

#[export] Instance nats_publishes_only : PublishesOnly NatsEventBus.
Proof.
  split; intros subject e.
  - apply Acts_bind; [acts|intros t]. apply Acts_act. intros n w. by destruct (ext_publish n).
  - apply Safe_bind; [safe|intros t]. apply Safe_act. intros n w msg. by destruct (ext_publish n).
Qed.

#[export] Instance noop_publishes_only : PublishesOnly NoopEventBus.
Proof. by split. Qed.

(** [if err := Publish(...); err != nil { log }]. *)
Definition emit (b : EventBus) (subject type : string) (data : event_data) : M unit :=
  ignore_err (Publish b subject (MkEvent type "helix-seller" data 0)).

Lemma acts_emit b `{!PublishesOnly b} subject type data : Acts unchanged (emit b subject type data).
Proof. apply Acts_ignore_err. apply publish_unchanged. Qed.

(** A failed publication is logged: [emit] always returns. *)
Lemma run_emit b `{!PublishesOnly b} subject type data w :
  ∃ w', run (emit b subject type data) w = (Ret (), w') ∧ unchanged w w'.
Proof.
  unfold emit. rewrite run_ignore_err.
  destruct (run (Publish _ _ _) w) as [o w'] eqn:Hrun.
  pose proof (Acts_outcome _ _ _ _ _ (publish_unchanged _ _) Hrun).
  destruct o as [|e|msg]; [by eexists..|].
  by apply Safe_run in Hrun; [|apply publish_safe].
Qed.
End buses.

#[export] Hint Resolve acts_emit publish_unchanged : acts.
