(* ===== verification/Provider.v ===== *)
(** Payment providers: [internal/provider].

    [PaymentProvider] is the interface of [adapter.go] as a record of
    operations; the mock, Stripe, PayPal and Square adapters are its values,
    and [NewFactory] chooses among them from the configuration. *)

From S2P Require Import Prelude GoInt GoTime GoFloat GoJson Model Errors World Effects.
From S2P Require Import Logic History.

Open Scope Z_scope.

(** The fields of [config.Config] the factory reads. *)
Record ProviderSettings := MkProviderSettings {
  ProviderMock : bool;
  StripeAPIKey : string; StripeWebhookSecret : string;
  PayPalClientID : string; PayPalSecret : string; PayPalWebhookID : string;
  SquareAccessToken : string; SquareApplicationID : string; SquareWebhookSigKey : string
}.

(** HMAC-SHA256 of a message under a key: the 32 bytes. *)
Class Crypto := { hmac_sha256 : string → string → list ascii }.

Definition hex_digit (n : N) : ascii :=
  ascii_of_N (if decide (n < 10)%N then 48 + n else 87 + n)%N.

(** [hex.EncodeToString]. *)
Fixpoint EncodeToString (bytes : list ascii) : string :=
  match bytes with
  | [] => ""
  | c :: bytes =>
      let n := N_of_ascii c in
      String (hex_digit (n / 16)) (String (hex_digit (n mod 16)) (EncodeToString bytes))
  end.

Definition zero_transaction : Transaction :=
  MkTransaction uuid_Nil uuid_Nil uuid_Nil "" "" "" 0 "" "" uuid_Nil None None None None None 0
    None None time_zero time_zero.

Section providers.
Context `{!Externals, !Crypto}.

Record PaymentProvider := MkPaymentProvider {
  Name : string;
  Charge : ChargeRequest → M Transaction;
  Refund : RefundRequest → M Transaction;
  VerifyWebhookSignature : string → string → string → string + bool
}.

(** ** mock.go *)

Definition mock_fee (amount : Z) : Z :=
  int64_of_float (fadd (fmul (float64_of_int amount) float_0_029) (float64_of_int 30)).

Definition MockProvider_Charge (req : ChargeRequest) : M Transaction :=
  if decide (ch_Amount req ≤ 0) then fail (EText "mock: amount must be positive")
  else
    t ← now;
    let fee := mock_fee (ch_Amount req) in
    let net := sub64 (ch_Amount req) fee in
    id ← uuid_New;
    ref ← uuid_New;
    mret (zero_transaction <| tx_ID := id |> <| tx_Provider := "mock" |>
      <| tx_ProviderTransactionID := "mock_ch_" +:+ uuid_String ref |>
      <| tx_Type := TransactionTypeCharge |> <| tx_Amount := ch_Amount req |>
      <| tx_Currency := ch_Currency req |> <| tx_Status := TransactionStatusSucceeded |>
      <| tx_FeeAmount := fee |> <| tx_NetAmount := Some net |>
      <| tx_ProcessedAt := Some t |> <| tx_CreatedAt := t |> <| tx_UpdatedAt := t |>).

Definition MockProvider_Refund (req : RefundRequest) : M Transaction :=
  if decide (default 1 (rf_Amount req) ≤ 0)
  then fail (EText "mock: refund amount must be positive")
  else
    t ← now;
    id ← uuid_New;
    ref ← uuid_New;
    mret (zero_transaction <| tx_ID := id |> <| tx_Provider := "mock" |>
      <| tx_ProviderTransactionID := "mock_re_" +:+ uuid_String ref |>
      <| tx_Type := TransactionTypeRefund |> <| tx_Amount := default 0 (rf_Amount req) |>
      <| tx_Status := TransactionStatusSucceeded |>
      <| tx_ProcessedAt := Some t |> <| tx_CreatedAt := t |> <| tx_UpdatedAt := t |>).

Definition NewMockProvider : PaymentProvider :=
  MkPaymentProvider "mock" MockProvider_Charge MockProvider_Refund (λ _ _ _, inr true).

(** ** paypal.go and square.go *)

Definition unconfigured (name : string) : PaymentProvider :=
  let msg := name +:+ " provider not yet configured" in
  MkPaymentProvider name (λ _, fail (EText msg)) (λ _, fail (EText msg)) (λ _ _ _, inl msg).

Definition NewPayPalProvider (clientID secret webhookID : string) : PaymentProvider :=
  unconfigured "paypal".
Definition NewSquareProvider (accessToken applicationID webhookSigKey : string)
  : PaymentProvider := unconfigured "square".

(** ** stripe.go *)

Definition stripeChargeRequest_body (req : ChargeRequest) : json :=
  JObj [("amount", JNum (ch_Amount req)); ("currency", JStr (ch_Currency req));
        ("source", JStr (ch_Source req)); ("description", JStr (ch_Description req));
        ("metadata", encode_map (ch_Metadata req))].

Record stripeChargeResponse := MkStripeChargeResponse {
  sr_ID : string; sr_Status : string; sr_Amount : Z
}.

Definition decode_stripeChargeResponse (v : json) : option stripeChargeResponse :=
  members ← decode_members v;
  id ← decode_field decode_string "id" members "";
  status ← decode_field decode_string "status" members "";
  amount ← decode_field decode_int64 "amount" members 0;
  Some (MkStripeChargeResponse id status amount).

Definition stripeRefundRequest_body (req : RefundRequest) : json :=
  JObj ([("charge", JStr (rf_TransactionID req))] ++
        match rf_Amount req with None => [] | Some a => [("amount", JNum a)] end ++
        omit_if (bool_decide (rf_Reason req = "")) "reason" (JStr (rf_Reason req)) ++
        omit_if (bool_decide (rf_Metadata req = ∅)) "metadata" (encode_map (rf_Metadata req))).

(** [stripeRefundResponse] has no amount. *)
Definition decode_stripeRefundResponse (v : json) : option (string * string) :=
  members ← decode_members v;
  id ← decode_field decode_string "id" members "";
  status ← decode_field decode_string "status" members "";
  Some (id, status).

(** The body of a response with status 200, parsed; every error of the way
    has its own prefix. *)
Definition stripe_post {A} (request response refused parse : string) (url : string)
    (headers : list (string * string)) (body : json) (dec : json → option A) : M A :=
  resp ← wrap_err request (http_Do (MkHttpRequest "POST" url headers (inl body)));
  let '(status, body) := resp in
  match body with
  | (_, Some msg) => fail (EWrap response (EDriver msg))
  | (text, None) =>
      if decide (status ≠ StatusOK)
      then fail (EText (refused +:+ " with status " +:+ pretty status +:+ ": " +:+ text))
      else match ext_json text with
           | inl msg => fail (EWrap parse (EDriver msg))
           | inr v => match dec v with
                      | None => fail (EWrap parse (EDriver "cannot unmarshal"))
                      | Some a => mret a
                      end
           end
  end.

Definition stripe_headers (apiKey : string) : list (string * string) :=
  [("Authorization", "Bearer " +:+ apiKey); ("Content-Type", "application/json")].

(** Every status but "succeeded", "pending" included, is a failure. *)
Definition stripe_status (s : string) : TransactionStatus :=
  if decide (s ≠ "succeeded") then TransactionStatusFailed else TransactionStatusSucceeded.

(** No fee, no net amount and no processing time are set. *)
Definition StripeProvider_Charge (apiKey : string) (req : ChargeRequest) : M Transaction :=
  let headers := stripe_headers apiKey ++
    omit_if (bool_decide (ch_IdempotencyKey req = "")) "Idempotency-Key"
      (ch_IdempotencyKey req) in
  resp ← stripe_post "stripe: charge request failed" "stripe: read response"
    "stripe: charge failed" "stripe: parse response"
    "https://api.stripe.com/v1/charges" headers (stripeChargeRequest_body req)
    decode_stripeChargeResponse;
  t ← now;
  id ← uuid_New;
  mret (zero_transaction <| tx_ID := id |> <| tx_Provider := "stripe" |>
    <| tx_ProviderTransactionID := sr_ID resp |>
    <| tx_Type := TransactionTypeCharge |> <| tx_Amount := sr_Amount resp |>
    <| tx_Currency := ch_Currency req |> <| tx_Status := stripe_status (sr_Status resp) |>
    <| tx_CreatedAt := t |> <| tx_UpdatedAt := t |>).

Definition StripeProvider_Refund (apiKey : string) (req : RefundRequest) : M Transaction :=
  resp ← stripe_post "stripe: refund request failed" "stripe: read refund response"
    "stripe: refund failed" "stripe: parse refund response"
    "https://api.stripe.com/v1/refunds" (stripe_headers apiKey) (stripeRefundRequest_body req)
    decode_stripeRefundResponse;
  let '(ref, status) := resp in
  t ← now;
  id ← uuid_New;
  mret (zero_transaction <| tx_ID := id |> <| tx_Provider := "stripe" |>
    <| tx_ProviderTransactionID := ref |> <| tx_Type := TransactionTypeRefund |>
    <| tx_Status := stripe_status status |>
    <| tx_CreatedAt := t |> <| tx_UpdatedAt := t |>).

Definition computeStripeSignature (payload secret : string) : string :=
  EncodeToString (hmac_sha256 secret payload).

(** [hmac.Equal] compares the bytes. *)
Definition StripeProvider_VerifyWebhookSignature (payload sigHeader secret : string) : bool :=
  bool_decide (sigHeader = computeStripeSignature payload secret).

Definition NewStripeProvider (apiKey webhookSecret : string) : PaymentProvider :=
  MkPaymentProvider "stripe" (StripeProvider_Charge apiKey) (StripeProvider_Refund apiKey)
    (λ payload sig secret, inr (StripeProvider_VerifyWebhookSignature payload sig secret)).

(** ** factory.go *)

Definition Factory : Type := gmap string PaymentProvider.

Definition hasRealKeys (cfg : ProviderSettings) : bool :=
  bool_decide (StripeAPIKey cfg ≠ "") || bool_decide (PayPalClientID cfg ≠ "") ||
  bool_decide (SquareAccessToken cfg ≠ "").

Definition NewFactory (cfg : ProviderSettings) : Factory :=
  if ProviderMock cfg || negb (hasRealKeys cfg) then
    let mock := NewMockProvider in
    <["square" := mock]> (<["paypal" := mock]> (<["stripe" := mock]> (<["mock" := mock]> ∅)))
  else
    let f := if decide (StripeAPIKey cfg ≠ "")
             then <["stripe" := NewStripeProvider (StripeAPIKey cfg) (StripeWebhookSecret cfg)]> ∅
             else ∅ in
    let f := <["paypal" := NewPayPalProvider (PayPalClientID cfg) (PayPalSecret cfg)
                             (PayPalWebhookID cfg)]> f in
    <["square" := NewSquareProvider (SquareAccessToken cfg) (SquareApplicationID cfg)
                    (SquareWebhookSigKey cfg)]> f.

Definition Factory_Get (f : Factory) (name : string) : error + PaymentProvider :=
  match f !! name with
  | None => inl (EText ("unknown payment provider: " +:+ name))
  | Some p => inr p
  end.

(** A call through the interface, recorded with its request. *)
Definition call_Charge (p : PaymentProvider) (req : ChargeRequest) : M Transaction :=
  log_call (CallCharge (Name p) req);; Charge p req.
Definition call_Refund (p : PaymentProvider) (req : RefundRequest) : M Transaction :=
  log_call (CallRefund (Name p) req);; Refund p req.

(** ** What clients of the interface rely on

    A provider leaves the database alone and makes no call on behalf of
    another; a charge it answers has succeeded or failed. *)
Class ProviderLaws (p : PaymentProvider) := {
  Charge_unchanged req : Acts unchanged (Charge p req);
  Refund_unchanged req : Acts unchanged (Refund p req);
  Charge_settled req w resp w' : run (Charge p req) w = (Ret resp, w') →
    tx_Status resp = TransactionStatusSucceeded ∨ tx_Status resp = TransactionStatusFailed;
  Charge_safe req : Safe (Charge p req);
  Refund_safe req : Safe (Refund p req)
}.

Class FactoryLaws (f : Factory) := factory_laws name p : f !! name = Some p → ProviderLaws p.

#[export] Instance mock_laws : ProviderLaws NewMockProvider.
Proof.
  split; simpl; intros req.
  - unfold MockProvider_Charge. acts.
  - unfold MockProvider_Refund. acts.
  - intros w resp w' Hrun. unfold MockProvider_Charge in Hrun.
    case_decide; [discriminate Hrun|]. run_inv Hrun. by left.
  - unfold MockProvider_Charge. safe.
  - unfold MockProvider_Refund. safe.
Qed.

#[export] Instance unconfigured_laws name : ProviderLaws (unconfigured name).
Proof. split; done. Qed.

Lemma stripe_post_unchanged {A} p1 p2 p3 p4 url headers body (dec : json → option A) :
  Acts unchanged (stripe_post p1 p2 p3 p4 url headers body dec).
Proof. unfold stripe_post. acts. Qed.

#[export] Instance stripe_laws apiKey secret : ProviderLaws (NewStripeProvider apiKey secret).
Proof.
  split; simpl; intros req.
  - apply Acts_bind; [apply stripe_post_unchanged|acts].
  - apply Acts_bind; [apply stripe_post_unchanged|acts].
  - intros w resp w' Hrun. apply run_bind_Ret in Hrun as (r & w1 & _ & Hrun).
    run_inv Hrun. simpl. unfold stripe_status. case_decide; auto.
  - unfold StripeProvider_Charge, stripe_post. safe.
  - unfold StripeProvider_Refund, stripe_post. safe.
Qed.

Lemma factory_laws_insert name p f : ProviderLaws p → FactoryLaws f → FactoryLaws (<[name:=p]> f).
Proof. intros Hp Hf name' p' [[<- <-]|[? ?]]%lookup_insert_Some; [done|by eapply Hf]. Qed.
Lemma factory_laws_empty : FactoryLaws ∅.
Proof. by intros name p ?%lookup_empty_Some. Qed.

#[export] Instance NewFactory_laws cfg : FactoryLaws (NewFactory cfg).
Proof.
  unfold NewFactory. destruct (_ || _); [|case_decide];
    repeat (apply factory_laws_insert; [apply _|]); apply factory_laws_empty.
Qed.
End providers.
