(* ===== verification/Schema.v ===== *)
(** The constraints of [migrations/*.up.sql] that the Go code can violate: NOT
    NULL columns whose Go field may be nil, and the unique indexes on values
    the handlers choose.  [SchemaEnforced] states that PostgreSQL rejects a
    statement that would break one. *)

From S2P Require Import Prelude GoInt GoTime Model Errors World Effects Logic History RepoHistory.
From S2P Require Import Repository.

Open Scope Z_scope.

(** ** NOT NULL *)

Definition not_null (db : database) : Prop :=
  map_Forall (λ _ x, tx_Metadata x ≠ None) (db_transactions db) ∧
  map_Forall (λ _ x, sub_Metadata x ≠ None) (db_subscriptions db) ∧
  map_Forall (λ _ x, inv_Metadata x ≠ None) (db_invoices db) ∧
  map_Forall (λ _ x, po_Metadata x ≠ None ∧ po_ArrivalDate x ≠ None) (db_payouts db) ∧
  map_Forall (λ _ x, dp_Metadata x ≠ None ∧ dp_Evidence x ≠ None) (db_disputes db) ∧
  map_Forall (λ _ x, pd_Metadata x ≠ None) (db_products db) ∧
  map_Forall (λ _ x, cr_metadata x ≠ None) (db_customers db) ∧
  map_Forall (λ _ x, pm_Metadata x ≠ None) (db_payment_methods db) ∧
  map_Forall (λ _ x, ak_Scopes x ≠ None) (db_api_keys db) ∧
  map_Forall (λ _ x, wc_Metadata x ≠ None) (db_webhook_configs db) ∧
  map_Forall (λ _ x, pc_Config x ≠ None ∧ pc_Metadata x ≠ None) (db_provider_configs db) ∧
  map_Forall (λ _ x, bt_Payload x ≠ None ∧ bt_NextRunAt x ≠ None) (db_background_tasks db).

#[export] Instance not_null_dec db : Decision (not_null db).
Proof. unfold not_null. apply _. Defined.

(** ** Unique indexes *)

Definition unique_on {K R V} `{Countable K} (f : R → option V) (t : gmap K R) : Prop :=
  map_Forall (λ k r, map_Forall (λ k' r', f r = f r' → f r ≠ None → k = k') t) t.

(** [idx_merchants_slug] and [idx_merchants_email], WHERE deleted_at IS NULL;
    [idx_users_email]. *)
Definition live {V} (x : Merchant) (v : V) : option V :=
  match me_DeletedAt x with None => Some v | Some _ => None end.

Definition unique (db : database) : Prop :=
  unique_on (λ x, live x (me_Slug x)) (db_merchants db) ∧
  unique_on (λ x, live x (me_Email x)) (db_merchants db) ∧
  unique_on (λ x, Some (us_Email (ur_user x))) (db_users db).

#[export] Instance unique_dec db : Decision (unique db).
Proof. unfold unique, unique_on. apply _. Defined.

Class SchemaEnforced `{!Externals} : Prop := {
  not_null_enforced n db db' : ¬ not_null db' → ∃ msg, ext_db n db db' = Rejected msg;
  unique_enforced n db db' : ¬ unique db' → ∃ msg, ext_db n db db' = Rejected msg
}.

Section enforced.
Context `{!Externals, !SchemaEnforced}.

(** A statement whose effect would break the schema fails and changes
    nothing. *)
Lemma exec_any_rejected prefix s w o w' :
  (∀ t db n, s t (w_db w) = Some (db, n) → ¬ not_null db ∨ ¬ unique db) →
  run (exec_any prefix s) w = (o, w') →
  (∃ e, o = Err (EWrap prefix e)) ∧ unchanged w w'.
Proof.
  intros Hs. unfold exec_any, db_Exec. rewrite run_bind, run_wrap_err, run_act. simpl.
  destruct (s _ _) as [[db n]|] eqn:Heq;
    [|intros [= <- <-]; split; [by eexists|by split]].
  assert (∃ msg, ext_db (w_tick w) (w_db w) db = Rejected msg) as [msg Hrej].
  { destruct (Hs _ _ _ Heq); [by apply not_null_enforced|by apply unique_enforced]. }
  rewrite Hrej. intros [= <- <-]. split; [by eexists|by split].
Qed.

(** An INSERT of a row that breaks a NOT NULL column. *)
Lemma insert_null_rejected {K R} `{Countable K} (proj : database → gmap K R) `{!FieldSet proj}
    prefix k (f : time → R) w o w' :
  run (exec_any prefix (λ t, on_table proj (row_insert k (f t)))) w = (o, w') →
  (∀ t db, ¬ not_null (db <| proj := <[k := f t]> (proj db) |>)) →
  (∃ e, o = Err e) ∧ w_db w' = w_db w.
Proof.
  intros Hrun Hnull. apply exec_any_rejected in Hrun as [[e ->] [Hdb _]]; [eauto|].
  intros t db n (tbl & Hs & ->)%on_table_inv. left. unfold row_insert in Hs.
  destruct (_ !! k); [done|]. injection Hs as <- <-. apply Hnull.
Qed.
End enforced.

(** A database that enforces the schema and accepts everything else. *)
Definition schema_verdict (_ : nat) (_ db : database) : verdict :=
  if decide (not_null db ∧ unique db) then Accepted else Rejected "constraint violation".
