(* ===== verification/Sample.v ===== *)
(** A concrete outside world, in which the theorems are instantiated: a clock
    that advances one second per interaction, identifiers counted from 1, a
    database that accepts every statement, a broker that stores every message,
    and no HTTP. *)

From S2P Require Import Prelude GoInt GoTime Pagination Model Errors World Effects.
From S2P Require Import EventBus Provider Schema.

Open Scope Z_scope.

Section order.
Context {R : Type} (le : R → R → bool).

Definition sort_rows (l : list R) : list R := merge_sort (λ x y, Is_true (le x y)) l.

Lemma sort_rows_perm l : sort_rows l ≡ₚ l.
Proof. apply merge_sort_Permutation. Qed.

Lemma sort_rows_sorted l :
  (∀ x y, le x y || le y x) → (∀ x y z, le x y → le y z → le x z) →
  StronglySorted (λ x y, le x y) (sort_rows l).
Proof.
  intros Htotal Htrans. apply StronglySorted_merge_sort.
  - intros x y z. apply Htrans.
  - intros x y. specialize (Htotal x y). by apply orb_True in Htotal.
Qed.
End order.

Definition sample_order : RowOrder := {|
  order_by := @sort_rows;
  order_by_perm := @sort_rows_perm;
  order_by_sorted := @sort_rows_sorted
|}.

Definition sample_uuid_in (s : string) : option uuid :=
  match Atoi s with (n, true) => if decide (0 ≤ n) then Some (Z.to_N n) else None | _ => None end.

(** 2024-01-31T00:00:00Z. *)
Definition sample_epoch : time := 1706659200 * Second.

Definition sample_with (verdicts : nat → database → database → verdict)
    (http : nat → http_request → http_response) (parse : string → string + json) : Externals := {|
  ext_now := λ n, sample_epoch + Z.of_nat n * Second;
  ext_db_now := λ n, sample_epoch + Z.of_nat n * Second;
  ext_uuid := λ n, N.of_nat (S n);
  ext_rand := λ n len, inr (repeat (ascii_of_nat n) len);
  ext_db := verdicts;
  ext_locked := λ _ _, false;
  ext_rows := λ _, None;
  ext_publish := λ _, Accepted;
  ext_http := http;
  ext_redis := λ _, None;
  ext_json := parse;
  uuid_String := pretty;
  uuid_Parse := λ s, match sample_uuid_in s with
                     | Some u => inr u | None => inl "invalid UUID length" end;
  pg_uuid_in := sample_uuid_in;
  ext_order := sample_order
|}.

Definition sample : Externals :=
  sample_with (λ _ _ _, Accepted) (λ _ _, inl "no route to host") (λ _, inl "no JSON").

(** The same with the schema enforced. *)
Definition strict : Externals :=
  sample_with schema_verdict (λ _ _, inl "no route to host") (λ _, inl "no JSON").

#[export] Instance strict_enforced : @SchemaEnforced strict.
Proof.
  split; intros n db db' Hbad; simpl; unfold schema_verdict;
    rewrite decide_False by tauto; eauto.
Qed.

(** Not a hash: the length of the message, on one byte. *)
Definition sample_crypto : Crypto := {|
  hmac_sha256 := λ key msg, [ascii_of_nat (String.length key); ascii_of_nat (String.length msg)]
|}.

(** Settings with no key: every provider name means the mock. *)
Definition mock_settings : ProviderSettings :=
  MkProviderSettings false "" "" "" "" "" "" "" "".

Definition sample_method : PaymentMethod :=
  MkPaymentMethod 9 3 4 PaymentMethodTypeCard "stripe" "tok_visa" "" "visa" "4242" 12 2030 true
    (Some "{}") sample_epoch sample_epoch.

(** One payment method of customer 4 of merchant 3. *)
Definition sample_db : database :=
  empty_database <| db_payment_methods := {[9%N := sample_method]} |>.
