(* ===== verification/PaymentSvc.v ===== *)
(** Payments: [internal/service/payment.go]. *)

From S2P Require Import Prelude GoInt GoTime Model Errors World Effects Logic History.
From S2P Require Import Repository RepoPayments RepoHistory EventBus Provider Schema Sample.

Open Scope Z_scope.

Section service.
Context `{!Externals, !Crypto} (bus : EventBus) (providers : Factory).

(** [errMsg := err.Error(); tx.ErrorMessage = &errMsg], persisted on a best
    effort. *)
Definition failed (tx : Transaction) (err : error) : Transaction :=
  tx <| tx_Status := TransactionStatusFailed |> <| tx_ErrorMessage := Some (Error err) |>.

Definition record_failure (tx : Transaction) (err : error) : M unit :=
  ignore_err (TransactionRepo_Update (failed tx err)).

Definition check_idempotency (idempotencyKey : string) (merchantID : uuid) : M unit :=
  if decide (idempotencyKey = "") then mret ()
  else
    ok ← wrap_err "idempotency check error"
           (IdempotencyRepo_CheckAndSave idempotencyKey (uuid_String merchantID));
    if (ok : bool) then mret ()
    else fail (EText ("duplicate idempotency key: " +:+ idempotencyKey)).

Definition party_metadata (merchantID customerID : uuid) : gmap string string :=
  <["merchant_id" := uuid_String merchantID]> {["customer_id" := uuid_String customerID]}.

Definition pending_charge (id merchantID customerID paymentMethodID : uuid) (amount : Z)
    (currency idempotencyKey provider : string) : Transaction :=
  zero_transaction <| tx_ID := id |> <| tx_MerchantID := merchantID |>
    <| tx_CustomerID := customerID |> <| tx_PaymentMethodID := paymentMethodID |>
    <| tx_Amount := amount |> <| tx_Currency := currency |>
    <| tx_Status := TransactionStatusPending |> <| tx_Type := TransactionTypeCharge |>
    <| tx_Provider := provider |> <| tx_IdempotencyKey := Some idempotencyKey |>
    <| tx_Metadata := Some "{}" |>.

Definition charge_request (merchantID customerID : uuid) (amount : Z)
    (currency idempotencyKey token : string) : ChargeRequest :=
  MkChargeRequest amount currency token ("charge for customer " +:+ uuid_String customerID)
    idempotencyKey (party_metadata merchantID customerID).

(** What the provider's answer changes in the transaction. *)
Definition settled (tx resp : Transaction) (now : time) : Transaction :=
  tx <| tx_Provider := tx_Provider resp |>
     <| tx_ProviderTransactionID := tx_ProviderTransactionID resp |>
     <| tx_Status := tx_Status resp |> <| tx_FeeAmount := tx_FeeAmount resp |>
     <| tx_NetAmount := tx_NetAmount resp |> <| tx_ProcessedAt := Some now |>.

(** From the stored pending transaction to the answer. *)
Definition charge_transaction (tx : Transaction) (pm : PaymentMethod) (req : ChargeRequest)
    : M Transaction :=
  match Factory_Get providers (pm_Provider pm) with
  | inl err =>
      record_failure tx err;;
      fail (EWrap ("get provider " +:+ pm_Provider pm) err)
  | inr prov =>
      resp ← attempt (call_Charge prov req);
      match resp with
      | inl err =>
          record_failure tx err;;
          fail (EWrap "provider charge failed" err)
      | inr resp =>
          t ← now;
          let tx := settled tx resp t in
          TransactionRepo_Update tx;;
          emit bus "events.payment.initiated" "payment.initiated" (DTransaction tx);;
          mret tx
      end
  end.

Definition PaymentService_ProcessPayment (merchantID customerID paymentMethodID : uuid) (amount : Z)
    (currency idempotencyKey : string) : M Transaction :=
  check_idempotency idempotencyKey merchantID;;
  pm ← PaymentMethodRepo_GetByID paymentMethodID;
  id ← uuid_New;
  let tx := pending_charge id merchantID customerID paymentMethodID amount currency
              idempotencyKey (pm_Provider pm) in
  TransactionRepo_Create tx;;
  charge_transaction tx pm
    (charge_request merchantID customerID amount currency idempotencyKey (pm_ProviderToken pm)).

Definition PaymentService_GetTransaction : uuid → M Transaction := TransactionRepo_GetByID.
Definition PaymentService_ListTransactions : uuid → Z → Z → M (list Transaction * Z) :=
  TransactionRepo_ListByMerchant.

Definition refund_request (orig : Transaction) (amount : Z) (reason : string) : RefundRequest :=
  MkRefundRequest (tx_ProviderTransactionID orig)
    (if decide (amount > 0) then Some amount else None) reason ""
    (party_metadata (tx_MerchantID orig) (tx_CustomerID orig)).

(** The stored refund: reversed whatever status the provider answered, for
    the amount asked, and with no metadata. *)
Definition refund_transaction (id : uuid) (orig resp : Transaction) (amount : Z)
    (reason : string) : Transaction :=
  zero_transaction <| tx_ID := id |> <| tx_MerchantID := tx_MerchantID orig |>
    <| tx_CustomerID := tx_CustomerID orig |>
    <| tx_PaymentMethodID := tx_PaymentMethodID orig |>
    <| tx_Amount := amount |> <| tx_Currency := tx_Currency orig |>
    <| tx_Status := TransactionStatusReversed |> <| tx_Type := TransactionTypeRefund |>
    <| tx_Provider := tx_Provider resp |>
    <| tx_ProviderTransactionID := tx_ProviderTransactionID resp |>
    <| tx_Description := Some reason |>.

Definition PaymentService_Refund (transactionID : uuid) (amount : Z) (reason : string) : M Transaction :=
  orig ← TransactionRepo_GetByID transactionID;
  match Factory_Get providers (tx_Provider orig) with
  | inl err => fail (EWrap ("get provider " +:+ tx_Provider orig) err)
  | inr prov =>
      resp ← wrap_err "provider refund failed" (call_Refund prov (refund_request orig amount reason));
      id ← uuid_New;
      let refund := refund_transaction id orig resp amount reason in
      TransactionRepo_Create refund;;
      emit bus "events.payment.refunded" "payment.refunded" (DTransaction refund);;
      mret refund
  end.

(** ** What the service does to the world *)

Context `{!PublishesOnly bus, !FactoryLaws providers}.

Lemma Factory_Get_laws name p : Factory_Get providers name = inr p → ProviderLaws p.
Proof.
  unfold Factory_Get. destruct (providers !! name) eqn:Hp; intros [= <-].
  by eapply factory_laws.
Qed.

Lemma acts_record_failure tx err : Acts quiet (record_failure tx err).
Proof. unfold record_failure. acts. Qed.

Lemma acts_check_idempotency key m : Acts quiet (check_idempotency key m).
Proof. unfold check_idempotency. acts. Qed.

Lemma acts_log_call c : Acts lawful (log_call c).
Proof. intros w. split; [|done]. split; [done|]. by apply prefix_app_r. Qed.

Lemma acts_call_Charge p req : ProviderLaws p → Acts lawful (call_Charge p req).
Proof.
  intros Hp. apply Acts_bind; [apply acts_log_call|intros _].
  apply quiet_lawful, unchanged_quiet, Charge_unchanged.
Qed.

Lemma acts_call_Refund p req : ProviderLaws p → Acts lawful (call_Refund p req).
Proof.
  intros Hp. apply Acts_bind; [apply acts_log_call|intros _].
  apply quiet_lawful, unchanged_quiet, Refund_unchanged.
Qed.

(** ** The charges made with an idempotency key *)

Definition charge_with (key : string) (c : provider_call) : bool :=
  match c with
  | CallCharge _ req => bool_decide (ch_IdempotencyKey req = key)
  | CallRefund _ _ => false
  end.

Definition charges_with (key : string) (w : world) : nat := count_true (charge_with key) (w_calls w).

(** The charges made, and the one that may still be made while the key is
    not in the table. *)
Definition charge_budget (key : string) (w : world) : nat :=
  (charges_with key w + if decide (db_idempotency_keys (w_db w) !! key = None) then 1 else 0)%nat.

Lemma quiet_budget key w w' : quiet w w' → (charge_budget key w' ≤ charge_budget key w)%nat.
Proof.
  intros [Hdb Hc]. unfold charge_budget, charges_with. rewrite Hc.
  destruct (db_idempotency_keys (w_db w) !! key) as [r|] eqn:Hk.
  - destruct (table_le_lookup _ _ _ _ _ _ (le_idempotency_keys Hdb) Hk) as (r' & Hk' & _).
    rewrite decide_False by congruence. lia.
  - rewrite (decide_True (P := None = None)) by done. case_decide; lia.
Qed.

Lemma spends_quiet {A} key c (m : M A) : Acts quiet m → Spends (charge_budget key) c m (λ _, 0%nat).
Proof.
  intros Hm. eapply Spends_mono; [|done|].
  - apply Spends_frame. eapply Acts_weaken; [apply quiet_budget|done].
  - simpl; lia.
Qed.

(** Credits are kept through a quiet part of a method. *)
Lemma spends_quiet_bind {A B} key c (m : M A) (k : A → M B) :
  Acts quiet m → (∀ a, Spends (charge_budget key) c (k a) (λ _, 0%nat)) →
  Spends (charge_budget key) c (m ≫= k) (λ _, 0%nat).
Proof.
  intros Hm Hk. eapply (Spends_bind _ _ _ _ (λ _, c)); [|done..].
  eapply Spends_mono; [apply Spends_frame|done|].
  - eapply Acts_weaken; [apply quiet_budget|done].
  - intros []; simpl; lia.
Qed.

Definition credit (key key' : string) : nat := if decide (key' = key) then 1 else 0.

Lemma spends_insert key m :
  Spends (charge_budget key) 0 (db_Exec (insert_idempotency_key key m))
    (λ o, match o with Ret n => if decide (n = 0%Z) then 0 else 1 | _ => 0 end)%nat.
Proof.
  apply Spends_act. intros w. unfold insert_idempotency_key, charge_budget, charges_with; simpl.
  destruct (db_idempotency_keys (w_db w) !! key) eqn:Hk; destruct (ext_db _ _ _); simpl;
    rewrite ?lookup_insert_eq, ?Hk; repeat case_decide; simpl; (done || lia).
Qed.

Lemma spends_check key key' m :
  key ≠ "" →
  Spends (charge_budget key) 0 (check_idempotency key' m)
    (λ o, match o with Ret _ => credit key key' | _ => 0%nat end).
Proof.
  intros Hne. unfold credit. case_decide as Hk.
  2:{ eapply Spends_mono; [apply spends_quiet, acts_check_idempotency|done|].
      intros []; simpl; lia. }
  subst. unfold check_idempotency. rewrite decide_False by done.
  eapply (Spends_bind _ _ _ _ (λ ok : bool, if ok then 1%nat else 0%nat));
    [|intros []; [apply Spends_ret|apply Spends_fail]; simpl; lia|done..].
  apply Spends_wrap_err. unfold IdempotencyRepo_CheckAndSave.
  eapply (Spends_bind _ _ _ _ (λ n, if decide (n = 0%Z) then 0 else 1)%nat);
    [|intros n; apply Spends_ret; case_decide; case_bool_decide; (done || lia)|done..].
  apply Spends_wrap_err. destruct (pg_uuid_in _); [apply spends_insert|by apply Spends_fail; lia].
Qed.

Lemma spends_call_Charge key p req :
  ProviderLaws p →
  Spends (charge_budget key) (credit key (ch_IdempotencyKey req)) (call_Charge p req) (λ _, 0%nat).
Proof.
  intros Hp. unfold call_Charge.
  eapply (Spends_bind _ _ _ _ (λ _, 0%nat)); [|intros _|done..].
  - apply Spends_act. intros w. unfold charge_budget, charges_with, credit. simpl.
    rewrite count_true_app. unfold count_true at 2; simpl.
    destruct (decide (ch_IdempotencyKey req = key)).
    + rewrite bool_decide_true by done. simpl. lia.
    + rewrite bool_decide_false by done. simpl. lia.
  - apply spends_quiet, unchanged_quiet, Charge_unchanged.
Qed.

Lemma spends_charge_transaction key tx pm req :
  Spends (charge_budget key) (credit key (ch_IdempotencyKey req))
    (charge_transaction tx pm req) (λ _, 0%nat).
Proof.
  unfold charge_transaction. destruct (Factory_Get providers _) as [err|p] eqn:Hp.
  - apply spends_quiet. acts.
  - eapply (Spends_bind _ _ _ _ (λ _, 0%nat)); [|intros resp|done..].
    + eapply Spends_mono; [|done|].
      * apply Spends_attempt, spends_call_Charge. by eapply Factory_Get_laws.
      * intros []; simpl; lia.
    + apply spends_quiet. destruct resp; acts.
Qed.

Lemma spends_ProcessPayment key m c pm amount cur key' :
  key ≠ "" →
  Spends (charge_budget key) 0 (PaymentService_ProcessPayment m c pm amount cur key') (λ _, 0%nat).
Proof.
  intros Hne. unfold PaymentService_ProcessPayment.
  eapply (Spends_bind _ _ _ _ (λ _, credit key key')); [by apply spends_check| |done..].
  intros _. do 3 (apply spends_quiet_bind; [acts|intros ?]).
  apply (spends_charge_transaction key _ _ (charge_request _ _ _ _ _ _)).
Qed.

Lemma spends_Refund key id amount reason :
  Spends (charge_budget key) 0 (PaymentService_Refund id amount reason) (λ _, 0%nat).
Proof.
  unfold PaymentService_Refund. apply spends_quiet_bind; [acts|intros orig].
  destruct (Factory_Get providers _) as [err|p] eqn:Hp; [by apply spends_quiet|].
  apply Factory_Get_laws in Hp.
  eapply (Spends_bind _ _ _ _ (λ _, 0%nat)); [|intros r; apply spends_quiet; acts|done..].
  apply Spends_wrap_err. unfold call_Refund.
  eapply (Spends_bind _ _ _ _ (λ _, 0%nat)); [|intros _|done..].
  - apply Spends_act. intros w. unfold charge_budget, charges_with. simpl.
    rewrite count_true_app. unfold count_true at 2; simpl. lia.
  - eapply Spends_mono; [by apply spends_quiet, unchanged_quiet, Refund_unchanged|done|].
    by intros [].
Qed.

Lemma acts_ProcessPayment m c pm amount cur key :
  Acts lawful (PaymentService_ProcessPayment m c pm amount cur key).
Proof.
  unfold PaymentService_ProcessPayment, charge_transaction.
  apply Acts_bind; [apply quiet_lawful, acts_check_idempotency|intros _].
  apply Acts_bind; [acts|intros p]. apply Acts_bind; [acts|intros id].
  apply Acts_bind; [acts|intros _].
  destruct (Factory_Get providers _) as [err|prov] eqn:Hp.
  - acts.
  - apply Acts_bind; [apply Acts_attempt, acts_call_Charge; by eapply Factory_Get_laws|].
    acts.
Qed.

Lemma acts_Refund id amount reason : Acts lawful (PaymentService_Refund id amount reason).
Proof.
  unfold PaymentService_Refund. apply Acts_bind; [acts|intros orig].
  destruct (Factory_Get providers _) as [err|prov] eqn:Hp; [done|].
  apply Acts_bind; [apply Acts_wrap_err, acts_call_Refund; by eapply Factory_Get_laws|].
  acts.
Qed.

(** ** Returning and failing runs *)

Lemma safe_check_idempotency key m : Safe (check_idempotency key m).
Proof. unfold check_idempotency, IdempotencyRepo_CheckAndSave. safe. Qed.

Lemma call_Charge_spec p req w o w' :
  ProviderLaws p → run (call_Charge p req) w = (o, w') →
  w_db w' = w_db w ∧ w_calls w' = w_calls w ++ [CallCharge (Name p) req] ∧
  match o with
  | Ret resp => tx_Status resp = TransactionStatusSucceeded ∨
                tx_Status resp = TransactionStatusFailed
  | Err _ => True
  | Panic _ => False
  end.
Proof.
  intros Hp. unfold call_Charge. rewrite run_bind. unfold log_call. rewrite run_act. simpl.
  intros Hrun. pose proof (Acts_outcome _ _ _ _ _ (Charge_unchanged req) Hrun) as [Hdb Hc].
  split_and!; [done|done|]. destruct o; [by eapply Charge_settled|done|].
  by eapply Safe_run; [apply Charge_safe|].
Qed.

(** The idempotency check touches no transaction. *)
Definition keeps_transactions : relation world := λ w w',
  db_transactions (w_db w') = db_transactions (w_db w) ∧ w_calls w' = w_calls w.
Instance keeps_transactions_preorder : PreOrder keeps_transactions.
Proof. split; [by split|]. intros w1 w2 w3 [] []; split; congruence. Qed.

Lemma check_idempotency_transactions key m w o w' :
  run (check_idempotency key m) w = (o, w') →
  keeps_transactions w w'.
Proof.
  apply (Acts_outcome keeps_transactions).
  unfold check_idempotency. case_decide; [done|].
  apply Acts_bind; [|by intros []]. apply Acts_wrap_err. apply Acts_bind; [|done].
  apply Acts_wrap_err. destruct (pg_uuid_in _); [|done].
  intros w1. split; [|done]. simpl. unfold insert_idempotency_key.
  destruct (_ !! key); simpl; by destruct (ext_db _ _ _).
Qed.

Lemma emit_unchanged subject type data w o w' :
  run (emit bus subject type data) w = (o, w') → unchanged w w'.
Proof. exact (Acts_outcome _ _ _ _ _ (acts_emit _ _ _ _)). Qed.

Lemma record_failure_ok tx err w r :
  db_accepts → db_transactions (w_db w) !! tx_ID tx = Some r →
  ∃ w' t, run (record_failure tx err) w = (Ret (), w') ∧
    db_transactions (w_db w') =
      <[tx_ID tx := transaction_set t (failed tx err) r]> (db_transactions (w_db w)).
Proof.
  intros Hok Hr. unfold record_failure. rewrite run_ignore_err.
  edestruct (run_update_ok db_transactions "update transaction" (tx_ID (failed tx err))
               (λ t, transaction_set t (failed tx err)) w r Hok Hr) as (w' & Hrun & Hdb & _).
  unfold TransactionRepo_Update. rewrite Hrun. eexists w', _. split; [done|]. by rewrite Hdb.
Qed.

(** From the stored pending row: whatever happens, it ends settled or failed. *)
Lemma charge_transaction_ok tx pm req w r o w' :
  db_accepts → db_transactions (w_db w) !! tx_ID tx = Some r →
  run (charge_transaction tx pm req) w = (o, w') →
  ∃ row, db_transactions (w_db w') = <[tx_ID tx := row]> (db_transactions (w_db w)) ∧
    match o with
    | Ret _ => tx_Status row = TransactionStatusSucceeded ∨ tx_Status row = TransactionStatusFailed
    | Err _ => tx_Status row = TransactionStatusFailed ∧ is_Some (tx_ErrorMessage row)
    | Panic _ => False
    end.
Proof.
  intros Hok Hr. unfold charge_transaction.
  destruct (Factory_Get providers _) as [err|p] eqn:Hp.
  { destruct (record_failure_ok tx err w r Hok Hr) as (w1 & t & Hrun & Hdb).
    rewrite run_bind, Hrun, run_fail. intros [= <- <-]. eexists. split; [exact Hdb|].
    split; [done|by eexists]. }
  apply Factory_Get_laws in Hp. rewrite run_bind, run_attempt.
  destruct (run (call_Charge p req) w) as [o1 w1] eqn:Hcall.
  apply call_Charge_spec in Hcall as (Hdb1 & _ & Ho1); [|done].
  destruct o1 as [resp|err|msg]; [| |done].
  - rewrite run_bind. unfold now, ask. rewrite run_act, run_bind.
    set (tx1 := settled tx resp _).
    edestruct (run_update_ok db_transactions "update transaction" (tx_ID tx1)
      (λ t, transaction_set t tx1) (w1 <| w_tick := S (w_tick w1) |>) r Hok) as (w2 & Hrun & Hdb & _).
    { simpl. by rewrite Hdb1. }
    unfold TransactionRepo_Update. rewrite Hrun, run_bind.
    destruct (run_emit bus "events.payment.initiated" "payment.initiated" (DTransaction tx1) w2)
      as (w3 & Hemit & Hdb3 & _).
    rewrite Hemit, run_ret. intros [= <- <-].
    rewrite Hdb3, Hdb. simpl. rewrite Hdb1. eexists. by split.
  - edestruct (record_failure_ok tx err w1 r Hok) as (w2 & t & Hrun & Hdb); [by rewrite Hdb1|].
    rewrite run_bind, Hrun, run_fail. intros [= <- <-]. rewrite Hdb, Hdb1. eexists.
    split; [done|]. split; [done|by eexists].
Qed.
End service.

(** ** Specifications *)

(** What a successful payment of [amount] leaves behind. *)
Definition charged (m c pm : uuid) (amount : Z) (cur key : string) (w : world)
    (tx : Transaction) (w' : world) : Prop :=
  ∃ name req row,
    w_calls w' = w_calls w ++ [CallCharge name req] ∧
    (ch_Amount req, ch_Currency req, ch_IdempotencyKey req) = (amount, cur, key) ∧
    db_transactions (w_db w) !! tx_ID tx = None ∧
    db_transactions (w_db w') = <[tx_ID tx := row]> (db_transactions (w_db w)) ∧
    (tx_MerchantID row, tx_CustomerID row, tx_PaymentMethodID row, tx_Type row, tx_Amount row,
     tx_Currency row, tx_IdempotencyKey row) =
    (m, c, pm, TransactionTypeCharge, amount, cur, Some key) ∧
    (tx_Status row, tx_Provider row, tx_ProviderTransactionID row, tx_FeeAmount row,
     tx_NetAmount row) =
    (tx_Status tx, tx_Provider tx, tx_ProviderTransactionID tx, tx_FeeAmount tx,
     tx_NetAmount tx) ∧
    (tx_Status row = TransactionStatusSucceeded ∨ tx_Status row = TransactionStatusFailed) ∧
    is_Some (tx_ProcessedAt row).

(** ** Properties *)

Section properties.
Context `{!Externals, !Crypto} (bus : EventBus) (providers : Factory).
Context `{!PublishesOnly bus, !FactoryLaws providers}.

(** C10: a payment that returns a transaction has called the provider exactly
    once, with the amount, currency and idempotency key of the request, and
    left exactly one new row in the table: the returned transaction, charged
    to the merchant and customer of the request, settled with the provider's
    answer (succeeded or failed) and with a processing time. *)
Theorem ProcessPayment_success m c pm amount cur key w tx w' :
  run (PaymentService_ProcessPayment bus providers m c pm amount cur key) w = (Ret tx, w') →
  charged m c pm amount cur key w tx w'.
Proof.
  intros Hrun. unfold PaymentService_ProcessPayment in Hrun.
  apply run_bind_Ret in Hrun as (u & w1 & Hcheck & Hrun).
  apply check_idempotency_transactions in Hcheck as [Htx1 Hc1].
  apply run_bind_Ret in Hrun as (method & w2 & Hpm & Hrun).
  apply query_row_Ret in Hpm as [[Hdb2 Hc2] _].
  apply run_bind_Ret in Hrun as (id & w3 & Hid & Hrun).
  apply (Acts_outcome _ _ _ _ _ (Acts_ask _)) in Hid as [Hdb3 Hc3].
  apply run_bind_Ret in Hrun as (u4 & w4 & Hins & Hrun).
  apply insert_Ret in Hins as (Hnew & Hc4 & t4 & Hdb4). simpl in Hnew.
  unfold charge_transaction in Hrun.
  destruct (Factory_Get providers (pm_Provider method)) as [err|p] eqn:Hp.
  { apply run_bind_Ret in Hrun as (?&?&_&[=]). }
  apply Factory_Get_laws in Hp; [|done].
  rewrite run_bind, run_attempt in Hrun.
  destruct (run (call_Charge _ _) w4) as [[resp|err|msg] w5] eqn:Hcall; [| |done].
  2:{ apply run_bind_Ret in Hrun as (?&?&_&[=]). }
  apply call_Charge_spec in Hcall as (Hdb5 & Hc5 & Hst); [|done].
  apply run_bind_Ret in Hrun as (t6 & w6 & Hnow & Hrun).
  apply (Acts_outcome _ _ _ _ _ (Acts_ask _)) in Hnow as [Hdb6 Hc6].
  apply run_bind_Ret in Hrun as (u7 & w7 & Hupd & Hrun).
  apply update_Ret in Hupd as (Hc7 & r & t7 & Hr & Hdb7). simpl in Hr.
  apply run_bind_Ret in Hrun as (u8 & w8 & Hemit & Hrun).
  apply emit_unchanged in Hemit as [Hdb8 Hc8]; [|done].
  rewrite run_ret in Hrun. injection Hrun as <- <-. simpl.
  rewrite Hdb6, Hdb5, Hdb4 in Hr. simpl in Hr. rewrite lookup_insert_eq in Hr.
  injection Hr as <-. unfold charged. rewrite Hdb8, Hdb7, Hdb6, Hdb5, Hdb4. simpl.
  rewrite insert_insert_eq, Hdb3, Hdb2, Htx1.
  rewrite Hdb3, Hdb2, Htx1 in Hnew.
  eexists _, _, _. split; [by rewrite Hc8, Hc7, Hc6, Hc5, Hc4, Hc3, Hc2, Hc1|].
  split_and!; done || by eexists.
Qed.

(** C11: when the database accepts every statement, no payment is left
    pending: whatever happens - an unknown provider, a failed charge, a lost
    event - every transaction a run of [ProcessPayment] adds ends succeeded or
    failed, and with its error message when the run ends in an error; and the
    run never panics. *)
Theorem ProcessPayment_no_pending m c pm amount cur key w o w' :
  db_accepts →
  run (PaymentService_ProcessPayment bus providers m c pm amount cur key) w = (o, w') →
  (∀ msg, o ≠ Panic msg) ∧
  ∀ id row, db_transactions (w_db w) !! id = None → db_transactions (w_db w') !! id = Some row →
    match o with
    | Ret _ => tx_Status row = TransactionStatusSucceeded ∨
               tx_Status row = TransactionStatusFailed
    | _ => tx_Status row = TransactionStatusFailed ∧ is_Some (tx_ErrorMessage row)
    end.
Proof.
  intros Hok. unfold PaymentService_ProcessPayment. rewrite run_bind.
  destruct (run (check_idempotency key m) w) as [o1 w1] eqn:H1.
  assert (∀ msg, o1 ≠ Panic msg) as Hsafe1.
  { intros msg ->. by apply Safe_run in H1; [|apply safe_check_idempotency]. }
  apply check_idempotency_transactions in H1 as [Htx1 _].
  destruct o1; [|intros [= <- <-]; split; [done|]; rewrite Htx1; congruence|naive_solver].
  rewrite run_bind. destruct (run (PaymentMethodRepo_GetByID pm) w1) as [o2 w2] eqn:H2.
  assert (∀ msg, o2 ≠ Panic msg) as Hsafe2.
  { intros msg ->. by apply Safe_run in H2; [|apply safe_query_row]. }
  pose proof (Acts_outcome _ _ _ _ _ (acts_PaymentMethodRepo_GetByID _) H2) as [Hdb2 _].
  destruct o2 as [method| |]; [|intros [= <- <-]; split; [done|]; rewrite Hdb2, Htx1; congruence
                        |naive_solver].
  rewrite run_bind. unfold uuid_New, ask. rewrite run_act. cbv beta iota. rewrite run_bind.
  set (w3 := w2 <| w_tick := S (w_tick w2) |>). set (tx := pending_charge _ _ _ _ _ _ _ _).
  pose proof (run_insert_ok db_transactions "insert transaction" (tx_ID tx)
                (λ t, transaction_row t tx) w3 Hok) as H4. cbv zeta in H4.
  unfold TransactionRepo_Create.
  destruct (db_transactions (w_db w3) !! tx_ID tx) eqn:Hnew.
  - destruct H4 as (e & w4 & H4 & Hdb4 & _). rewrite H4. intros [= <- <-].
    split; [done|]. rewrite Hdb4. simpl. rewrite Hdb2, Htx1. congruence.
  - destruct H4 as (w4 & H4 & Hdb4 & _). rewrite H4. intros Hrun.
    eapply charge_transaction_ok in Hrun as (row & Hdb5 & Hrow); [|done..|].
    2:{ rewrite Hdb4. simpl. by rewrite lookup_insert_eq. }
    split; [by destruct o|]. intros id row' Hno Hyes. rewrite Hdb5, Hdb4 in Hyes. simpl in Hyes.
    rewrite insert_insert_eq, Hdb2, Htx1 in Hyes.
    apply lookup_insert_Some in Hyes as [[_ <-]|[_ Hyes]]; [by destruct o|congruence].
Qed.

(** The call to the provider that a refund makes in world [w]: one, with these
    arguments, once the transaction is read and its provider is known. *)
Definition refund_asked (id : uuid) (amount : Z) (reason : string) (w : world)
    : list provider_call :=
  match ext_db (w_tick w) (w_db w) (w_db w), db_transactions (w_db w) !! id with
  | Accepted, Some orig =>
      match Factory_Get providers (tx_Provider orig) with
      | inr prov =>
          [CallRefund (Name prov) (MkRefundRequest (tx_ProviderTransactionID orig)
             (if decide (amount > 0) then Some amount else None) reason ""
             {["merchant_id" := uuid_String (tx_MerchantID orig);
               "customer_id" := uuid_String (tx_CustomerID orig)]})]
      | inl _ => []
      end
  | _, _ => []
  end.

Ltac unasked :=
  intros [= <- <-]; rewrite app_nil_r; split_and!;
  [done..|eexists; split; [done|by intros []]].

(** C26: a refund is asked of the provider and never recorded. Once the
    transaction is read and its provider is known, [Refund] makes exactly one
    call, for that charge and the amount asked; but the transaction it then
    inserts carries no metadata, a column the schema declares NOT NULL, so
    whatever the provider answered the caller gets an error and the database is
    as before: the same refund can be asked again. *)
Theorem Refund_never_recorded `{!SchemaEnforced} id amount reason w o w' :
  run (PaymentService_Refund bus providers id amount reason) w = (o, w') →
  w_db w' = w_db w ∧ w_calls w' = w_calls w ++ refund_asked id amount reason w ∧
  (∃ e, o = Err e ∧
    (refund_asked id amount reason w ≠ [] →
     ∃ cause, e = EWrap "provider refund failed" cause ∨ e = EWrap "insert transaction" cause)).
Proof.
  unfold PaymentService_Refund, refund_asked, TransactionRepo_GetByID.
  rewrite run_bind, run_query_row. set (w1 := w <| w_tick := S (w_tick w) |>).
  destruct (ext_db _ _ _); [|unasked..].
  destruct (db_transactions (w_db w) !! id) as [orig|]; [|unasked].
  cbv beta iota delta [scan_ok].
  destruct (Factory_Get providers (tx_Provider orig)) as [err|p] eqn:Hp;
    [rewrite run_fail; unasked|].
  apply Factory_Get_laws in Hp; [|done]. rewrite run_bind, run_wrap_err.
  unfold call_Refund, log_call. rewrite run_bind, run_act. cbv beta iota.
  destruct (run (Refund p _) _) as [o2 w2] eqn:Hr2.
  pose proof (Acts_outcome _ _ _ _ _ (Refund_unchanged _) Hr2) as [Hdb2 Hc2]. simpl in Hdb2, Hc2.
  destruct o2 as [resp|e|msg]; [|
    intros [= <- <-]; split_and!; [done..|eexists; split; [done|eauto]]|
    by apply Safe_run in Hr2; [|apply Refund_safe]].
  rewrite run_bind. unfold uuid_New, ask. rewrite run_act. cbv beta iota.
  rewrite run_bind. destruct (run (TransactionRepo_Create _) _) as [o3 w3] eqn:Hr3.
  apply exec_any_rejected in Hr3 as [[e ->] [Hdb3 Hc3]].
  - intros [= <- <-]. simpl in Hdb3, Hc3.
    split_and!; [by rewrite Hdb3|by rewrite Hc3|eexists; split; [done|eauto]].
  - intros t db n (tbl & Hs & ->)%on_table_inv. left. intros [Htx _]. simpl in Htx.
    unfold row_insert in Hs. destruct (_ !! _) eqn:Hk; [done|]. injection Hs as <- <-.
    by apply (map_Forall_insert_1_1 _ _ _ _ Htx).
Qed.
End properties.

(** ** Witnesses *)

#[local] Existing Instances sample sample_crypto.

Definition sample_payment : M Transaction :=
  PaymentService_ProcessPayment NatsEventBus (NewFactory mock_settings) 3 4 9 1000 "USD" "order-1".

Lemma ProcessPayment_success_witness :
  ∃ tx w', run sample_payment (world_of sample_db) = (Ret tx, w') ∧
    charged 3 4 9 1000 "USD" "order-1" (world_of sample_db) tx w'.
Proof.
  destruct (run_returns sample_payment (world_of sample_db)) as (tx & w' & Hrun);
    [vm_compute; reflexivity|].
  exists tx, w'. split; [exact Hrun|].
  exact (ProcessPayment_success _ _ 3 4 9 1000 "USD" "order-1" _ _ _ Hrun).
Defined.

Lemma ProcessPayment_no_pending_witness :
  db_accepts ∧
  ∀ id row, db_transactions (w_db (run sample_payment (world_of sample_db)).2) !! id = Some row →
    tx_Status row = TransactionStatusSucceeded ∨ tx_Status row = TransactionStatusFailed.
Proof.
  split; [done|]. intros id row Hrow.
  destruct (run_returns sample_payment (world_of sample_db)) as (tx & w' & Hrun);
    [vm_compute; reflexivity|].
  rewrite Hrun in Hrow.
  exact (proj2 (ProcessPayment_no_pending NatsEventBus (NewFactory mock_settings) 3 4 9 1000 "USD" "order-1" _ _ _
                  (λ _ _ _, eq_refl) Hrun) id row eq_refl Hrow).
Defined.

(** A succeeded Stripe charge of 10 dollars in the mock. *)
Definition sample_charge : Transaction :=
  (pending_charge 7 3 4 9 1000 "USD" "order-1" "stripe")
    <| tx_Status := TransactionStatusSucceeded |> <| tx_ProviderTransactionID := "ch_1" |>.

Definition sample_refund : M Transaction :=
  @PaymentService_Refund strict NatsEventBus (@NewFactory strict _ mock_settings) 7 400 "broken".

Definition charged_world : world :=
  world_of (sample_db <| db_transactions := {[7%N := sample_charge]} |>).

(** The provider was asked to refund 4 dollars, and nothing remembers it. *)
Lemma Refund_never_recorded_witness :
  let '(o, w') := run sample_refund charged_world in
  (∃ e, o = Err e) ∧ w_db w' = w_db charged_world ∧
  w_calls w' = [CallRefund "mock" (refund_request sample_charge 400 "broken")].
Proof.
  destruct (run sample_refund charged_world) as [o w'] eqn:Hrun.
  destruct (@Refund_never_recorded strict NatsEventBus (@NewFactory strict _ mock_settings)
              _ _ 7 400 "broken" _ _ _ Hrun) as (Hdb & Hcalls & e & Ho & _).
  split; [by exists e|]. split; [exact Hdb|]. rewrite Hcalls. reflexivity.
Defined.
