(* ===== verification/SubscriptionSvc.v ===== *)
(** Subscriptions: [internal/service/subscription.go]. *)

From S2P Require Import Prelude GoInt GoTime Model Errors World Effects Logic History.
From S2P Require Import Repository RepoPayments RepoHistory EventBus Provider Schema Sample.

Open Scope Z_scope.

Definition calculatePeriodEnd (start : time) (interval : SubscriptionInterval) (count : Z) : time :=
  if decide (interval = SubscriptionIntervalDay) then AddDate start 0 0 count
  else if decide (interval = SubscriptionIntervalWeek) then AddDate start 0 0 (7 * count)
  else if decide (interval = SubscriptionIntervalMonth) then AddDate start 0 count 0
  else if decide (interval = SubscriptionIntervalYear) then AddDate start count 0 0
  else AddDate start 0 count 0.

Definition zero_subscription : Subscription :=
  MkSubscription uuid_Nil uuid_Nil uuid_Nil "" "" "" "" 0 "" "" 0 time_zero time_zero None None None
    None None time_zero time_zero.

Section service.
Context `{!Externals} (bus : EventBus).

Definition new_subscription (id merchantID customerID : uuid) (amount : Z) (currency : string)
    (interval : SubscriptionInterval) (intervalCount : Z) (planID provider : string) (now : time)
    : Subscription :=
  zero_subscription <| sub_ID := id |> <| sub_MerchantID := merchantID |>
    <| sub_CustomerID := customerID |> <| sub_PlanID := planID |>
    <| sub_Status := SubscriptionStatusActive |> <| sub_Amount := amount |>
    <| sub_Currency := currency |> <| sub_Interval := interval |>
    <| sub_IntervalCount := intervalCount |> <| sub_Provider := provider |>
    <| sub_CurrentPeriodStart := now |>
    <| sub_CurrentPeriodEnd := calculatePeriodEnd now interval intervalCount |>.

Definition CreateSubscription (merchantID customerID : uuid) (amount : Z) (currency : string)
    (interval : SubscriptionInterval) (intervalCount : Z) (planID provider : string)
    : M Subscription :=
  t ← now;
  id ← uuid_New;
  let sub := new_subscription id merchantID customerID amount currency interval intervalCount
               planID provider t in
  SubscriptionRepo_Create sub;;
  emit bus "events.subscription.created" "subscription.created" (DSubscription sub);;
  mret sub.

Definition GetSubscription : uuid → M Subscription := SubscriptionRepo_GetByID.
Definition ListSubscriptions : uuid → Z → Z → M (list Subscription * Z) :=
  SubscriptionRepo_ListByMerchant.

Definition edited (amount : option Z) (currency : option string)
    (interval : option SubscriptionInterval) (intervalCount : option Z) (sub : Subscription)
    : Subscription :=
  sub <| sub_Amount := default (sub_Amount sub) amount |>
      <| sub_Currency := default (sub_Currency sub) currency |>
      <| sub_Interval := default (sub_Interval sub) interval |>
      <| sub_IntervalCount := default (sub_IntervalCount sub) intervalCount |>.

(** Read, change, write back every column, publish. *)
Definition save_subscription (sub : Subscription) (event : string) : M Subscription :=
  SubscriptionRepo_Update sub;;
  emit bus ("events." +:+ event) event (DSubscription sub);;
  mret sub.

Definition UpdateSubscription (id : uuid) (amount : option Z) (currency : option string)
    (interval : option SubscriptionInterval) (intervalCount : option Z) : M Subscription :=
  sub ← SubscriptionRepo_GetByID id;
  save_subscription (edited amount currency interval intervalCount sub) "subscription.updated".

Definition cancelled_at (t : time) (sub : Subscription) : Subscription :=
  sub <| sub_Status := SubscriptionStatusCancelled |> <| sub_CancelledAt := Some t |>.

Definition CancelSubscription (id : uuid) : M Subscription :=
  sub ← SubscriptionRepo_GetByID id;
  t ← now;
  save_subscription (cancelled_at t sub) "subscription.cancelled".

Definition renewed (sub : Subscription) : Subscription :=
  sub <| sub_CurrentPeriodStart := sub_CurrentPeriodEnd sub |>
      <| sub_CurrentPeriodEnd :=
           calculatePeriodEnd (sub_CurrentPeriodEnd sub) (sub_Interval sub)
             (sub_IntervalCount sub) |>.

Definition ProcessRenewal (id : uuid) : M Subscription :=
  sub ← SubscriptionRepo_GetByID id;
  if decide (sub_Status sub ≠ SubscriptionStatusActive)
  then fail (NewValidationError "subscription is not active")
  else save_subscription (renewed sub) "subscription.renewed".

(** ** What the service does to the world *)

Context `{!PublishesOnly bus}.

Lemma acts_save_subscription sub event : Acts quiet (save_subscription sub event).
Proof. unfold save_subscription. acts. Qed.
Hint Resolve acts_save_subscription : acts.

Lemma acts_CreateSubscription m c a cur i n p pr :
  Acts quiet (CreateSubscription m c a cur i n p pr).
Proof. unfold CreateSubscription. acts. Qed.
Lemma acts_UpdateSubscription id a c i n : Acts quiet (UpdateSubscription id a c i n).
Proof. unfold UpdateSubscription. acts. Qed.
Lemma acts_CancelSubscription id : Acts quiet (CancelSubscription id).
Proof. unfold CancelSubscription. acts. Qed.
Lemma acts_ProcessRenewal id : Acts quiet (ProcessRenewal id).
Proof. unfold ProcessRenewal. acts. Qed.

Lemma save_subscription_Ret sub event w sub' w' :
  run (save_subscription sub event) w = (Ret sub', w') →
  sub' = sub ∧ ∃ r t, db_subscriptions (w_db w) !! sub_ID sub = Some r ∧
    w_db w' = (w_db w) <| db_subscriptions :=
                <[sub_ID sub := subscription_set t sub r]> (db_subscriptions (w_db w)) |>.
Proof.
  intros Hrun. unfold save_subscription in Hrun.
  apply run_bind_Ret in Hrun as (u1 & w1 & Hupd & Hrun).
  apply update_Ret in Hupd as (_ & r & t & Hr & Hdb).
  apply run_bind_Ret in Hrun as (u2 & w2 & Hemit & Hrun).
  apply (Acts_outcome _ _ _ _ _ (acts_emit _ _ _ _)) in Hemit as [Hdb2 _].
  rewrite run_ret in Hrun. injection Hrun as <- <-. split; [done|].
  exists r, t. by rewrite Hdb2, Hdb.
Qed.
End service.

(** ** The calendar of a subscription *)

(** Whole days keep the time of day, down to the microsecond. *)
Lemma AddDate_mod_day t y m d : AddDate t y m d mod day = t mod day.
Proof.
  unfold AddDate. destruct (civil (t / day)) as [k d0].
  rewrite Z.add_comm, Z.mod_add by done. by rewrite Z.mod_mod.
Qed.

Lemma timestamptz_iff t : pg_timestamptz t = t ↔ t mod 1000 = 0.
Proof. unfold pg_timestamptz. pose proof (Z.div_mod t 1000 ltac:(lia)). lia. Qed.

Lemma AddDate_timestamptz t y m d :
  pg_timestamptz t = t → pg_timestamptz (AddDate t y m d) = AddDate t y m d.
Proof.
  rewrite !timestamptz_iff. intros Ht. pose proof (AddDate_mod_day t y m d) as Heq.
  set (u := AddDate t y m d) in *. clearbody u.
  unfold day, Hour, Minute, Second in Heq. simpl in Heq. Z.div_mod_to_equations. lia.
Qed.

Lemma calculatePeriodEnd_timestamptz t interval count :
  pg_timestamptz t = t →
  pg_timestamptz (calculatePeriodEnd t interval count) = calculatePeriodEnd t interval count.
Proof.
  intros Ht. unfold calculatePeriodEnd. repeat case_decide; by apply AddDate_timestamptz.
Qed.

Lemma calculatePeriodEnd_week start count :
  calculatePeriodEnd start SubscriptionIntervalWeek count = AddDate start 0 0 (7 * count).
Proof. unfold calculatePeriodEnd. rewrite decide_False, decide_True by done. congruence. Qed.

Lemma calculatePeriodEnd_months start interval count :
  interval ≠ SubscriptionIntervalDay → interval ≠ SubscriptionIntervalWeek →
  calculatePeriodEnd start interval count =
    AddDate start 0 (if decide (interval = SubscriptionIntervalYear) then 12 * count else count) 0.
Proof.
  intros Hd Hw. unfold calculatePeriodEnd.
  repeat case_decide; try done; [by subst|apply AddDate_years].
Qed.

(** [n] renewals in a row, as a function of the end of the current period. *)
Definition period_end_after (n : nat) (interval : SubscriptionInterval) (count : Z) (end_ : time)
    : time := Nat.iter n (λ e, calculatePeriodEnd e interval count) end_.

Lemma AddDate_months_add t m m' :
  Day (t / day) ≤ 28 → AddDate (AddDate t 0 m 0) 0 m' 0 = AddDate t 0 (m + m') 0.
Proof.
  intros Hd. destruct (AddDate_months_same_day t m) as [Hciv Htod].
  { pose proof (month_length_range (fst (civil (t / day)) + m)). lia. }
  unfold AddDate at 1. rewrite Hciv, Htod. unfold AddDate, Day.
  destruct (civil (t / day)) as [k d]; simpl. do 3 f_equal; lia.
Qed.

#[export] Hint Resolve acts_CreateSubscription acts_UpdateSubscription acts_CancelSubscription
  acts_ProcessRenewal : acts.

Section rejected.
Context `{!Externals} (bus : EventBus).

(** The row has no metadata, which the schema requires. *)
Lemma CreateSubscription_rejected `{!SchemaEnforced} m c a cur i n p pr w o w' :
  run (CreateSubscription bus m c a cur i n p pr) w = (o, w') →
  (∀ sub, o ≠ Ret sub) ∧ w_db w' = w_db w.
Proof.
  intros Hrun. unfold CreateSubscription, now, uuid_New, ask in Hrun.
  rewrite run_bind, run_act in Hrun. cbv beta iota in Hrun.
  rewrite run_bind, run_act in Hrun. cbv beta iota in Hrun. rewrite run_bind in Hrun.
  destruct (run (SubscriptionRepo_Create _) _) as [o1 w1] eqn:Hins.
  apply insert_null_rejected in Hins as [[e ->] Hdb].
  - injection Hrun as <- <-. by split.
  - intros t db (_ & Hs & _). by apply (map_Forall_insert_1_1 _ _ _ _ Hs).
Qed.
End rejected.

(** ** Properties *)

(** C21: what a billing period of [count] units is, interval by interval. Days
    and weeks are exactly so many times 24 hours. Months (also for an interval
    the code does not know) and years keep the time of day and the day of the
    month, in the month that many months on; only when that month is too short
    does the date spill into the month after it. So no period is empty or runs
    backwards: months last 28 to 31 days each, years 365 or 366. *)
Theorem calculatePeriodEnd_after start count :
  let ends interval := calculatePeriodEnd start interval count in
  let months (m end_ : Z) :=
    let '(k, d) := civil (start / day) in
    end_ mod day = start mod day ∧
    civil (end_ / day) =
      (if decide (d ≤ month_length (k + m)) then (k + m, d)
       else (k + m + 1, d - month_length (k + m))) in
  ends SubscriptionIntervalDay = start + count * day ∧
  ends SubscriptionIntervalWeek = start + count * (7 * day) ∧
  (∀ interval, interval ≠ SubscriptionIntervalDay → interval ≠ SubscriptionIntervalWeek →
    months (if decide (interval = SubscriptionIntervalYear) then 12 * count else count)
      (ends interval)) ∧
  (1 ≤ count →
    start + count * (365 * day) ≤ ends SubscriptionIntervalYear ≤ start + count * (366 * day) ∧
    (∀ interval, interval ∉ [SubscriptionIntervalDay; SubscriptionIntervalWeek;
                             SubscriptionIntervalYear] →
      start + count * (28 * day) ≤ ends interval ≤ start + count * (31 * day))).
Proof.
  cbv zeta. split_and!.
  - apply AddDate_days.
  - rewrite calculatePeriodEnd_week, AddDate_days. lia.
  - intros interval Hd Hw. rewrite calculatePeriodEnd_months by done. apply AddDate_months_date.
  - intros Hc. split.
    + rewrite (calculatePeriodEnd_months start SubscriptionIntervalYear) by done.
      rewrite decide_True by done. by apply AddDate_years_bounds.
    + intros interval Hi. rewrite calculatePeriodEnd_months, decide_False by set_solver.
      by apply AddDate_months_bounds.
Qed.

Section properties.
Context `{!Externals} (bus : EventBus) `{!PublishesOnly bus}.

(** C20: a renewal that returns found the subscription active; the stored
    period moves to the one that starts exactly where the last one ended and
    lasts the interval, leaving no gap and no overlap, and nothing else of the
    row changes. *)
Theorem ProcessRenewal_contiguous id w sub w' :
  well_formed (w_db w) →
  run (ProcessRenewal bus id) w = (Ret sub, w') →
  ∃ r t, db_subscriptions (w_db w) !! id = Some r ∧
    sub_Status r = SubscriptionStatusActive ∧
    let r' := r <| sub_CurrentPeriodStart := sub_CurrentPeriodEnd r |>
                <| sub_CurrentPeriodEnd :=
                     calculatePeriodEnd (sub_CurrentPeriodEnd r) (sub_Interval r)
                       (sub_IntervalCount r) |> in
    sub = r' ∧
    w_db w' = (w_db w) <| db_subscriptions :=
      <[id := subscription_set t r' r]> (db_subscriptions (w_db w)) |> ∧
    sub_CurrentPeriodStart (subscription_set t r' r) = sub_CurrentPeriodEnd r ∧
    sub_CurrentPeriodEnd (subscription_set t r' r) = sub_CurrentPeriodEnd r'.
Proof.
  intros (_ & Hsubs & _) Hrun. unfold ProcessRenewal in Hrun.
  apply run_bind_Ret in Hrun as (r & w1 & Hget & Hrun).
  apply query_row_Ret in Hget as ([Hdb1 _] & r0 & Hr & [= ->]).
  case_decide as Hst; [discriminate|].
  destruct (Hsubs _ _ Hr) as [Hid [_ Hend]].
  apply save_subscription_Ret in Hrun as (-> & r1 & t & Hr1 & Hdb); [|done].
  simpl in Hr1, Hdb. rewrite Hdb1, Hid, Hr in Hr1. injection Hr1 as <-.
  exists r, t. split; [done|]. split; [done|]. cbv zeta. split_and!; [done| |exact Hend|].
  - by rewrite Hdb, Hdb1, Hid.
  - simpl. by apply calculatePeriodEnd_timestamptz.
Qed.

(** A subscription that is not active is never renewed: the call fails
    with a validation error and changes nothing. *)
Theorem ProcessRenewal_inactive id w r o w' :
  db_subscriptions (w_db w) !! id = Some r → sub_Status r ≠ SubscriptionStatusActive →
  run (ProcessRenewal bus id) w = (o, w') →
  unchanged w w' ∧ (∃ e, o = Err e) ∧
  (db_accepts → o = Err (NewValidationError "subscription is not active")).
Proof.
  intros Hr Hst. unfold ProcessRenewal, SubscriptionRepo_GetByID.
  rewrite run_bind, run_query_row. unfold db_accepts.
  destruct (ext_db _ _ _) eqn:Hv.
  - rewrite Hr. cbv [scan_ok]. rewrite decide_True by done. rewrite run_fail.
    intros [= <- <-]. split_and!; [done|by eexists|done].
  - intros [= <- <-]. split_and!; [done|by eexists|]. intros Hok. by rewrite Hok in Hv.
  - intros [= <- <-]. split_and!; [done|by eexists|]. intros Hok. by rewrite Hok in Hv.
Qed.

(** A monthly subscription whose period ends on the 28th or earlier keeps
    its day: [n] renewals of [count] months are one step of [n * count]
    months, with no drift. *)
Theorem monthly_renewals_keep_day n count end_ :
  Day (end_ / day) ≤ 28 →
  period_end_after n SubscriptionIntervalMonth count end_ =
    AddDate end_ 0 (Z.of_nat n * count) 0 ∧
  Day (period_end_after n SubscriptionIntervalMonth count end_ / day) = Day (end_ / day).
Proof.
  intros Hd. assert (∀ m, Day (AddDate end_ 0 m 0 / day) = Day (end_ / day)) as Hday.
  { intros m. destruct (AddDate_months_same_day end_ m) as [Hciv _].
    - pose proof (month_length_range (fst (civil (end_ / day)) + m)). lia.
    - unfold Day at 1. by rewrite Hciv. }
  assert (period_end_after n SubscriptionIntervalMonth count end_ =
          AddDate end_ 0 (Z.of_nat n * count) 0) as Heq.
  { induction n as [|n IH].
    - simpl. unfold AddDate. destruct (civil_spec (end_ / day)) as [Hn _].
      destruct (civil (end_ / day)) as [k d]; simpl in *.
      rewrite !Z.add_0_r, Hn. symmetry. apply day_split.
    - simpl. unfold period_end_after in *. rewrite IH.
      change (calculatePeriodEnd ?t SubscriptionIntervalMonth count) with (AddDate t 0 count 0).
      rewrite AddDate_months_add by done. f_equal. lia. }
  rewrite Heq. auto.
Qed.

(** From the 31st it drifts: a monthly subscription that starts on January
    31, 2024 skips February, renews on March 2 and on the 2nd ever after, so a
    year of renewals does not end where one year does. *)
Theorem month_end_renewals_drift :
  Month (period_end_after 1 SubscriptionIntervalMonth 1 sample_epoch / day) = 3 ∧
  Day (period_end_after 1 SubscriptionIntervalMonth 1 sample_epoch / day) = 2 ∧
  period_end_after 12 SubscriptionIntervalMonth 1 sample_epoch ≠ AddDate sample_epoch 1 0 0.
Proof. vm_compute. split_and!; [done|done|discriminate]. Qed.

End properties.

(** ** A race, and the witnesses *)

#[local] Existing Instance sample.

Definition sample_subscription : Subscription :=
  (new_subscription 5 3 4 1500 "USD" SubscriptionIntervalMonth 1 "gold" "stripe" sample_epoch)
    <| sub_Metadata := Some "{}" |>.

Definition subscribed_world : world :=
  world_of (empty_database <| db_subscriptions := {[5%N := sample_subscription]} |>).

(** A cancellation can be lost. [UpdateSubscription] writes back every column
    of the row it read before, so with a concurrent [CancelSubscription] there
    is an interleaving in which both calls return without error and the
    subscription ends active, with no trace of the cancellation - it will be
    renewed. *)
Theorem CancelSubscription_lost :
  ∃ ths' w',
    rtc pool_step ([Thread (CancelSubscription NatsEventBus 5);
                    Thread (UpdateSubscription NatsEventBus 5 (Some 2000) None None None)],
                   subscribed_world) (ths', w') ∧
    forallb returned ths' = true ∧
    sub_Status <$> db_subscriptions (w_db w') !! 5%N = Some SubscriptionStatusActive ∧
    sub_CancelledAt <$> db_subscriptions (w_db w') !! 5%N = Some None ∧
    returns (run (ProcessRenewal NatsEventBus 5) w') = true.
Proof.
  destruct (run_schedule [1; 0; 0; 0; 0; 0; 1; 1; 1]%nat
    ([Thread (CancelSubscription NatsEventBus 5);
      Thread (UpdateSubscription NatsEventBus 5 (Some 2000) None None None)], subscribed_world))
    as [[ths' w']|] eqn:Hrun; [|vm_compute in Hrun; discriminate].
  exists ths', w'. split; [by eapply run_schedule_steps|].
  vm_compute in Hrun. injection Hrun as <- <-. vm_compute. auto.
Qed.

(** January 31, 2024 and one month is a 2nd; two years of it are 730 to 732
    days. *)
Lemma calculatePeriodEnd_after_witness :
  Day (sample_epoch / day) = 31 ∧
  Day (calculatePeriodEnd sample_epoch SubscriptionIntervalMonth 1 / day) = 2 ∧
  sample_epoch + 2 * (365 * day) ≤
    calculatePeriodEnd sample_epoch SubscriptionIntervalYear 2 ≤ sample_epoch + 2 * (366 * day).
Proof.
  split; [by vm_compute|]. split.
  - destruct (calculatePeriodEnd_after sample_epoch 1) as (_ & _ & Hm & _).
    specialize (Hm SubscriptionIntervalMonth ltac:(discriminate) ltac:(discriminate)).
    destruct (civil (sample_epoch / day)) as [k d] eqn:Hc. vm_compute in Hc.
    injection Hc as <- <-. destruct Hm as [_ Hm]. unfold Day. rewrite Hm. by vm_compute.
  - destruct (calculatePeriodEnd_after sample_epoch 2) as (_ & _ & _ & Hb).
    by destruct (Hb ltac:(lia)) as [Hy _].
Defined.

Lemma subscribed_well_formed : well_formed (w_db subscribed_world).
Proof.
  unfold well_formed. split_and!; simpl; try apply map_Forall_empty.
  apply map_Forall_singleton. by repeat split.
Qed.

Lemma ProcessRenewal_contiguous_witness :
  ∃ sub w' r, run (ProcessRenewal NatsEventBus 5) subscribed_world = (Ret sub, w') ∧
    db_subscriptions (w_db subscribed_world) !! 5%N = Some r ∧
    sub_CurrentPeriodStart sub = sub_CurrentPeriodEnd r.
Proof.
  destruct (run_returns (ProcessRenewal NatsEventBus 5) subscribed_world) as (sub & w' & Hrun);
    [vm_compute; reflexivity|].
  destruct (ProcessRenewal_contiguous NatsEventBus 5 _ _ _ subscribed_well_formed Hrun)
    as (r & t & Hr & _ & Hsub & _).
  exists sub, w', r. split; [exact Hrun|]. split; [exact Hr|]. rewrite Hsub. reflexivity.
Defined.

Definition cancelled_world : world :=
  world_of (empty_database <| db_subscriptions :=
    {[5%N := cancelled_at sample_epoch sample_subscription]} |>).

Lemma ProcessRenewal_inactive_witness :
  (run (ProcessRenewal NatsEventBus 5) cancelled_world).1 =
  Err (NewValidationError "subscription is not active").
Proof.
  destruct (run (ProcessRenewal NatsEventBus 5) cancelled_world) as [o w'] eqn:Hrun.
  refine (proj2 (proj2 (ProcessRenewal_inactive NatsEventBus 5 _
            (cancelled_at sample_epoch sample_subscription) _ _ _ _ Hrun)) _);
    [reflexivity|discriminate|done].
Defined.

Lemma monthly_renewals_keep_day_witness :
  Day ((sample_epoch - 3 * day) / day) ≤ 28 ∧
  period_end_after 12 SubscriptionIntervalMonth 1 (sample_epoch - 3 * day) =
    AddDate (sample_epoch - 3 * day) 0 12 0.
Proof.
  assert (Day ((sample_epoch - 3 * day) / day) ≤ 28) as Hd by (vm_compute; discriminate).
  split; [exact Hd|]. exact (proj1 (monthly_renewals_keep_day 12 1 _ Hd)).
Defined.
