(* ===== verification/InvoiceSvc.v ===== *)
(** Invoices: [internal/service/invoice.go]. *)

From S2P Require Import Prelude GoInt GoTime Model Errors World Effects Logic History.
From S2P Require Import Repository RepoPayments RepoHistory EventBus Provider Schema Sample.

Open Scope Z_scope.

Definition zero_invoice : Invoice :=
  MkInvoice uuid_Nil uuid_Nil uuid_Nil None "" "" 0 "" "" time_zero None time_zero time_zero None
    time_zero time_zero.

Section service.
Context `{!Externals} (bus : EventBus).

Definition new_invoice (id merchantID customerID : uuid) (subscriptionID : option uuid)
    (amount : Z) (currency provider : string) (dueDate periodStart periodEnd : time) : Invoice :=
  zero_invoice <| inv_ID := id |> <| inv_MerchantID := merchantID |>
    <| inv_CustomerID := customerID |> <| inv_SubscriptionID := subscriptionID |>
    <| inv_Provider := provider |> <| inv_Amount := amount |> <| inv_Currency := currency |>
    <| inv_Status := InvoiceStatusDraft |> <| inv_DueDate := dueDate |>
    <| inv_PeriodStart := periodStart |> <| inv_PeriodEnd := periodEnd |>.

Definition CreateInvoice (merchantID customerID : uuid) (subscriptionID : option uuid)
    (amount : Z) (currency provider : string) (dueDate periodStart periodEnd : time)
    : M Invoice :=
  id ← uuid_New;
  let inv := new_invoice id merchantID customerID subscriptionID amount currency provider
               dueDate periodStart periodEnd in
  InvoiceRepo_Create inv;;
  emit bus "events.invoice.created" "invoice.created" (DInvoice inv);;
  mret inv.

Definition GetInvoice : uuid → M Invoice := InvoiceRepo_GetByID.
Definition ListInvoices : uuid → Z → Z → M (list Invoice * Z) := InvoiceRepo_ListByMerchant.

(** Read, check the status, write the new one: what the three transitions
    share.  The invoice returned is the one that was read. *)
Definition move_invoice (id : uuid) (from to : InvoiceStatus) (refusal : string) : M Invoice :=
  inv ← InvoiceRepo_GetByID id;
  if decide (inv_Status inv ≠ from) then fail (NewValidationError refusal)
  else InvoiceRepo_UpdateStatus id to;; mret inv.

Definition publish_invoice (event : string) (inv : Invoice) : M Invoice :=
  emit bus ("events." +:+ event) event (DInvoice inv);; mret inv.

Definition SendInvoice (id : uuid) : M Invoice :=
  inv ← move_invoice id InvoiceStatusDraft InvoiceStatusOpen "only draft invoices can be sent";
  publish_invoice "invoice.sent" (inv <| inv_Status := InvoiceStatusOpen |>).

(** [paid_at] is set in the invoice returned and published, not in the row. *)
Definition MarkPaid (id : uuid) : M Invoice :=
  inv ← move_invoice id InvoiceStatusOpen InvoiceStatusPaid
          "only open invoices can be marked as paid";
  t ← now;
  publish_invoice "invoice.paid"
    (inv <| inv_Status := InvoiceStatusPaid |> <| inv_PaidAt := Some t |>).

Definition MarkOverdue (id : uuid) : M Invoice :=
  inv ← move_invoice id InvoiceStatusOpen InvoiceStatusUncollectible
          "only open invoices can be marked as uncollectible";
  publish_invoice "invoice.overdue" (inv <| inv_Status := InvoiceStatusUncollectible |>).

(** ** What the service does to the world *)

Context `{!PublishesOnly bus}.

Lemma acts_publish_invoice event inv : Acts unchanged (publish_invoice event inv).
Proof. unfold publish_invoice. acts. Qed.
Hint Resolve acts_publish_invoice : acts.

Lemma acts_CreateInvoice m c s a cur p d ps pe : Acts quiet (CreateInvoice m c s a cur p d ps pe).
Proof. unfold CreateInvoice. acts. Qed.
Lemma acts_move_invoice id from to msg : Acts quiet (move_invoice id from to msg).
Proof. unfold move_invoice. acts. Qed.
Hint Resolve acts_move_invoice : acts.
Lemma acts_SendInvoice id : Acts quiet (SendInvoice id).
Proof. unfold SendInvoice. acts. Qed.
Lemma acts_MarkPaid id : Acts quiet (MarkPaid id).
Proof. unfold MarkPaid. acts. Qed.
Lemma acts_MarkOverdue id : Acts quiet (MarkOverdue id).
Proof. unfold MarkOverdue. acts. Qed.

(** A move does nothing, or changes the status of an invoice that had the
    status it starts from. *)
Definition moved (id : uuid) (from to : InvoiceStatus) (w w' : world) : Prop :=
  ∃ inv t, db_invoices (w_db w) !! id = Some inv ∧ inv_Status inv = from ∧
    w_db w' = (w_db w) <| db_invoices :=
      <[id := inv <| inv_Status := to |> <| inv_UpdatedAt := t |>]> (db_invoices (w_db w)) |>.

Lemma move_invoice_outcome id from to msg w o w' :
  run (move_invoice id from to msg) w = (o, w') →
  w_db w' = w_db w ∨ moved id from to w w'.
Proof.
  unfold move_invoice, InvoiceRepo_GetByID. rewrite run_bind, run_query_row.
  set (w1 := w <| w_tick := S (w_tick w) |>).
  destruct (ext_db _ _ _); [|by intros [= <- <-]; left..].
  destruct (db_invoices (w_db w) !! id) as [inv|] eqn:Hinv; [|by intros [= <- <-]; left].
  cbv [scan_ok]. case_decide as Hst; [rewrite run_fail; by intros [= <- <-]; left|].
  rewrite run_bind. destruct (run (InvoiceRepo_UpdateStatus id to) w1) as [o2 w2] eqn:Hupd.
  intros Hrun. assert (w' = w2) as ->.
  { destruct o2; [rewrite run_ret in Hrun|..]; by injection Hrun. }
  apply (update_outcome db_invoices) in Hupd as [Hdb|(r & t & Hr & Hdb)]; [by left| |by intros []].
  right. simpl in Hr. rewrite Hinv in Hr. injection Hr as <-. by exists inv, t.
Qed.

Lemma move_invoice_Ret id from to msg w inv w' :
  run (move_invoice id from to msg) w = (Ret inv, w') →
  ∃ t, db_invoices (w_db w) !! id = Some inv ∧ inv_Status inv = from ∧
    w_db w' = (w_db w) <| db_invoices :=
      <[id := inv <| inv_Status := to |> <| inv_UpdatedAt := t |>]> (db_invoices (w_db w)) |>.
Proof.
  intros Hrun. unfold move_invoice in Hrun.
  apply run_bind_Ret in Hrun as (inv1 & w1 & Hget & Hrun).
  apply query_row_Ret in Hget as ([Hdb1 _] & r & Hr & [= ->]).
  case_decide as Hst; [discriminate|].
  apply run_bind_Ret in Hrun as (u & w2 & Hupd & Hrun).
  apply update_Ret in Hupd as (_ & r1 & t & Hr1 & Hdb2).
  rewrite run_ret in Hrun. injection Hrun as -> ->. rewrite Hdb1 in *.
  rewrite Hr in Hr1. injection Hr1 as <-. by exists t.
Qed.
End service.

#[export] Hint Resolve acts_CreateInvoice acts_SendInvoice acts_MarkPaid acts_MarkOverdue : acts.

(** ** The life of an invoice *)

Inductive invoice_edge : InvoiceStatus → InvoiceStatus → Prop :=
  | edge_send : invoice_edge InvoiceStatusDraft InvoiceStatusOpen
  | edge_pay : invoice_edge InvoiceStatusOpen InvoiceStatusPaid
  | edge_overdue : invoice_edge InvoiceStatusOpen InvoiceStatusUncollectible.

Definition invoice_terminal (s : InvoiceStatus) : Prop :=
  s = InvoiceStatusPaid ∨ s = InvoiceStatusVoid ∨ s = InvoiceStatusUncollectible.

Lemma terminal_no_edge s s' : invoice_terminal s → ¬ invoice_edge s s'.
Proof. intros [->|[->| ->]] Hedge; inversion Hedge. Qed.

Inductive invoice_op :=
  | OpCreate (m c : uuid) (s : option uuid) (a : Z) (cur p : string) (d ps pe : time)
  | OpSend (id : uuid) | OpMarkPaid (id : uuid) | OpMarkOverdue (id : uuid).

Section lifecycle.
Context `{!Externals} (bus : EventBus) `{!PublishesOnly bus}.

Definition serve_invoice (op : invoice_op) : M Invoice :=
  match op with
  | OpCreate m c s a cur p d ps pe => CreateInvoice bus m c s a cur p d ps pe
  | OpSend id => SendInvoice bus id
  | OpMarkPaid id => MarkPaid bus id
  | OpMarkOverdue id => MarkOverdue bus id
  end.

(** What one call may do to the table: [CreateInvoice] adds a draft; each of the
    others is one edge of the state machine for one invoice. *)
Definition invoice_transition (op : invoice_op) : option (uuid * InvoiceStatus * InvoiceStatus) :=
  match op with
  | OpCreate _ _ _ _ _ _ _ _ _ => None
  | OpSend id => Some (id, InvoiceStatusDraft, InvoiceStatusOpen)
  | OpMarkPaid id => Some (id, InvoiceStatusOpen, InvoiceStatusPaid)
  | OpMarkOverdue id => Some (id, InvoiceStatusOpen, InvoiceStatusUncollectible)
  end.

Definition drafted (w w' : world) : Prop :=
  ∃ id row, db_invoices (w_db w) !! id = None ∧ inv_Status row = InvoiceStatusDraft ∧
    w_db w' = (w_db w) <| db_invoices := <[id := row]> (db_invoices (w_db w)) |>.

Definition one_transition (op : invoice_op) (w : world) (o : outcome Invoice) (w' : world) : Prop :=
  match invoice_transition op with
  | None => (w_db w' = w_db w ∨ drafted w w') ∧ (∀ inv, o = Ret inv → drafted w w')
  | Some (id, from, to) =>
      (w_db w' = w_db w ∨ moved id from to w w') ∧
      (∀ inv, o = Ret inv → moved id from to w w' ∧ inv_Status inv = to) ∧
      (db_accepts → inv_Status <$> db_invoices (w_db w) !! id = Some from → ∃ inv, o = Ret inv)
  end.

(** One call of the service after another, whatever each returned. *)
Definition invoice_step : relation world := λ w w', ∃ op o, run (serve_invoice op) w = (o, w').

Definition invoice_follows (x y : Invoice) : Prop := inv_le x y ∧ rtc invoice_edge (inv_Status x) (inv_Status y).
Instance invoice_follows_preorder : PreOrder invoice_follows.
Proof. split; [by split|]. intros x y z [] []. split; by etrans. Qed.

Lemma follows_move w w' id from to :
  invoice_edge from to → w_db w' = w_db w ∨ moved id from to w w' →
  ∀ k x, db_invoices (w_db w) !! k = Some x →
    ∃ y, db_invoices (w_db w') !! k = Some y ∧ invoice_follows x y.
Proof.
  intros Hedge [->|(inv & t & Hinv & Hst & ->)] k x Hk; [by exists x|]. simpl.
  destruct (decide (id = k)) as [->|Hne]; [|exists x; by rewrite lookup_insert_ne].
  rewrite Hinv in Hk. injection Hk as ->. eexists. rewrite lookup_insert_eq. split; [done|].
  split; [done|]. simpl. rewrite Hst. by apply rtc_once.
Qed.

(** A move and the publication after it change what the move changes. *)
Lemma moved_then {A} (k : Invoice → M A) id from to msg w o w' :
  (∀ inv, Acts unchanged (k inv)) →
  run (inv ← move_invoice id from to msg; k inv) w = (o, w') →
  w_db w' = w_db w ∨ moved id from to w w'.
Proof.
  intros Hk. rewrite run_bind. destruct (run (move_invoice _ _ _ _) w) as [o1 w1] eqn:Hmove.
  apply move_invoice_outcome in Hmove. unfold moved in *.
  destruct o1 as [inv| |]; [|by intros [= <- <-]..].
  intros [Hdb _]%(Acts_outcome _ _ _ _ _ (Hk inv)). by rewrite Hdb.
Qed.

Lemma move_invoice_ok id from to msg w :
  db_accepts → inv_Status <$> db_invoices (w_db w) !! id = Some from →
  ∃ inv w', run (move_invoice id from to msg) w = (Ret inv, w').
Proof.
  intros Hok. destruct (db_invoices (w_db w) !! id) as [inv|] eqn:Hinv; [|done].
  intros [= Hst]. unfold move_invoice, InvoiceRepo_GetByID. rewrite run_bind, run_query_row.
  rewrite Hok, Hinv. cbv [scan_ok]. rewrite decide_False by (intros Hn; by apply Hn).
  rewrite run_bind. edestruct (run_update_ok db_invoices) as (w' & Hrun & _); [done| |].
  2: { unfold InvoiceRepo_UpdateStatus. rewrite Hrun. eauto. }
  exact Hinv.
Qed.

(** The three transitions: a move, and a publication that cannot fail. *)
Lemma move_one_transition id from to msg (k : Invoice → M Invoice) w o w' :
  (∀ inv, Acts unchanged (k inv)) →
  (∀ inv w1, ∃ inv' w2, run (k inv) w1 = (Ret inv', w2) ∧ inv_Status inv' = to) →
  run (inv ← move_invoice id from to msg; k inv) w = (o, w') →
  (w_db w' = w_db w ∨ moved id from to w w') ∧
  (∀ inv, o = Ret inv → moved id from to w w' ∧ inv_Status inv = to) ∧
  (db_accepts → inv_Status <$> db_invoices (w_db w) !! id = Some from → ∃ inv, o = Ret inv).
Proof.
  intros Hk Hret Hrun. split_and!; [by eapply moved_then| |].
  - intros inv ->. apply run_bind_Ret in Hrun as (inv0 & w1 & Hmove & Hrun).
    apply move_invoice_Ret in Hmove as (t & Hinv & Hst & Hdb).
    destruct (Hret inv0 w1) as (inv' & w2 & Hk' & Hto). rewrite Hk' in Hrun.
    injection Hrun as <- <-. split; [|done].
    apply (Acts_outcome _ _ _ _ _ (Hk inv0)) in Hk' as [Hdb' _].
    exists inv0, t. by rewrite Hdb', Hdb.
  - intros Hok Hst. destruct (move_invoice_ok id from to msg w Hok Hst) as (inv & w1 & Hmove).
    destruct (Hret inv w1) as (inv' & w2 & Hk' & _). rewrite run_bind, Hmove, Hk' in Hrun.
    injection Hrun as <- _. by exists inv'.
Qed.

Lemma run_publish_invoice event inv w :
  ∃ inv' w', run (publish_invoice bus event inv) w = (Ret inv', w') ∧
    inv_Status inv' = inv_Status inv.
Proof.
  unfold publish_invoice. rewrite run_bind.
  destruct (run_emit bus ("events." +:+ event) event (DInvoice inv) w) as (w' & -> & _).
  rewrite run_ret. by exists inv, w'.
Qed.

Lemma create_one_transition m c s a cur p d ps pe w o w' :
  run (CreateInvoice bus m c s a cur p d ps pe) w = (o, w') →
  (w_db w' = w_db w ∨ drafted w w') ∧ (∀ inv, o = Ret inv → drafted w w').
Proof.
  intros Hrun. unfold CreateInvoice in Hrun. rewrite run_bind in Hrun.
  unfold uuid_New, ask in Hrun. rewrite run_act in Hrun. cbv beta iota zeta in Hrun.
  rewrite run_bind in Hrun. destruct (run (InvoiceRepo_Create _) _) as [o1 w1] eqn:Hins.
  assert (w_db w' = w_db w1) as Hdb.
  { destruct o1; [|by injection Hrun as <- <-..].
    refine (proj1 (Acts_outcome unchanged _ _ _ _ _ Hrun)). acts. }
  unfold drafted. rewrite Hdb. split.
  - apply (insert_outcome db_invoices) in Hins as [->|(t & Hnew & ->)]; [by left|]. right.
    simpl in *. eexists _, _. split; [exact Hnew|split; [|reflexivity]]. done.
  - intros inv ->. destruct o1; [|done..].
    apply (insert_Ret db_invoices) in Hins as (Hnew & _ & t & ->). simpl in *.
    eexists _, _. split; [exact Hnew|split; [|reflexivity]]. done.
Qed.

Lemma serve_one_transition op w o w' :
  run (serve_invoice op) w = (o, w') → one_transition op w o w'.
Proof.
  destruct op; unfold one_transition, invoice_transition, serve_invoice;
    [apply create_one_transition|apply move_one_transition..].
  all: intros; try solve [acts|apply run_publish_invoice].
Qed.

Lemma invoice_step_follows w w' :
  invoice_step w w' → ∀ k x, db_invoices (w_db w) !! k = Some x →
    ∃ y, db_invoices (w_db w') !! k = Some y ∧ invoice_follows x y.
Proof.
  intros (op & o & Hrun%serve_one_transition). revert Hrun. unfold one_transition.
  destruct op; simpl; intros [Hmove _].
  - intros k x Hk. destruct Hmove as [->|(id & row & Hnew & _ & ->)]; [by exists x|].
    simpl. exists x. rewrite lookup_insert_ne; [done|congruence].
  - eapply follows_move; [apply edge_send|exact Hmove].
  - eapply follows_move; [apply edge_pay|exact Hmove].
  - eapply follows_move; [apply edge_overdue|exact Hmove].
Qed.
End lifecycle.

(** ** Properties *)

Section properties.
Context `{!Externals} (bus : EventBus) `{!PublishesOnly bus}.

(** C15: each call of the invoice service is one step of its state machine:
    [CreateInvoice] adds a draft; [SendInvoice] takes the invoice it names from
    draft to open, [MarkPaid] from open to paid, [MarkOverdue] from open to
    uncollectible, in one step and from no other status; each writes that status
    and the time of the update and nothing else of the database, or nothing at
    all; a call that returns did its step, and with a database that accepts
    everything a call at the right status does return. So over any sequence of
    calls, whatever fails on the way, an invoice follows the edges, keeps its
    other columns and never leaves a final status. *)
Theorem invoice_lifecycle :
  (∀ op w o w', run (serve_invoice bus op) w = (o, w') → one_transition op w o w') ∧
  (∀ w w' k inv,
    rtc (invoice_step bus) w w' → db_invoices (w_db w) !! k = Some inv →
    ∃ inv', db_invoices (w_db w') !! k = Some inv' ∧ inv_le inv inv' ∧
      rtc invoice_edge (inv_Status inv) (inv_Status inv') ∧
      (invoice_terminal (inv_Status inv) → inv_Status inv' = inv_Status inv)).
Proof.
  split; [apply serve_one_transition; apply _|]. intros w w' k inv Hsteps Hinv.
  assert (∃ inv', db_invoices (w_db w') !! k = Some inv' ∧ invoice_follows inv inv')
    as (inv' & Hinv' & Hle & Hedges).
  { refine (rtc_invariant (invoice_step bus) (λ w, ∃ inv', db_invoices (w_db w) !! k = Some inv' ∧
      invoice_follows inv inv') w w' _ _ Hsteps).
    - intros a b (x & Hx & Hfx) Hstep.
      destruct (invoice_step_follows bus a b Hstep k x Hx) as (y & Hy & Hfy).
      exists y. split; [done|]. destruct Hfx, Hfy. split; by etrans.
    - by exists inv. }
  exists inv'. split_and!; [done..|]. intros Hterm.
  inversion Hedges as [|s1 s2 s3 Hedge]; [done|subst]. by apply terminal_no_edge in Hedge.
Qed.

(** The time of payment is lost: [MarkPaid] returns and publishes an invoice
    with [paid_at], and the row it leaves is paid with the [paid_at] it had. *)
Theorem MarkPaid_time_not_stored id w inv w' :
  run (MarkPaid bus id) w = (Ret inv, w') →
  is_Some (inv_PaidAt inv) ∧ inv_Status inv = InvoiceStatusPaid ∧
  ∃ old row, db_invoices (w_db w) !! id = Some old ∧
    inv_Status old = InvoiceStatusOpen ∧
    db_invoices (w_db w') !! id = Some row ∧
    inv_Status row = InvoiceStatusPaid ∧ inv_PaidAt row = inv_PaidAt old.
Proof.
  intros Hrun. unfold MarkPaid in Hrun.
  apply run_bind_Ret in Hrun as (old & w1 & Hmove & Hrun).
  apply move_invoice_Ret in Hmove as (t & Hold & Hst & Hdb1).
  apply run_bind_Ret in Hrun as (t2 & w2 & Hnow & Hrun).
  apply (Acts_outcome _ _ _ _ _ (Acts_ask _)) in Hnow as [Hdb2 _].
  apply run_bind_Ret in Hrun as (u & w3 & Hemit & Hrun).
  apply (Acts_outcome _ _ _ _ _ (acts_emit _ _ _ _)) in Hemit as [Hdb3 _].
  rewrite run_ret in Hrun. injection Hrun as <- <-.
  split_and!; [by eexists|done|]. rewrite Hdb3, Hdb2, Hdb1. simpl.
  rewrite lookup_insert_eq. eauto 10.
Qed.
End properties.

(** ** A race, and the witnesses *)

#[local] Existing Instance sample.

Definition open_invoice : Invoice :=
  (new_invoice 6 3 4 None 2500 "USD" "stripe" sample_epoch sample_epoch sample_epoch)
    <| inv_Status := InvoiceStatusOpen |> <| inv_Metadata := Some "{}" |>.

Definition invoiced_world : world :=
  world_of (empty_database <| db_invoices := {[6%N := open_invoice]} |>).

(** The status check and the update are two statements: run concurrently,
    [MarkPaid] and [MarkOverdue] can both return without error on the same
    invoice, which then is published as paid and stored as uncollectible. *)
Theorem MarkPaid_MarkOverdue_race :
  ∃ ths' w',
    rtc pool_step ([Thread (MarkPaid NatsEventBus 6); Thread (MarkOverdue NatsEventBus 6)],
                   invoiced_world) (ths', w') ∧
    forallb returned ths' = true ∧
    (λ se, se.1) <$> w_events w' = ["events.invoice.paid"; "events.invoice.overdue"] ∧
    inv_Status <$> db_invoices (w_db w') !! 6%N = Some InvoiceStatusUncollectible.
Proof.
  destruct (run_schedule [0; 1; 0; 1; 0; 0; 0; 1; 1]%nat
    ([Thread (MarkPaid NatsEventBus 6); Thread (MarkOverdue NatsEventBus 6)], invoiced_world))
    as [[ths' w']|] eqn:Hrun; [|vm_compute in Hrun; discriminate].
  exists ths', w'. split; [by eapply run_schedule_steps|].
  vm_compute in Hrun. injection Hrun as <- <-. vm_compute. auto.
Qed.

Lemma MarkPaid_time_not_stored_witness :
  ∃ inv w', run (MarkPaid NatsEventBus 6) invoiced_world = (Ret inv, w') ∧
    is_Some (inv_PaidAt inv) ∧
    inv_PaidAt <$> db_invoices (w_db w') !! 6%N = Some None.
Proof.
  destruct (run_returns (MarkPaid NatsEventBus 6) invoiced_world) as (inv & w' & Hrun);
    [vm_compute; reflexivity|].
  destruct (MarkPaid_time_not_stored NatsEventBus 6 _ _ _ Hrun)
    as (Hpaid & _ & old & row & Hold & _ & Hrow & _ & Heq).
  exists inv, w'. split; [exact Hrun|]. split; [exact Hpaid|]. rewrite Hrow. simpl. rewrite Heq.
  vm_compute in Hold. injection Hold as <-. reflexivity.
Defined.

(** The open invoice is paid in one step, and can then not be moved again. *)
Lemma invoice_lifecycle_witness :
  let paid := (run (MarkPaid NatsEventBus 6) invoiced_world).2 in
  moved 6 InvoiceStatusOpen InvoiceStatusPaid invoiced_world paid ∧
  (∃ inv', db_invoices (w_db (run (SendInvoice NatsEventBus 6) paid).2) !! 6%N = Some inv' ∧
    inv_Status inv' = InvoiceStatusPaid).
Proof.
  destruct (invoice_lifecycle NatsEventBus) as [Hstep Hlife]. split.
  - destruct (run_returns (MarkPaid NatsEventBus 6) invoiced_world) as (inv & w' & Hrun);
      [vm_compute; reflexivity|].
    destruct (Hstep (OpMarkPaid 6) _ _ _ Hrun) as (_ & Hret & _). rewrite Hrun.
    by apply (Hret inv).
  - set (paid := (run (MarkPaid NatsEventBus 6) invoiced_world).2).
    destruct (db_invoices (w_db paid) !! 6%N) as [row|] eqn:Hrow; [|vm_compute in Hrow; discriminate].
    destruct (Hlife paid (run (SendInvoice NatsEventBus 6) paid).2 6%N row)
      as (inv' & Hinv' & _ & _ & Hterm).
    + apply rtc_once. exists (OpSend 6), (run (SendInvoice NatsEventBus 6) paid).1.
      apply surjective_pairing.
    + exact Hrow.
    + exists inv'. split; [exact Hinv'|]. vm_compute in Hrow. injection Hrow as <-.
      apply Hterm. by left.
Defined.
