(* ===== verification/CatalogSvc.v ===== *)
(** Disputes, payouts and products: [internal/service/dispute.go],
    [payout.go] and [product.go]. *)

From S2P Require Import Prelude GoInt GoTime GoJson Pagination Model Errors World Effects Logic.
From S2P Require Import History Repository RepoPayments RepoAccounts RepoHistory EventBus Provider.
From S2P Require Import Schema Sample.

Open Scope Z_scope.

Definition zero_dispute : Dispute :=
  MkDispute uuid_Nil uuid_Nil uuid_Nil "" "" "" "" 0 None None "" None None time_zero time_zero.

Definition zero_payout : Payout :=
  MkPayout uuid_Nil uuid_Nil "" "" 0 "" "" "" None 0 None time_zero time_zero.

Section service.
Context `{!Externals} (bus : EventBus).

(** ** dispute.go *)

Definition new_dispute (id merchantID transactionID : uuid) (provider reason : string)
    (amount : Z) : Dispute :=
  zero_dispute <| dp_ID := id |> <| dp_TransactionID := transactionID |>
    <| dp_MerchantID := merchantID |> <| dp_Provider := provider |> <| dp_Reason := reason |>
    <| dp_Status := DisputeStatusWarningNeedsResponse |> <| dp_Amount := amount |>.

Definition CreateDispute (merchantID transactionID : uuid) (provider reason : string)
    (amount : Z) : M Dispute :=
  id ← uuid_New;
  let d := new_dispute id merchantID transactionID provider reason amount in
  DisputeRepo_Create d;;
  emit bus "events.dispute.created" "dispute.created" (DDispute d);;
  mret d.

Definition GetDispute : uuid → M Dispute := DisputeRepo_GetByID.
Definition ListDisputes : uuid → Z → Z → M (list Dispute * Z) := DisputeRepo_ListByMerchant.

(** [json.Marshal] of the map: its keys in order. *)
Definition evidence_json (evidenceURL : string) (t : time) : RawMessage :=
  Some (Marshal (JObj [("submitted_at", JStr (RFC3339Nano t)); ("url", JStr evidenceURL)])).

(** The event carries the dispute before its status is changed in memory. *)
Definition AddEvidence (disputeID : uuid) (evidenceURL : string) : M Dispute :=
  d ← DisputeRepo_GetByID disputeID;
  t ← now;
  let evidenceJSON := evidence_json evidenceURL t in
  let d := d <| dp_EvidenceSubmittedAt := Some t |> <| dp_Evidence := evidenceJSON |> in
  DisputeRepo_UpdateEvidence disputeID evidenceJSON;;
  DisputeRepo_UpdateStatus disputeID DisputeStatusUnderReview;;
  emit bus "events.dispute.evidence_submitted" "dispute.evidence_submitted" (DDispute d);;
  mret (d <| dp_Status := DisputeStatusUnderReview |>).

(** ** payout.go *)

Definition new_payout (id merchantID : uuid) (provider currency : string) (amount : Z)
    (method : PayoutMethod) : Payout :=
  zero_payout <| po_ID := id |> <| po_MerchantID := merchantID |> <| po_Provider := provider |>
    <| po_Amount := amount |> <| po_Currency := currency |>
    <| po_Status := PayoutStatusPending |> <| po_Method := method |>.

Definition CreatePayout (merchantID : uuid) (provider currency : string) (amount : Z)
    (method : PayoutMethod) : M Payout :=
  id ← uuid_New;
  let p := new_payout id merchantID provider currency amount method in
  PayoutRepo_Create p;;
  emit bus "events.payout.created" "payout.created" (DPayout p);;
  mret p.

Definition GetPayout : uuid → M Payout := PayoutRepo_GetByID.
Definition ListPayouts : uuid → Z → Z → M (list Payout * Z) := PayoutRepo_ListByMerchant.

(** ** product.go

    The methods fill in the product they are given: it is their result. *)

Definition known_product_status (s : ProductStatus) : bool :=
  bool_decide (s = ProductStatusActive ∨ s = ProductStatusInactive ∨ s = ProductStatusArchived).

Definition CreateProduct (p : Product) : M Product :=
  if decide (pd_Name p = "") then fail (NewValidationError "product name is required")
  else if decide (pd_Price p ≤ 0)
  then fail (NewValidationError "product price must be greater than zero")
  else
    let p := if known_product_status (pd_Status p) then p
             else p <| pd_Status := ProductStatusActive |> in
    t ← now;
    let p := p <| pd_CreatedAt := t |> <| pd_UpdatedAt := t |> in
    ProductRepo_Create p;;
    mret p.

Definition GetProduct : string → string → M Product := ProductRepo_GetByID.

(** The offset may wrap around for a huge page, and is then refused by the
    database. *)
Definition ListProducts (merchantID : string) (page pageSize : Z) : M (list Product * Z) :=
  let page := if decide (page < 1) then 1 else page in
  let pageSize := if decide (pageSize < 1 ∨ pageSize > 100) then 20 else pageSize in
  ProductRepo_ListByMerchant merchantID pageSize (mul64 (sub64 page 1) pageSize).

(** Empty fields keep what the product has. *)
Definition merged_product (existing p : Product) (t : time) : Product :=
  p <| pd_Name := if decide (pd_Name p = "") then pd_Name existing else pd_Name p |>
    <| pd_Price := if decide (pd_Price p ≤ 0) then pd_Price existing else pd_Price p |>
    <| pd_Currency := if decide (pd_Currency p = "") then pd_Currency existing
                      else pd_Currency p |>
    <| pd_Description := if decide (pd_Description p = "") then pd_Description existing
                         else pd_Description p |>
    <| pd_Status := if decide (pd_Status p = "") then pd_Status existing else pd_Status p |>
    <| pd_Metadata := match pd_Metadata p with None => pd_Metadata existing | m => m end |>
    <| pd_UpdatedAt := t |>.

(** The second check of the archived status in the source cannot fire after
    the first. *)
Definition UpdateProduct (p : Product) : M Product :=
  existing ← ProductRepo_GetByID (pd_ID p) (pd_MerchantID p);
  if decide (pd_Status existing = ProductStatusArchived)
  then fail (NewValidationError "cannot update an archived product")
  else if decide (pd_Status p ≠ "" ∧ pd_Status p ≠ pd_Status existing ∧
                  pd_Status existing = ProductStatusArchived)
  then fail (NewValidationError "cannot transition from archived status")
  else
    t ← now;
    let p := merged_product existing p t in
    ProductRepo_Update p;;
    mret p.

Definition DeleteProduct : string → string → M unit := ProductRepo_Delete.

(** ** What the services do to the world *)

Context `{!PublishesOnly bus}.

Lemma acts_CreateDispute m t p r a : Acts quiet (CreateDispute m t p r a).
Proof. unfold CreateDispute. acts. Qed.
Lemma acts_AddEvidence id url : Acts quiet (AddEvidence id url).
Proof. unfold AddEvidence. acts. Qed.
Lemma acts_CreatePayout m p c a me : Acts quiet (CreatePayout m p c a me).
Proof. unfold CreatePayout. acts. Qed.
Lemma acts_CreateProduct p : Acts quiet (CreateProduct p).
Proof. unfold CreateProduct. acts. Qed.
Lemma acts_UpdateProduct p : Acts quiet (UpdateProduct p).
Proof. unfold UpdateProduct. acts. Qed.
Lemma acts_ListProducts m page size : Acts unchanged (ListProducts m page size).
Proof. unfold ListProducts. acts. Qed.
End service.

#[export] Hint Resolve acts_CreateDispute acts_AddEvidence acts_CreatePayout acts_CreateProduct
  acts_UpdateProduct acts_ListProducts : acts.

(** ** Products on sale *)

Definition sellable (p : Product) : Prop := pd_Name p ≠ "" ∧ 0 < pd_Price p.

Definition products_sellable (db : database) : Prop := map_Forall (λ _, sellable) (db_products db).

Inductive product_op :=
  | OpCreateProduct (p : Product)
  | OpUpdateProduct (p : Product)
  | OpDeleteProduct (id merchantID : string).

Section products.
Context `{!Externals}.

Abbreviation keeps m Post := (Keeps (on_db products_sellable) m Post).

Lemma keeps_with_uuid {A} s (k : uuid → M A) Post :
  (∀ u, keeps (k u) Post) → keeps (with_uuid s k) Post.
Proof. intros Hk. unfold with_uuid. by destruct (pg_uuid_in s). Qed.

Lemma keeps_GetProduct id m : keeps (ProductRepo_GetByID id m) sellable.
Proof.
  unfold ProductRepo_GetByID. eapply Keeps_bind.
  - apply (Keeps_attempt _ _ sellable). apply keeps_with_uuid; intros u.
    apply keeps_with_uuid; intros v. unfold db_QueryRow.
    eapply Keeps_bind; [apply (keeps_db_read _ _ (λ r, ∀ x, r = Some x → sellable x))|].
    + intros _ db Hdb x. unfold find_product.
      destruct (db_products db !! u) as [y|] eqn:Hy; simpl; [|done].
      destruct (live_product_of v y); [|done]. intros [= <-]. exact (Hdb _ _ Hy).
    + intros [x|] Hx; [by apply Hx|done].
  - intros [[]|x]; done.
Qed.

Lemma keeps_ProductRepo_Create p : sellable p → keeps (ProductRepo_Create p) (λ _, True).
Proof.
  intros Hp. unfold ProductRepo_Create. eapply Keeps_bind; [|done]. apply Keeps_wrap_err.
  apply keeps_with_uuid; intros u. apply keeps_with_uuid; intros v.
  apply keeps_db_Exec. intros t db db' n Hdb (tbl & Hs & ->)%on_table_inv.
  unfold row_insert in Hs. destruct (_ !! u); [done|]. injection Hs as <- <-.
  by apply map_Forall_insert_2.
Qed.

Lemma keeps_product_exec prefix id m f :
  (∀ t x, sellable x → sellable (f t x)) → keeps (product_exec prefix id m f) (λ _, True).
Proof.
  intros Hf. unfold product_exec. eapply Keeps_bind; [|intros n _; by case_decide].
  apply Keeps_wrap_err. apply keeps_with_uuid; intros u. apply keeps_with_uuid; intros v.
  apply keeps_db_Exec. intros t db db' n Hdb.
  unfold find_product. destruct (db_products db !! u) as [x|] eqn:Hx; simpl;
    [|by intros [= <- <-]].
  destruct (live_product_of v x); [|by intros [= <- <-]].
  intros (tbl & Hs & ->)%on_table_inv. unfold row_update in Hs. rewrite Hx in Hs.
  injection Hs as <- <-. apply map_Forall_insert_2; [|done]. apply Hf. exact (Hdb _ _ Hx).
Qed.

Definition serve_product (op : product_op) : thread :=
  match op with
  | OpCreateProduct p => Thread (CreateProduct p)
  | OpUpdateProduct p => Thread (UpdateProduct p)
  | OpDeleteProduct id m => Thread (DeleteProduct id m)
  end.

Lemma serve_product_keeps op : thread_keeps (on_db products_sellable) (serve_product op).
Proof.
  destruct op as [p|p|id m]; simpl.
  - unfold CreateProduct. case_decide as Hn; [done|]. case_decide as Hp; [done|].
    eapply Keeps_bind; [apply keeps_unchanged; acts|intros t _].
    eapply Keeps_bind; [apply keeps_ProductRepo_Create|done].
    destruct (known_product_status _); (split; [exact Hn|simpl; lia]).
  - unfold UpdateProduct. eapply Keeps_bind; [apply keeps_GetProduct|intros x [Hxn Hxp]].
    case_decide; [done|]. case_decide; [done|].
    eapply Keeps_bind; [apply keeps_unchanged; acts|intros t _].
    eapply Keeps_bind; [|done]. apply keeps_product_exec. intros t2 y _.
    split; simpl; case_decide; (done || lia).
  - eapply Keeps_bind; [apply keeps_unchanged; acts|intros t _]. by apply keeps_product_exec.
Qed.
End products.

(** ** Properties *)

Section properties.
Context `{!Externals} (bus : EventBus) `{!PublishesOnly bus}.

(** C22: under any interleaving of product requests - and whatever the database
    answers - every stored product keeps a name and a positive price. *)
Theorem products_stay_sellable ops w ths' w' :
  products_sellable (w_db w) →
  rtc pool_step (serve_product <$> ops, w) (ths', w') →
  products_sellable (w_db w').
Proof.
  intros Hw Hsteps. refine (Keeps_pool (on_db products_sellable) _ _ _ _ Hsteps _ Hw).
  apply Forall_fmap, Forall_true. apply serve_product_keeps.
Qed.

(** An archived product is frozen for requests that follow: an update of it
    is refused with a validation error - or fails on the way - and changes
    nothing. *)
Theorem UpdateProduct_archived p u v x w o w' :
  pg_uuid_in (pd_ID p) = Some u → pg_uuid_in (pd_MerchantID p) = Some v →
  find_product u v (w_db w) = Some x → pd_Status x = ProductStatusArchived →
  run (UpdateProduct p) w = (o, w') →
  unchanged w w' ∧ (∃ e, o = Err e) ∧
  (db_accepts → o = Err (NewValidationError "cannot update an archived product")).
Proof.
  intros Hu Hv Hx Harch. unfold UpdateProduct. rewrite run_bind.
  unfold ProductRepo_GetByID, with_uuid. rewrite Hu, Hv, run_bind, run_attempt.
  unfold db_QueryRow, db_read. rewrite run_bind, run_act. cbv beta.
  change (w_db (w <| w_tick := S (w_tick w) |>)) with (w_db w). unfold db_accepts.
  destruct (ext_db _ _ _) eqn:Hverdict; cbv beta iota.
  - rewrite Hx. cbv [scan_ok]. rewrite !run_ret, decide_True, run_fail by done.
    intros [= <- <-]. split_and!; [done|by eexists|done].
  - rewrite run_fail. intros [= <- <-]. split_and!; [done|by eexists|].
    intros Hok. by rewrite Hok in Hverdict.
  - rewrite run_fail. intros [= <- <-]. split_and!; [done|by eexists|].
    intros Hok. by rewrite Hok in Hverdict.
Qed.

(** Evidence on a dispute is stored and puts it under review whatever its
    status was, lost, won and closed included; the submission time is returned
    but never reaches the row. *)
Theorem AddEvidence_effect id url w d w' :
  run (AddEvidence bus id url) w = (Ret d, w') →
  is_Some (dp_EvidenceSubmittedAt d) ∧
  ∃ old row, db_disputes (w_db w) !! id = Some old ∧ db_disputes (w_db w') !! id = Some row ∧
    dp_le old row ∧ dp_Evidence row = dp_Evidence d ∧
    dp_Status row = DisputeStatusUnderReview ∧
    dp_EvidenceSubmittedAt row = dp_EvidenceSubmittedAt old.
Proof.
  intros Hrun. unfold AddEvidence in Hrun.
  apply run_bind_Ret in Hrun as (old & w1 & Hget & Hrun).
  apply query_row_Ret in Hget as ([Hdb1 _] & r & Hr & [= ->]).
  apply run_bind_Ret in Hrun as (t & w2 & Hnow & Hrun).
  apply (Acts_outcome _ _ _ _ _ (Acts_ask _)) in Hnow as [Hdb2 _].
  apply run_bind_Ret in Hrun as (u3 & w3 & H3 & Hrun).
  apply update_Ret in H3 as (_ & r3 & t3 & Hr3 & Hdb3). rewrite Hdb2, Hdb1, Hr in Hr3.
  injection Hr3 as <-.
  apply run_bind_Ret in Hrun as (u4 & w4 & H4 & Hrun).
  apply update_Ret in H4 as (_ & r4 & t4 & Hr4 & Hdb4). rewrite Hdb3 in Hr4. simpl in Hr4.
  rewrite lookup_insert_eq in Hr4. injection Hr4 as <-.
  apply run_bind_Ret in Hrun as (u5 & w5 & Hemit & Hrun).
  apply (Acts_outcome _ _ _ _ _ (acts_emit _ _ _ _)) in Hemit as [Hdb5 _].
  rewrite run_ret in Hrun. injection Hrun as <- <-. split; [by eexists|].
  rewrite Hdb5, Hdb4. simpl. rewrite lookup_insert_eq. eexists _, _.
  split; [exact Hr|]. split; [reflexivity|]. by split_and!.
Qed.
End properties.

(** ** Witnesses *)

#[local] Existing Instance sample.

Definition sample_product (status : ProductStatus) : Product :=
  MkProduct "8" "3" "mug" "" 1200 "EUR" status (Some "{}") sample_epoch sample_epoch None.

Definition catalog_world (status : ProductStatus) : world :=
  world_of (empty_database <| db_products := {[8%N := sample_product status]} |>).

Definition cheaper : Product := (sample_product "") <| pd_Price := 900 |>.

Lemma products_stay_sellable_witness :
  products_sellable (w_db (catalog_world ProductStatusActive)) ∧
  products_sellable (w_db (run (UpdateProduct cheaper) (catalog_world ProductStatusActive)).2).
Proof.
  assert (products_sellable (w_db (catalog_world ProductStatusActive))) as Hw.
  { by apply map_Forall_singleton. }
  split; [exact Hw|].
  destruct (run_schedule [0; 0; 0]%nat (serve_product <$> [OpUpdateProduct cheaper],
              catalog_world ProductStatusActive)) as [[ths' w']|] eqn:Hrun;
    [|vm_compute in Hrun; discriminate].
  pose proof (products_stay_sellable _ _ _ _ Hw (run_schedule_steps _ _ _ Hrun)) as Hw'.
  vm_compute in Hrun. injection Hrun as _ <-. exact Hw'.
Defined.

Lemma UpdateProduct_archived_witness :
  (run (UpdateProduct cheaper) (catalog_world ProductStatusArchived)).1 =
  Err (NewValidationError "cannot update an archived product").
Proof.
  destruct (run (UpdateProduct cheaper) (catalog_world ProductStatusArchived)) as [o w'] eqn:Hrun.
  refine (proj2 (proj2 (UpdateProduct_archived cheaper 8 3 (sample_product ProductStatusArchived)
            _ _ _ _ _ _ _ Hrun)) _); first [reflexivity|done].
Defined.

Definition lost_dispute : Dispute :=
  (new_dispute 2 3 7 "stripe" "fraudulent" 1000) <| dp_Status := DisputeStatusLost |>
    <| dp_Evidence := Some "{}" |> <| dp_Metadata := Some "{}" |>.

Definition disputed_world : world :=
  world_of (empty_database <| db_disputes := {[2%N := lost_dispute]} |>).

(** A dispute already lost is under review again. *)
Lemma AddEvidence_effect_witness :
  ∃ d w' row, run (AddEvidence NatsEventBus 2 "https://files/receipt.pdf") disputed_world =
    (Ret d, w') ∧ db_disputes (w_db w') !! 2%N = Some row ∧
    dp_Status row = DisputeStatusUnderReview ∧ dp_EvidenceSubmittedAt row = None.
Proof.
  destruct (run_returns (AddEvidence NatsEventBus 2 "https://files/receipt.pdf") disputed_world)
    as (d & w' & Hrun); [vm_compute; reflexivity|].
  destruct (AddEvidence_effect NatsEventBus 2 "https://files/receipt.pdf" _ _ _ Hrun)
    as (_ & old & row & Hold & Hrow & _ & _ & Hst & Hsub).
  exists d, w', row. split; [exact Hrun|]. split; [exact Hrow|]. split; [exact Hst|].
  rewrite Hsub. vm_compute in Hold. injection Hold as <-. reflexivity.
Defined.
