(* ===== verification/Background.v ===== *)
(** The task queue and its workers: [internal/service/background.go] and
    [internal/service/task_handlers.go].

    The queue is a table. A worker claims a task in one transaction, runs the
    handler of its type and writes the verdict; the claim counts the attempt,
    and a failure schedules the next one or, at the fifth, kills the task. *)

From S2P Require Import Prelude GoInt GoTime GoJson Model Errors World Effects Logic History.
From S2P Require Import Repository RepoPayments RepoAccounts RepoHistory Sample.

Open Scope Z_scope.

Definition maxRetries : Z := 5.
Definition retryBackoff : Duration := 30 * Second.

(** [backgroundTaskRow]: what a claim returns. *)
Record TaskRow := MkTaskRow {
  tr_ID : uuid; tr_Type : string; tr_Payload : RawMessage; tr_Priority : Z; tr_Attempts : Z
}.

Definition task_row (x : BackgroundTask) : TaskRow :=
  MkTaskRow (bt_ID x) (bt_Type x) (bt_Payload x) (bt_Priority x) (bt_Attempts x).

(** A row as the INSERT of [Enqueue] leaves it, with the column defaults. *)
Definition enqueued (t : time) (id : uuid) (type payload : string) (priority : Z)
    : BackgroundTask :=
  MkBackgroundTask id type (Some payload) TaskStatusPending priority 0 5 "" (Some t) "" None t t.

Definition claimed (t : time) (x : BackgroundTask) : BackgroundTask :=
  x <| bt_Status := TaskStatusRunning |> <| bt_LockedAt := Some t |>
    <| bt_Attempts := bt_Attempts x + 1 |> <| bt_UpdatedAt := t |>.

(** [status = 'pending' AND next_run_at <= NOW()]. *)
Definition due (t : time) (x : BackgroundTask) : bool :=
  bool_decide (bt_Status x = TaskStatusPending) &&
  match bt_NextRunAt x with Some next => bool_decide (next ≤ t) | None => false end.

(** [ORDER BY priority DESC, next_run_at ASC]. *)
Definition next_run (x : BackgroundTask) : time := default time_zero (bt_NextRunAt x).
Definition most_urgent (x y : BackgroundTask) : bool :=
  if decide (bt_Priority x = bt_Priority y) then bool_decide (next_run x ≤ next_run y)
  else bool_decide (bt_Priority y < bt_Priority x).

Definition task_handler : Type := RawMessage → M unit.

Section service.
Context `{!Externals}.

(** ** The service *)

Definition set_task (id : uuid) (f : time → BackgroundTask → BackgroundTask) : M unit :=
  db_Exec (λ t, on_table db_background_tasks
    (row_update id (λ x, (f t x) <| bt_UpdatedAt := t |>)));;
  mret ().

(** [payload]: what [json.Marshal] gives for it. *)
Definition Enqueue (taskType : string) (payload : error + string) (priority : Z) : M uuid :=
  id ← uuid_New;
  match payload with
  | inl err => fail err
  | inr payloadBytes =>
      db_Exec (λ t, on_table db_background_tasks
        (row_insert id (enqueued t id taskType payloadBytes priority)));;
      mret id
  end.

Definition claimable (n : nat) (x : BackgroundTask) : bool :=
  due (ext_db_now n) x && negb (ext_locked n (bt_ID x)).

(** The transaction is one step: FOR UPDATE SKIP LOCKED never waits. *)
Definition next_task (n : nat) (db : database) : option BackgroundTask :=
  head (order_by most_urgent (rows_where (claimable n) (db_background_tasks db))).

Definition claim (n : nat) (x : BackgroundTask) (db : database) : database :=
  db <| db_background_tasks :=
    <[bt_ID x := claimed (ext_db_now n) x]> (db_background_tasks db) |>.

Definition claimTask : M TaskRow := act (λ n w,
  match next_task n (w_db w) with
  | None =>
      match ext_db n (w_db w) (w_db w) with
      | Accepted => (Err ENoRows, w)
      | Rejected msg | AckLost msg => (Err (EDriver msg), w)
      end
  | Some x =>
      if decide (bt_Attempts x = 2 ^ 15 - 1) then (Err (EDriver "smallint out of range"), w)
      else
        let db := claim n x (w_db w) in
        match ext_db n (w_db w) db with
        | Accepted => (Ret (task_row (claimed (ext_db_now n) x)), w <| w_db := db |>)
        | Rejected msg => (Err (EDriver msg), w)
        | AckLost msg => (Err (EDriver msg), w <| w_db := db |>)
        end
  end).

Definition handleTaskError (task : TaskRow) (taskErr : error) : M unit :=
  if decide (maxRetries ≤ tr_Attempts task) then
    set_task (tr_ID task) (λ _ x,
      x <| bt_Status := TaskStatusDead |>
        <| bt_LastError := "max retries exceeded (5): " +:+ Error taskErr |>)
  else
    t ← now;
    let nextRun := Add t (mul64 retryBackoff (wrap16 (tr_Attempts task + 1))) in
    set_task (tr_ID task) (λ _ x,
      x <| bt_Status := TaskStatusPending |> <| bt_LastError := Error taskErr |>
        <| bt_NextRunAt := Some (pg_timestamptz nextRun) |>).

Definition processTask (handlers : gmap string task_handler) (task : TaskRow) : M unit :=
  match handlers !! tr_Type task with
  | None =>
      set_task (tr_ID task) (λ _ x,
        x <| bt_Status := TaskStatusDead |>
          <| bt_LastError := "no handler registered for type: " +:+ tr_Type task |>)
  | Some handler =>
      r ← attempt (handler (tr_Payload task));
      match r with
      | inl err => handleTaskError task err
      | inr _ => set_task (tr_ID task) (λ _ x, x <| bt_Status := TaskStatusCompleted |>)
      end
  end.

(** One turn of the loop; a claim that fails sleeps, and a task that fails is
    logged.  The loop runs until the process stops: [n] turns of it. *)
Definition worker_turn (handlers : gmap string task_handler) : M unit :=
  r ← attempt claimTask;
  match r with
  | inl _ => mret ()
  | inr task => ignore_err (processTask handlers task)
  end.

Fixpoint worker (handlers : gmap string task_handler) (n : nat) : M unit :=
  match n with
  | O => mret ()
  | S n => worker_turn handlers;; worker handlers n
  end.

(** ** The handlers

    The payload is JSON text in the table; [json.Unmarshal] into the struct of
    the handler. *)

Definition Unmarshal {A} (decode : list (string * json) → option A) (data : RawMessage)
    : error + A :=
  match ext_json (default "" data) with
  | inl msg => inl (EDriver msg)
  | inr v =>
      match (ms ← decode_members v; decode ms) with
      | None => inl (EDriver "json: cannot unmarshal value into Go struct")
      | Some a => inr a
      end
  end.

Definition parse_uuid (prefix s : string) : M uuid :=
  match uuid_Parse s with
  | inl msg => fail (EWrap prefix (EDriver msg))
  | inr id => mret id
  end.

Definition unmarshal_payload {A} (prefix : string) (decode : list (string * json) → option A)
    (payload : RawMessage) : M A :=
  match Unmarshal decode payload with
  | inl err => fail (EWrap prefix err)
  | inr a => mret a
  end.

Definition payoutTaskHandler (payload : RawMessage) : M unit :=
  payoutID ← unmarshal_payload "payout task: unmarshal payload"
               (λ ms, decode_field decode_string "payout_id" ms "") payload;
  id ← parse_uuid "payout task: parse payout_id" payoutID;
  wrap_err "payout task: update status" (PayoutRepo_UpdateStatus id PayoutStatusInTransit).

Definition reconciliationTaskHandler (payload : RawMessage) : M unit :=
  merchantID ← unmarshal_payload "reconciliation task: unmarshal payload"
                 (λ ms, decode_field decode_string "merchant_id" ms "") payload;
  id ← parse_uuid "reconciliation task: parse merchant_id" merchantID;
  wrap_err "reconciliation task: list transactions" (TransactionRepo_ListByMerchant id 1 1);;
  mret ().

Definition invoiceTaskHandler (payload : RawMessage) : M unit :=
  invoiceID ← unmarshal_payload "invoice task: unmarshal payload"
                (λ ms, decode_field decode_string "invoice_id" ms "") payload;
  id ← parse_uuid "invoice task: parse invoice_id" invoiceID;
  wrap_err "invoice task: update status" (InvoiceRepo_UpdateStatus id InvoiceStatusOpen).

(** [event_payload] is a [json.RawMessage], which any value decodes into.  The
    handler logs that it would send the event, and sends nothing. *)
Definition webhookDeliveryTaskHandler (payload : RawMessage) : M unit :=
  configID ← unmarshal_payload "webhook delivery task: unmarshal payload"
    (λ ms, c ← decode_field decode_string "webhook_config_id" ms "";
           _ ← decode_field decode_string "event_type" ms ""; Some c) payload;
  id ← parse_uuid "webhook delivery task: parse webhook_config_id" configID;
  wrap_err "webhook delivery task: get config" (WebhookConfigRepo_GetByID id);;
  mret ().

(** [RegisterHandler], as [cmd/server/main.go] calls it. *)
Definition server_handlers : gmap string task_handler :=
  <["payout" := payoutTaskHandler]> (<["reconciliation" := reconciliationTaskHandler]>
  (<["invoice" := invoiceTaskHandler]> {["webhook_delivery" := webhookDeliveryTaskHandler]})).

(** The service: how many workers, how long they sleep, and the handlers. *)
Record BackgroundService := MkBackgroundService {
  bs_workers : Z; bs_pollInt : Duration; bs_handlers : gmap string task_handler
}.
#[export] Instance eta_BackgroundService : Eta BackgroundService := λ r,
  MkBackgroundService (bs_workers r) (bs_pollInt r) (bs_handlers r).

Definition NewBackgroundService (workers : Z) (pollInterval : Duration) : BackgroundService :=
  MkBackgroundService workers pollInterval ∅.

(** [handlerType]: what [handler.Type()] answers. *)
Definition RegisterHandler (handlerType : string) (handler : task_handler) (s : BackgroundService)
    : BackgroundService :=
  s <| bs_handlers := <[handlerType := handler]> (bs_handlers s) |>.

(** The goroutines of the workers, each for a number of turns. *)
Definition Start (turns : nat) (s : BackgroundService) : list thread :=
  replicate (Z.to_nat (bs_workers s)) (Thread (worker (bs_handlers s) turns)).
End service.

(** ** The queue under concurrent workers *)

(** How often a task may still be attempted counts with its attempts: once at
    least while it is pending, up to five attempts in all. *)
Definition task_weight (x : BackgroundTask) : nat :=
  (Z.to_nat (bt_Attempts x) +
   if decide (bt_Status x = TaskStatusPending) then Z.to_nat (Z.max 1 (5 - bt_Attempts x)) else 0)%nat.

Lemma task_weight_pending x :
  bt_Status x = TaskStatusPending →
  task_weight x = (Z.to_nat (bt_Attempts x) + Z.to_nat (Z.max 1 (5 - bt_Attempts x)))%nat.
Proof. intros Hx. unfold task_weight. by rewrite decide_True. Qed.

Lemma task_weight_other x :
  bt_Status x ≠ TaskStatusPending → task_weight x = Z.to_nat (bt_Attempts x).
Proof. intros Hx. unfold task_weight. rewrite decide_False by done. lia. Qed.

Lemma task_weight_attempts x : (Z.to_nat (bt_Attempts x) ≤ task_weight x)%nat.
Proof. unfold task_weight. lia. Qed.

Lemma due_pending t x : due t x = true → bt_Status x = TaskStatusPending.
Proof. by intros [?%bool_decide_eq_true _]%andb_true_iff. Qed.

Abbreviation queue := (gmap uuid BackgroundTask).
Definition tasks_of (w : world) : queue := db_background_tasks (w_db w).

Definition task_budget (k : uuid) (w : world) : nat :=
  match tasks_of w !! k with Some x => task_weight x | None => 5%nat end.

(** Tasks are filed under their identifiers; and task [k] was attempted [n]
    times. *)
Definition filed (w : world) : Prop := map_Forall bt_row (tasks_of w).
Definition attempted (k : uuid) (n : Z) (w : world) : Prop :=
  filed w ∧ ∃ x, tasks_of w !! k = Some x ∧ n ≤ bt_Attempts x.

Lemma filed_stable : stable_fact progress filed.
Proof.
  intros w w' Hw [Hdb _]. eapply table_le_invariant; [apply _|exact (le_tasks Hdb)|done].
Qed.

Lemma attempted_stable k n : stable_fact progress (attempted k n).
Proof.
  intros w w' (Hw & x & Hx & Hn) Hp. split; [by eapply filed_stable|]. destruct Hp as [Hdb _].
  destruct (table_le_lookup _ _ _ _ _ _ (le_tasks Hdb) Hx) as (y & Hy & ? & ? & ? & ? & Hle).
  exists y. split; [done|lia].
Qed.

Lemma lawful_budget k w w' : lawful w w' → progress w w' ∧ (task_budget k w' ≤ task_budget k w)%nat.
Proof.
  intros [Hdb Hc]. split; [by split; [apply db_le_history|]|].
  unfold task_budget, tasks_of. by rewrite (le_tasks Hdb).
Qed.

(** What is written over a task keeps its identity and attempts. *)
Definition task_kept (x y : BackgroundTask) : Prop :=
  bt_ID y = bt_ID x ∧ bt_Type y = bt_Type x ∧ bt_Payload y = bt_Payload x ∧
  bt_CreatedAt y = bt_CreatedAt x ∧ bt_Attempts y = bt_Attempts x.

Section queue.
Context `{!Externals}.

Lemma queue_stmt_le (f : time → queue → option (queue * Z)) :
  (∀ t q q' n, f t q = Some (q', n) → queue_le q q') →
  stmt_in db_history (λ t, on_table db_background_tasks (f t)).
Proof. intros Hf ? ? ? ? (? & Hs & ->)%on_table_inv. split; simpl; try reflexivity. eauto. Qed.

Lemma acts_queue_exec (f : time → queue → option (queue * Z)) :
  (∀ t q q' n, f t q = Some (q', n) → queue_le q q') →
  Acts progress (db_Exec (λ t, on_table db_background_tasks (f t))).
Proof.
  intros Hf. eapply Acts_weaken; [|apply (Acts_db_Exec_in db_history); [apply _|by apply queue_stmt_le]].
  intros w w' [Hdb HC]. split; [done|]. by rewrite HC.
Qed.

Lemma acts_Enqueue ty payload prio : Acts progress (Enqueue ty payload prio).
Proof.
  apply Acts_bind; [apply lawful_progress; acts|intros id]. destruct payload as [err|bs]; [done|].
  apply Acts_bind; [|done]. apply acts_queue_exec. intros t q q' n Hs.
  by refine (row_insert_le _ _ _ _ _ _ _ _ Hs).
Qed.

Lemma acts_set_task id f :
  (∀ t x, task_kept x (f t x)) → Acts progress (set_task id f).
Proof.
  intros Hf. apply Acts_bind; [|done]. apply acts_queue_exec. intros t q q' n Hs. refine (row_update_le _ _ _ _ _ _ _ _ Hs). intros x.
  destruct (Hf t x) as (?&?&?&?&?). split_and!; simpl; congruence || lia.
Qed.

Lemma next_task_Some n db x :
  map_Forall bt_row (db_background_tasks db) → next_task n db = Some x →
  claimable n x = true ∧ db_background_tasks db !! bt_ID x = Some x ∧
  ∀ k y, db_background_tasks db !! k = Some y → claimable n y = true → most_urgent x y = true.
Proof.
  unfold next_task. intros Hwf Hx.
  set (l := rows_where (claimable n) (db_background_tasks db)) in *.
  assert (∀ y, y ∈ order_by most_urgent l ↔ y ∈ l) as Hin by (intros y; by rewrite order_by_perm).
  destruct (order_by most_urgent l) as [|z l'] eqn:Hl; [done|]. injection Hx as ->.
  assert (x ∈ l) as Hxl by (apply Hin; set_solver).
  apply elem_of_rows_where in Hxl as (Hc & k & Hk).
  split; [done|]. split; [by rewrite (Hwf k x Hk : bt_ID x = k)|].
  intros k' y Hy Hcy. assert (y ∈ x :: l') as Hyl.
  { apply Hin, elem_of_rows_where. eauto. }
  assert (StronglySorted (λ x y, most_urgent x y) (x :: l')) as Hsorted.
  { rewrite <- Hl. apply order_by_sorted; unfold most_urgent; intros *.
    - repeat case_decide; try congruence; rewrite <- bool_decide_or; apply bool_decide_pack; lia.
    - repeat case_decide; rewrite ?bool_decide_spec; try lia. }
  apply elem_of_cons in Hyl as [->|Hyl].
  - unfold most_urgent. rewrite decide_True by done. by apply bool_decide_eq_true.
  - apply StronglySorted_inv in Hsorted as [_ Hall].
    rewrite Forall_forall in Hall. by apply Is_true_true, Hall.
Qed.
End queue.

(** ** The accounting of attempts *)

Section accounting.
Context `{!Externals} (k : uuid).

Abbreviation Relies := (Rely progress (task_budget k)).

(** The credits left after [o], and what is known of the queue then. *)
Abbreviation filed_only := (0%nat, filed).

(** Frame: a handler, or any service, writes no task. *)
Lemma relies_lawful {A} F c (m : M A) :
  stable_fact progress F → Acts lawful m → Relies F c m (λ _, (c, F)).
Proof. intros HF Hm. apply Rely_frame; [done|]. eapply Acts_weaken, Hm. apply lawful_budget. Qed.

(** A statement on the queue that pays for what it adds to the weight of
    task [k]. *)
Lemma relies_exec {A} (F : world → Prop) c f (a : A) :
  (∀ w, F w → filed w) →
  (∀ w t q n, F w → f t (tasks_of w) = Some (q, n) →
     queue_le (tasks_of w) q ∧
     (task_budget k (w <| w_db := (w_db w) <| db_background_tasks := q |> |>)
        ≤ task_budget k w + c)%nat) →
  Relies F c (db_Exec (λ t, on_table db_background_tasks (f t));; mret a) (λ _, filed_only).
Proof.
  intros HF Hf. apply (Rely_on_outcome _ _ _ _ _ _ (λ _, filed_only));
    [|intros []; by split_and!; [|auto|apply filed_stable]].
  apply Rely_act; [intros _; apply filed_stable|]. intros w Hw. pose proof (HF w Hw) as Hfiled.
  set (w1 := w <| w_tick := S (w_tick w) |>).
  assert (progress w w1 ∧ filed w1 ∧ (task_budget k w1 + 0 ≤ task_budget k w + c)%nat) as Hno.
  { split; [done|]. split; [done|]. unfold task_budget, tasks_of; simpl. lia. }
  unfold on_table. change (w_db w1) with (w_db w).
  destruct (f _ _) as [[q n]|] eqn:Hs; [|exact Hno]. simpl.
  destruct (Hf _ _ _ _ Hw Hs) as [Hq Hphi].
  assert (progress w (w1 <| w_db := (w_db w) <| db_background_tasks := q |> |>)) as Hp.
  { split; [|done]. by split; simpl. }
  pose proof (filed_stable _ _ Hfiled Hp) as Hfiled'.
  destruct (ext_db _ _ _); [|exact Hno|];
    (split; [exact Hp|]; split; [exact Hfiled'|]; unfold task_budget, tasks_of in *; simpl in *; lia).
Qed.

(** A worker that holds task [id], in its [n]-th attempt. *)
Definition holds (id : uuid) (n : Z) (w : world) : Prop :=
  filed w ∧ (id = k → attempted k n w).
Definition credit (id : uuid) (n : Z) : nat :=
  if decide (id = k) then Z.to_nat (5 - n) else 0%nat.

Lemma holds_stable id n : stable_fact progress (holds id n).
Proof.
  intros w w' [Hw Ha] Hp. split; [by eapply filed_stable|].
  intros Hid. eapply attempted_stable; eauto.
Qed.

(** Writing over a task pays for the weight it adds. *)
Lemma relies_set_task id f n :
  (∀ t x, task_kept x (f t x)) →
  (∀ t x, n ≤ bt_Attempts x → (task_weight (f t x) ≤ task_weight x + Z.to_nat (5 - n))%nat) →
  Relies (holds id n) (credit id n) (set_task id f) (λ _, filed_only).
Proof.
  intros Hkept Hweight.
  apply (relies_exec _ _ (λ t, row_update id (λ x, (f t x) <| bt_UpdatedAt := t |>)));
    [by intros w []|]. intros w t q m [Hw Hheld] Hs. split.
  { refine (row_update_le _ _ _ _ _ _ _ _ Hs). intros x.
    destruct (Hkept t x) as (?&?&?&?&?). split_and!; simpl; congruence || lia. }
  unfold row_update in Hs. unfold task_budget, tasks_of. simpl.
  destruct (tasks_of w !! id) as [x|] eqn:Hx; injection Hs as <- <-; [|unfold tasks_of; lia].
  unfold credit. destruct (decide (id = k)) as [->|Hne].
  - destruct (Hheld eq_refl) as (_ & y & Hy & Hn). unfold tasks_of in *.
    rewrite lookup_insert_eq, Hx. simplify_eq.
    specialize (Hweight t _ Hn). unfold task_weight in *. simpl. lia.
  - unfold tasks_of. rewrite lookup_insert_ne by done. lia.
Qed.

(** INSERT gives a new task the weight of an absent one. *)
Lemma relies_Enqueue ty payload prio : Relies filed 0 (Enqueue ty payload prio) (λ _, filed_only).
Proof.
  apply (Rely_on_outcome _ _ _ _ _ _ (λ _, filed_only)).
  { apply relies_lawful; [apply filed_stable|]. acts. }
  intros [id|e|s]; [|by split_and!; [|auto|apply filed_stable]..].
  destruct payload as [e|bs]; [by split_and!; [|auto|apply filed_stable]|].
  apply (relies_exec _ _ (λ t, row_insert id (enqueued t id ty bs prio))); [done|].
  intros w t q m Hw Hs. split; [by refine (row_insert_le _ _ _ _ _ _ _ _ Hs)|].
  unfold row_insert in Hs. destruct (tasks_of w !! id) eqn:Hx; [done|]. injection Hs as <- <-.
  unfold task_budget, tasks_of in *. simpl. destruct (decide (id = k)) as [->|Hne].
  - rewrite lookup_insert_eq, Hx. unfold task_weight. simpl. lia.
  - rewrite lookup_insert_ne by done. lia.
Qed.

(** The claim turns the weight of a pending task into the claimant's credit. *)
Lemma claimed_weight t x :
  bt_Status x = TaskStatusPending →
  (task_weight (claimed t x) + Z.to_nat (5 - (bt_Attempts x + 1)) ≤ task_weight x)%nat.
Proof. intros Hst. unfold task_weight. rewrite Hst. simpl. lia. Qed.

Lemma relies_claimTask :
  Relies filed 0 claimTask (λ o,
    match o with
    | Ret task => (credit (tr_ID task) (tr_Attempts task), holds (tr_ID task) (tr_Attempts task))
    | _ => filed_only
    end).
Proof.
  apply Rely_act; [intros []; simpl; auto using holds_stable, filed_stable|].
  intros w Hw. set (w1 := w <| w_tick := S (w_tick w) |>). change (w_db w1) with (w_db w).
  assert (progress w w1 ∧ filed w1 ∧ (task_budget k w1 + 0 ≤ task_budget k w + 0)%nat) as Hno.
  { split; [done|]. split; [done|]. unfold task_budget, tasks_of; simpl. lia. }
  destruct (next_task _ _) as [x|] eqn:Hx; [|by destruct (ext_db _ _ _)].
  apply next_task_Some in Hx as ([[Hst%bool_decide_eq_true _]%andb_true_iff _]%andb_true_iff & Hx & _);
    [|exact Hw].
  case_decide; [exact Hno|]. set (t := ext_db_now (w_tick w)).
  set (w2 := w1 <| w_db := claim (w_tick w) x (w_db w) |>).
  assert (progress w w2) as Hp.
  { split; [|done]. split; simpl; try reflexivity.
    eapply (table_le_replace _ _); [exact Hx|]. split_and!; simpl; done || lia. }
  assert (holds (bt_ID x) (bt_Attempts x + 1) w2) as Hheld.
  { split; [by eapply filed_stable|]. intros Hid. split; [by eapply filed_stable|].
    eexists. split; [unfold tasks_of; simpl; rewrite <- Hid; apply lookup_insert_eq|]. simpl. lia. }
  assert (task_budget k w2 + credit (bt_ID x) (bt_Attempts x + 1) ≤ task_budget k w)%nat as Hphi.
  { unfold task_budget, credit, tasks_of. simpl. destruct (decide (bt_ID x = k)) as [<-|Hne].
    - rewrite lookup_insert_eq, Hx. by apply claimed_weight.
    - rewrite lookup_insert_ne by done. lia. }
  cbv zeta. destruct (ext_db _ _ _); [|exact Hno|].
  - split_and!; [exact Hp|exact Hheld|rewrite Nat.add_0_r; exact Hphi].
  - split_and!; [exact Hp|exact (proj1 Hheld)|]. rewrite !Nat.add_0_r. etrans; [|exact Hphi]. apply Nat.le_add_r.
Qed.

Lemma filed_end {A} F c (o : outcome A) :
  (∀ w, F w → filed w) → Relies F c (Done o) (λ _, filed_only).
Proof. intros HF. split_and!; [simpl; lia|exact HF|apply filed_stable]. Qed.

Lemma relies_handleTaskError task err :
  Relies (holds (tr_ID task) (tr_Attempts task)) (credit (tr_ID task) (tr_Attempts task))
    (handleTaskError task err) (λ _, filed_only).
Proof.
  unfold handleTaskError. case_decide as Hmax.
  - apply relies_set_task; [done|]. intros t x Hx. rewrite task_weight_other by done.
    pose proof (task_weight_attempts x). simpl. lia.
  - eapply Rely_on_outcome; [apply relies_lawful; [apply holds_stable|acts]|].
    intros [t0|e|s]; [|apply filed_end; by intros w []..].
    apply relies_set_task; [done|]. unfold maxRetries in Hmax. intros t x Hx.
    rewrite task_weight_pending by done. pose proof (task_weight_attempts x). simpl. lia.
Qed.

Context (handlers : gmap string task_handler).
Hypothesis handlers_lawful : ∀ ty h p, handlers !! ty = Some h → Acts lawful (h p).

Lemma relies_processTask task :
  Relies (holds (tr_ID task) (tr_Attempts task)) (credit (tr_ID task) (tr_Attempts task))
    (processTask handlers task) (λ _, filed_only).
Proof using handlers_lawful.
  assert (∀ st msg, st ≠ TaskStatusPending → ∀ (t : time) x,
    (task_weight (x <| bt_Status := st |> <| bt_LastError := msg |>) ≤
     task_weight x + Z.to_nat (5 - tr_Attempts task))%nat) as Hw.
  { intros st msg Hst t x. rewrite task_weight_other by done.
    pose proof (task_weight_attempts x). simpl. lia. }
  unfold processTask. destruct (handlers !! tr_Type task) as [h|] eqn:Hh.
  - eapply Rely_on_outcome.
    { apply relies_lawful; [apply holds_stable|]. apply Acts_attempt. eauto. }
    intros [[err|[]]|e|s]; [apply relies_handleTaskError| |apply filed_end; by intros w []..].
    apply relies_set_task; [done|]. intros t x _. rewrite task_weight_other by done.
    pose proof (task_weight_attempts x). simpl. lia.
  - apply relies_set_task; [done|]. intros t x _. by apply Hw.
Qed.

Lemma relies_worker n : Relies filed 0 (worker handlers n) (λ _, filed_only).
Proof using handlers_lawful.
  induction n as [|n IH]; [by apply filed_end|].
  eapply (Rely_on_outcome _ _ _ _ _ _ (λ _, filed_only));
    [|by intros [|e|s]; [exact IH|apply filed_end..]].
  eapply (Rely_on_outcome _ _ _ _ _ _ (λ o,
    match o with
    | Ret (inr task) => (credit (tr_ID task) (tr_Attempts task), holds (tr_ID task) (tr_Attempts task))
    | _ => filed_only
    end)).
  { eapply Rely_on_outcome; [apply relies_claimTask|].
    intros [task|e|s]; split_and!; simpl; auto using holds_stable, filed_stable. }
  intros [[e|task]|e|s]; [by apply filed_end| |by apply filed_end..].
  eapply (Rely_on_outcome _ _ _ _ _ _ (λ _, filed_only)); [|intros []; by apply filed_end].
  eapply (Rely_on_outcome _ _ _ _ _ _ (λ _, filed_only)); [|intros []; by apply filed_end].
  apply relies_processTask.
Qed.
End accounting.

(** ** The handlers of the server *)

Section handlers.
Context `{!Externals}.

Lemma acts_unmarshal_payload {A} prefix (decode : list (string * json) → option A) payload :
  Acts unchanged (unmarshal_payload prefix decode payload).
Proof. unfold unmarshal_payload. by case_match. Qed.
Lemma acts_parse_uuid prefix s : Acts unchanged (parse_uuid prefix s).
Proof. unfold parse_uuid. by case_match. Qed.
Hint Resolve acts_unmarshal_payload acts_parse_uuid : acts.

Lemma server_handlers_quiet ty h p : server_handlers !! ty = Some h → Acts quiet (h p).
Proof.
  unfold server_handlers. intros Hh.
  repeat (apply lookup_insert_Some in Hh as [[_ <-]|[_ Hh]]); last apply lookup_singleton_Some in Hh as [_ <-];
    [unfold payoutTaskHandler|unfold reconciliationTaskHandler|unfold invoiceTaskHandler
    |unfold webhookDeliveryTaskHandler]; acts; apply acts_query_listing.
Qed.

Lemma server_handlers_lawful ty h p : server_handlers !! ty = Some h → Acts lawful (h p).
Proof. intros Hh. by eapply quiet_lawful, server_handlers_quiet. Qed.

Lemma set_task_ok id f w x :
  db_accepts → tasks_of w !! id = Some x →
  ∃ w' t, run (set_task id f) w = (Ret (), w') ∧
    tasks_of w' = <[id := (f t x) <| bt_UpdatedAt := t |>]> (tasks_of w).
Proof.
  intros Hok Hx. unfold set_task, db_Exec, on_table, row_update. rewrite run_bind, run_act.
  cbv beta. change (w_db (w <| w_tick := S (w_tick w) |>)) with (w_db w).
  unfold tasks_of in *. rewrite Hx. simpl. rewrite Hok, run_ret. eexists _, _. split; [done|done].
Qed.

Lemma lawful_tasks w w' : lawful w w' → tasks_of w' = tasks_of w.
Proof. intros [Hdb _]. unfold tasks_of. by rewrite (le_tasks Hdb). Qed.
End handlers.

(** ** Properties *)

Section properties.
Context `{!Externals} (handlers : gmap string task_handler).
Hypothesis handlers_lawful : ∀ ty h p, handlers !! ty = Some h → Acts lawful (h p).

(** What may run beside the workers: producers, and services and requests,
    which leave the queue alone. *)
Inductive queue_user : thread → Prop :=
  | user_worker n : queue_user (Thread (worker handlers n))
  | user_producer ty payload prio : queue_user (Thread (Enqueue ty payload prio))
  | user_service {A} (m : M A) : Acts lawful m → queue_user (Thread m).

(** A queue at rest: no task is pending beyond its fifth attempt. *)
Definition queue_ok (w : world) : Prop :=
  filed w ∧ map_Forall (λ _ x, 0 ≤ bt_Attempts x ≤ 5 ∧
    (bt_Status x = TaskStatusPending → bt_Attempts x < 5)) (tasks_of w).

(** C12: however many workers, producers and services run at once, however
    their steps interleave and whichever of them the database fails, no task is
    ever claimed - handed to its handler - more than five times. *)
Theorem attempts_bounded ths w ths' w' k x :
  Forall queue_user ths → queue_ok w →
  rtc pool_step (ths, w) (ths', w') → tasks_of w' !! k = Some x →
  bt_Attempts x ≤ 5.
Proof using handlers_lawful.
  intros Husers [Hfiled Hok] Hsteps Hx.
  destruct (Rely_pool progress (task_budget k) ths w ths' w'
    ((λ _, (filed, 0%nat)) <$> ths) Hsteps) as (fcs & _ & Hphi).
  - apply Forall2_fmap_r, Forall_Forall2_diag. eapply Forall_impl; [exact Husers|].
    intros th Hth. split; [apply filed_stable|]. simpl.
    destruct Hth as [n|ty payload prio|A m Hm];
      apply (Rely_weaken _ _ _ _ _ (λ _, (0%nat, filed))); try done.
    + by apply relies_worker.
    + apply relies_Enqueue.
    + apply relies_lawful; [apply filed_stable|done].
  - by apply Forall_fmap, Forall_true.
  - assert (total ((λ _ : thread, (filed, 0%nat)) <$> ths) = 0%nat) as Ht.
    { clear. unfold total. induction ths; simpl; auto. }
    rewrite Ht in Hphi.
    assert (task_budget k w ≤ 5)%nat as Hw.
    { unfold task_budget. destruct (tasks_of w !! k) as [y|] eqn:Hy; [|lia].
      destruct (Hok k y Hy) as [Ha Hp]. destruct (decide (bt_Status y = TaskStatusPending)) as [Hst|].
      - specialize (Hp Hst). rewrite task_weight_pending by done. lia.
      - rewrite task_weight_other by done. lia. }
    assert (task_budget k w' = task_weight x) as Hx' by (unfold task_budget; by rewrite Hx).
    pose proof (task_weight_attempts x). lia.
Qed.

(** C17: a claim hands out a task that was pending and due and that no other
    transaction held, the most urgent of those; it is running afterwards, with
    one attempt more, and every other task is as it was. *)
Theorem claimTask_spec w task w' :
  filed w → run claimTask w = (Ret task, w') →
  ∃ x t, tasks_of w !! tr_ID task = Some x ∧ bt_Status x = TaskStatusPending ∧
    due t x = true ∧ ext_locked (w_tick w) (tr_ID task) = false ∧
    (∀ k y, tasks_of w !! k = Some y → due t y = true → ext_locked (w_tick w) (bt_ID y) = false →
            most_urgent x y = true) ∧
    task = task_row (claimed t x) ∧ tasks_of w' = <[tr_ID task := claimed t x]> (tasks_of w).
Proof using.
  intros Hw. unfold claimTask. rewrite run_act.
  set (w1 := w <| w_tick := S (w_tick w) |>). change (w_db w1) with (w_db w).
  destruct (next_task _ _) as [x|] eqn:Hx; [|by destruct (ext_db _ _ _)].
  apply next_task_Some in Hx as ([Hdue Hlock]%andb_true_iff & Hx & Hfirst); [|exact Hw].
  case_decide; [done|]. cbv zeta. destruct (ext_db _ _ _); [|done..]. intros [= <- <-].
  exists x, (ext_db_now (w_tick w)). simpl. apply negb_true_iff in Hlock.
  split_and!; try done.
  - apply andb_true_iff in Hdue as [Hst _]. by apply bool_decide_eq_true in Hst.
  - intros k y Hy Hdy Hly. apply (Hfirst k y Hy). unfold claimable. by rewrite Hdy, Hly.
Qed.

(** What is written over the task once it was processed: [None] for a type
    with no handler, else the outcome of the handler, which ended at [t]. *)
Definition processed (r : option (outcome unit)) (task : TaskRow) (t : time)
    (x : BackgroundTask) : BackgroundTask :=
  match r with
  | None => x <| bt_Status := TaskStatusDead |>
              <| bt_LastError := "no handler registered for type: " +:+ tr_Type task |>
  | Some (Ret _) => x <| bt_Status := TaskStatusCompleted |>
  | Some (Panic _) => x
  | Some (Err e) =>
      if decide (5 ≤ tr_Attempts task)
      then x <| bt_Status := TaskStatusDead |>
             <| bt_LastError := "max retries exceeded (5): " +:+ Error e |>
      else x <| bt_Status := TaskStatusPending |> <| bt_LastError := Error e |>
             <| bt_NextRunAt := Some (pg_timestamptz (t + 30 * Second * (tr_Attempts task + 1))) |>
  end.

Lemma processTask_ends task w x :
  db_accepts → 0 ≤ tr_Attempts task → tasks_of w !! tr_ID task = Some x →
  let r := (λ h, run (h (tr_Payload task)) w) <$> handlers !! tr_Type task in
  (∀ msg w1, r ≠ Some (Panic msg, w1)) →
  ∃ w' t, run (processTask handlers task) w = (Ret (), w') ∧
    tasks_of w' = <[tr_ID task :=
      (processed (fst <$> r) task (ext_now (w_tick (default w (snd <$> r)))) x)
        <| bt_UpdatedAt := t |>]> (tasks_of w).
Proof using handlers_lawful.
  intros Hok Hnonneg Hx. unfold processTask.
  destruct (handlers !! tr_Type task) as [h|] eqn:Hh;
    [|intros _; exact (set_task_ok _ _ _ _ Hok Hx)].
  cbv beta iota delta [fmap option_fmap option_map]. unfold default.
  destruct (run (h (tr_Payload task)) w) as [o w1] eqn:Hrun. intros Hpanic.
  pose proof (lawful_tasks _ _ (Acts_outcome _ _ _ _ _ (handlers_lawful _ _ _ Hh) Hrun)) as Htasks.
  rewrite run_bind, run_attempt, Hrun.
  rewrite <- Htasks in Hx |- *. cbv beta iota.
  destruct o as [[]|err|msg]; [| |by destruct (Hpanic msg w1)].
  - exact (set_task_ok _ _ _ _ Hok Hx).
  - unfold handleTaskError, maxRetries. case_decide as Hmax.
    { cbv beta iota delta [processed fst snd]. rewrite decide_True by done. exact (set_task_ok _ _ _ _ Hok Hx). }
    rewrite run_bind. unfold now, ask. rewrite run_act. cbv beta iota zeta.
    rewrite wrap16_id by (unfold in_int16; lia).
    unfold mul64, Add, retryBackoff. rewrite wrap64_id
      by (unfold in_int64, int64_min, int64_max, Second; lia).
    cbv beta iota delta [processed fst snd]. rewrite decide_False by done.
    set (w2 := w1 <| w_tick := S (w_tick w1) |>).
    exact (set_task_ok _ _ w2 _ Hok Hx).
Qed.

(** C16: when the database accepts the statements, processing a claimed task ends in the
    verdict its handler earned: completed; pending again, not before thirty
    seconds times the number of the next attempt; dead with the reason at the
    fifth attempt, or when no handler is registered. No other task changes. *)
Theorem processTask_verdict task w x :
  db_accepts → 0 ≤ tr_Attempts task → tasks_of w !! tr_ID task = Some x →
  let r := (λ h, run (h (tr_Payload task)) w) <$> handlers !! tr_Type task in
  (∀ msg w1, r ≠ Some (Panic msg, w1)) →
  ∃ w' t, run (processTask handlers task) w = (Ret (), w') ∧
    tasks_of w' = <[tr_ID task :=
      (processed (fst <$> r) task (ext_now (w_tick (default w (snd <$> r)))) x)
        <| bt_UpdatedAt := t |>]> (tasks_of w).
Proof using handlers_lawful. apply processTask_ends. Qed.
End properties.

Section invoice_task.
Context `{!Externals}.

(** The invoice task opens an invoice whatever its status: a paid or a void
    invoice named in a task becomes open, and payable, again. *)
Theorem invoice_task_reopens payload w u w' :
  run (invoiceTaskHandler payload) w = (Ret u, w') →
  ∃ id inv row, db_invoices (w_db w) !! id = Some inv ∧
    db_invoices (w_db w') = <[id := row]> (db_invoices (w_db w)) ∧
    inv_Status row = InvoiceStatusOpen ∧ inv_le inv row.
Proof.
  intros Hrun. unfold invoiceTaskHandler in Hrun.
  apply run_bind_Ret in Hrun as (s & w1 & Hs & Hrun).
  apply (Acts_outcome _ _ _ _ _ (acts_unmarshal_payload _ _ _)) in Hs as [Hdb1 _].
  apply run_bind_Ret in Hrun as (id & w2 & Hid & Hrun).
  apply (Acts_outcome _ _ _ _ _ (acts_parse_uuid _ _)) in Hid as [Hdb2 _].
  apply run_wrap_err_Ret, (update_Ret db_invoices) in Hrun as (_ & inv & t & Hinv & Hdb3).
  rewrite Hdb2, Hdb1 in *. exists id, inv. eexists. split; [done|]. rewrite Hdb3.
  split_and!; done || by repeat split.
Qed.
End invoice_task.

(** ** Witnesses *)

#[local] Existing Instance sample.

(** A payout task in its fifth attempt, and an invoice task. *)
Definition tired_task : BackgroundTask :=
  (enqueued sample_epoch 5 "payout" "{}" 0) <| bt_Attempts := 4 |>.
Definition queued_world : world :=
  world_of (empty_database <| db_background_tasks :=
    {[5%N := tired_task; 6%N := enqueued sample_epoch 6 "invoice" "{}" 1]} |>).

Lemma queued_world_ok : queue_ok queued_world.
Proof.
  unfold queue_ok, filed, bt_row. split; apply (bool_decide_unpack _); vm_compute; reflexivity.
Qed.

Definition two_workers : list thread :=
  [Thread (worker server_handlers 3); Thread (worker server_handlers 3)].

(** Two workers, step by step in turn: task 6 waits, task 5 is dead. *)
Lemma attempts_bounded_witness :
  ∃ ths' w' x, rtc pool_step (two_workers, queued_world) (ths', w') ∧
    tasks_of w' !! 5%N = Some x ∧ bt_Status x = TaskStatusDead ∧ bt_Attempts x ≤ 5.
Proof.
  assert (match run_schedule (concat (replicate 4 [0; 1]%nat)) (two_workers, queued_world) with
          | Some (_, w') => match tasks_of w' !! 5%N with
                            | Some x => bool_decide (bt_Status x = TaskStatusDead)
                            | None => false
                            end
          | None => false
          end = true) as Hdead by (vm_compute; reflexivity).
  destruct (run_schedule _ _) as [[ths' w']|] eqn:Hrun; [|discriminate].
  destruct (tasks_of w' !! 5%N) as [x|] eqn:Hx; [|discriminate].
  apply bool_decide_eq_true in Hdead.
  exists ths', w', x. split; [exact (run_schedule_steps _ _ _ Hrun)|]. split; [exact Hx|].
  split; [exact Hdead|].
  apply (attempts_bounded server_handlers server_handlers_lawful two_workers queued_world
           ths' w' 5%N x); [|exact queued_world_ok|exact (run_schedule_steps _ _ _ Hrun)|exact Hx].
  repeat constructor.
Defined.

Lemma claimTask_spec_witness :
  ∃ task w', run claimTask queued_world = (Ret task, w') ∧ tr_ID task = 6%N ∧
    ∃ x, tasks_of queued_world !! 6%N = Some x ∧ bt_Status x = TaskStatusPending.
Proof.
  destruct (run_returns claimTask queued_world) as (task & w' & Hrun); [vm_compute; reflexivity|].
  assert (tr_ID task = 6%N) as Hid.
  { pose proof Hrun as H. vm_compute in H. injection H as <- _. reflexivity. }
  exists task, w'. split; [exact Hrun|]. split; [exact Hid|].
  destruct (claimTask_spec queued_world task w' (proj1 queued_world_ok) Hrun)
    as (x & t & Hx & Hst & _). rewrite Hid in Hx. exists x. split; [exact Hx|exact Hst].
Defined.

Lemma processTask_verdict_witness :
  ∃ w' t, run (processTask server_handlers (task_row (claimed sample_epoch tired_task))) queued_world
            = (Ret (), w') ∧
    tasks_of w' !! 5%N = Some (tired_task <| bt_Status := TaskStatusDead |>
      <| bt_LastError := "max retries exceeded (5): payout task: unmarshal payload: no JSON" |>
      <| bt_UpdatedAt := t |>).
Proof.
  destruct (processTask_verdict server_handlers server_handlers_lawful
    (task_row (claimed sample_epoch tired_task)) queued_world tired_task) as (w' & t & Hrun & Htasks).
  - intros n db db'. reflexivity.
  - vm_compute. discriminate.
  - reflexivity.
  - intros msg w1 Hmsg. vm_compute in Hmsg. discriminate.
  - exists w', t. split; [exact Hrun|]. rewrite Htasks. reflexivity.
Defined.

(** A world where the payload names invoice 6, which is paid. *)
Definition naming_invoice : Externals :=
  sample_with (λ _ _ _, Accepted) (λ _ _, inl "no route to host")
    (λ _, inr (JObj [("invoice_id", JStr "6")])).
Definition paid_world : world :=
  world_of (empty_database <| db_invoices :=
    {[6%N := MkInvoice 6 3 4 None "stripe" "" 2500 "USD" InvoiceStatusPaid sample_epoch None
               sample_epoch sample_epoch (Some "{}") sample_epoch sample_epoch]} |>).

Lemma invoice_task_reopens_witness :
  ∃ w' row, run (@invoiceTaskHandler naming_invoice (Some "{}")) paid_world = (Ret (), w') ∧
    db_invoices (w_db w') !! 6%N = Some row ∧ inv_Status row = InvoiceStatusOpen.
Proof.
  destruct (run_returns (@invoiceTaskHandler naming_invoice (Some "{}")) paid_world)
    as ([] & w' & Hrun); [vm_compute; reflexivity|].
  destruct (@invoice_task_reopens naming_invoice _ _ _ _ Hrun) as (id & inv & row & Hinv & Hdb & Hst & _).
  exists w', row. split; [exact Hrun|]. split; [|exact Hst]. rewrite Hdb.
  unfold paid_world in Hinv |- *. simpl in Hinv |- *.
  apply lookup_singleton_Some in Hinv as [<- _]. apply lookup_insert_eq.
Defined.
