(* ===== verification/QueueSpec.v ===== *)
(** The contract of the task queue, and that [internal/service/background.go]
    keeps it under any number of workers.

    A job waits, is worked on, and is finished or buried. The table with its
    workers, whose verdicts come many interactions after their claims, is shown
    to refine that: a worker that holds a task holds it alone. *)

From S2P Require Import Prelude GoInt GoTime GoJson Model Errors World Effects Logic History.
From S2P Require Import Repository RepoPayments RepoAccounts RepoHistory Background Sample.

Open Scope Z_scope.

(** ** The specification *)

Inductive phase := Waiting (next : option time) | Working | Finished | Buried.
#[export] Instance phase_eq_dec : EqDecision phase.
Proof. solve_decision. Defined.

Record Job := MkJob {
  job_type : string; job_payload : RawMessage; job_priority : Z; job_attempts : Z;
  job_phase : phase
}.
#[export] Instance eta_Job : Eta Job := λ j,
  MkJob (job_type j) (job_payload j) (job_priority j) (job_attempts j) (job_phase j).

Definition job_due (t : time) (j : Job) : bool :=
  match job_phase j with Waiting (Some next) => bool_decide (next ≤ t) | _ => false end.
Definition job_next (j : Job) : time :=
  match job_phase j with Waiting next => default time_zero next | _ => time_zero end.
Definition job_urgent (i j : Job) : bool :=
  if decide (job_priority i = job_priority j) then bool_decide (job_next i ≤ job_next j)
  else bool_decide (job_priority j < job_priority i).

Section specification.
Variable handled : string → Prop.

(** What may be decided about a job that was worked on. *)
Inductive ruling (j : Job) : phase → Prop :=
  | rule_finish : ruling j Finished
  | rule_retry t : job_attempts j < 5 →
      ruling j (Waiting (Some (pg_timestamptz (t + 30 * Second * (job_attempts j + 1)))))
  | rule_bury : 5 ≤ job_attempts j ∨ ¬ handled (job_type j) → ruling j Buried.

(** [busy]: the jobs another transaction is looking at. *)
Inductive job_step (jobs : gmap uuid Job) : gmap uuid Job → Prop :=
  | Submit id ty p prio t :
      jobs !! id = None →
      job_step jobs (<[id := MkJob ty (Some p) prio 0 (Waiting (Some t))]> jobs)
  | Start id j t (busy : uuid → bool) :
      jobs !! id = Some j → job_due t j = true → busy id = false →
      (∀ id' j', jobs !! id' = Some j' → job_due t j' = true → busy id' = false →
         job_urgent j j' = true) →
      job_step jobs (<[id := j <| job_attempts := job_attempts j + 1 |> <| job_phase := Working |>]> jobs)
  | Rule id j p :
      jobs !! id = Some j → job_phase j = Working → ruling j p →
      job_step jobs (<[id := j <| job_phase := p |>]> jobs).

(** Finished and buried jobs stay as they are. *)
Definition over (j : Job) : Prop := job_phase j = Finished ∨ job_phase j = Buried.

Lemma over_stays id j jobs jobs' :
  over j → rtc job_step jobs jobs' → jobs !! id = Some j → jobs' !! id = Some j.
Proof.
  intros Hj. induction 1 as [|jobs jobs1 jobs' Hstep _ IH]; [done|]. intros Hid. apply IH.
  destruct Hstep as [id' ???? Hnew|id' i t busy Hi Hdue _ _|id' i p Hi Hp _];
    (destruct (decide (id' = id)) as [->|]; [exfalso|by rewrite lookup_insert_ne]); [congruence|..].
  - simplify_eq. unfold job_due in Hdue. destruct Hj as [Hj|Hj]; by rewrite Hj in Hdue.
  - simplify_eq. destruct Hj as [Hj|Hj]; congruence.
Qed.
End specification.

(** ** The table as jobs *)

Definition phase_of (x : BackgroundTask) : phase :=
  if decide (bt_Status x = TaskStatusPending) then Waiting (bt_NextRunAt x)
  else if decide (bt_Status x = TaskStatusRunning) then Working
  else if decide (bt_Status x = TaskStatusCompleted) then Finished
  else Buried.
Definition job_of (x : BackgroundTask) : Job :=
  MkJob (bt_Type x) (bt_Payload x) (bt_Priority x) (bt_Attempts x) (phase_of x).
Definition jobs_of (w : world) : gmap uuid Job := job_of <$> tasks_of w.

Lemma job_due_of t x : job_due t (job_of x) = due t x.
Proof.
  unfold job_due, job_of, phase_of, due. simpl.
  destruct (decide (bt_Status x = TaskStatusPending)) as [->|Hne].
  - rewrite bool_decide_eq_true_2 by done. by destruct (bt_NextRunAt x).
  - rewrite (bool_decide_eq_false_2 _ Hne). by repeat case_decide.
Qed.

Lemma job_urgent_of x y :
  bt_Status x = TaskStatusPending → bt_Status y = TaskStatusPending →
  job_urgent (job_of x) (job_of y) = most_urgent x y.
Proof.
  intros Hx Hy. unfold job_urgent, most_urgent, job_next, next_run, job_of, phase_of. simpl.
  by rewrite Hx, Hy.
Qed.

(** ** Workers that hold a task *)

Definition sane (q : queue) : Prop := map_Forall (λ k x, bt_ID x = k ∧ 0 ≤ bt_Attempts x) q.

(** What a worker holds: the row its claim returned. *)
Abbreviation hand := (option TaskRow).
Definition grips (h : hand) (q : queue) : Prop :=
  match h with
  | None => True
  | Some task => ∃ x, q !! tr_ID task = Some x ∧ bt_Status x = TaskStatusRunning ∧ task_row x = task
  end.

Section simulation.
Variable handled : string → Prop.

Definition verdict_on (x y : BackgroundTask) : Prop :=
  bt_ID y = bt_ID x ∧
  ∃ p, ruling handled (job_of x) p ∧ job_of y = (job_of x) <| job_phase := p |>.

(** What an interaction of one thread does to the queue and to its hand. *)
Inductive move (h : hand) (q : queue) : hand → queue → Prop :=
  | move_stay h' : h' = h ∨ h' = None → move h q h' q
  | move_submit id y ty p prio t h' :
      q !! id = None → bt_ID y = id → job_of y = MkJob ty (Some p) prio 0 (Waiting (Some t)) →
      h' = h ∨ h' = None → move h q h' (<[id := y]> q)
  | move_start x t busy h' :
      q !! bt_ID x = Some x → due t x = true → busy (bt_ID x) = false →
      (∀ k y, q !! k = Some y → due t y = true → busy k = false → most_urgent x y = true) →
      h' = None ∨ h' = Some (task_row (claimed t x)) →
      move h q h' (<[bt_ID x := claimed t x]> q)
  | move_rule task x y :
      h = Some task → q !! tr_ID task = Some x → bt_Status x = TaskStatusRunning →
      verdict_on x y → move h q None (<[tr_ID task := y]> q).

Lemma move_sane h q h' q' : move h q h' q' → sane q → sane q'.
Proof.
  intros Hmove Hq. destruct Hmove as [|id y ty p prio t h' _ Hid Hy _|x t busy h' Hx _ _ _ _
    |task x y _ Hx _ [Hid (p & _ & Hy)]]; [done|..]; apply map_Forall_insert_2; try done.
  - split; [done|]. change (0 ≤ job_attempts (job_of y)). by rewrite Hy.
  - destruct (Hq _ _ Hx). split; [done|]. simpl. lia.
  - destruct (Hq _ _ Hx) as [Hid' Ha]. split; [by rewrite Hid|].
    change (0 ≤ job_attempts (job_of y)). by rewrite Hy.
Qed.

(** The hand after a move is true of the queue. *)
Lemma move_grips h q h' q' : move h q h' q' → grips h q → grips h' q'.
Proof.
  intros Hmove Hh. destruct Hmove as [h' [->| ->]|id y ty p prio t h' Hnew Hid Hy [->| ->]
    |x t busy h' Hx _ _ _ [->| ->]|]; try done.
  - destruct h as [task|]; [|done]. destruct Hh as (x & Hx & ? & ?). exists x.
    rewrite lookup_insert_ne by (intros ->; by rewrite Hx in Hnew). done.
  - exists (claimed t x). simpl. by rewrite lookup_insert_eq.
Qed.

(** Another thread's task is not touched, nor taken. *)
Definition apart (h i : hand) : Prop :=
  match h, i with Some a, Some b => tr_ID a ≠ tr_ID b | _, _ => True end.

Lemma move_others h q h' q' i :
  move h q h' q' → grips i q → apart h i → grips i q' ∧ apart h' i.
Proof.
  intros Hmove Hi Hap. destruct i as [b|]; [|by split; [|destruct h']].
  pose proof Hi as (z & Hz & Hrun & Hrow).
  assert (∀ k y, (k ≠ tr_ID b) → grips (Some b) (<[k := y]> q)) as Hkeep.
  { intros k y Hne. exists z. by rewrite lookup_insert_ne. }
  destruct Hmove as [h' [->| ->]|id y ty p prio t h' Hnew Hid Hy Hh'
    |x t busy h' Hx Hdue _ _ Hh'|task x y -> Hx _ _]; [done|done|..].
  - split; [apply Hkeep; intros ->; by rewrite Hz in Hnew|]. by destruct Hh' as [->| ->].
  - assert (bt_ID x ≠ tr_ID b) as Hne.
    { intros Heq. rewrite Heq in Hx. simplify_eq. apply due_pending in Hdue. by rewrite Hdue in Hrun. }
    split; [by apply Hkeep|]. by destruct Hh' as [->| ->].
  - by split; [apply Hkeep|].
Qed.

(** Each move is a step of the specification, or none. *)
Lemma move_job h w h' w' :
  move h (tasks_of w) h' (tasks_of w') → sane (tasks_of w) →
  rtc (job_step handled) (jobs_of w) (jobs_of w').
Proof.
  unfold jobs_of. generalize (tasks_of w'). intros q' Hmove Hsane.
  destruct Hmove as [|id y ty p prio t h' Hnew _ Hy _|x t busy h' Hx Hdue Hfree Hfirst _
    |task x y _ Hx Hrun [_ (p & Hp & Hy)]]; [done|..];
    rewrite fmap_insert; apply rtc_once.
  - rewrite Hy. constructor. by rewrite lookup_fmap, Hnew.
  - apply (Start _ _ _ (job_of x) t busy).
    + by rewrite lookup_fmap, Hx.
    + by rewrite job_due_of.
    + done.
    + intros k j' (y & <- & Hk)%lookup_fmap_Some. rewrite job_due_of. intros Hdy Hby.
      rewrite job_urgent_of by (by eapply due_pending). eauto.
  - rewrite Hy. apply Rule; [by rewrite lookup_fmap, Hx| |done].
    unfold job_of, phase_of. simpl. by rewrite Hrun.
Qed.

(** ** Threads

    [Conducts h m Q]: started with the hand [h], every interaction of [m] is a
    move, and after [o] the hand is [Q o], if not emptied before. *)
Fixpoint Conducts {A} (h : hand) (m : M A) (Q : outcome A → hand) : Prop :=
  match m with
  | Done o => h = Q o ∨ Q o = None
  | Act f k => ∀ w, sane (tasks_of w) → grips h (tasks_of w) →
      ∃ h', move h (tasks_of w) h' (tasks_of (f w).2) ∧ Conducts h' (k (f w).1) Q
  end.

Lemma Conducts_drop {A} h (m : M A) Q : Conducts None m Q → Conducts h m Q.
Proof.
  destruct m as [o|X f g]; simpl; [intros []; by right|]. intros Hm w Hw _.
  destruct (Hm w Hw I) as (h' & Hmove & Hg). exists h'. split; [|done].
  destruct Hmove as [h' [->| ->]|id y ty p prio t h' ??? [->| ->]|x t busy h'|]; try done;
    first [by apply move_stay; right|by eapply move_start|eapply move_submit; eauto].
Qed.

Lemma Conducts_on_outcome {A B} h (k : outcome A → M B) m Q Q' :
  Conducts h m Q → (∀ o, Conducts (Q o) (k o) Q') → Conducts h (on_outcome k m) Q'.
Proof.
  intros Hm Hk. revert h Hm. induction m as [o|X f g IH]; intros h; simpl.
  { intros [->|Ho]; [done|]. apply Conducts_drop. by rewrite <- Ho. }
  intros Hm w Hw Hh. destruct (Hm w Hw Hh) as (h' & Hmove & Hg). eauto.
Qed.

Lemma Conducts_frame {A} h (m : M A) :
  Acts (λ w w', tasks_of w' = tasks_of w) m → Conducts h m (λ _, h).
Proof.
  induction m as [o|X f g IH]; simpl; [by left|]. intros Hm w _ _. destruct (Hm w) as [Heq Hg].
  exists h. rewrite Heq. split; [by constructor; left|auto].
Qed.

Definition thread_conducts (th : thread) (h : hand) : Prop :=
  match th with Thread m => ∃ Q, Conducts h m Q end.

(** The hands of a pool: true of the queue, and no two hold the same task. *)
Definition hands_ok (hs : list hand) (q : queue) : Prop :=
  sane q ∧ Forall (λ h, grips h q) hs ∧ ForallOrdPairs apart hs.

Lemma apart_sym h i : apart h i → apart i h.
Proof. destruct h, i; simpl; auto. Qed.

Lemma pairs_middle (hs1 hs2 : list hand) h :
  ForallOrdPairs apart (hs1 ++ h :: hs2) ↔
  ForallOrdPairs apart (hs1 ++ hs2) ∧ Forall (apart h) (hs1 ++ hs2).
Proof.
  induction hs1 as [|i hs1 IH]; simpl.
  - split; [intros Hp; inversion Hp; by subst|intros []; by constructor].
  - split.
    + intros Hp. inversion Hp as [|? ? Hi Hrest]; subst. apply Forall_app in Hi as [H1 H2].
      apply Forall_cons in H2 as [Hih H2]. apply IH in Hrest as [Hrest Hh].
      split; constructor; try done; [by apply Forall_app|by apply apart_sym].
    + intros [Hp Hh]. inversion Hp as [|? ? Hi Hrest]; subst. apply Forall_cons in Hh as [Hhi Hh].
      apply Forall_app in Hi as [H1 H2]. constructor; [|by apply IH].
      apply Forall_app. split; [done|]. constructor; [by apply apart_sym|done].
Qed.

Lemma hands_move hs1 hs2 h h' q q' :
  move h q h' q' → hands_ok (hs1 ++ h :: hs2) q → hands_ok (hs1 ++ h' :: hs2) q'.
Proof.
  intros Hmove (Hq & Hall & Hp). apply pairs_middle in Hp as [Hp Hap].
  apply Forall_app in Hall as [H1 H2]. apply Forall_cons in H2 as [Hh H2].
  assert (Forall (λ i, grips i q' ∧ apart h' i) (hs1 ++ hs2)) as Hothers.
  { apply (Forall_impl (λ i, grips i q ∧ apart h i)).
    - apply Forall_and. split; [by apply Forall_app|done].
    - intros i []. by eapply move_others. }
  apply Forall_and in Hothers as [Hg Hap']. apply Forall_app in Hg as [Hg1 Hg2].
  split_and!; [by eapply move_sane| |by apply pairs_middle].
  apply Forall_app. split; [done|]. constructor; [by eapply move_grips|done].
Qed.

(** [rest]: tasks that no thread holds and that are worked on all the same. *)
Lemma Conducts_pool ths w ths' w' hs rest :
  rtc pool_step (ths, w) (ths', w') →
  Forall2 thread_conducts ths hs → hands_ok (hs ++ rest) (tasks_of w) →
  rtc (job_step handled) (jobs_of w) (jobs_of w') ∧
  ∃ hs', Forall2 thread_conducts ths' hs' ∧ hands_ok (hs' ++ rest) (tasks_of w').
Proof.
  intros Hsteps Hths Hhs.
  refine (rtc_invariant pool_step (λ p,
      rtc (job_step handled) (jobs_of w) (jobs_of p.2) ∧
      ∃ hs', Forall2 thread_conducts p.1 hs' ∧ hands_ok (hs' ++ rest) (tasks_of p.2))
    (ths, w) (ths', w') _ _ Hsteps); [|by split; [|exists hs]].
  intros [] [] (Hjobs & hs1 & HF & Hok) Hstep. inversion Hstep; subst; simpl in *.
  apply Forall2_app_inv_l in HF as (h1 & h2 & HF1 & HF2 & ->).
  apply Forall2_cons_inv_l in HF2 as (h & h3 & [Q Hm] & HF2 & ->).
  rewrite <- (assoc_L (++)) in Hok. simpl in Hok.
  pose proof Hok as (Hq & Hall & _). apply Forall_app in Hall as [_ [Hh _]%Forall_cons].
  destruct (Hm w0 Hq Hh) as (h' & Hmove & Hk). split.
  - etrans; [exact Hjobs|]. by eapply move_job.
  - exists (h1 ++ h' :: h3). rewrite <- (assoc_L (++)). simpl. split; [|by eapply hands_move].
    apply Forall2_app; [done|]. constructor; [by exists Q|done].
Qed.
End simulation.

(** ** The operations of the service *)

Section operations.
Context `{!Externals} (handlers : gmap string task_handler).
Hypothesis handlers_lawful : ∀ ty h p, handlers !! ty = Some h → Acts lawful (h p).

Definition registered (ty : string) : Prop := is_Some (handlers !! ty).
Abbreviation conducts := (Conducts registered).

Lemma conducts_lawful {A} h (m : M A) : Acts lawful m → conducts h m (λ _, h).
Proof using. intros Hm. apply Conducts_frame. eapply Acts_weaken, Hm. apply lawful_tasks. Qed.

(** The last statement of a method. *)
Lemma conducts_exec {A} h f (a : A) :
  (∀ w t q n, sane (tasks_of w) → grips h (tasks_of w) → f t (tasks_of w) = Some (q, n) →
     move registered h (tasks_of w) None q) →
  conducts h (db_Exec (λ t, on_table db_background_tasks (f t));; mret a) (λ _, None).
Proof using.
  intros Hf. apply (Conducts_on_outcome _ _ _ _ (λ _, None)); [|intros []; by left].
  intros w Hw Hh. exists None. split; [|by left].
  assert (move registered h (tasks_of w) None (tasks_of w)) as Hno by (constructor; by right).
  set (w1 := w <| w_tick := S (w_tick w) |>). unfold on_table. change (w_db w1) with (w_db w).
  destruct (f _ _) as [[q n]|] eqn:Hs; [|exact Hno]. simpl. apply Hf in Hs; [|done..].
  by destruct (ext_db _ _ _).
Qed.

Lemma conducts_set_task task f :
  (∀ t x, task_row x = task → 0 ≤ tr_Attempts task →
     verdict_on registered x ((f t x) <| bt_UpdatedAt := t |>)) →
  conducts (Some task) (set_task (tr_ID task) f) (λ _, None).
Proof using.
  intros Hf. apply (conducts_exec _ (λ t, row_update (tr_ID task) (λ x, (f t x) <| bt_UpdatedAt := t |>))).
  intros w t q n Hw (x & Hx & Hrun & Hrow) Hs. unfold row_update in Hs. rewrite Hx in Hs.
  injection Hs as <- <-. eapply move_rule; [done|exact Hx|exact Hrun|]. apply Hf; [done|].
  destruct (Hw _ _ Hx). by rewrite <- Hrow.
Qed.

(** The verdicts of [processTask]. *)
Lemma verdict_of x y p :
  bt_ID y = bt_ID x → bt_Type y = bt_Type x → bt_Payload y = bt_Payload x →
  bt_Priority y = bt_Priority x → bt_Attempts y = bt_Attempts x → phase_of y = p →
  ruling registered (job_of x) p → verdict_on registered x y.
Proof using.
  intros Hid Hty Hpl Hpr Ha <- Hp. split; [done|]. exists (phase_of y). split; [done|].
  unfold job_of. by rewrite Hty, Hpl, Hpr, Ha.
Qed.

Lemma conducts_handleTaskError task err :
  conducts (Some task) (handleTaskError task err) (λ _, None).
Proof using.
  unfold handleTaskError, maxRetries. case_decide as Hmax.
  - apply conducts_set_task. intros t x <- _. by eapply verdict_of, rule_bury; [done..|left].
  - apply (Conducts_on_outcome _ _ _ _ (λ o, match o with Ret _ => Some task | _ => None end)).
    { intros w _ _. exists (Some task). split; [constructor; by left|by left]. }
    intros [t0|e|s]; [|by left..]. apply conducts_set_task. intros t x <- Ha.
    change (tr_Attempts (task_row x)) with (bt_Attempts x) in *.
    eapply verdict_of, (rule_retry _ _ t0); [done..| |simpl; lia].
    unfold phase_of. simpl. rewrite wrap16_id by (unfold in_int16; lia).
    unfold mul64, Add, retryBackoff. rewrite wrap64_id
      by (unfold in_int64, int64_min, int64_max, Second; lia). done.
Qed.

Lemma conducts_processTask task : conducts (Some task) (processTask handlers task) (λ _, None).
Proof using handlers_lawful.
  unfold processTask. destruct (handlers !! tr_Type task) as [h|] eqn:Hh.
  - apply (Conducts_on_outcome _ _ _ _ (λ _, Some task)).
    { apply conducts_lawful, Acts_attempt. eauto. }
    intros [[err|[]]|e|s]; [apply conducts_handleTaskError| |by right..].
    apply conducts_set_task. intros t x <- _. by eapply verdict_of, rule_finish.
  - apply conducts_set_task. intros t x <- _. eapply verdict_of, rule_bury; [done..|].
    right. intros [h Hreg]. apply (eq_None_not_Some (handlers !! tr_Type (task_row x))); [exact Hh|by exists h].
Qed.

Lemma conducts_claimTask :
  conducts None claimTask (λ o, match o with Ret task => Some task | _ => None end).
Proof using.
  intros w Hw _. set (w1 := w <| w_tick := S (w_tick w) |>). change (w_db w1) with (w_db w).
  assert (move registered None (tasks_of w) None (tasks_of w)) as Hno by (constructor; by left).
  destruct (next_task _ _) as [x|] eqn:Hx;
    [|exists None; destruct (ext_db _ _ _); (split; [exact Hno|by left])].
  case_decide as Hmax; [exists None; split; [exact Hno|by left]|].
  apply next_task_Some in Hx as ([Hdue Hlock%negb_true_iff]%andb_true_iff & Hx & Hfirst);
    [|by intros k y [? _]%Hw].
  set (t := ext_db_now (w_tick w)) in *.
  assert (∀ h', h' = None ∨ h' = Some (task_row (claimed t x)) →
    move registered None (tasks_of w) h' (<[bt_ID x := claimed t x]> (tasks_of w))) as Hstart.
  { intros h' Hh'. apply (move_start _ _ _ x t (ext_locked (w_tick w))); try done.
    intros k y Hy Hdy Hby. apply (Hfirst k y Hy). unfold claimable.
    destruct (Hw _ _ Hy) as [-> _]. fold t. by rewrite Hdy, Hby. }
  cbv zeta. destruct (ext_db _ _ _); [eexists; split; [apply Hstart; by right|by left]|..].
  - exists None. split; [exact Hno|by left].
  - exists None. split; [apply Hstart; by left|by left].
Qed.

Lemma conducts_Enqueue ty payload prio : conducts None (Enqueue ty payload prio) (λ _, None).
Proof using.
  apply (Conducts_on_outcome _ _ _ _ (λ _, None)); [apply conducts_lawful; acts|].
  intros [id|e|s]; [|by left..]. destruct payload as [e|bs]; [by left|].
  apply (conducts_exec _ (λ t, row_insert id (enqueued t id ty bs prio))).
  intros w t q n _ _ Hs. unfold row_insert in Hs. destruct (_ !! _) eqn:Hnew; [done|].
  injection Hs as <- <-. eapply (move_submit _ _ _ _ _ ty bs prio t); try done. by left.
Qed.

Lemma conducts_worker n : conducts None (worker handlers n) (λ _, None).
Proof using handlers_lawful.
  induction n as [|n IH]; [by left|].
  apply (Conducts_on_outcome _ _ _ _ (λ _, None)); [|by intros [|e|s]; [exact IH|left..]].
  apply (Conducts_on_outcome _ _ _ _ (λ o, match o with Ret (inr task) => Some task | _ => None end)).
  { eapply Conducts_on_outcome; [apply conducts_claimTask|]. intros []; by left. }
  intros [[e|task]|e|s]; [by left| |by left..].
  apply (Conducts_on_outcome _ _ _ _ (λ _, None)); [|intros []; by left].
  apply (Conducts_on_outcome _ _ _ _ (λ _, None)); [|intros []; by left].
  apply conducts_processTask.
Qed.

Lemma queue_user_conducts th : queue_user handlers th → thread_conducts registered th None.
Proof using handlers_lawful.
  intros [n|ty payload prio|A m Hm]; eexists;
    [apply conducts_worker|apply conducts_Enqueue|by apply conducts_lawful].
Qed.

(** Threads that start hold nothing. *)
Lemma idle_hands ths :
  Forall (queue_user handlers) ths →
  Forall2 (thread_conducts registered) ths ((λ _, None) <$> ths).
Proof using handlers_lawful.
  intros Husers. apply Forall2_fmap_r, Forall_Forall2_diag.
  eapply Forall_impl; [exact Husers|]. apply queue_user_conducts.
Qed.

Lemma apart_idle (ths : list thread) (hs : list hand) :
  ForallOrdPairs apart hs → ForallOrdPairs apart (((λ _, None) <$> ths) ++ hs).
Proof using. intros Hhs. induction ths; simpl; [done|]. constructor; [by apply Forall_true|done]. Qed.

Lemma users_simulate ths w ths' w' :
  Forall (queue_user handlers) ths → sane (tasks_of w) →
  rtc pool_step (ths, w) (ths', w') →
  rtc (job_step registered) (jobs_of w) (jobs_of w').
Proof using handlers_lawful.
  intros Husers Hw Hsteps.
  eapply (Conducts_pool registered ths w ths' w' ((λ _, None) <$> ths) []); [exact Hsteps|..].
  - by apply idle_hands.
  - split_and!; [done|by apply Forall_app; split; [apply Forall_fmap, Forall_true|]|].
    apply apart_idle. constructor.
Qed.

(** A task that is marked running and that nobody works on stays as it is. *)
Lemma orphan_rests ths w ths' w' x :
  Forall (queue_user handlers) ths → sane (tasks_of w) →
  rtc pool_step (ths, w) (ths', w') →
  tasks_of w !! bt_ID x = Some x → bt_Status x = TaskStatusRunning →
  ∃ y, tasks_of w' !! bt_ID x = Some y ∧ bt_Status y = TaskStatusRunning ∧ task_row y = task_row x.
Proof using handlers_lawful.
  intros Husers Hw Hsteps Hx Hrun.
  destruct (Conducts_pool registered ths w ths' w' ((λ _, None) <$> ths) [Some (task_row x)] Hsteps)
    as (_ & hs' & _ & _ & Hall & _).
  - by apply idle_hands.
  - split_and!; [done| |].
    + apply Forall_app. split; [by apply Forall_fmap, Forall_true|]. constructor; [|done].
      by exists x.
    + apply apart_idle. by repeat constructor.
  - apply Forall_app in Hall as [_ [(y & Hy & Hry & Hrow) _]%Forall_cons]. eauto.
Qed.


(** A task that was completed or buried is never run again and never changes,
    whatever runs. *)
Theorem finished_tasks_rest ths w ths' w' id x :
  Forall (queue_user handlers) ths → sane (tasks_of w) →
  rtc pool_step (ths, w) (ths', w') →
  tasks_of w !! id = Some x → over (job_of x) →
  ∃ y, tasks_of w' !! id = Some y ∧ job_of y = job_of x.
Proof using handlers_lawful.
  intros Husers Hw Hsteps Hx Hover.
  assert (jobs_of w' !! id = Some (job_of x)) as Hjob;
    [|unfold jobs_of in Hjob; apply lookup_fmap_Some in Hjob as (y & Hy & ?); by exists y].
  apply (over_stays registered id (job_of x) (jobs_of w) (jobs_of w')); [exact Hover| |unfold jobs_of; by rewrite lookup_fmap, Hx].
  by eapply users_simulate.
Qed.
End operations.

(** ** Witnesses *)

#[local] Existing Instance sample.



