(* ===== verification/Draining.v ===== *)
(** The queue makes progress: while the database takes the statements and the
    clock goes on, one worker brings every waiting task to its end. *)

From S2P Require Import Prelude GoInt GoTime GoJson Model Errors World Effects Logic History.
From S2P Require Import Repository RepoPayments RepoAccounts RepoHistory Background Sample.

Open Scope Z_scope.

(** ** Sums over tables *)

Section sums.
Context {K R : Type} `{Countable K} (f : R → nat).

Definition table_sum (t : gmap K R) : nat := map_fold (λ _ x n, f x + n)%nat 0%nat t.

Lemma table_sum_delete k x t :
  t !! k = Some x → table_sum t = (f x + table_sum (delete k t))%nat.
Proof.
  intros Hx. refine (map_fold_delete_L (λ _ x n, (f x + n)%nat) _ _ _ _ _ Hx). intros. lia.
Qed.

Lemma table_sum_replace k x y t :
  t !! k = Some x → (table_sum (<[k:=y]> t) + f x = table_sum t + f y)%nat.
Proof.
  intros Hx. rewrite (table_sum_delete k x t Hx), (table_sum_delete k y (<[k:=y]> t)),
    delete_insert_eq by apply lookup_insert_eq. lia.
Qed.

Lemma table_sum_pos k x t : t !! k = Some x → (f x ≤ table_sum t)%nat.
Proof. intros Hx. rewrite (table_sum_delete k x t Hx). lia. Qed.
End sums.

(** The attempts a task has left. *)
Definition attempts_left (x : BackgroundTask) : nat :=
  if decide (bt_Status x = TaskStatusPending) then Z.to_nat (5 - bt_Attempts x) else 0%nat.
Definition work_left (w : world) : nat := table_sum attempts_left (tasks_of w).

Definition ended (x : BackgroundTask) : Prop :=
  bt_Status x = TaskStatusCompleted ∨ bt_Status x = TaskStatusDead.

(** Pending tasks have a time to run at and attempts left. *)
Definition workable (x : BackgroundTask) : Prop :=
  0 ≤ bt_Attempts x ≤ 5 ∧
  (bt_Status x = TaskStatusPending → bt_Attempts x < 5 ∧ is_Some (bt_NextRunAt x)).
Definition queue_ready (w : world) : Prop :=
  map_Forall (λ k x, bt_ID x = k ∧ workable x) (tasks_of w).

Section worker.
Context `{!Externals} (handlers : gmap string task_handler).
Hypothesis handlers_lawful : ∀ ty h p, handlers !! ty = Some h → Acts lawful (h p).
Hypothesis handlers_safe : ∀ ty h p, handlers !! ty = Some h → Safe (h p).
Hypothesis accepts : db_accepts.
Hypothesis unlocked : ∀ n id, ext_locked n id = false.

(** What one turn does: nothing, when no task is due; or it takes a pending
    task to its end, or to its next attempt. *)
Inductive turn (w w' : world) : Prop :=
  | turn_idle :
      tasks_of w' = tasks_of w → w_tick w' = S (w_tick w) →
      map_Forall (λ _ x, due (ext_db_now (w_tick w)) x = false) (tasks_of w) → turn w w'
  | turn_took x y :
      tasks_of w !! bt_ID x = Some x → bt_Status x = TaskStatusPending →
      tasks_of w' = <[bt_ID x := y]> (tasks_of w) →
      bt_ID y = bt_ID x → workable y → bt_Attempts y = bt_Attempts x + 1 →
      ended y ∨ bt_Status y = TaskStatusPending → turn w w'.

Lemma next_task_None n db :
  next_task n db = None → map_Forall (λ _ x, claimable n x = false) (db_background_tasks db).
Proof using.
  unfold next_task. intros Hnone k x Hx. apply not_true_iff_false. intros Hc.
  assert (x ∈ order_by most_urgent (rows_where (claimable n) (db_background_tasks db))) as Hin.
  { rewrite order_by_perm. apply elem_of_rows_where. eauto. }
  destruct (order_by _ _); [by apply not_elem_of_nil in Hin|done].
Qed.

Lemma claimTask_run w :
  queue_ready w →
  match next_task (w_tick w) (w_db w) with
  | None => run claimTask w = (Err ENoRows, w <| w_tick := S (w_tick w) |>)
  | Some x =>
      run claimTask w = (Ret (task_row (claimed (ext_db_now (w_tick w)) x)),
        w <| w_tick := S (w_tick w) |> <| w_db := claim (w_tick w) x (w_db w) |>)
  end.
Proof using accepts.
  intros Hw. unfold claimTask. rewrite run_act.
  change (w_db (w <| w_tick := S (w_tick w) |>)) with (w_db w).
  destruct (next_task _ _) as [x|] eqn:Hx; [|by rewrite accepts].
  apply next_task_Some in Hx as (_ & Hx & _); [|by intros k y [? _]%Hw].
  destruct (Hw _ _ Hx) as [_ [? _]]. rewrite decide_False by lia. cbv zeta. by rewrite accepts.
Qed.

Lemma processed_workable r task t x :
  (∀ msg, r ≠ Some (Panic msg)) → workable x → bt_Attempts x = tr_Attempts task →
  let y := processed r task t x in
  workable y ∧ bt_ID y = bt_ID x ∧ bt_Attempts y = bt_Attempts x ∧
  (ended y ∨ bt_Status y = TaskStatusPending).
Proof using.
  intros Hr [Ha Hp] Htask. unfold processed, workable, ended.
  destruct r as [[[]|e|msg]|]; [| |by destruct (Hr msg)|]; [| case_decide|]; simpl;
    (split_and!; [lia..| |done|done|auto]; try done).
  intros _. split; [lia|by eexists].
Qed.

Lemma worker_turn_run w :
  queue_ready w → ∃ w', run (worker_turn handlers) w = (Ret (), w') ∧ turn w w'.
Proof using handlers_lawful handlers_safe accepts unlocked.
  intros Hw. unfold worker_turn. rewrite run_bind, run_attempt.
  pose proof (claimTask_run w Hw) as Hclaim.
  destruct (next_task _ _) as [x|] eqn:Hx; rewrite Hclaim; cbv beta iota.
  - apply next_task_Some in Hx as ([Hdue _]%andb_true_iff & Hx & _); [|by intros k y [? _]%Hw].
    destruct (Hw _ _ Hx) as [_ [Ha Hp]]. pose proof (due_pending _ _ Hdue) as Hst.
    destruct (Hp Hst) as [Hlt _]. set (t := ext_db_now (w_tick w)) in *. set (w1 := _ <| w_db := _ |>).
    assert (tasks_of w1 = <[bt_ID x := claimed t x]> (tasks_of w)) as Hw1 by done.
    assert (tasks_of w1 !! bt_ID x = Some (claimed t x)) as Hx1 by (rewrite Hw1; apply lookup_insert_eq).
    rewrite run_ignore_err.
    destruct (processTask_ends handlers handlers_lawful (task_row (claimed t x)) w1 (claimed t x))
      as (w' & t' & Hrun & Htasks); [done|simpl; lia|done|..].
    + simpl. destruct (handlers !! _) as [h|] eqn:Hh; [|done]. intros msg w2 [= Heq].
      by eapply Safe_run in Heq; [|eapply handlers_safe].
    + rewrite Hrun. exists w'. split; [done|]. simpl in Htasks. rewrite Hw1, insert_insert_eq in Htasks.
      destruct (processed_workable (fst <$> ((λ h, run (h (bt_Payload x)) w1) <$> handlers !! bt_Type x))
        (task_row (claimed t x)) (ext_now (w_tick (default w1 (snd <$>
          ((λ h, run (h (bt_Payload x)) w1) <$> handlers !! bt_Type x))))) (claimed t x))
        as (Hwk & Hid & Hatt & Hend).
      { intros msg. simpl. destruct (handlers !! _) as [h|] eqn:Hh; [|done]. simpl. intros [= Heq].
        destruct (run (h (bt_Payload x)) w1) as [o w2] eqn:Hr. simpl in Heq. subst o.
        by eapply Safe_run in Hr; [|eapply handlers_safe]. }
      { split; simpl; [lia|done]. }
      { done. }
      by eapply turn_took; [exact Hx|exact Hst|exact Htasks|..].
  - eexists. split; [done|]. apply turn_idle; [done..|]. intros k y Hy.
    specialize (next_task_None _ _ Hx k y Hy) as Hc. unfold claimable in Hc.
    rewrite unlocked, andb_true_r in Hc. exact Hc.
Qed.

Lemma turn_ready w w' : queue_ready w → turn w w' → queue_ready w'.
Proof using.
  unfold queue_ready. intros Hw [-> _ _|x y Hx _ -> Hid Hwk _ _]; [done|].
  by apply map_Forall_insert_2; [split|].
Qed.

Lemma turn_work_left w w' :
  queue_ready w → turn w w' →
  (work_left w' < work_left w)%nat ∨
  tasks_of w' = tasks_of w ∧ w_tick w' = S (w_tick w) ∧
    map_Forall (λ _ x, due (ext_db_now (w_tick w)) x = false) (tasks_of w).
Proof using.
  intros Hw [Hq Ht Hd|x y Hx Hst Hq _ [[? ?] _] Ha Hend]; [by right|left].
  unfold work_left. rewrite Hq. pose proof (table_sum_replace attempts_left _ x y _ Hx) as Hsum.
  destruct (Hw _ _ Hx) as [_ [? Hp]]. destruct (Hp Hst) as [Hlt _].
  assert (attempts_left y < attempts_left x)%nat; [|lia].
  unfold attempts_left at 2. rewrite decide_True by done. unfold attempts_left. case_decide; lia.
Qed.

(** No task is lost between waiting and its end. *)
Definition tracked (x : BackgroundTask) : Prop := bt_Status x = TaskStatusPending ∨ ended x.
Definition follows (w w' : world) : Prop :=
  ∀ k x, tasks_of w !! k = Some x → tracked x → ∃ y, tasks_of w' !! k = Some y ∧ tracked y.

Lemma follows_refl w : follows w w.
Proof using. intros k x. eauto. Qed.
Lemma follows_trans w1 w2 w3 : follows w1 w2 → follows w2 w3 → follows w1 w3.
Proof using. intros H12 H23 k x Hx Ht. destruct (H12 k x Hx Ht) as (y & Hy & Hty). eauto. Qed.
Lemma turn_follows w w' : turn w w' → follows w w'.
Proof using.
  intros [Hq _ _|x y Hx _ Hq _ _ _ Hend] k z Hz Ht; rewrite Hq; [by exists z|].
  destruct (decide (bt_ID x = k)) as [<-|Hne].
  - exists y. rewrite lookup_insert_eq. split; [done|]. unfold tracked. tauto.
  - exists z. by rewrite lookup_insert_ne.
Qed.

(** ** Many turns *)

Definition after (n : nat) (w : world) : world := (run (worker handlers n) w).2.

Lemma after_S n w w1 : run (worker_turn handlers) w = (Ret (), w1) → after (S n) w = after n w1.
Proof using. intros Hrun. unfold after. cbn [worker]. by rewrite run_bind, Hrun. Qed.

Lemma after_plus n m w : queue_ready w → after (n + m) w = after m (after n w).
Proof using handlers_lawful handlers_safe accepts unlocked.
  revert w. induction n as [|n IH]; intros w Hw; [done|].
  destruct (worker_turn_run w Hw) as (w1 & Hrun & Hturn).
  cbn [Nat.add]. rewrite !(after_S _ _ _ Hrun). apply IH. by eapply turn_ready.
Qed.

Definition idle (w : world) : Prop :=
  map_Forall (λ _ x, bt_Status x ≠ TaskStatusPending) (tasks_of w).

Lemma idle_stays n w : queue_ready w → idle w → tasks_of (after n w) = tasks_of w.
Proof using handlers_lawful handlers_safe accepts unlocked.
  revert w. induction n as [|n IH]; intros w Hw Hidle; [done|].
  destruct (worker_turn_run w Hw) as (w1 & Hrun & Hturn). rewrite (after_S _ _ _ Hrun).
  pose proof (turn_ready _ _ Hw Hturn) as Hw1.
  destruct Hturn as [Hq _ _|x y Hx Hst _ _ _ _ _]; [|by destruct (Hidle _ _ Hx)].
  rewrite IH; [done|done|]. unfold idle. by rewrite Hq.
Qed.

Hypothesis clock : ∀ t, ∃ n, ∀ m, (n ≤ m)%nat → t ≤ ext_db_now m.

(** A waiting task is waited for. *)
Lemma some_work_done w k x :
  queue_ready w → tasks_of w !! k = Some x → bt_Status x = TaskStatusPending →
  ∃ n, queue_ready (after n w) ∧ follows w (after n w) ∧ (work_left (after n w) < work_left w)%nat.
Proof using handlers_lawful handlers_safe accepts unlocked clock.
  intros Hw Hx Hst. destruct (Hw _ _ Hx) as [_ [_ Hp]]. destruct (Hp Hst) as [_ [next Hnext]].
  destruct (clock next) as [n0 Hn0].
  remember (n0 - w_tick w)%nat as gap eqn:Hgap. revert w Hw Hx Hgap.
  induction gap as [|gap IH]; intros w Hw Hx Hgap;
    destruct (worker_turn_run w Hw) as (w1 & Hrun & Hturn);
    pose proof (turn_ready _ _ Hw Hturn) as Hw1; pose proof (turn_follows _ _ Hturn) as Hf1;
    (destruct (turn_work_left _ _ Hw Hturn) as [Hless|(Hq & Htick & Hdue)];
      [exists 1%nat; by rewrite (after_S _ _ _ Hrun)|]).
  - specialize (Hdue _ _ Hx). simpl in Hdue. unfold due in Hdue.
    rewrite bool_decide_eq_true_2, Hnext, bool_decide_eq_true_2 in Hdue; [done| |done].
    apply Hn0. lia.
  - destruct (IH w1 Hw1) as (n & Hwn & Hfn & Hless); [by rewrite Hq|lia|].
    exists (S n). rewrite (after_S _ _ _ Hrun). split; [done|]. split; [by eapply follows_trans|].
    unfold work_left in *. by rewrite Hq in Hless.
Qed.

Lemma worker_drains w :
  queue_ready w → ∃ n, queue_ready (after n w) ∧ follows w (after n w) ∧ idle (after n w).
Proof using handlers_lawful handlers_safe accepts unlocked clock.
  remember (work_left w) as work eqn:Hwork. revert w Hwork.
  induction work as [work IH] using lt_wf_ind. intros w -> Hw.
  destruct (decide (idle w)) as [Hidle|Hbusy]; [exists 0%nat; split_and!; [done|apply follows_refl|done]|].
  apply map_not_Forall in Hbusy as (k & x & Hx & Hst); [|apply _].
  apply dec_stable in Hst.
  destruct (some_work_done w k x Hw Hx Hst) as (n & Hwn & Hfn & Hless).
  destruct (IH _ Hless _ eq_refl Hwn) as (m & Hwm & Hfm & Hidle).
  exists (n + m)%nat. rewrite after_plus by done.
  split_and!; [done|by eapply follows_trans|done].
Qed.
End worker.

(** ** The server's queue *)

Section server.
Context `{!Externals}.

Lemma server_handlers_safe ty h p : server_handlers !! ty = Some h → Safe (h p).
Proof.
  assert (∀ prefix s, Safe (parse_uuid prefix s)) as Hparse
    by (intros; unfold parse_uuid; by case_match).
  assert (∀ A prefix (decode : _ → option A) data, Safe (unmarshal_payload prefix decode data)) as Hdec
    by (intros; unfold unmarshal_payload; by case_match).
  unfold server_handlers. intros Hh.
  repeat (apply lookup_insert_Some in Hh as [[_ <-]|[_ Hh]]);
    last apply lookup_singleton_Some in Hh as [_ <-].
  all: apply Safe_bind; [apply Hdec|intros]; apply Safe_bind; [apply Hparse|intros].
  all: safe.
Qed.

(** C6: every task that waits comes to its end: while the database takes the
    statements, no other transaction holds rows of the queue and its clock
    passes every instant, some number of turns of one worker leaves every
    waiting task completed or dead, and more turns do not change that. *)
Theorem queue_drains w :
  db_accepts → (∀ n id, ext_locked n id = false) →
  (∀ t, ∃ n, ∀ m, (n ≤ m)%nat → t ≤ ext_db_now m) → queue_ready w →
  ∃ n, ∀ m k x, (n ≤ m)%nat →
    tasks_of w !! k = Some x → bt_Status x = TaskStatusPending →
    ∃ y, tasks_of (run (worker server_handlers m) w).2 !! k = Some y ∧ ended y.
Proof.
  intros Hok Hfree Hclock Hw.
  destruct (worker_drains server_handlers server_handlers_lawful server_handlers_safe Hok Hfree Hclock w Hw)
    as (n & Hwn & Hfollows & Hidle).
  exists n. intros m k x Hm Hx Hst. destruct (Hfollows k x Hx (or_introl Hst)) as (y & Hy & Hty).
  exists y. split.
  - replace m with (n + (m - n))%nat by lia.
    change (tasks_of (after server_handlers (n + (m - n)) w) !! k = Some y).
    rewrite (after_plus server_handlers server_handlers_lawful server_handlers_safe Hok Hfree) by done.
    by rewrite (idle_stays server_handlers server_handlers_lawful server_handlers_safe Hok Hfree).
  - destruct Hty as [Hst'|]; [by destruct (Hidle k y Hy)|done].
Qed.
End server.

(** ** Witness *)

#[local] Existing Instance sample.

Lemma sample_clock t : ∃ n, ∀ m, (n ≤ m)%nat → t ≤ ext_db_now m.
Proof.
  exists (Z.to_nat t). intros m Hm. change (ext_db_now m) with (sample_epoch + Z.of_nat m * Second).
  unfold sample_epoch, Second. lia.
Qed.

Lemma queued_world_ready : queue_ready queued_world.
Proof.
  intros k x Hx. unfold tasks_of, queued_world in Hx. simpl in Hx.
  apply lookup_insert_Some in Hx as [[<- <-]|[_ Hx%lookup_singleton_Some]]; [|destruct Hx as [<- <-]];
    (split; [done|]; split; [simpl; lia|]; simpl; intros _; split; [lia|by eexists]).
Qed.

Lemma queue_drains_witness :
  ∃ n y, tasks_of (run (worker server_handlers n) queued_world).2 !! 6%N = Some y ∧ ended y.
Proof.
  assert (@db_accepts sample) as Hok by done.
  destruct (queue_drains queued_world Hok ltac:(done) sample_clock queued_world_ready) as [n Hn].
  destruct (Hn n 6%N (enqueued sample_epoch 6 "invoice" "{}" 1)) as (y & Hy & Hend);
    [lia|reflexivity|reflexivity|].
  exists n, y. split; [exact Hy|exact Hend].
Defined.
