(* ===== verification/WebhookSvc.v ===== *)
(** Webhooks: [internal/service/webhook.go] and [webhook_delivery.go].

    An event is recorded as one delivery per subscribed configuration; a
    goroutine per delivery then sends it, up to five times. What came of it is
    not recorded: the UPDATE is one the database refuses. *)

From S2P Require Import Prelude GoInt GoTime Pagination GoJson Model Errors World Effects Logic.
From S2P Require Import History Repository RepoPayments RepoAccounts RepoHistory Provider Sample.

Open Scope Z_scope.

(** [http.NewRequest] parses the URL: the error of [net/url.Parse], if any. *)
Class NetURL := { url_error : string → option string }.

Definition zero_delivery : WebhookDelivery :=
  MkWebhookDelivery uuid_Nil uuid_Nil uuid_Nil "" "" "" 0 0 0 "" "" None time_zero time_zero.

Definition new_delivery (id merchantID : uuid) (config : WebhookConfig) (eventType body : string)
    (t : time) : WebhookDelivery :=
  zero_delivery <| wd_ID := id |> <| wd_WebhookID := wc_ID config |>
    <| wd_MerchantID := merchantID |> <| wd_EventType := eventType |>
    <| wd_EventPayload := body |> <| wd_Status := WebhookDeliveryPending |>
    <| wd_MaxAttempts := 5 |> <| wd_CreatedAt := t |> <| wd_UpdatedAt := t |>.

Fixpoint eventMatches (events : list string) (eventType : string) : bool :=
  match events with
  | [] => false
  | e :: events => bool_decide (e = "*" ∨ e = eventType) || eventMatches events eventType
  end.

Lemma eventMatches_spec events eventType :
  eventMatches events eventType = true ↔ "*" ∈ events ∨ eventType ∈ events.
Proof.
  induction events as [|e events IH]; simpl.
  - split; [done|]. by intros [?%elem_of_nil|?%elem_of_nil].
  - rewrite orb_true_iff, bool_decide_eq_true, IH, !elem_of_cons. intuition congruence.
Qed.

Section service.
Context `{!Externals, !Crypto, !NetURL}.

Definition CreateWebhook (w : WebhookConfig) : M WebhookConfig :=
  id ← uuid_New;
  t1 ← now;
  t2 ← now;
  let w := w <| wc_ID := id |> <| wc_CreatedAt := t1 |> <| wc_UpdatedAt := t2 |> in
  WebhookConfigRepo_Create w;; mret w.

Definition GetWebhook : uuid → M WebhookConfig := WebhookConfigRepo_GetByID.
Definition ListWebhooks : uuid → M (list WebhookConfig) := WebhookConfigRepo_ListByMerchant.

Definition UpdateWebhook (w : WebhookConfig) : M WebhookConfig :=
  t ← now;
  let w := w <| wc_UpdatedAt := t |> in
  WebhookConfigRepo_Update w;; mret w.

Definition DeleteWebhook : uuid → M unit := WebhookConfigRepo_Delete.

(** [code, body, err := s.send(config, body)]: an answer outside 200-299 is an
    error with its code and body. A body that breaks off is used as far as it
    was read. Header names as [Header.Set] writes them. *)
Definition send_request (config : WebhookConfig) (body : string) : http_request :=
  MkHttpRequest "POST" (wc_URL config)
    ([("Content-Type", "application/json");
      ("X-Helix-Webhook-Id", uuid_String (wc_ID config))] ++
     omit_if (bool_decide (wc_Secret config = "")) "X-Helix-Signature"
       (EncodeToString (hmac_sha256 (wc_Secret config) body)))
    (inr body).

Definition send (config : WebhookConfig) (body : string) : M (Z * string * option error) :=
  match url_error (wc_URL config) with
  | Some msg => mret (0, "", Some (EDriver msg))
  | None =>
      r ← attempt (http_Do (send_request config body));
      match r with
      | inl err => mret (0, "", Some err)
      | inr (code, (respBody, _)) =>
          if decide (200 ≤ code < 300) then mret (code, respBody, None)
          else mret (code, respBody, Some (EText ("webhook returned status " +:+ pretty code)))
      end
  end.

(** [time.Sleep]: nothing happens to the state of the program. *)
Definition Sleep (d : Duration) : M unit := mret ().

(** [left] attempts remain of five; errors of [UpdateStatus] are dropped. *)
Fixpoint sendWithRetry_from (left : nat) (deliveryID : uuid) (config : WebhookConfig)
    (body : string) : M unit :=
  match left with
  | O => mret ()
  | S left' =>
      '(code, respBody, err) ← send config body;
      match err with
      | None =>
          ignore_err (WebhookDeliveryRepo_UpdateStatus deliveryID WebhookDeliveryDelivered
                        code respBody "")
      | Some err =>
          let status := if decide (left' = 0%nat) then WebhookDeliveryFailed
                        else WebhookDeliveryRetrying in
          ignore_err (WebhookDeliveryRepo_UpdateStatus deliveryID status code respBody
                        (Error err));;
          (if decide (left' = 0%nat) then mret ()
           else Sleep (Z.shiftl 1 (5 - Z.of_nat left) * Second));;
          sendWithRetry_from left' deliveryID config body
      end
  end.

Definition sendWithRetry : uuid → WebhookConfig → string → M unit := sendWithRetry_from 5.

(** The arguments of the goroutines [Deliver] starts, in order. *)
Abbreviation spawned := (list (uuid * WebhookConfig * string)).

Fixpoint deliver_each (merchantID : uuid) (eventType body : string) (t : time)
    (configs : list WebhookConfig) : M spawned :=
  match configs with
  | [] => mret []
  | config :: configs =>
      if wc_IsActive config && eventMatches (wc_Events config) eventType then
        id ← uuid_New;
        r ← attempt (WebhookDeliveryRepo_Create
                       (new_delivery id merchantID config eventType body t));
        rest ← deliver_each merchantID eventType body t configs;
        match r with
        | inl _ => mret rest
        | inr _ => mret ((id, config, body) :: rest)
        end
      else deliver_each merchantID eventType body t configs
  end.

(** A payload that does not marshal ([None]) leaves the body empty: the error
    of [json.Marshal] is dropped. Map keys are written in order. *)
Definition event_body (id : uuid) (eventType : string) (t : time) (payload : option json) : string :=
  match payload with
  | None => ""
  | Some data => Marshal (JObj [("data", data); ("id", JStr (uuid_String id));
                                ("timestamp", JStr (RFC3339 t)); ("type", JStr eventType)])
  end.

Definition Deliver (merchantID : uuid) (eventType : string) (payload : option json) : M spawned :=
  configs ← WebhookConfigRepo_ListByMerchant merchantID;
  id ← uuid_New;
  t1 ← now;
  let body := event_body id eventType t1 payload in
  t ← now;
  deliver_each merchantID eventType body t configs.

(** ** webhook_delivery.go *)

Definition ListDeliveries (merchantID : uuid) (page pageSize : Z) : M (list WebhookDelivery * Z) :=
  let offset := mul64 (sub64 page 1) pageSize in
  WebhookDeliveryRepo_ListByMerchant merchantID pageSize offset.

Definition GetDelivery : uuid → M WebhookDelivery := WebhookDeliveryRepo_GetByID.

(** ** What the service does to the world *)

Lemma acts_send config body : Acts unchanged (send config body).
Proof. unfold send. acts. Qed.
Hint Resolve acts_send : acts.

Lemma acts_sendWithRetry_from left id config body :
  Acts quiet (sendWithRetry_from left id config body).
Proof. induction left as [|left IH]; cbn [sendWithRetry_from]; [done|]. unfold Sleep. acts. Qed.

Lemma acts_deliver_each m ty body t configs : Acts quiet (deliver_each m ty body t configs).
Proof. induction configs as [|config configs IH]; cbn [deliver_each]; acts. Qed.
Hint Resolve acts_deliver_each : acts.

Lemma acts_Deliver m ty payload : Acts quiet (Deliver m ty payload).
Proof. unfold Deliver, WebhookConfigRepo_ListByMerchant. acts. Qed.
Lemma acts_CreateWebhook w : Acts quiet (CreateWebhook w).
Proof. unfold CreateWebhook. acts. Qed.
Lemma acts_UpdateWebhook w : Acts quiet (UpdateWebhook w).
Proof. unfold UpdateWebhook. acts. Qed.
End service.

(** ** Properties *)

Section properties.
Context `{!Externals, !Crypto, !NetURL}.

(** The one request of an attempt: POST to the configured URL, signed - when a
    secret is configured - with the HMAC of the very body it carries. *)
Definition signed_request (config : WebhookConfig) (body : string) : http_request :=
  MkHttpRequest "POST" (wc_URL config)
    (if decide (wc_Secret config = "") then
       [("Content-Type", "application/json");
        ("X-Helix-Webhook-Id", uuid_String (wc_ID config))]
     else
       [("Content-Type", "application/json");
        ("X-Helix-Webhook-Id", uuid_String (wc_ID config));
        ("X-Helix-Signature", EncodeToString (hmac_sha256 (wc_Secret config) body))])
    (inr body).

Lemma send_request_signed config body : send_request config body = signed_request config body.
Proof. unfold send_request, signed_request, omit_if. by repeat case_decide. Qed.

(** Whether request [req], sent as external event [n], is answered with 2xx. *)
Definition answered (n : nat) (req : http_request) : bool :=
  match ext_http n req with
  | inl _ => false
  | inr (code, _) => bool_decide (200 ≤ code < 300)
  end.

(** One attempt: the request, and whether the answer was 2xx. *)
Lemma run_send config body w :
  url_error (wc_URL config) = None →
  ∃ code text err, run (send config body) w =
    (Ret (code, text, err), w <| w_tick := S (w_tick w) |>
       <| w_http := w_http w ++ [signed_request config body] |>) ∧
    (err = None ↔ answered (w_tick w) (signed_request config body) = true).
Proof.
  intros Hurl. unfold send, answered. rewrite Hurl, run_bind, run_attempt. unfold http_Do.
  rewrite run_act, send_request_signed. cbv beta.
  destruct (ext_http _ _) as [msg|[code [text broken]]]; cbv beta iota.
  - rewrite run_ret. by eexists _, _, _.
  - case_decide as Hcode; rewrite run_ret; eexists _, _, _; (split; [done|]).
    + by rewrite bool_decide_true.
    + by rewrite bool_decide_false.
Qed.

Lemma run_record id status code text err w :
  run (ignore_err (WebhookDeliveryRepo_UpdateStatus id status code text err)) w =
    (Ret (), w <| w_tick := S (w_tick w) |>).
Proof.
  unfold WebhookDeliveryRepo_UpdateStatus, db_refused.
  by rewrite run_ignore_err, run_wrap_err, run_act.
Qed.

(** Attempt [i] of those that remain is external event [n + 2 i]: between two
    requests lies the refused UPDATE. *)
Definition attempts (n : nat) (req : http_request) (left k : nat) : Prop :=
  (1 ≤ k ≤ left)%nat ∧
  (∀ i, (S i < k)%nat → answered (n + 2 * i) req = false) ∧
  ((k < left)%nat → answered (n + 2 * pred k) req = true).

Lemma attempts_more n req left k :
  answered n req = false → attempts (S (S n)) req left k → attempts n req (S left) (S k).
Proof.
  intros Hno (Hk & Hbefore & Hlast). split; [lia|]. split.
  - intros [|i] Hi; [by rewrite Nat.mul_0_r, Nat.add_0_r|].
    replace (n + 2 * S i)%nat with (S (S n) + 2 * i)%nat by lia. apply Hbefore. lia.
  - intros Hlt. replace (n + 2 * pred (S k))%nat with (S (S n) + 2 * pred k)%nat by (simpl; lia).
    apply Hlast. lia.
Qed.

Lemma run_sendWithRetry_from left id config body w :
  url_error (wc_URL config) = None → (0 < left)%nat →
  ∃ w' k, run (sendWithRetry_from left id config body) w = (Ret (), w') ∧
    attempts (w_tick w) (signed_request config body) left k ∧ w_db w' = w_db w ∧
    w_http w' = w_http w ++ replicate k (signed_request config body).
Proof.
  intros Hurl. revert w. induction left as [|left IH]; intros w Hleft; [lia|].
  cbn [sendWithRetry_from]. rewrite run_bind.
  destruct (run_send config body w Hurl) as (code & text & err & Hsend & Hok). rewrite Hsend.
  set (w1 := w <| w_tick := _ |> <| w_http := _ |>). destruct err as [err|].
  - assert (answered (w_tick w) (signed_request config body) = false) as Hno.
    { apply not_true_is_false. intros Hyes. by apply Hok in Hyes. }
    rewrite run_bind, run_record, run_bind. set (w2 := w1 <| w_tick := _ |>).
    assert (∀ m : M unit, m = mret () → run m w2 = (Ret (), w2)) as Hnop by (by intros ? ->).
    rewrite Hnop by (by case_decide). clear Hnop. destruct left as [|left].
    + exists w2, 1%nat. split; [done|]. split; [|done]. split; [lia|]. split; lia.
    + destruct (IH w2 ltac:(lia)) as (w3 & k & Hrun & Hatt & Hdb & Hhttp).
      exists w3, (S k). split; [exact Hrun|]. split; [by apply attempts_more|].
      split; [exact Hdb|]. rewrite Hhttp. simpl. by rewrite <- app_assoc.
  - rewrite run_record. eexists _, 1%nat. split; [done|]. split; [|done].
    split; [lia|]. split; [lia|]. intros _. rewrite Nat.mul_0_r, Nat.add_0_r. by apply Hok.
Qed.

(** A URL that does not parse: nothing is ever sent. *)
Lemma run_sendWithRetry_bad left id config body w msg :
  url_error (wc_URL config) = Some msg →
  ∃ w', run (sendWithRetry_from left id config body) w = (Ret (), w') ∧
    w_db w' = w_db w ∧ w_http w' = w_http w.
Proof.
  intros Hurl. revert w. induction left as [|left IH]; intros w; cbn [sendWithRetry_from].
  { by exists w. }
  rewrite run_bind. unfold send at 1. rewrite Hurl, run_ret. cbv beta iota.
  rewrite run_bind, run_record, run_bind. set (w2 := w <| w_tick := _ |>).
  assert (∀ m : M unit, m = mret () → run m w2 = (Ret (), w2)) as Hnop by (by intros ? ->).
  rewrite Hnop by (by case_decide). destruct (IH w2) as (w' & -> & Hdb & Hhttp). by exists w'.
Qed.

(** C18: a delivery ends, after at most five attempts. Every attempt is the same
    request, a POST of the body with its HMAC under the configured secret in
    [X-Helix-Signature]; the next is made exactly when the last was not answered
    with 200 to 299, so the sender stops at the first such answer or after five
    requests (a URL that does not parse is never asked). And what came of it is
    never recorded: the UPDATE is one PostgreSQL refuses, so the delivery's row -
    like the rest of the database - is what [Deliver] wrote, pending with no
    attempts. *)
Theorem sendWithRetry_outcome id config body w :
  ∃ w' k, run (sendWithRetry id config body) w = (Ret (), w') ∧ w_db w' = w_db w ∧
    w_http w' = w_http w ++ replicate k (signed_request config body) ∧
    match url_error (wc_URL config) with
    | Some _ => k = 0%nat
    | None =>
        let ok i := answered (w_tick w + 2 * i) (signed_request config body) in
        (1 ≤ k ≤ 5)%nat ∧ (∀ i, (S i < k)%nat → ok i = false) ∧
        ((k < 5)%nat → ok (pred k) = true)
    end.
Proof.
  destruct (url_error (wc_URL config)) as [msg|] eqn:Hurl.
  - destruct (run_sendWithRetry_bad 5 id config body w msg Hurl) as (w' & Hrun & Hdb & Hhttp).
    exists w', 0%nat. split_and!; [exact Hrun|done|by rewrite app_nil_r|done].
  - destruct (run_sendWithRetry_from 5 id config body w Hurl) as (w' & k & Hrun & Hatt & Hdb & Hhttp);
      [lia|]. exists w', k. split_and!; [exact Hrun|done|done|apply Hatt..].
Qed.

(** Identifiers drawn from now on are new to the table. *)
Definition fresh_deliveries (w : world) : Prop :=
  ∀ n, (w_tick w ≤ n)%nat → db_webhook_deliveries (w_db w) !! ext_uuid n = None.

Definition subscribed (eventType : string) (config : WebhookConfig) : bool :=
  wc_IsActive config && eventMatches (wc_Events config) eventType.

(** The row [Deliver] leaves for a goroutine. *)
Definition recorded (m : uuid) (eventType : string) (w : world)
    (g : uuid * WebhookConfig * string) : Prop :=
  ∃ t t', db_webhook_deliveries (w_db w) !! g.1.1 =
    Some (webhook_delivery_row t' (new_delivery g.1.1 m g.1.2 eventType g.2 t)).

Lemma run_deliver_each m ty body t configs w :
  db_accepts → Inj eq eq ext_uuid → fresh_deliveries w →
  ∃ sp w', run (deliver_each m ty body t configs) w = (Ret sp, w') ∧
    sp.*1.*2 = List.filter (subscribed ty) configs ∧ Forall (recorded m ty w') sp ∧
    Forall (λ g, g.2 = body) sp ∧
    (∀ id row, db_webhook_deliveries (w_db w) !! id = Some row →
               db_webhook_deliveries (w_db w') !! id = Some row) ∧
    w_http w' = w_http w.
Proof.
  intros Hok Hinj. revert w. induction configs as [|config configs IH]; intros w Hfresh.
  { exists [], w. by split_and!. }
  cbn [deliver_each List.filter]. fold (subscribed ty config).
  destruct (subscribed ty config); [|by apply IH].
  rewrite run_bind. unfold uuid_New, ask. rewrite run_act. cbv beta iota.
  set (id := ext_uuid (w_tick w)). set (w1 := w <| w_tick := S (w_tick w) |>).
  rewrite run_bind, run_attempt. unfold WebhookDeliveryRepo_Create.
  rewrite (run_insert_new db_webhook_deliveries); [|done|by apply Hfresh]. cbv beta iota.
  set (w2 := w1 <| w_tick := _ |> <| w_db := _ |>).
  assert (∀ id' row, db_webhook_deliveries (w_db w) !! id' = Some row →
                     db_webhook_deliveries (w_db w2) !! id' = Some row) as Hkeep.
  { intros id' row Hid'. simpl. rewrite lookup_insert_ne; [done|]. intros <-.
    unfold id in Hid'. by rewrite (Hfresh (w_tick w)) in Hid'. }
  destruct (IH w2) as (sp & w3 & Hrun & Hsp & Hrec & Hbody & Hkeep3 & Hhttp).
  { intros n Hn. simpl in *. rewrite lookup_insert_ne; [apply Hfresh; lia|].
    intros Heq%(inj ext_uuid). lia. }
  rewrite run_bind, Hrun, run_ret. exists ((id, config, body) :: sp), w3.
  split; [done|]. split; [exact (f_equal (cons config) Hsp)|].
  split; [|split; [by constructor|]; split; [auto|exact Hhttp]].
  constructor; [|done]. eexists _, _. apply Hkeep3. simpl. apply lookup_insert_eq.
Qed.

(** C19: an event is recorded and sent to all who asked for it, and to nobody
    else: when the database answers in full and accepts the statements, [Deliver] starts one
    delivery for each active configuration of the merchant that lists the event
    or [*], newest first; each has its pending row; all carry the same body; and
    nothing was sent before [Deliver] returned. *)
Theorem Deliver_fan_out m ty payload w :
  db_accepts → (∀ n, ext_rows n = None) → Inj eq eq ext_uuid → fresh_deliveries w →
  let configs := order_by (newest_first wc_CreatedAt)
    (rows_where (λ x, bool_decide (wc_MerchantID x = m)) (db_webhook_configs (w_db w))) in
  ∃ sp w' body, run (Deliver m ty payload) w = (Ret sp, w') ∧
    sp.*1.*2 = List.filter (subscribed ty) configs ∧ Forall (recorded m ty w') sp ∧
    Forall (λ g, g.2 = body) sp ∧ w_http w' = w_http w.
Proof.
  intros Hok Hrows Hinj Hfresh configs. unfold Deliver.
  assert (∃ w1, run (WebhookConfigRepo_ListByMerchant m) w = (Ret configs, w1) ∧ (w_tick w ≤ w_tick w1)%nat ∧ w_db w1 = w_db w ∧ w_http w1 = w_http w)
    as (w1 & Hlist & Ht1 & Hdb1 & Hh1).
  { eexists. unfold WebhookConfigRepo_ListByMerchant, query_rows, db_Query, db_read, db_rows, ask.
    rewrite run_bind, run_wrap_err, run_bind, run_act. cbv beta. rewrite Hok. cbv beta iota.
    rewrite run_ret. rewrite run_wrap_err, run_bind, run_act, Hrows. cbv beta iota.
    assert (∀ l : list WebhookConfig, scan_rows scan_ok l = inr l) as Hscan.
    { induction l as [|x l IH]; simpl; [done|]. by rewrite IH. }
    rewrite Hscan, run_ret. split; [done|]. simpl. split; [lia|done]. }
  rewrite run_bind, Hlist, run_bind. unfold uuid_New, now, ask. rewrite run_act. cbv beta iota.
  rewrite run_bind, run_act. cbv beta iota zeta. rewrite run_bind, run_act. cbv beta iota.
  destruct (run_deliver_each m ty (event_body (ext_uuid (w_tick w1)) ty
    (ext_now (S (w_tick w1))) payload) (ext_now (S (S (w_tick w1)))) configs
    (w1 <| w_tick := S (S (S (w_tick w1))) |>)) as (sp & w' & Hrun & Hsp & Hrec & Hbody & _ & Hhttp);
    [done|done| |].
  { intros n Hn. simpl in *. rewrite Hdb1. apply Hfresh. lia. }
  eexists sp, w', _. split; [exact Hrun|]. split; [done|]. split; [done|]. split; [exact Hbody|].
  rewrite Hhttp. simpl. congruence.
Qed.
End properties.

(** ** Witnesses *)

#[local] Existing Instances sample sample_crypto.
#[local] Instance sample_url : NetURL := {| url_error := λ s, if decide (s = "") then Some "empty url" else None |}.

Definition sample_config : WebhookConfig :=
  MkWebhookConfig 8 3 "https://shop.example/hook" "s3cret" ["invoice.paid"; "payout.*"] true
    (Some "{}") sample_epoch sample_epoch.
Definition sample_delivery : WebhookDelivery :=
  new_delivery 12 3 sample_config "invoice.paid" "{}" sample_epoch.
Definition subscribed_world : world :=
  world_of (empty_database
    <| db_webhook_configs := {[8%N := sample_config; 9%N := sample_config <| wc_ID := 9%N |>
                                                              <| wc_IsActive := false |>]} |>).

(** Nobody answers: five signed requests, and the row is still pending. *)
Lemma sendWithRetry_outcome_witness :
  let w := world_of (empty_database <| db_webhook_deliveries := {[12%N := sample_delivery]} |>) in
  ∃ w', run (sendWithRetry 12 sample_config "{}") w = (Ret (), w') ∧
    w_http w' = replicate 5 (signed_request sample_config "{}") ∧
    wd_Status <$> db_webhook_deliveries (w_db w') !! 12%N = Some WebhookDeliveryPending.
Proof.
  intros w. destruct (sendWithRetry_outcome 12 sample_config "{}" w)
    as (w' & k & Hrun & Hdb & Hhttp & Hurl & _ & Hlast).
  assert (k = 5%nat) as ->.
  { destruct (decide (k < 5)%nat) as [Hlt|]; [specialize (Hlast Hlt); discriminate|lia]. }
  exists w'. split; [exact Hrun|]. split; [exact Hhttp|]. rewrite Hdb. reflexivity.
Defined.

Lemma Deliver_fan_out_witness :
  ∃ sp w', run (Deliver 3 "invoice.paid" (Some JNull)) subscribed_world = (Ret sp, w') ∧
    sp.*1.*2 = [sample_config].
Proof.
  destruct (Deliver_fan_out 3 "invoice.paid" (Some JNull) subscribed_world)
    as (sp & w' & body & Hrun & Hsp & _).
  - intros n db db'. reflexivity.
  - intros n. reflexivity.
  - intros n n' Heq. simpl in Heq. lia.
  - intros n Hn. reflexivity.
  - exists sp, w'. split; [exact Hrun|]. rewrite Hsp. vm_compute. reflexivity.
Defined.
