(* ===== verification/Http.v ===== *)
(** Requests and responses as the handlers of [internal/handler] and
    [internal/middleware] see them through gin, and the functions of [strings]
    they take headers apart with.

    A handler returns its response: the status and the JSON body of
    [c.JSON]. *)

From S2P Require Import Prelude GoInt GoTime GoFloat Pagination GoJson Model Errors World Effects Logic.
From S2P Require Import History.

Open Scope Z_scope.

Record Request := MkRequest {
  rq_headers : list (string * string);   (** names in lower case *)
  rq_params : list (string * string);    (** path parameters *)
  rq_query : list (string * string);
  rq_body : string + string;             (** a body that cannot be read *)
  rq_client_ip : string;
  rq_context : list (string * string)    (** the strings set by middleware *)
}.
#[export] Instance eta_Request : Eta Request := λ r,
  MkRequest (rq_headers r) (rq_params r) (rq_query r) (rq_body r) (rq_client_ip r) (rq_context r).

Fixpoint lookup_first (key : string) (l : list (string * string)) : option string :=
  match l with
  | [] => None
  | (k, v) :: l => if decide (k = key) then Some v else lookup_first key l
  end.

(** [c.GetHeader], [c.Param] and [c.GetString]: empty when absent. *)
Definition GetHeader (req : Request) (name : string) : string :=
  default "" (lookup_first (lower name) (rq_headers req)).
Definition Param (req : Request) (name : string) : string :=
  default "" (lookup_first name (rq_params req)).
Definition GetString (req : Request) (name : string) : string :=
  default "" (lookup_first name (rq_context req)).
Definition Query (req : Request) (name : string) : option string := lookup_first name (rq_query req).

(** What a handler gives [c.JSON] to marshal: a [gin.H], or a struct of
    [internal/model]. A listing without rows is a nil slice. *)
Inductive value :=
  | VJson (v : json)
  | VTransaction (x : Transaction) | VPaymentMethod (x : PaymentMethod)
  | VSubscription (x : Subscription) | VInvoice (x : Invoice) | VPayout (x : Payout)
  | VDispute (x : Dispute) | VProduct (x : Product) | VMerchant (x : Merchant)
  | VCustomer (x : Customer) | VApiKey (x : ApiKey) | VWebhookConfig (x : WebhookConfig)
  | VWebhookDelivery (x : WebhookDelivery) | VProviderConfig (x : ProviderConfig)
  | VAuditLog (x : AuditLog)
  | VFloat (x : float64)
  | VText (s : string)  (** written to the body as it is *)
  | VList (l : list value) | VObj (members : list (string * value)).
Coercion VJson : json >-> value.

Record Response := MkResponse { rs_status : Z; rs_body : value }.

(** [gin.H{"error": msg}] *)
Definition error_reply (status : Z) (msg : string) : Response :=
  MkResponse status (JObj [("error", JStr msg)]).

(** ** strings *)

Fixpoint Split (sep : ascii) (s : string) : list string :=
  match s with
  | "" => [""]
  | String c s =>
      if decide (c = sep) then "" :: Split sep s
      else match Split sep s with
           | [] => [String c ""]
           | part :: parts => String c part :: parts
           end
  end.

(** [strings.SplitN(s, sep, 2)]. *)
Fixpoint Split2 (sep : ascii) (s : string) : list string :=
  match s with
  | "" => [""]
  | String c s =>
      if decide (c = sep) then [""; s]
      else match Split2 sep s with
           | [] => [String c ""]
           | part :: parts => String c part :: parts
           end
  end.

Definition EqualFold (s t : string) : bool := bool_decide (lower s = lower t).

(** The [email] rule of github.com/go-playground/validator. *)
Class Validator := { valid_email : string → bool }.

(** ** JSON bodies

    [c.ShouldBindJSON]: the body decoded into a struct and its [required]
    fields checked; any failure is one error. *)
Section bind.
Context `{!Externals}.

Definition ShouldBindJSON {A} (req : Request) (decode : list (string * json) → option A)
    (required : A → bool) : error + A :=
  match rq_body req with
  | inl msg => inl (EDriver msg)
  | inr text =>
      match ext_json text with
      | inl msg => inl (EDriver msg)
      | inr v =>
          match (ms ← decode_members v; decode ms) with
          | None => inl (EDriver "json: cannot unmarshal value into Go struct")
          | Some a => if required a then inr a
                      else inl (EDriver "Field validation failed on the 'required' tag")
          end
      end
  end.

Lemma ShouldBindJSON_inr {A} req (decode : list (string * json) → option A) required a :
  ShouldBindJSON req decode required = inr a →
  ∃ text v ms, rq_body req = inr text ∧ ext_json text = inr v ∧ decode_members v = Some ms ∧
    decode ms = Some a ∧ required a = true.
Proof.
  unfold ShouldBindJSON. destruct (rq_body req) as [|text]; [done|].
  destruct (ext_json text) as [|v] eqn:Hv; [done|].
  destruct (decode_members v) as [ms|] eqn:Hms; simpl; [|done].
  destruct (decode ms) as [b|] eqn:Hb; [|done]. destruct (required b) eqn:Hr; [|done].
  intros [= <-]. eauto 10.
Qed.

(** ** What the handlers have in common

    An identifier that does not parse, a body that does not bind, and an
    operation that fails are each answered with a status and a message; [k] is
    the rest of the handler. *)

Definition parsed (s msg : string) (k : uuid → M Response) : M Response :=
  match uuid_Parse s with
  | inl _ => mret (error_reply StatusBadRequest msg)
  | inr id => k id
  end.

Definition with_param (req : Request) (name msg : string) (k : uuid → M Response) : M Response :=
  parsed (Param req name) msg k.

Definition bound {A} (req : Request) (decode : list (string * json) → option A)
    (required : A → bool) (k : A → M Response) : M Response :=
  match ShouldBindJSON req decode required with
  | inl err => mret (error_reply StatusBadRequest (Error err))
  | inr a => k a
  end.

Definition tried {A} (m : M A) (refuse : error → Response) (k : A → M Response) : M Response :=
  r ← attempt m;
  match r with inl err => mret (refuse err) | inr a => k a end.

Definition replied {A} (m : M A) (status : Z) (msg : string) (ok : A → Response) : M Response :=
  tried m (λ _, error_reply status msg) (λ a, mret (ok a)).

(** [page] and [page_size] as the listings read them, and their answer. *)
Definition listed {A} (req : Request) (list : Z → Z → M (Datatypes.list A * Z)) (msg name : string)
    (v : A → value) : M Response :=
  replied (list (query_page (Query req "page")) (query_page_size (Query req "page_size")))
    StatusInternalServerError msg
    (λ '(l, total), MkResponse StatusOK (VObj [(name, VList (map v l)); ("total", VJson (JNum total))])).

Lemma answers_parsed s msg k : (∀ id, Answers (k id)) → Answers (parsed s msg k).
Proof. intros Hk. unfold parsed. by destruct (uuid_Parse s). Qed.
Lemma answers_bound {A} req decode required (k : A → M Response) :
  (∀ a, Answers (k a)) → Answers (bound req decode required k).
Proof. intros Hk. unfold bound. by destruct (ShouldBindJSON _ _ _). Qed.
Lemma answers_tried {A} (m : M A) refuse k :
  Safe m → (∀ a, Answers (k a)) → Answers (tried m refuse k).
Proof. intros Hm Hk. apply Answers_bind; [by apply Answers_attempt|]. by intros []. Qed.
Lemma answers_replied {A} (m : M A) status msg ok : Safe m → Answers (replied m status msg ok).
Proof. intros Hm. by apply answers_tried. Qed.
Lemma answers_listed {A} req (list : Z → Z → M (Datatypes.list A * Z)) msg name v :
  (∀ page size, Safe (list page size)) → Answers (listed req list msg name v).
Proof. intros Hl. by apply answers_replied. Qed.

Lemma acts_parsed R s msg k : (∀ id, Acts R (k id)) → Acts R (parsed s msg k).
Proof. intros Hk. unfold parsed. by destruct (uuid_Parse s). Qed.
Lemma acts_bound {A} R req decode required (k : A → M Response) :
  (∀ a, Acts R (k a)) → Acts R (bound req decode required k).
Proof. intros Hk. unfold bound. by destruct (ShouldBindJSON _ _ _). Qed.
Lemma acts_tried {A} R (m : M A) refuse k :
  Acts R m → (∀ a, Acts R (k a)) → Acts R (tried m refuse k).
Proof. intros Hm Hk. apply Acts_bind; [by apply Acts_attempt|]. by intros []. Qed.
Lemma acts_replied {A} R (m : M A) status msg ok : Acts R m → Acts R (replied m status msg ok).
Proof. intros Hm. by apply acts_tried. Qed.
Lemma acts_listed {A} R req (list : Z → Z → M (Datatypes.list A * Z)) msg name v :
  (∀ page size, Acts R (list page size)) → Acts R (listed req list msg name v).
Proof. intros Hl. by apply acts_replied. Qed.
End bind.

Create HintDb answers.
#[export] Hint Resolve Answers_ret Answers_ask : answers.

(** [answers], [safe_method] and [handler_acts] follow the structure of a
    handler down to the interactions it is made of, through the definitions of
    the operations it calls. *)
Ltac head_of m := lazymatch m with ?f _ => head_of f | _ => m end.

Ltac open_method :=
  lazymatch goal with
  | |- Safe ?m => let f := head_of m in unfold f
  | |- Answers ?m => let f := head_of m in unfold f
  | |- Acts _ ?m => let f := head_of m in unfold f
  end; cbv beta iota zeta.

Ltac safe_method :=
  repeat (intros; cbv beta zeta; first
    [ solve [eauto 2 with acts]
    | apply Safe_bind | apply Safe_attempt | apply Safe_wrap_err | apply Safe_ignore_err
    | progress case_match | case_decide | open_method ]).

Ltac answers :=
  repeat (intros; cbv beta zeta; first
    [ solve [eauto 2 with answers]
    | apply answers_parsed | apply answers_bound | apply answers_tried | apply answers_replied
    | apply answers_listed | apply Answers_bind | apply Answers_attempt | apply Answers_ignore_err
    | progress case_match | case_decide
    | lazymatch goal with |- Safe _ => safe_method end | open_method ]).

Ltac handler_acts :=
  repeat (intros; cbv beta zeta; first
    [ acts_close
    | apply acts_parsed | apply acts_bound | apply acts_tried | apply acts_replied
    | apply acts_listed | apply Acts_bind | apply Acts_attempt | apply Acts_wrap_err
    | apply Acts_ignore_err | progress case_match | case_decide | open_method ]).
