(* ===== verification/Wire.v ===== *)
(** The JSON of responses: [json.Marshal] of the structs of [internal/model],
    by their field tags.

    [None] is an error of [json.Marshal]: a time outside the years 0 to 9999, or
    a [json.RawMessage] that is not JSON. *)

From S2P Require Import Prelude GoInt GoTime GoFloat GoJson Model Errors World Http.

Open Scope Z_scope.

Section wire.
Context `{!Externals} (FormatFloat : float64 → option string).

(** ** Fields *)

Definition string_value (s : string) : option json := Some (JStr s).
Definition int_value (n : Z) : option json := Some (JNum n).
Definition bool_value (b : bool) : option json := Some (JBool b).
Definition uuid_value (id : uuid) : option json := Some (JStr (uuid_String id)).
Definition time_value (t : time) : option json :=
  if decide (0 ≤ Year (t / day) ≤ 9999) then Some (JStr (RFC3339Nano t)) else None.
Definition strings_value (l : list string) : option json := Some (JArr (map JStr l)).
Definition raw_value (m : RawMessage) : option json :=
  match m with
  | None => Some JNull
  | Some text => match ext_json text with inr v => Some v | inl _ => None end
  end.
Definition nullable {A} (f : A → option json) (x : option A) : option json :=
  match x with None => Some JNull | Some a => f a end.

(** The members of an object, in order. *)
Definition object (fields : list (string * option json)) : option json :=
  JObj <$> mapM (λ kv, pair kv.1 <$> kv.2) fields.

(** [omitempty] of a pointer. *)
Definition omit_nil {A} (key : string) (f : A → option json) (x : option A)
    : list (string * option json) :=
  match x with None => [] | Some a => [(key, f a)] end.

(** ** The structs *)

Definition transaction_json (x : Transaction) : option json := object (
  [("id", uuid_value (tx_ID x)); ("merchant_id", uuid_value (tx_MerchantID x));
    ("customer_id", uuid_value (tx_CustomerID x)); ("provider", string_value (tx_Provider x));
    ("provider_transaction_id", string_value (tx_ProviderTransactionID x));
    ("type", string_value (tx_Type x)); ("amount", int_value (tx_Amount x));
    ("currency", string_value (tx_Currency x)); ("status", string_value (tx_Status x));
    ("payment_method_id", uuid_value (tx_PaymentMethodID x));
    ("idempotency_key", nullable string_value (tx_IdempotencyKey x));
    ("description", nullable string_value (tx_Description x));
    ("metadata", raw_value (tx_Metadata x));
    ("error_code", nullable string_value (tx_ErrorCode x));
    ("error_message", nullable string_value (tx_ErrorMessage x));
    ("fee_amount", int_value (tx_FeeAmount x));
    ("net_amount", nullable int_value (tx_NetAmount x));
    ("processed_at", nullable time_value (tx_ProcessedAt x));
    ("created_at", time_value (tx_CreatedAt x)); ("updated_at", time_value (tx_UpdatedAt x))]).

Definition payment_method_json (x : PaymentMethod) : option json := object (
  [("id", uuid_value (pm_ID x)); ("merchant_id", uuid_value (pm_MerchantID x));
    ("customer_id", uuid_value (pm_CustomerID x)); ("type", string_value (pm_Type x));
    ("provider", string_value (pm_Provider x));
    ("provider_token", string_value (pm_ProviderToken x));
    ("fingerprint", string_value (pm_Fingerprint x)); ("brand", string_value (pm_Brand x));
    ("last4", string_value (pm_Last4 x)); ("exp_month", int_value (pm_ExpMonth x));
    ("exp_year", int_value (pm_ExpYear x)); ("is_default", bool_value (pm_IsDefault x));
    ("metadata", raw_value (pm_Metadata x)); ("created_at", time_value (pm_CreatedAt x));
    ("updated_at", time_value (pm_UpdatedAt x))]).

Definition subscription_json (x : Subscription) : option json := object (
  [("id", uuid_value (sub_ID x)); ("merchant_id", uuid_value (sub_MerchantID x));
    ("customer_id", uuid_value (sub_CustomerID x)); ("provider", string_value (sub_Provider x));
    ("provider_subscription_id", string_value (sub_ProviderSubscriptionID x));
    ("plan_id", string_value (sub_PlanID x)); ("status", string_value (sub_Status x));
    ("amount", int_value (sub_Amount x)); ("currency", string_value (sub_Currency x));
    ("interval", string_value (sub_Interval x));
    ("interval_count", int_value (sub_IntervalCount x));
    ("current_period_start", time_value (sub_CurrentPeriodStart x));
    ("current_period_end", time_value (sub_CurrentPeriodEnd x));
    ("cancel_at", nullable time_value (sub_CancelAt x));
    ("cancelled_at", nullable time_value (sub_CancelledAt x));
    ("trial_start", nullable time_value (sub_TrialStart x));
    ("trial_end", nullable time_value (sub_TrialEnd x)); ("metadata", raw_value (sub_Metadata x));
    ("created_at", time_value (sub_CreatedAt x)); ("updated_at", time_value (sub_UpdatedAt x))]).

Definition invoice_json (x : Invoice) : option json := object (
  [("id", uuid_value (inv_ID x)); ("merchant_id", uuid_value (inv_MerchantID x));
    ("customer_id", uuid_value (inv_CustomerID x));
    ("subscription_id", nullable uuid_value (inv_SubscriptionID x));
    ("provider", string_value (inv_Provider x));
    ("provider_invoice_id", string_value (inv_ProviderInvoiceID x));
    ("amount", int_value (inv_Amount x)); ("currency", string_value (inv_Currency x));
    ("status", string_value (inv_Status x)); ("due_date", time_value (inv_DueDate x));
    ("paid_at", nullable time_value (inv_PaidAt x));
    ("period_start", time_value (inv_PeriodStart x));
    ("period_end", time_value (inv_PeriodEnd x)); ("metadata", raw_value (inv_Metadata x));
    ("created_at", time_value (inv_CreatedAt x)); ("updated_at", time_value (inv_UpdatedAt x))]).

Definition payout_json (x : Payout) : option json := object (
  [("id", uuid_value (po_ID x)); ("merchant_id", uuid_value (po_MerchantID x));
    ("provider", string_value (po_Provider x));
    ("provider_payout_id", string_value (po_ProviderPayoutID x));
    ("amount", int_value (po_Amount x)); ("currency", string_value (po_Currency x));
    ("status", string_value (po_Status x)); ("method", string_value (po_Method x));
    ("arrival_date", nullable time_value (po_ArrivalDate x));
    ("fee_amount", int_value (po_FeeAmount x)); ("metadata", raw_value (po_Metadata x));
    ("created_at", time_value (po_CreatedAt x)); ("updated_at", time_value (po_UpdatedAt x))]).

Definition dispute_json (x : Dispute) : option json := object (
  [("id", uuid_value (dp_ID x)); ("transaction_id", uuid_value (dp_TransactionID x));
    ("merchant_id", uuid_value (dp_MerchantID x)); ("provider", string_value (dp_Provider x));
    ("provider_dispute_id", string_value (dp_ProviderDisputeID x));
    ("reason", string_value (dp_Reason x)); ("status", string_value (dp_Status x));
    ("amount", int_value (dp_Amount x));
    ("evidence_deadline", nullable time_value (dp_EvidenceDeadline x));
    ("evidence_submitted_at", nullable time_value (dp_EvidenceSubmittedAt x));
    ("resolution", string_value (dp_Resolution x)); ("evidence", raw_value (dp_Evidence x));
    ("metadata", raw_value (dp_Metadata x)); ("created_at", time_value (dp_CreatedAt x));
    ("updated_at", time_value (dp_UpdatedAt x))]).

Definition product_json (x : Product) : option json := object (
  [("id", string_value (pd_ID x)); ("merchant_id", string_value (pd_MerchantID x));
    ("name", string_value (pd_Name x)); ("description", string_value (pd_Description x));
    ("price", int_value (pd_Price x)); ("currency", string_value (pd_Currency x));
    ("status", string_value (pd_Status x)); ("metadata", raw_value (pd_Metadata x));
    ("created_at", time_value (pd_CreatedAt x)); ("updated_at", time_value (pd_UpdatedAt x))] ++
  omit_nil "deleted_at" time_value (pd_DeletedAt x)).

Definition merchant_json (x : Merchant) : option json := object (
  [("id", uuid_value (me_ID x)); ("legal_name", string_value (me_LegalName x));
    ("trade_name", string_value (me_TradeName x)); ("name", string_value (me_Name x));
    ("email", string_value (me_Email x)); ("phone", string_value (me_Phone x));
    ("country", string_value (me_Country x)); ("currency", string_value (me_Currency x));
    ("slug", string_value (me_Slug x)); ("status", string_value (me_Status x));
    ("kyc_status", string_value (me_KycStatus x)); ("timezone", string_value (me_Timezone x));
    ("branding", raw_value (me_Branding x)); ("settings", raw_value (me_Settings x));
    ("created_at", time_value (me_CreatedAt x)); ("updated_at", time_value (me_UpdatedAt x))] ++
  omit_nil "deleted_at" time_value (me_DeletedAt x)).

Definition customer_json (x : Customer) : option json := object (
  [("id", uuid_value (cu_ID x)); ("merchant_id", uuid_value (cu_MerchantID x));
    ("external_id", string_value (cu_ExternalID x)); ("name", string_value (cu_Name x));
    ("email", string_value (cu_Email x)); ("phone", string_value (cu_Phone x));
    ("metadata", raw_value (cu_Metadata x)); ("created_at", time_value (cu_CreatedAt x));
    ("updated_at", time_value (cu_UpdatedAt x))] ++
  omit_nil "deleted_at" time_value (cu_DeletedAt x)).

Definition api_key_json (x : ApiKey) : option json := object (
  [("id", uuid_value (ak_ID x)); ("merchant_id", uuid_value (ak_MerchantID x));
    ("user_id", uuid_value (ak_UserID x)); ("name", string_value (ak_Name x));
    ("key_prefix", string_value (ak_KeyPrefix x));
    ("scopes", nullable strings_value (ak_Scopes x)); ("rate_limit", int_value (ak_RateLimit x));
    ("is_active", bool_value (ak_IsActive x))] ++
  omit_nil "expires_at" time_value (ak_ExpiresAt x) ++
  [("created_at", time_value (ak_CreatedAt x))] ++
  omit_nil "last_used_at" time_value (ak_LastUsedAt x)).

Definition webhook_config_json (x : WebhookConfig) : option json := object (
  [("id", uuid_value (wc_ID x)); ("merchant_id", uuid_value (wc_MerchantID x));
    ("url", string_value (wc_URL x)); ("secret", string_value (wc_Secret x));
    ("events", strings_value (wc_Events x)); ("is_active", bool_value (wc_IsActive x));
    ("metadata", raw_value (wc_Metadata x)); ("created_at", time_value (wc_CreatedAt x));
    ("updated_at", time_value (wc_UpdatedAt x))]).

Definition webhook_delivery_json (x : WebhookDelivery) : option json := object (
  [("id", uuid_value (wd_ID x)); ("webhook_id", uuid_value (wd_WebhookID x));
    ("merchant_id", uuid_value (wd_MerchantID x)); ("event_type", string_value (wd_EventType x));
    ("event_payload", string_value (wd_EventPayload x)); ("status", string_value (wd_Status x));
    ("attempts", int_value (wd_Attempts x)); ("max_attempts", int_value (wd_MaxAttempts x));
    ("response_code", int_value (wd_ResponseCode x));
    ("response_body", string_value (wd_ResponseBody x));
    ("last_error", string_value (wd_LastError x))] ++
  omit_nil "completed_at" time_value (wd_CompletedAt x) ++
  [("created_at", time_value (wd_CreatedAt x)); ("updated_at", time_value (wd_UpdatedAt x))]).

Definition provider_config_json (x : ProviderConfig) : option json := object (
  [("id", uuid_value (pc_ID x)); ("merchant_id", uuid_value (pc_MerchantID x));
    ("provider", string_value (pc_Provider x)); ("is_active", bool_value (pc_IsActive x));
    ("config", raw_value (pc_Config x)); ("fallback_order", int_value (pc_FallbackOrder x));
    ("health_status", string_value (pc_HealthStatus x));
    ("last_health_check", nullable time_value (pc_LastHealthCheck x));
    ("metadata", raw_value (pc_Metadata x)); ("created_at", time_value (pc_CreatedAt x));
    ("updated_at", time_value (pc_UpdatedAt x))]).

Definition audit_log_json (x : AuditLog) : option json := object (
  [("id", uuid_value (al_ID x)); ("merchant_id", uuid_value (al_MerchantID x));
    ("actor_id", uuid_value (al_ActorID x)); ("actor_type", string_value (al_ActorType x));
    ("action", string_value (al_Action x)); ("resource_type", string_value (al_ResourceType x));
    ("resource_id", string_value (al_ResourceID x)); ("changes", raw_value (al_Changes x));
    ("ip_address", string_value (al_IPAddress x)); ("user_agent", string_value (al_UserAgent x));
    ("created_at", time_value (al_CreatedAt x))]).

(** ** Answers

    A list without rows is a nil slice, and [null]. The members of a [gin.H] are
    in the order the handler gives them here and sorted in the text: no client
    looks at the order. *)
Fixpoint json_value (v : value) : option json :=
  match v with
  | VJson v => Some v
  | VTransaction x => transaction_json x
  | VPaymentMethod x => payment_method_json x
  | VSubscription x => subscription_json x
  | VInvoice x => invoice_json x
  | VPayout x => payout_json x
  | VDispute x => dispute_json x
  | VProduct x => product_json x
  | VMerchant x => merchant_json x
  | VCustomer x => customer_json x
  | VApiKey x => api_key_json x
  | VWebhookConfig x => webhook_config_json x
  | VWebhookDelivery x => webhook_delivery_json x
  | VProviderConfig x => provider_config_json x
  | VAuditLog x => audit_log_json x
  | VFloat x => JFrac <$> FormatFloat x
  | VText _ => None
  | VList [] => Some JNull
  | VList l => JArr <$> mapM json_value l
  | VObj ms => JObj <$> mapM (λ kv, pair kv.1 <$> json_value kv.2) ms
  end.

(** The text of a body. *)
Definition body_text (v : value) : option string :=
  match v with
  | VText s => Some s
  | v => Marshal <$> json_value v
  end.
End wire.
