(* ===== verification/Csv.v ===== *)
(** [encoding/csv] as the export of transactions uses it: the writer with its
    default settings, and a reader of the format (RFC 4180, lines ended by a
    line feed) that the writer is proved against. *)

From S2P Require Import Prelude GoText GoJson Http.

Definition newline : ascii := ascii_of_N 10.
Definition carriage_return : ascii := ascii_of_N 13.
Definition comma : ascii := ","%char.
Definition quote_char : ascii := ascii_of_N 34.

(** ** The writer *)

Fixpoint csv_escape (s : string) : string :=
  match s with
  | "" => ""
  | String c s => if decide (c = quote_char) then String c (String c (csv_escape s))
                  else String c (csv_escape s)
  end.

Fixpoint string_any (P : ascii → bool) (s : string) : bool :=
  match s with "" => false | String c s => P c || string_any P s end.

Definition csv_special (c : ascii) : bool :=
  bool_decide (c = comma ∨ c = quote_char ∨ c = newline ∨ c = carriage_return).

(** [unicode.IsSpace] of the first rune. *)
Definition leading_space (s : string) : bool := bool_decide (is_Some (trim_one white_space s)).

(** [fieldNeedsQuotes] *)
Definition csv_quoted (s : string) : bool :=
  bool_decide (s = "\.") || string_any csv_special s || leading_space s.

Definition csv_field (s : string) : string :=
  if csv_quoted s then quote +:+ csv_escape s +:+ quote else s.

Definition csv_line (fields : list string) : string :=
  commas (map csv_field fields) +:+ String newline "".

(** ** The reader *)

Inductive csv_state := Start | Plain | Quoted | QuoteSeen.

(** [fld] is the field read so far, [record] the fields before it. *)
Fixpoint csv_read (st : csv_state) (fld : string) (record : list string) (s : string)
    : option (list (list string)) :=
  match s with
  | "" =>
      match st, record with
      | Start, [] => Some []
      | Quoted, _ => None
      | _, _ => Some [record ++ [fld]]
      end
  | String c s =>
      match st with
      | Quoted => if decide (c = quote_char) then csv_read QuoteSeen fld record s
                  else csv_read Quoted (fld +:+ String c "") record s
      | _ =>
          if decide (c = comma) then csv_read Start "" (record ++ [fld]) s
          else if decide (c = newline) then
            records ← csv_read Start "" [] s; Some ((record ++ [fld]) :: records)
          else match st with
               | Start => if decide (c = quote_char) then csv_read Quoted fld record s
                          else csv_read Plain (String c "") record s
               | Plain => if decide (c = quote_char) then None
                          else csv_read Plain (fld +:+ String c "") record s
               | _ => if decide (c = quote_char)
                      then csv_read Quoted (fld +:+ String c "") record s else None
               end
      end
  end.

Definition ReadAll (s : string) : option (list (list string)) := csv_read Start "" [] s.

(** ** What is written reads back *)

(** A separator or the end of the line follows each field. *)
Definition after_field (c : ascii) (record : list string) (s : string) : option (list (list string)) :=
  if decide (c = comma) then csv_read Start "" record s
  else records ← csv_read Start "" [] s; Some (record :: records).

Definition ends_field (c : ascii) : Prop := c = comma ∨ c = newline.

Lemma read_end st fld record c s :
  st ≠ Quoted → ends_field c →
  csv_read st fld record (String c s) = after_field c (record ++ [fld]) s.
Proof.
  intros Hst [-> | ->]; unfold after_field; destruct st; try done; cbn [csv_read];
    repeat case_decide; done.
Qed.

Lemma read_Quoted fld record c s :
  csv_read Quoted fld record (String c s) =
    if decide (c = quote_char) then csv_read QuoteSeen fld record s
    else csv_read Quoted (fld +:+ String c "") record s.
Proof. done. Qed.

Lemma read_plain fld record f c s :
  string_any csv_special f = false → ends_field c →
  csv_read Plain fld record (f +:+ String c s) = after_field c (record ++ [fld +:+ f]) s.
Proof.
  intros Hf Hc. revert fld Hf. induction f as [|d f IH]; intros fld Hf.
  - rewrite append_empty. by apply read_end.
  - cbn [string_any] in Hf. apply orb_false_iff in Hf as [Hd Hf].
    apply bool_decide_eq_false in Hd. rewrite append_cons. cbn [csv_read].
    rewrite !decide_False by tauto. rewrite IH by done. by rewrite append_snoc.
Qed.

Lemma read_quoted fld record f c s :
  ends_field c →
  csv_read Quoted fld record (csv_escape f +:+ String quote_char (String c s)) =
    after_field c (record ++ [fld +:+ f]) s.
Proof.
  intros Hc. revert fld. induction f as [|d f IH]; intros fld.
  - cbn [csv_escape]. rewrite append_nil_l, read_Quoted, decide_True by done.
    rewrite append_empty. by apply read_end.
  - cbn [csv_escape]. destruct (decide (d = quote_char)) as [->|Hd]; rewrite ?append_cons.
    + rewrite read_Quoted, decide_True by done.
      change (csv_read QuoteSeen fld record (String quote_char ?t))
        with (csv_read Quoted (fld +:+ String quote_char "") record t).
      rewrite IH. by rewrite append_snoc.
    + rewrite read_Quoted, decide_False by done. rewrite IH. by rewrite append_snoc.
Qed.

Lemma read_field record f c s :
  ends_field c → csv_read Start "" record (csv_field f +:+ String c s) = after_field c (record ++ [f]) s.
Proof.
  intros Hc. unfold csv_field. destruct (csv_quoted f) eqn:Hq.
  - rewrite !append_assoc. unfold quote. rewrite append_cons. cbn [csv_read].
    rewrite !decide_False by done. rewrite decide_True by done.
    by rewrite !append_nil_l, append_cons, append_nil_l, read_quoted.
  - unfold csv_quoted in Hq. apply orb_false_iff in Hq as [[_ Hq]%orb_false_iff _].
    destruct f as [|d f]; [by apply read_end|].
    cbn [string_any] in Hq. apply orb_false_iff in Hq as [Hd Hq].
    apply bool_decide_eq_false in Hd. rewrite append_cons. cbn [csv_read].
    rewrite !decide_False by tauto. by rewrite read_plain.
Qed.

Lemma read_line record f fields s :
  csv_read Start "" record (commas (map csv_field (f :: fields)) +:+ String newline s) =
    (records ← ReadAll s; Some ((record ++ f :: fields) :: records)).
Proof.
  revert record f. induction fields as [|g fields IH]; intros record f.
  - cbn [map commas]. by rewrite read_field by (by right).
  - change (commas (map csv_field (f :: g :: fields)))
      with (csv_field f +:+ "," +:+ commas (map csv_field (g :: fields))).
    rewrite !append_assoc, append_cons, append_nil_l.
    rewrite read_field by (by left). unfold after_field. rewrite decide_True by done.
    rewrite IH. by rewrite <- app_assoc.
Qed.

Lemma ReadAll_csv_line fields s :
  fields ≠ [] →
  ReadAll (csv_line fields +:+ s) = (records ← ReadAll s; Some (fields :: records)).
Proof.
  intros Hne. destruct fields as [|f fields]; [done|].
  unfold ReadAll at 1, csv_line. by rewrite append_snoc, read_line.
Qed.

Lemma ReadAll_lines records :
  Forall (λ r, r ≠ []) records → ReadAll (String.concat "" (map csv_line records)) = Some records.
Proof.
  induction 1 as [|r records Hr _ IH]; [done|].
  assert (String.concat "" (map csv_line (r :: records)) =
    csv_line r +:+ String.concat "" (map csv_line records)) as ->.
  { destruct records; [symmetry; apply append_empty|done]. }
  by rewrite ReadAll_csv_line, IH.
Qed.
