(* ===== verification/Ingress.v ===== *)
(** Webhooks received from payment providers:
    [internal/handler/webhook_ingress.go].  A request whose signature is valid
    is published as an event, any other is refused. *)

From S2P Require Import Prelude GoInt GoText GoTime TimeParse GoJson Model Errors World Effects Logic.
From S2P Require Import History EventBus Provider Http Sample.

Open Scope Z_scope.

(** ** The public-key functions of the standard library, on the bytes they get *)
Class PKI := {
  pem_Decode : string → option string;                (** the DER block *)
  x509_public_key : string → string + option string;  (** [None]: not an RSA key *)
  base64_decode : string → string + string;
  rsa_verify_sha256 : string → string → string → bool (** key, message, signature *)
}.

(** The last [v1=] and [t=] of a [Stripe-Signature] header. *)
Definition stripe_part (acc : string * string) (part : string) : string * string :=
  let part := TrimSpace part in
  match after_prefix "v1=" part, after_prefix "t=" part with
  | Some sig, _ => (sig, acc.2)
  | None, Some t => (acc.1, t)
  | None, None => acc
  end.

Definition stripe_fields (sigHeader : string) : string * string :=
  fold_left stripe_part (Split ","%char sigHeader) ("", "").

Section handlers.
Context `{!Externals, !Crypto, !PKI} (bus : EventBus).

Definition hmac_hex (secret msg : string) : string := EncodeToString (hmac_sha256 secret msg).

Definition verifyStripeSignature (payload sigHeader secret : string) : option error :=
  if decide (secret = "") then Some (EText "stripe webhook secret not configured")
  else if decide (sigHeader = "") then Some (EText "missing Stripe-Signature header")
  else
    let '(expectedSig, timestamp) := stripe_fields sigHeader in
    if decide (expectedSig = "" ∨ timestamp = "")
    then Some (EText "invalid stripe signature header format")
    else
      let signedPayload := timestamp +:+ "." +:+ payload in
      if decide (hmac_hex secret signedPayload = expectedSig) then None
      else Some (EText "stripe signature mismatch").

Definition verifySquareSignature (payload sigHeader sigKey : string) : option error :=
  if decide (sigKey = "") then Some (EText "square webhook signature key not configured")
  else if decide (sigHeader = "") then Some (EText "missing x-square-hmacsha256-signature header")
  else if decide (hmac_hex sigKey payload = sigHeader) then None
  else Some (EText "square signature mismatch").

(** The certificate of the sender is fetched from the URL in the request. *)
Record PayPalHeaders := MkPayPalHeaders {
  CertURL : string; TransmissionSig : string; TransmissionID : string; TransmissionTime : string
}.

Definition paypal_key (certPEM : string) : error + option string :=
  match pem_Decode certPEM with
  | None => inl (EText "failed to decode PayPal certificate PEM")
  | Some block =>
      match x509_public_key block with
      | inl msg => inl (EWrap "parse PayPal certificate" (EDriver msg))
      | inr key => inr key
      end
  end.

Definition paypal_check (payload : string) (h : PayPalHeaders) (certPEM : string) : option error :=
  match paypal_key certPEM with
  | inl err => Some err
  | inr key =>
      let sigString := TransmissionID h +:+ "|" +:+ TransmissionTime h +:+ "|" +:+ payload in
      match base64_decode (TransmissionSig h), key with
      | inl msg, _ => Some (EWrap "decode PayPal signature" (EDriver msg))
      | inr _, None => Some (EText "PayPal certificate public key is not RSA")
      | inr sig, Some pub =>
          if rsa_verify_sha256 pub sigString sig then None
          else Some (EWrap "PayPal signature verification failed"
                       (EDriver "crypto/rsa: verification error"))
      end
  end.

Definition verifyPayPalWebhookSignature (payload : string) (h : PayPalHeaders)
    : M (option error) :=
  if decide (CertURL h = "" ∨ TransmissionSig h = "" ∨ TransmissionID h = "" ∨
             TransmissionTime h = "")
  then mret (Some (EText "missing required PayPal webhook headers"))
  else
    r ← attempt (http_Do (MkHttpRequest "GET" (CertURL h) [] (inr "")));
    match r with
    | inl err => mret (Some (EWrap "fetch PayPal certificate" err))
    | inr (_, (_, Some msg)) => mret (Some (EWrap "read PayPal certificate" (EDriver msg)))
    | inr (_, (certPEM, None)) => mret (paypal_check payload h certPEM)
    end.

(** Errors of [Publish] are dropped. *)
Definition receive (source body : string) : M Response :=
  ignore_err (Publish bus ("events.provider." +:+ source)
    (MkEvent "provider.webhook.received" source (DString body) 0));;
  mret (MkResponse StatusOK (JObj [("received", JBool true)])).

Definition HandleStripe (stripeWebhookSecret : string) (req : Request) : M Response :=
  match rq_body req with
  | inl _ => mret (error_reply StatusBadRequest "failed to read body")
  | inr body =>
      match verifyStripeSignature body (GetHeader req "Stripe-Signature") stripeWebhookSecret with
      | Some _ => mret (error_reply StatusUnauthorized "invalid signature")
      | None => receive "stripe" body
      end
  end.

Definition HandlePayPal (paypalWebhookID : string) (req : Request) : M Response :=
  match rq_body req with
  | inl _ => mret (error_reply StatusBadRequest "failed to read body")
  | inr body =>
      let h := MkPayPalHeaders (GetHeader req "PAYPAL-CERT-URL")
        (GetHeader req "PAYPAL-TRANSMISSION-SIG") (GetHeader req "PAYPAL-TRANSMISSION-ID")
        (GetHeader req "PAYPAL-TRANSMISSION-TIME") in
      if decide (paypalWebhookID = "") then
        mret (error_reply StatusServiceUnavailable "webhook not configured")
      else if decide (TransmissionSig h = "" ∨ TransmissionID h = "" ∨ TransmissionTime h = "") then
        mret (error_reply StatusUnauthorized "missing webhook headers")
      else
        match time_Parse_RFC3339 (TransmissionTime h) with
        | None => mret (error_reply StatusUnauthorized "invalid transmission time")
        | Some parsedTime =>
            t ← now;
            if decide (Z.abs (Sub t parsedTime) > 5 * Minute) then
              mret (error_reply StatusUnauthorized "transmission time outside tolerance")
            else
              err ← verifyPayPalWebhookSignature body h;
              match err with
              | Some err => mret (error_reply StatusUnauthorized (Error err))
              | None => receive "paypal" body
              end
        end
  end.

Definition HandleSquare (squareWebhookSigKey : string) (req : Request) : M Response :=
  match rq_body req with
  | inl _ => mret (error_reply StatusBadRequest "failed to read body")
  | inr body =>
      match verifySquareSignature body (GetHeader req "x-square-hmacsha256-signature")
              squareWebhookSigKey with
      | Some _ => mret (error_reply StatusUnauthorized "invalid signature")
      | None => receive "square" body
      end
  end.

(** ** What they do to the world *)

Context `{!PublishesOnly bus}.

Lemma acts_receive source body : Acts unchanged (receive source body).
Proof. unfold receive. acts. Qed.
Hint Resolve acts_receive : acts.
Lemma acts_HandleStripe secret req : Acts unchanged (HandleStripe secret req).
Proof. unfold HandleStripe. acts. Qed.
Lemma acts_HandleSquare key req : Acts unchanged (HandleSquare key req).
Proof. unfold HandleSquare. acts. Qed.
Lemma acts_HandlePayPal id req : Acts unchanged (HandlePayPal id req).
Proof. unfold HandlePayPal, verifyPayPalWebhookSignature. acts. Qed.
End handlers.

(** ** Properties *)

Section properties.
Context `{!Externals, !Crypto, !PKI}.

(** The event of a webhook is on the stream, with the time of reading [n] of
    the clock, unless the stream refused it at the reading after. *)
Definition received (source body : string) (n : nat) (w w' : world) : Prop :=
  w_events w' =
    match ext_publish (S n) with
    | Rejected _ => w_events w
    | Accepted | AckLost _ =>
        w_events w ++
          [("events.provider." +:+ source,
            MkEvent "provider.webhook.received" source (DString body) (UnixMilli (ext_now n)))]
    end.

Lemma run_receive source body w :
  ∃ w', run (receive NatsEventBus source body) w =
          (Ret (MkResponse StatusOK (JObj [("received", JBool true)])), w') ∧
        received source body (w_tick w) w w'.
Proof.
  unfold receive, NatsEventBus, NatsEventBus_Publish. cbn [Publish].
  rewrite run_bind, run_ignore_err, run_bind. unfold now, ask. rewrite run_act. cbv beta iota zeta.
  rewrite run_act. cbv beta. unfold received.
  change (w_tick (w <| w_tick := S (w_tick w) |>)) with (S (w_tick w)).
  destruct (ext_publish (S (w_tick w))); rewrite run_ret; eexists; (split; [done|]); done.
Qed.

(** The signature Stripe makes for [body] with [secret]. *)
Definition stripe_signed (secret body header : string) : Prop :=
  secret ≠ "" ∧ ∃ sig t, stripe_fields header = (sig, t) ∧ sig ≠ "" ∧ t ≠ "" ∧
    sig = hmac_hex secret (t +:+ "." +:+ body).

Lemma verifyStripeSignature_spec body header secret :
  verifyStripeSignature body header secret = None ↔ stripe_signed secret body header.
Proof.
  unfold verifyStripeSignature, stripe_signed. case_decide as Hsec; [by split; [|intros []]|].
  case_decide as Hh.
  { split; [done|]. intros (_ & sig & t & Hf & Hsig & _). by rewrite Hh in Hf; injection Hf as <- <-. }
  destruct (stripe_fields header) as [sig t]. case_decide as Hempty.
  - split; [done|]. intros (_ & sig' & t' & [= <- <-] & Hs & Ht & _). by destruct Hempty.
  - apply Decidable.not_or in Hempty as [Hs Ht]. case_decide as Hsig.
    + split; [intros _|done]. split; [done|]. exists sig, t. by split_and!.
    + split; [done|]. intros (_ & sig' & t' & [= <- <-] & _ & _ & ->). by destruct Hsig.
Qed.

(** C14: a Stripe webhook is accepted exactly when its header carries the HMAC
    of its time and body under the configured secret. Accepted, the very body
    that was signed is published, once, on the subject of the provider - the
    event is on the stream after the reply unless the stream itself refused it,
    an error the handler drops - and nothing else changes; whatever else it is,
    it is refused with 401 and the world is as before. The clock plays no part:
    an accepted request is accepted again. *)
Theorem HandleStripe_authentic secret req body w :
  rq_body req = inr body →
  ∃ resp w', run (HandleStripe NatsEventBus secret req) w = (Ret resp, w') ∧
    ((rs_status resp = StatusOK ∧
      stripe_signed secret body (GetHeader req "Stripe-Signature") ∧
      received "stripe" body (w_tick w) w w' ∧ unchanged w w') ∨
     (rs_status resp = StatusUnauthorized ∧
      ¬ stripe_signed secret body (GetHeader req "Stripe-Signature") ∧ w' = w)).
Proof.
  intros Hbody.
  destruct (run (HandleStripe NatsEventBus secret req) w) as [o w'] eqn:Hrun.
  pose proof (Acts_outcome _ _ _ _ _ (acts_HandleStripe NatsEventBus secret req) Hrun) as Hun.
  revert Hrun. unfold HandleStripe. rewrite Hbody.
  pose proof (verifyStripeSignature_spec body (GetHeader req "Stripe-Signature") secret) as Hspec.
  destruct (verifyStripeSignature _ _ _) as [err|].
  - rewrite run_ret. intros [= <- <-]. eexists _, _. split; [done|]. right.
    split_and!; [done| |done]. intros Hs. by apply Hspec in Hs.
  - destruct (run_receive "stripe" body w) as (w1 & Hrun & Hev). rewrite Hrun.
    intros [= <- <-]. eexists _, _. split; [done|]. left.
    split_and!; [done|by apply Hspec|done|done].
Qed.

(** The PayPal check authenticates nobody. The certificate is whatever the
    URL in the request serves, and the configured webhook id is compared with
    nothing: whoever serves a certificate for a key of their own and signs with
    it - for any body, within five minutes of the clock - has the event
    accepted, under every webhook id. *)
Theorem HandlePayPal_forged paypalWebhookID req w body h sent certPEM block key sig :
  paypalWebhookID ≠ "" → rq_body req = inr body →
  h = MkPayPalHeaders (GetHeader req "PAYPAL-CERT-URL") (GetHeader req "PAYPAL-TRANSMISSION-SIG")
        (GetHeader req "PAYPAL-TRANSMISSION-ID") (GetHeader req "PAYPAL-TRANSMISSION-TIME") →
  CertURL h ≠ "" → TransmissionSig h ≠ "" → TransmissionID h ≠ "" →
  time_Parse_RFC3339 (TransmissionTime h) = Some sent →
  Z.abs (ext_now (w_tick w) - sent) ≤ 5 * Minute →
  ext_http (S (w_tick w)) (MkHttpRequest "GET" (CertURL h) [] (inr "")) =
    inr (StatusOK, (certPEM, None)) →
  pem_Decode certPEM = Some block → x509_public_key block = inr (Some key) →
  base64_decode (TransmissionSig h) = inr sig →
  rsa_verify_sha256 key (TransmissionID h +:+ "|" +:+ TransmissionTime h +:+ "|" +:+ body) sig
    = true →
  ∃ resp w', run (HandlePayPal NatsEventBus paypalWebhookID req) w = (Ret resp, w') ∧
    rs_status resp = StatusOK ∧ received "paypal" body (S (S (w_tick w))) w w'.
Proof.
  intros Hid Hbody Hh Hurl Hsig Htid Hsent Htime Hhttp Hpem Hcert Hb64 Hrsa.
  assert (TransmissionTime h ≠ "") as Htt by (by intros Hn; rewrite Hn in Hsent).
  unfold HandlePayPal. rewrite Hbody. cbv zeta. rewrite <- Hh.
  rewrite !decide_False by tauto. rewrite Hsent, run_bind. unfold now, ask.
  rewrite run_act. cbv beta iota. rewrite decide_False by (unfold Sub; lia).
  rewrite run_bind. unfold verifyPayPalWebhookSignature. rewrite decide_False by tauto.
  rewrite run_bind, run_attempt. unfold http_Do. rewrite run_act. cbv beta.
  change (w_tick (w <| w_tick := S (w_tick w) |>)) with (S (w_tick w)). rewrite Hhttp.
  cbv beta iota. rewrite run_ret. unfold paypal_check, paypal_key.
  rewrite Hpem, Hcert, Hb64. cbv zeta. rewrite Hrsa.
  set (w1 := _ <| w_http := _ |>).
  destruct (run_receive "paypal" body w1) as (w' & Hrun & Hev). exists (MkResponse StatusOK (JObj [("received", JBool true)])), w'.
  split; [exact Hrun|]. by split.
Qed.
End properties.

(** ** Witnesses *)

#[local] Existing Instance sample_crypto.

(** A PKI in which every text is a certificate, and a signature is valid when it
    is as long as the key. *)
#[local] Instance sample_pki : PKI := {|
  pem_Decode := λ s, if decide (s = "") then None else Some s;
  x509_public_key := λ s, inr (Some s);
  base64_decode := inr;
  rsa_verify_sha256 := λ key _ sig, bool_decide (String.length key = String.length sig)
|}.

Definition signed_request : Request :=
  MkRequest [("stripe-signature", "t=1, v1=0504")] [] [] (inr "{}") "192.0.2.1" [].

Lemma HandleStripe_authentic_witness :
  ∃ resp w', run (HandleStripe (@NatsEventBus sample) "whsec" signed_request) (world_of empty_database) = (Ret resp, w') ∧
    rs_status resp = StatusOK ∧
    w_events w' = [("events.provider.stripe",
      MkEvent "provider.webhook.received" "stripe" (DString "{}") (UnixMilli sample_epoch))].
Proof.
  destruct (@HandleStripe_authentic sample _ "whsec" signed_request "{}" (world_of empty_database))
    as (resp & w' & Hrun & [(Hok & _ & Hev & _)|(_ & Hbad & _)]); [reflexivity| |].
  - exists resp, w'. split; [exact Hrun|]. split; [exact Hok|]. rewrite Hev. reflexivity.
  - exfalso. apply Hbad. split; [discriminate|].
    exists "0504", "1". split; [reflexivity|]. split; [discriminate|]. split; [discriminate|reflexivity].
Defined.

(** The sender's own server answers the request for the certificate. *)
Definition senders_world : Externals :=
  sample_with (λ _ _ _, Accepted) (λ _ _, inr (StatusOK, ("EVIL", None))) (λ _, inl "no JSON").

Definition forged_request : Request :=
  MkRequest [("paypal-cert-url", "https://evil.example/cert"); ("paypal-transmission-sig", "1234");
             ("paypal-transmission-id", "x"); ("paypal-transmission-time", "2024-01-31T00:01:00Z")]
    [] [] (inr "{refund}") "192.0.2.1" [].

Lemma HandlePayPal_forged_witness :
  ∃ resp w', run (@HandlePayPal senders_world _ (@NatsEventBus senders_world) "WH-1" forged_request) (world_of empty_database)
      = (Ret resp, w') ∧ rs_status resp = StatusOK.
Proof.
  destruct (@HandlePayPal_forged senders_world _ "WH-1" forged_request (world_of empty_database)
    "{refund}" (MkPayPalHeaders "https://evil.example/cert" "1234" "x" "2024-01-31T00:01:00Z")
    (sample_epoch + 60 * Second) "EVIL" "EVIL" "EVIL" "1234") as (resp & w' & Hrun & Hok & _);
    [discriminate|reflexivity|vm_compute; reflexivity|discriminate|discriminate|discriminate
    |vm_compute; reflexivity|vm_compute; discriminate|reflexivity|reflexivity|reflexivity
    |reflexivity|vm_compute; reflexivity|].
  exists resp, w'. split; [exact Hrun|exact Hok].
Defined.
