(* ===== verification/Auth.v ===== *)
(** Users signing in: [internal/service/auth.go], [jwt.go] and [mfa.go],
    [internal/handler/auth.go], and the middleware that lets their requests
    through, [internal/middleware/auth.go] and [rbac.go].

    Tokens are made and checked by a library ([JWTLib]), passwords hashed by
    another ([PasswordHash]); one-time codes are a third ([TOTP]). *)

From S2P Require Import Prelude GoInt GoTime GoFloat GoJson Model Errors World Effects Logic.
From S2P Require Import History Repository RepoAccounts RepoHistory Provider Http Sample.

Open Scope Z_scope.

(** [argon2.IDKey(password, salt, 1, 64*1024, 4, 32)]. *)
Class PasswordHash := { argon2_IDKey : string → list ascii → list ascii }.

(** github.com/golang-jwt/jwt/v5 with the keys of the service: [SignedString]
    of the claims, and [Parse] at a time - signature, method and expiry. Numbers
    of a parsed token are [float64]. *)
Class JWTLib := {
  jwt_sign : gmap string json → string + string;
  jwt_parse : time → string → string + gmap string json
}.

(** github.com/pquerna/otp. *)
Class TOTP := { totp_Validate : time → string → string → bool }.

(** ** encoding/hex *)

Definition unhex_digit (c : ascii) : option N :=
  let n := N_of_ascii c in
  if decide (48 ≤ n ≤ 57)%N then Some (n - 48)%N
  else if decide (97 ≤ n ≤ 102)%N then Some (n - 87)%N
  else if decide (65 ≤ n ≤ 70)%N then Some (n - 55)%N
  else None.

Fixpoint DecodeString (s : string) : option (list ascii) :=
  match s with
  | "" => Some []
  | String _ "" => None
  | String a (String b s) =>
      h ← unhex_digit a; l ← unhex_digit b; rest ← DecodeString s;
      Some (ascii_of_N (16 * h + l) :: rest)
  end.

(** [base32.StdEncoding] of a number of bytes that is a multiple of five: no
    padding. *)
Definition base32_char (n : Z) : ascii :=
  ascii_of_N (Z.to_N (if decide (n < 26) then 65 + n else 24 + n)).

Fixpoint base32_digits (count : nat) (n : Z) (acc : string) : string :=
  match count with
  | O => acc
  | S count => base32_digits count (n / 32) (String (base32_char (n mod 32)) acc)
  end.

Fixpoint bytes_value (bytes : list ascii) (acc : Z) : Z :=
  match bytes with
  | [] => acc
  | c :: bytes => bytes_value bytes (acc * 256 + Z.of_N (N_of_ascii c))
  end.

Definition base32_encode (bytes : list ascii) : string :=
  base32_digits (8 * length bytes / 5) (bytes_value bytes 0) "".

(** [utf8.RuneCountInString] of valid UTF-8: the bytes that begin a rune. *)
Fixpoint rune_count (s : string) : nat :=
  match s with
  | "" => 0
  | String c s =>
      let n := N_of_ascii c in
      ((if decide (128 ≤ n < 192)%N then 0 else 1) + rune_count s)%nat
  end.

Section service.
Context `{!Externals, !PasswordHash, !JWTLib, !TOTP, !FloatText}.

(** ** service/auth.go *)

Definition HashPassword (password : string) : M string :=
  salt ← rand_Read 16;
  mret (EncodeToString salt +:+ ":" +:+ EncodeToString (argon2_IDKey password salt)).

Definition VerifyPassword (password encodedHash : string) : error + bool :=
  match Split ":"%char encodedHash with
  | [p0; p1] =>
      match DecodeString p0, DecodeString p1 with
      | Some salt, Some expectedHash => inr (bool_decide (argon2_IDKey password salt = expectedHash))
      | _, _ => inl (NewValidationError "invalid hash format")
      end
  | _ => inl (NewValidationError "invalid hash format")
  end.

Definition Authenticate (email password : string) : M User :=
  r ← attempt (UserRepo_GetByEmail email);
  match r with
  | inl _ => fail (EVar ErrUnauthorized)
  | inr user =>
      if negb (us_IsActive user) then fail (EVar ErrForbidden)
      else match VerifyPassword password (us_PasswordHash user) with
           | inl err => fail err
           | inr false => fail (EVar ErrUnauthorized)
           | inr true => mret user
           end
  end.

(** ** service/jwt.go *)

Record JWTService := MkJWTService { accessExpiry : Duration; refreshExpiry : Duration }.

Definition sign (claims : gmap string json) : M string :=
  match jwt_sign claims with inl msg => fail (EDriver msg) | inr token => mret token end.

Definition access_claims (userID : uuid) (email role : string) (merchantID : uuid)
    (exp iat : time) (jti : uuid) : gmap string json :=
  list_to_map [("email", JStr email); ("exp", JNum (Unix exp)); ("iat", JNum (Unix iat));
   ("jti", JStr (uuid_String jti)); ("merchant_id", JStr (uuid_String merchantID));
   ("role", JStr role); ("sub", JStr (uuid_String userID)); ("token_type", JStr "access")].

Definition GenerateAccessToken (s : JWTService) (userID : uuid) (email role : string)
    (merchantID : uuid) : M string :=
  t1 ← now;
  t2 ← now;
  jti ← uuid_New;
  sign (access_claims userID email role merchantID (Add t1 (accessExpiry s)) t2 jti).

Definition refresh_claims (userID : uuid) (exp iat : time) (jti : uuid) : gmap string json :=
  list_to_map [("exp", JNum (Unix exp)); ("iat", JNum (Unix iat)); ("jti", JStr (uuid_String jti));
   ("sub", JStr (uuid_String userID)); ("token_type", JStr "refresh")].

Definition GenerateRefreshToken (s : JWTService) (userID : uuid) : M string :=
  t1 ← now;
  t2 ← now;
  jti ← uuid_New;
  sign (refresh_claims userID (Add t1 (refreshExpiry s)) t2 jti).

Definition ValidateToken (token : string) : M (gmap string json) :=
  t ← now;
  match jwt_parse t token with
  | inl msg => fail (EWrap "parse token" (EDriver msg))
  | inr claims => mret claims
  end.

(** ** service/mfa.go *)

Definition GenerateSecret : M string :=
  wrap_err "generate secret" (buf ← rand_Read 20; mret (base32_encode buf)).

Fixpoint GenerateRecoveryCodes (count : nat) : M (list string) :=
  match count with
  | O => mret []
  | S count =>
      code ← wrap_err "generate recovery code"
               (buf ← rand_Read 10; mret (String.substring 0 16 (base32_encode buf)));
      codes ← GenerateRecoveryCodes count;
      mret (code :: codes)
  end.

Definition Verify (secret code : string) : M bool :=
  t ← now; mret (totp_Validate t code secret).

Definition TotpURL (issuer email secret : string) : string :=
  "otpauth://totp/" +:+ issuer +:+ ":" +:+ email +:+ "?secret=" +:+ secret +:+ "&issuer=" +:+ issuer.
End service.

(** ** handler/auth.go *)

Definition zero_user : User :=
  MkUser uuid_Nil "" "" "" "" uuid_Nil false false None time_zero time_zero.

Section handlers.
Context `{!Externals, !PasswordHash, !JWTLib, !TOTP, !FloatText} (jwtSvc : JWTService).

(** The JSON of [model.User]: neither the hash nor the MFA secret is in it. *)
Definition user_json (u : User) : json :=
  JObj [("id", JStr (uuid_String (us_ID u))); ("email", JStr (us_Email u));
        ("name", JStr (us_Name u)); ("role", JStr (us_Role u));
        ("merchant_id", JStr (uuid_String (us_MerchantID u)));
        ("is_active", JBool (us_IsActive u)); ("mfa_enabled", JBool (us_MfaEnabled u));
        ("created_at", JStr (RFC3339Nano (us_CreatedAt u)));
        ("updated_at", JStr (RFC3339Nano (us_UpdatedAt u)))].

(** Both tokens, then [reply] of them; the errors of signing are 500s. *)
Definition issue_tokens (user : User) (accessError : string)
    (reply : string → string → Response) : M Response :=
  a ← attempt (GenerateAccessToken jwtSvc (us_ID user) (us_Email user) (us_Role user)
                 (us_MerchantID user));
  match a with
  | inl _ => mret (error_reply StatusInternalServerError accessError)
  | inr accessToken =>
      r ← attempt (GenerateRefreshToken jwtSvc (us_ID user));
      match r with
      | inl _ => mret (error_reply StatusInternalServerError "failed to generate refresh token")
      | inr refreshToken => mret (reply accessToken refreshToken)
      end
  end.

Definition tokens_reply (accessToken refreshToken : string) : Response :=
  MkResponse StatusOK (JObj [("access_token", JStr accessToken);
                             ("refresh_token", JStr refreshToken)]).

Definition Register `{!Validator} (req : Request) : M Response :=
  match ShouldBindJSON req
          (λ ms, email ← decode_field decode_string "email" ms "";
                 password ← decode_field decode_string "password" ms "";
                 name ← decode_field decode_string "name" ms "";
                 Some (email, password, name))
          (λ '(email, password, name),
             bool_decide (email ≠ "" ∧ password ≠ "" ∧ name ≠ "") && valid_email email &&
             bool_decide (12 ≤ rune_count password)%nat) with
  | inl err => mret (error_reply StatusBadRequest (Error err))
  | inr (email, password, name) =>
      h ← attempt (HashPassword password);
      match h with
      | inl _ => mret (error_reply StatusInternalServerError "failed to hash password")
      | inr hash =>
          id ← uuid_New;
          let user := zero_user <| us_ID := id |> <| us_Email := email |>
            <| us_PasswordHash := hash |> <| us_Name := name |> <| us_Role := RoleUser |>
            <| us_IsActive := true |> in
          c ← attempt (UserRepo_Create user);
          match c with
          | inl _ => mret (error_reply StatusConflict "user already exists")
          | inr _ =>
              issue_tokens user "failed to generate token" (λ accessToken refreshToken,
                MkResponse StatusCreated (JObj [("access_token", JStr accessToken);
                  ("refresh_token", JStr refreshToken); ("user", user_json user)]))
          end
      end
  end.

Definition Login (req : Request) : M Response :=
  match ShouldBindJSON req
          (λ ms, email ← decode_field decode_string "email" ms "";
                 password ← decode_field decode_string "password" ms "";
                 Some (email, password))
          (λ '(email, password), bool_decide (email ≠ "" ∧ password ≠ "")) with
  | inl err => mret (error_reply StatusBadRequest (Error err))
  | inr (email, password) =>
      r ← attempt (Authenticate email password);
      match r with
      | inl _ => mret (error_reply StatusUnauthorized "invalid credentials")
      | inr user =>
          if us_MfaEnabled user then
            mret (MkResponse StatusOK (JObj [("mfa_required", JBool true);
                                             ("user_id", JStr (uuid_String (us_ID user)))]))
          else issue_tokens user "failed to generate token" tokens_reply
      end
  end.

(** [claims["sub"].(string)] panics on a token without that claim. The kind
    of the token, its revocation and the state of the user are not looked at. *)
Definition Refresh (req : Request) : M Response :=
  match ShouldBindJSON req (λ ms, decode_field decode_string "refresh_token" ms "")
          (λ t, bool_decide (t ≠ "")) with
  | inl err => mret (error_reply StatusBadRequest (Error err))
  | inr refreshToken =>
      c ← attempt (ValidateToken refreshToken);
      match c with
      | inl _ => mret (error_reply StatusUnauthorized "invalid refresh token")
      | inr claims =>
          match claims !! "sub" with
          | Some (JStr sub) =>
              match uuid_Parse sub with
              | inl _ => mret (error_reply StatusBadRequest "invalid user id")
              | inr userID =>
                  u ← attempt (UserRepo_GetByID userID);
                  match u with
                  | inl _ => mret (error_reply StatusUnauthorized "user not found")
                  | inr user => issue_tokens user "failed to generate access token" tokens_reply
                  end
              end
          | _ => panic "interface conversion: interface {} is not string"
          end
      end
  end.

(** [fmt.Sprint] of a claim: the library's [float64] for a number. *)
Definition claim_int64 (v : json) : option Z :=
  match v with
  | JNum z => Some (int64_of_float (float64_of_int z))
  | JFrac text => Some (int64_of_float (parse_float text))
  | _ => None
  end.

(** A [jti] that is not a string prints in some way of its own. *)
Context (Sprint : json → string).
Definition jti_text (v : json) : string := match v with JStr s => s | v => Sprint v end.

Definition blacklist (claims : gmap string json) : M unit :=
  match claims !! "jti", claims !! "exp" with
  | Some jti, Some exp =>
      match claim_int64 exp with
      | None => panic "interface conversion: interface {} is not float64"
      | Some expUnix =>
          t ← now;
          let ttl := expUnix * Second - t in
          if decide (0 < ttl) then
            ignore_err (redis_Set ("token_blacklist:" +:+ jti_text jti) 1 ttl)
          else mret ()
      end
  | _, _ => mret ()
  end.

Definition bearer (authHeader : string) : option string :=
  match Split2 " "%char authHeader with
  | [scheme; token] => if EqualFold scheme "Bearer" then Some token else None
  | _ => None
  end.

Definition Logout (redis : bool) (req : Request) : M Response :=
  let authHeader := GetHeader req "Authorization" in
  (if decide (authHeader ≠ "") then
     match redis, bearer authHeader with
     | true, Some token =>
         c ← attempt (ValidateToken token);
         match c with inl _ => mret () | inr claims => blacklist claims end
     | _, _ => mret ()
     end
   else mret ());;
  mret (MkResponse StatusOK (JObj [("message", JStr "logged out")])).

Definition SetupMFA (req : Request) : M Response :=
  match uuid_Parse (GetString req "user_id") with
  | inl _ => mret (error_reply StatusBadRequest "invalid user id")
  | inr uid =>
      u ← attempt (UserRepo_GetByID uid);
      match u with
      | inl _ => mret (error_reply StatusNotFound "user not found")
      | inr user =>
          s ← attempt GenerateSecret;
          match s with
          | inl _ => mret (error_reply StatusInternalServerError "failed to generate secret")
          | inr secret =>
              ignore_err (UserRepo_Update (user <| us_MfaSecret := Some secret |>));;
              codes ← attempt (GenerateRecoveryCodes 8);
              mret (MkResponse StatusOK (JObj [
                ("secret", JStr secret);
                ("recovery_codes", match codes with inl _ => JNull | inr l => JArr (map JStr l) end);
                ("totp_url", JStr (TotpURL "HelixSeller" (us_Email user) secret))]))
          end
      end
  end.

(** The code is all that is asked for: no password, and no active user. *)
Definition VerifyMFA (req : Request) : M Response :=
  match ShouldBindJSON req
          (λ ms, userID ← decode_field decode_string "user_id" ms "";
                 code ← decode_field decode_string "code" ms ""; Some (userID, code))
          (λ '(userID, code), bool_decide (userID ≠ "" ∧ code ≠ "")) with
  | inl err => mret (error_reply StatusBadRequest (Error err))
  | inr (userID, code) =>
      match uuid_Parse userID with
      | inl _ => mret (error_reply StatusBadRequest "invalid user id")
      | inr uid =>
          u ← attempt (UserRepo_GetByID uid);
          match u with
          | inl _ => mret (error_reply StatusNotFound "user not found")
          | inr user =>
              ok ← match us_MfaSecret user with
                   | None => mret false
                   | Some secret => Verify secret code
                   end;
              if negb ok then mret (error_reply StatusUnauthorized "invalid MFA code")
              else
                let user := user <| us_MfaEnabled := true |> in
                ignore_err (UserRepo_Update user);;
                issue_tokens user "failed to generate access token" tokens_reply
          end
      end
  end.
End handlers.

(** ** The middleware *)

Section middleware.
Context `{!Externals, !JWTLib}.

(** What a middleware decides: go on with the request, or answer it. *)
Definition Middleware : Type := Request → M (Response + Request).

Record Claims := MkClaims {
  cl_UserID : string; cl_MerchantID : string; cl_Role : string; cl_ID : string
}.

(** The token decoded into [Claims]: the expiry was checked by the library,
    and nothing here reads it. *)
Definition decode_Claims (m : gmap string json) : option Claims :=
  let ms := map_to_list m in
  userID ← decode_field decode_string "user_id" ms "";
  merchantID ← decode_field decode_string "merchant_id" ms "";
  role ← decode_field decode_string "role" ms "";
  jti ← decode_field decode_string "jti" ms "";
  Some (MkClaims userID merchantID role jti).

Definition setAuthContext (c : Claims) (req : Request) : Request :=
  req <| rq_context := [("auth_method", "jwt"); ("user_id", cl_UserID c);
                        ("merchant_id", cl_MerchantID c); ("role", cl_Role c);
                        ("token_jti", cl_ID c)] ++ rq_context req |>.

(** [redis]: whether there is a client. A Redis error lets the token pass. *)
Definition NewAuthMiddleware (redis : bool) : Middleware := λ req,
  let authHeader := GetHeader req "Authorization" in
  if decide (authHeader = "") then
    mret (inl (error_reply StatusUnauthorized "authentication required"))
  else
    match bearer authHeader with
    | None => mret (inl (error_reply StatusUnauthorized "invalid authorization header format"))
    | Some tokenString =>
        t ← now;
        match (match jwt_parse t tokenString with
               | inl _ => None | inr m => decode_Claims m end) with
        | None => mret (inl (error_reply StatusUnauthorized "invalid or expired token"))
        | Some claims =>
            revoked ← (if decide (redis = true ∧ cl_ID claims ≠ "") then
                         n ← attempt (redis_Exists ("token_blacklist:" +:+ cl_ID claims));
                         match n with
                         | inl _ => mret false
                         | inr n => mret (bool_decide (0 < n))
                         end
                       else mret false);
            if revoked : bool then
              mret (inl (error_reply StatusUnauthorized "token has been revoked"))
            else mret (inr (setAuthContext claims req))
        end
    end.

(** The middleware of [Auth] and [OptionalAuth], which the router does not use;
    [publicKey]: whether the key file can be read and parsed. What cannot be
    authenticated is refused only when it is required to be. *)
Definition createAuthHandler (publicKey : string + unit) (required : bool) : Middleware := λ req,
  let refuse status msg := mret (if required then inl (error_reply status msg) else inr req) in
  let authHeader := GetHeader req "Authorization" in
  let apiKey := GetHeader req "X-API-Key" in
  if decide (apiKey ≠ "") then
    mret (inr (req <| rq_context :=
      [("auth_method", "api_key"); ("api_key", apiKey)] ++ rq_context req |>))
  else if decide (authHeader = "") then refuse StatusUnauthorized "authentication required"
  else
    match bearer authHeader with
    | None => refuse StatusUnauthorized "invalid authorization header format"
    | Some tokenString =>
        match publicKey with
        | inl _ => refuse StatusInternalServerError "internal server error"
        | inr _ =>
            t ← now;
            match (match jwt_parse t tokenString with
                   | inl _ => None | inr m => decode_Claims m end) with
            | None => refuse StatusUnauthorized "invalid or expired token"
            | Some claims => mret (inr (setAuthContext claims req))
            end
        end
    end.

Definition Auth_required (publicKey : string + unit) : Middleware := createAuthHandler publicKey true.
Definition OptionalAuth (publicKey : string + unit) : Middleware := createAuthHandler publicKey false.

(** [OptionalAuth] lets every request pass, and so does [Auth] one with any
    X-API-Key: the key is not looked up. *)
Lemma OptionalAuth_passes key req w : ∃ req' w', run (OptionalAuth key req) w = (Ret (inr req'), w').
Proof.
  unfold OptionalAuth, createAuthHandler. repeat case_decide; [by repeat eexists..|].
  destruct (bearer _); [|by repeat eexists]. destruct key; [by repeat eexists|].
  unfold now, ask. rewrite run_bind, run_act. cbv beta iota.
  destruct (jwt_parse _ _) as [|m]; [by repeat eexists|].
  destruct (decode_Claims m); by repeat eexists.
Qed.

Lemma Auth_any_api_key key req w :
  GetHeader req "X-API-Key" ≠ "" → ∃ req', run (Auth_required key req) w = (Ret (inr req'), w).
Proof. intros Hkey. unfold Auth_required, createAuthHandler. rewrite decide_True by done. by eexists. Qed.

(** ** rbac.go *)

Definition RequireRole (roles : list string) : Middleware := λ req,
  let userRole := GetString req "role" in
  if decide (userRole = "") then
    mret (inl (error_reply StatusUnauthorized "authentication required"))
  else if decide (userRole ∈ roles) then mret (inr req)
  else mret (inl (error_reply StatusForbidden "insufficient permissions")).

(** ** rate_limit.go: a window of a minute, counted in Redis; a Redis error
    lets the request pass. *)
Definition rate_limit_key (ip : string) (t : time) : string :=
  "rate_limit:" +:+ ip +:+ ":" +:+ pretty (Z.quot (Unix t) 60).

Definition RateLimit (rps : Z) : Middleware := λ req,
  t ← now;
  let key := rate_limit_key (rq_client_ip req) t in
  r ← attempt (redis_Incr key);
  match r with
  | inl _ => mret (inr req)
  | inr count =>
      (if decide (count = 1) then ignore_err (redis_Expire key (2 * Minute)) else mret ());;
      if decide (rps < count) then
        mret (inl (error_reply StatusTooManyRequests "rate limit exceeded"))
      else mret (inr req)
  end.

(** ** handler/user.go: what the identity is used for *)

Definition GetUser (req : Request) : M Response :=
  match uuid_Parse (GetString req "user_id") with
  | inl _ => mret (error_reply StatusBadRequest "invalid user id")
  | inr uid =>
      u ← attempt (UserRepo_GetByID uid);
      match u with
      | inl _ => mret (error_reply StatusNotFound "user not found")
      | inr user => mret (MkResponse StatusOK (user_json user))
      end
  end.
End middleware.

(** ** Lemmas *)

Lemma unhex_hex n : (n < 16)%N → unhex_digit (hex_digit n) = Some n.
Proof.
  intros Hn. assert (n ∈ (N.of_nat <$> seq 0 16)) as Hin.
  { apply list_elem_of_fmap. exists (N.to_nat n). split; [lia|]. apply elem_of_seq. lia. }
  revert Hin. generalize n. apply Forall_forall. repeat constructor.
Qed.

Lemma DecodeString_EncodeToString bytes : DecodeString (EncodeToString bytes) = Some bytes.
Proof.
  induction bytes as [|c bytes IH]; [done|]. cbn [EncodeToString DecodeString].
  assert (N_of_ascii c < 256)%N as Hc by apply N_ascii_bounded.
  rewrite !unhex_hex, IH by (apply N.Div0.div_lt_upper_bound || apply N.mod_lt; lia).
  cbn. rewrite <- N.div_mod by lia. by rewrite ascii_N_embedding.
Qed.

Lemma hex_digit_not_colon n : (n < 16)%N → hex_digit n ≠ ":"%char.
Proof.
  intros Hn Heq. pose proof (unhex_hex n Hn) as H. by rewrite Heq in H.
Qed.

(** A hexadecimal text has no separator in it. *)
Lemma Split_hex bytes rest :
  Split ":"%char (EncodeToString bytes +:+ rest) =
  match Split ":"%char rest with
  | [] => [EncodeToString bytes]
  | part :: parts => (EncodeToString bytes +:+ part) :: parts
  end.
Proof.
  induction bytes as [|c bytes IH].
  { simpl. destruct (Split ":"%char rest) as [|p ps] eqn:Hs; [|done].
    destruct rest as [|a rest]; [done|]. simpl in Hs. by repeat case_match. }
  assert (N_of_ascii c < 256)%N as Hc by apply N_ascii_bounded.
  cbn [EncodeToString]. set (h := hex_digit _). set (l := hex_digit _).
  assert (h ≠ ":"%char) by (apply hex_digit_not_colon, N.Div0.div_lt_upper_bound; lia).
  assert (l ≠ ":"%char) by (apply hex_digit_not_colon, N.mod_lt; lia).
  change (String h (String l (EncodeToString bytes)) +:+ rest)
    with (String h (String l (EncodeToString bytes +:+ rest))).
  cbn [Split]. rewrite !decide_False by done. rewrite IH.
  by destruct (Split _ rest).
Qed.

Lemma string_app_empty_r (s : string) : s +:+ "" = s.
Proof. induction s as [|c s IH]; [done|]. change (String c (s +:+ "") = String c s). by rewrite IH. Qed.

(** A struct field no key of the object matches keeps its zero value. *)
Lemma decode_field_absent {A} (dec : json → option A) field ms zero :
  Forall (λ kv, key_matches kv.1 field = false) ms → decode_field dec field ms zero = Some zero.
Proof.
  induction 1 as [|[k v] ms Hk _ IH]; [done|]. simpl in *. by rewrite Hk.
Qed.

(** A field exactly one key matches takes the value of that key. *)
Lemma decode_field_unique {A} (dec : json → option A) field ms k v a zero :
  (∀ k' v', (k', v') ∈ ms → key_matches k' field = true → k' = k ∧ v' = v) →
  (k, v) ∈ ms → key_matches k field = true → dec v = Some a → v ≠ JNull →
  decode_field dec field ms zero = Some a.
Proof.
  intros Honly Hin Hk Hv Hnull.
  assert (∀ ms zero, (∀ k' v', (k', v') ∈ ms → key_matches k' field = true → k' = k ∧ v' = v) →
    decode_field dec field ms zero = Some zero ∨ decode_field dec field ms zero = Some a) as Hdec.
  { clear - Hv Hnull. induction ms as [|[k' v'] ms IH]; intros zero Honly; [by left|]. simpl.
    destruct (key_matches k' field) eqn:Hk'.
    - destruct (Honly k' v') as [-> ->]; [set_solver|done|].
      destruct v; try done; rewrite Hv; simpl;
        (destruct (IH a) as [->| ->]; [set_solver|by right|by right]).
    - apply IH. set_solver. }
  revert zero. induction ms as [|[k' v'] ms IH]; intros zero; [by apply elem_of_nil in Hin|].
  simpl. apply elem_of_cons in Hin as [[= <- <-]|Hin].
  - rewrite Hk. destruct (Hdec ms a) as [Ha|Ha]; [set_solver|..];
      destruct v; try done; rewrite Hv; simpl; exact Ha.
  - destruct (key_matches k' field) eqn:Hk'; [|by apply IH; [set_solver|]].
    destruct (Honly k' v') as [-> ->]; [set_solver|done|].
    destruct v; try done; rewrite Hv; simpl; (apply IH; [set_solver|done]).
Qed.

Section lemmas.
Context `{!Externals, !PasswordHash, !JWTLib, !TOTP, !FloatText}.

Lemma run_sign claims token w w' :
  run (sign claims) w = (Ret token, w') → jwt_sign claims = inr token.
Proof. unfold sign. case_match; [done|]. rewrite run_ret. by intros [= ->]. Qed.

Lemma GenerateAccessToken_Ret s uid email role mid w token w' :
  run (GenerateAccessToken s uid email role mid) w = (Ret token, w') →
  ∃ exp iat jti, jwt_sign (access_claims uid email role mid exp iat jti) = inr token.
Proof.
  intros Hrun. unfold GenerateAccessToken in Hrun. run_inv Hrun.
  apply run_sign in Hrun. eauto.
Qed.

Lemma acts_issue_tokens s user err reply : Acts unchanged (issue_tokens s user err reply).
Proof. unfold issue_tokens, GenerateAccessToken, GenerateRefreshToken, sign. acts. Qed.
End lemmas.
#[export] Hint Resolve acts_issue_tokens : acts.

(** ** Properties *)

Section properties.
Context `{!Externals, !PasswordHash, !JWTLib, !TOTP, !FloatText} (Sprint : json → string).

(** C23: a password verifies against the hash made for it, and another
    password does so exactly when Argon2 maps it to the same bytes with the
    salt that was drawn; the stored text is always well formed. *)
Theorem HashPassword_verifies password w hash w' :
  run (HashPassword password) w = (Ret hash, w') →
  VerifyPassword password hash = inr true ∧
  ∃ salt, ∀ other, VerifyPassword other hash =
    inr (bool_decide (argon2_IDKey other salt = argon2_IDKey password salt)).
Proof.
  intros Hrun. unfold HashPassword in Hrun.
  apply run_bind_Ret in Hrun as (salt & w1 & _ & Hrun). rewrite run_ret in Hrun.
  injection Hrun as <- _.
  assert (∀ other, VerifyPassword other
    (EncodeToString salt +:+ ":" +:+ EncodeToString (argon2_IDKey password salt)) =
    inr (bool_decide (argon2_IDKey other salt = argon2_IDKey password salt))) as Hall.
  { intros other. unfold VerifyPassword. rewrite Split_hex.
    change (":" +:+ EncodeToString (argon2_IDKey password salt))
      with (String ":" (EncodeToString (argon2_IDKey password salt))).
    cbn [Split]. rewrite decide_True by done.
    pose proof (Split_hex (argon2_IDKey password salt) "") as Hs.
    cbn [Split] in Hs. rewrite string_app_empty_r in Hs. rewrite Hs.
    by rewrite string_app_empty_r, !DecodeString_EncodeToString. }
  split; [rewrite Hall; by rewrite bool_decide_true|by exists salt].
Qed.

(** What a login request asks. *)
Definition login_request (req : Request) (email password : string) : Prop :=
  ∃ text v ms, rq_body req = inr text ∧ ext_json text = inr v ∧ decode_members v = Some ms ∧
    decode_field decode_string "email" ms "" = Some email ∧
    decode_field decode_string "password" ms "" = Some password.

(** C13: a login that issues tokens found the user of that e-mail, active and
    without a second factor, and the password verified against the stored
    hash. A user with a second factor is never given tokens by [Login]. *)
Theorem Login_authenticated s req w accessToken refreshToken w' :
  run (Login s req) w = (Ret (tokens_reply accessToken refreshToken), w') →
  ∃ email password id row, login_request req email password ∧
    db_users (w_db w) !! id = Some row ∧ us_Email (ur_user row) = email ∧
    us_IsActive (ur_user row) = true ∧ us_MfaEnabled (ur_user row) = false ∧
    VerifyPassword password (us_PasswordHash (ur_user row)) = inr true.
Proof.
  unfold Login. destruct (ShouldBindJSON _ _ _) as [err|[email password]] eqn:Hbind;
    [by rewrite run_ret; intros [= ?]|].
  apply ShouldBindJSON_inr in Hbind as (text & v & ms & Hbody & Hv & Hms & Hdec & _).
  intros Hrun. apply run_bind_Ret in Hrun as (r & w1 & Hauth & Hrun).
  rewrite run_attempt in Hauth.
  destruct (run (Authenticate email password) w) as [[user|e|msg] w2] eqn:Ha;
    [|injection Hauth as <- <-; rewrite run_ret in Hrun; discriminate|discriminate].
  injection Hauth as <- <-. destruct (us_MfaEnabled user) eqn:Hmfa;
    [rewrite run_ret in Hrun; discriminate|]. clear Hrun.
  unfold Authenticate in Ha. apply run_bind_Ret in Ha as (g & w3 & Hget & Ha).
  rewrite run_attempt in Hget.
  destruct (run (UserRepo_GetByEmail email) w) as [[row|e|msg] w4] eqn:Hq;
    [|injection Hget as <- <-; discriminate|discriminate]. injection Hget as <- <-.
  apply query_row_Ret in Hq as (_ & r & Hr & Hscan).
  destruct (us_IsActive row) eqn:Hact; [|discriminate]. cbn [negb] in Ha.
  destruct (VerifyPassword password (us_PasswordHash row)) as [e|[]] eqn:Hv';
    [discriminate| |discriminate]. rewrite run_ret in Ha. injection Ha as <- <-.
  injection Hscan as <-. apply head_Some_elem_of, elem_of_rows_where in Hr as [Hemail (id & Hid)].
  apply bool_decide_eq_true in Hemail. exists email, password, id, r.
  split_and!; try done. exists text, v, ms. split_and!; [done|done|done|..].
  - destruct (decode_field _ "email" _ _) as [e1|]; [|done]. simpl in Hdec.
    destruct (decode_field _ "password" _ _); [|done]. by injection Hdec as -> ->.
  - destruct (decode_field _ "email" _ _) as [e1|]; [|done]. simpl in Hdec.
    destruct (decode_field _ "password" _ _); [|done]. by injection Hdec as -> ->.
Qed.

(** The library's promise: the token made of claims parses to them, until it
    has expired. *)
Definition jwt_faithful : Prop := ∀ t claims token,
  jwt_sign claims = inr token → jwt_parse t token = inr claims ∨ ∃ msg, jwt_parse t token = inl msg.

(** What the middleware makes of an access token: no user, because it looks
    under [user_id]. *)
Lemma decode_access_claims uid email role mid exp iat jti :
  decode_Claims (access_claims uid email role mid exp iat jti) =
    Some (MkClaims "" (uuid_String mid) role (uuid_String jti)).
Proof.
  set (m := access_claims uid email role mid exp iat jti).
  assert (∀ k s, m !! k = Some (JStr s) → k ∈ ["merchant_id"; "role"; "jti"] →
    decode_field decode_string k (map_to_list m) "" = Some s) as Hfield.
  { intros k s Hk Hin. apply (decode_field_unique _ k _ k (JStr s)); try done.
    - intros k' v' Hk'%elem_of_map_to_list Hm.
      assert (k' = k) as ->; [|by simplify_eq].
      apply elem_of_list_to_map_2 in Hk'.
      repeat (apply elem_of_cons in Hin as [->|Hin];
        [repeat (apply elem_of_cons in Hk' as [[= -> _]|Hk']; [first [done|by vm_compute in Hm]|]);
         by apply elem_of_nil in Hk'|]).
      by apply elem_of_nil in Hin.
    - by apply elem_of_map_to_list.
    - repeat (apply elem_of_cons in Hin as [->|Hin]; [by vm_compute|]). by apply elem_of_nil in Hin. }
  unfold decode_Claims. cbv zeta. rewrite (decode_field_absent _ "user_id").
  - pose proof (Hfield "merchant_id" (uuid_String mid) eq_refl ltac:(compute_done)) as Hmid.
    pose proof (Hfield "role" role eq_refl ltac:(compute_done)) as Hrole.
    pose proof (Hfield "jti" (uuid_String jti) eq_refl ltac:(compute_done)) as Hjti.
    clearbody m. by rewrite Hmid, Hrole, Hjti.
  - apply Forall_forall. intros [k v] Hk%elem_of_map_to_list.
    apply elem_of_list_to_map_2 in Hk. simpl.
    repeat (apply elem_of_cons in Hk as [[= -> _]|Hk]; [done|]). by apply elem_of_nil in Hk.
Qed.

Lemma access_claims_no_user_id uid email role mid exp iat jti c :
  decode_Claims (access_claims uid email role mid exp iat jti) = Some c → cl_UserID c = "".
Proof. rewrite decode_access_claims. by intros [= <-]. Qed.

(** An access token identifies nobody to the API. It names its user in the
    claim [sub], the middleware reads [user_id]: every request it lets through
    on such a token has the empty user id, and [GET /users/me] answers 400. *)
Theorem access_token_anonymous s uid email role mid w token w1 redis req w2 req' w3 msg :
  jwt_faithful → uuid_Parse "" = inl msg →
  run (GenerateAccessToken s uid email role mid) w = (Ret token, w1) →
  bearer (GetHeader req "Authorization") = Some token →
  run (NewAuthMiddleware redis req) w2 = (Ret (inr req'), w3) →
  GetString req' "user_id" = "" ∧
  run (GetUser req') w3 = (Ret (error_reply StatusBadRequest "invalid user id"), w3).
Proof.
  intros Hjwt Hempty Htok Hbearer Hrun.
  apply GenerateAccessToken_Ret in Htok as (exp & iat & jti & Hsign).
  assert (GetString req' "user_id" = "") as Hid.
  { unfold NewAuthMiddleware in Hrun. case_decide; [by rewrite run_ret in Hrun|].
    rewrite Hbearer in Hrun. apply run_bind_Ret in Hrun as (t & w4 & _ & Hrun).
    destruct (Hjwt t _ _ Hsign) as [Hparse|[e Hparse]]; rewrite Hparse in Hrun;
      [|by rewrite run_ret in Hrun].
    destruct (decode_Claims _) as [c|] eqn:Hc; [|by rewrite run_ret in Hrun].
    apply access_claims_no_user_id in Hc.
    apply run_bind_Ret in Hrun as (revoked & w5 & _ & Hrun).
    destruct revoked; rewrite run_ret in Hrun; [done|]. injection Hrun as <- _.
    exact Hc. }
  split; [done|]. unfold GetUser. by rewrite Hid, Hempty, run_ret.
Qed.

Lemma run_UserRepo_GetByID id w row :
  db_accepts → db_users (w_db w) !! id = Some row →
  run (UserRepo_GetByID id) w =
    (Ret ((ur_user row) <| us_MerchantID := default uuid_Nil (ur_merchant_id row) |>),
     w <| w_tick := S (w_tick w) |>).
Proof. intros Hok Hrow. unfold UserRepo_GetByID. by rewrite run_query_row, Hok, Hrow. Qed.

(** With a key that signs, tokens are always made. *)
Ltac signs Hsign :=
  unfold GenerateAccessToken, GenerateRefreshToken, now, uuid_New, ask;
  repeat (rewrite run_bind, run_act; cbv beta iota); unfold sign;
  match goal with |- context [jwt_sign ?c] => destruct (Hsign c) as [token ->] end;
  rewrite run_ret; by eexists _, _.

Lemma run_GenerateAccessToken s uid email role mid w :
  (∀ claims, ∃ token, jwt_sign claims = inr token) →
  ∃ a w', run (GenerateAccessToken s uid email role mid) w = (Ret a, w').
Proof. intros Hsign. signs Hsign. Qed.

Lemma run_GenerateRefreshToken s uid w :
  (∀ claims, ∃ token, jwt_sign claims = inr token) →
  ∃ r w', run (GenerateRefreshToken s uid) w = (Ret r, w').
Proof. intros Hsign. signs Hsign. Qed.

Lemma run_issue_tokens s user err reply w :
  (∀ claims, ∃ token, jwt_sign claims = inr token) →
  ∃ a r w', run (issue_tokens s user err reply) w = (Ret (reply a r), w').
Proof.
  intros Hsign. unfold issue_tokens. rewrite run_bind, run_attempt.
  destruct (run_GenerateAccessToken s (us_ID user) (us_Email user) (us_Role user)
              (us_MerchantID user) w Hsign) as (a & w1 & ->). cbv beta iota.
  rewrite run_bind, run_attempt.
  destruct (run_GenerateRefreshToken s (us_ID user) w1 Hsign) as (r & w2 & ->).
  rewrite run_ret. eauto.
Qed.

(** C27: a refresh asks only for a token of the service that has not expired.
    Any token will do, an access token too, and one that was revoked by a logout
    or belongs to a user since deactivated: nothing of Redis and no flag of the
    user is looked at before new tokens are issued. *)
Theorem Refresh_any_token s req w token claims sub id row :
  db_accepts → (∀ claims, ∃ token, jwt_sign claims = inr token) →
  ShouldBindJSON req (λ ms, decode_field decode_string "refresh_token" ms "")
    (λ t, bool_decide (t ≠ "")) = inr token →
  jwt_parse (ext_now (w_tick w)) token = inr claims →
  claims !! "sub" = Some (JStr sub) → uuid_Parse sub = inr id →
  db_users (w_db w) !! id = Some row →
  ∃ accessToken refreshToken w',
    run (Refresh s req) w = (Ret (tokens_reply accessToken refreshToken), w').
Proof.
  intros Hok Hsign Hbind Hparse Hsub Hid Hrow. unfold Refresh. rewrite Hbind.
  rewrite run_bind, run_attempt. unfold ValidateToken, now, ask. rewrite run_bind, run_act.
  cbv beta iota. rewrite Hparse, run_ret. cbv beta iota. rewrite Hsub, Hid.
  rewrite run_bind, run_attempt.
  rewrite (run_UserRepo_GetByID id _ row Hok); [|exact Hrow]. cbv beta iota.
  by apply run_issue_tokens.
Qed.

(** The second factor is the only one. [POST /auth/mfa/verify] issues tokens
    for a user id and a valid code: no password was asked for, no login came
    before it, and the user need not be active. *)
Theorem VerifyMFA_alone s req w userID code id row secret :
  db_accepts → (∀ claims, ∃ token, jwt_sign claims = inr token) →
  ShouldBindJSON req
    (λ ms, userID ← decode_field decode_string "user_id" ms "";
           code ← decode_field decode_string "code" ms ""; Some (userID, code))
    (λ '(userID, code), bool_decide (userID ≠ "" ∧ code ≠ "")) = inr (userID, code) →
  uuid_Parse userID = inr id → db_users (w_db w) !! id = Some row →
  us_MfaSecret (ur_user row) = Some secret →
  totp_Validate (ext_now (S (w_tick w))) code secret = true →
  ∃ accessToken refreshToken w',
    run (VerifyMFA s req) w = (Ret (tokens_reply accessToken refreshToken), w').
Proof.
  intros Hok Hsign Hbind Hid Hrow Hsecret Hcode. unfold VerifyMFA. rewrite Hbind, Hid.
  rewrite run_bind, run_attempt, (run_UserRepo_GetByID id _ row Hok); [|exact Hrow].
  cbv beta iota. change (us_MfaSecret (_ <| us_MerchantID := _ |>)) with (us_MfaSecret (ur_user row)).
  rewrite Hsecret. unfold Verify, now, ask. rewrite run_bind, run_bind, run_act.
  cbv beta iota. rewrite run_ret. change (w_tick (_ <| w_tick := ?n |>)) with n.
  rewrite Hcode. cbn [negb]. rewrite run_bind, run_ignore_err.
  destruct (run (UserRepo_Update _) _) as [[]  w1] eqn:Hupd;
    [by apply run_issue_tokens..|].
  apply Safe_run in Hupd; [done|]. unfold UserRepo_Update, exec_one. safe.
Qed.

Lemma access_claims_jti uid email role mid exp iat jti c :
  decode_Claims (access_claims uid email role mid exp iat jti) = Some c →
  cl_ID c = uuid_String jti.
Proof. rewrite decode_access_claims. by intros [= <-]. Qed.

Lemma access_claims_lookup_jti uid email role mid exp iat jti :
  access_claims uid email role mid exp iat jti !! "jti" = Some (JStr (uuid_String jti)).
Proof. done. Qed.
Lemma access_claims_lookup_exp uid email role mid exp iat jti :
  access_claims uid email role mid exp iat jti !! "exp" = Some (JNum (Unix exp)).
Proof. done. Qed.

(** C24: logging out revokes the access token. While Redis answers and the clocks
    of both servers agree, every later request with that token is refused with
    401 as long as the token has not expired. *)
Theorem Logout_revokes uid email role mid exp iat jti token msg req resp w w1 req' w2 :
  (∀ n, ext_redis n = None) → (∀ n, ext_db_now n = ext_now n) →
  (∀ n m, (n ≤ m)%nat → ext_now n ≤ ext_now m) →
  let claims := access_claims uid email role mid exp iat jti in
  (∀ t, jwt_parse t token = inr claims ∨ jwt_parse t token = inl msg) →
  uuid_String jti ≠ "" → claim_int64 (JNum (Unix exp)) = Some (Unix exp) →
  bearer (GetHeader req "Authorization") = Some token →
  jwt_parse (ext_now (w_tick w)) token = inr claims →
  run (Logout Sprint true req) w = (Ret resp, w1) →
  let key := "token_blacklist:" +:+ uuid_String jti in
  w_redis w2 !! key = w_redis w1 !! key → (w_tick w1 ≤ w_tick w2)%nat →
  ext_now (S (w_tick w2)) < Unix exp * Second →
  bearer (GetHeader req' "Authorization") = Some token →
  ∃ r w3, run (NewAuthMiddleware true req') w2 = (Ret (inl r), w3) ∧
          rs_status r = StatusUnauthorized.
Proof.
  intros Hredis Hclock Hmono claims Hparse Hjti Hexp Hb Hnow Hrun key Hkey Htick Hlive Hb'.
  assert (∀ req, bearer (GetHeader req "Authorization") = Some token →
                 GetHeader req "Authorization" ≠ "") as Hne.
  { intros r Hr He. by rewrite He in Hr. }
  assert (w_redis w1 !! key = Some (MkRedisEntry 1
            (Some (ext_now (S (S (w_tick w))) + (Unix exp * Second - ext_now (S (w_tick w))))))
          ∧ (S (S (w_tick w)) ≤ w_tick w1)%nat) as [Hstored Hm].
  { unfold Logout in Hrun. rewrite decide_True in Hrun by auto. rewrite Hb in Hrun.
    rewrite !run_bind, run_attempt in Hrun. unfold ValidateToken, now, ask in Hrun.
    rewrite run_bind, run_act in Hrun. cbv beta iota in Hrun. rewrite Hnow, run_ret in Hrun.
    cbv beta iota in Hrun. unfold blacklist, claims in Hrun.
    rewrite access_claims_lookup_jti, access_claims_lookup_exp, Hexp in Hrun.
    unfold now, ask in Hrun. rewrite run_bind, run_act in Hrun.
    cbv beta iota zeta in Hrun.
    change (w_tick (w <| w_tick := S (w_tick w) |>)) with (S (w_tick w)) in Hrun.
    destruct (decide (0 < Unix exp * Second - ext_now (S (w_tick w)))) as [Hpos|Hneg].
    - rewrite run_ignore_err in Hrun. unfold redis_Set, redis_command in Hrun.
      rewrite run_act in Hrun. cbv beta in Hrun. rewrite Hredis, run_ret in Hrun.
      cbv beta iota in Hrun. injection Hrun as _ <-. simpl. rewrite Hclock.
      rewrite lookup_insert_eq. split; [done|lia].
    - rewrite !run_ret in Hrun. injection Hrun as _ <-. simpl in Htick.
      specialize (Hmono (S (w_tick w)) (S (w_tick w2)) ltac:(lia)). lia. }
  pose proof (access_claims_jti uid email role mid exp iat jti : ∀ c, decode_Claims claims = Some c → _)
    as Hid. clearbody claims.
  unfold NewAuthMiddleware. rewrite decide_False by auto. rewrite Hb', run_bind.
  unfold now, ask. rewrite run_act. cbv beta iota. set (w3 := w2 <| w_tick := S (w_tick w2) |>).
  destruct (Hparse (ext_now (w_tick w2))) as [Hp|Hp]; rewrite Hp;
    [|rewrite run_ret; by eexists _, _].
  destruct (decode_Claims claims) as [c|] eqn:Hc; [|rewrite run_ret; by eexists _, _].
  specialize (Hid _ eq_refl) as Hc'. clear Hc. rename Hc' into Hc. rewrite decide_True by (by rewrite Hc).
  rewrite run_bind, run_bind, run_attempt. unfold redis_Exists, redis_command.
  rewrite run_act. cbv beta. rewrite Hredis, Hc. fold key. cbv beta iota zeta.
  change (w_tick w3) with (S (w_tick w2)). set (w4 := w3 <| w_tick := _ |>).
  change (w_redis w4) with (w_redis w2).
  unfold redis_live. rewrite Hkey, Hstored. simpl re_expires. cbv iota.
  rewrite decide_False.
  - rewrite !run_ret. cbv beta iota. rewrite bool_decide_true by done. rewrite run_ret.
    by eexists _, _.
  - rewrite Hclock. specialize (Hmono (S (w_tick w)) (S (S (w_tick w))) (Nat.le_succ_diag_r _)).
    clear - Hmono Hlive. lia.
Qed.

(** ** The rate limit over a window *)

(** Requests answered one after the other: which of them went on. *)
Fixpoint rate_limited (rps : Z) (reqs : list Request) : M (list bool) :=
  match reqs with
  | [] => mret []
  | req :: reqs =>
      r ← RateLimit rps req;
      rest ← rate_limited rps reqs;
      mret (match r with inl _ => false | inr _ => true end :: rest)
  end.

(** [c] requests were counted in the window that Redis entered at [T]. *)
Definition counted (key : string) (T : time) (c : Z) (w : world) : Prop :=
  match w_redis w !! key with
  | None => c = 0
  | Some e => re_value e = c ∧ 0 < c ∧ ∀ x, re_expires e = Some x → T + 2 * Minute ≤ x
  end.

Lemma run_RateLimit rps req key T c w :
  (∀ n, ext_redis n = None) → (∀ n, T ≤ ext_db_now n < T + 2 * Minute) →
  (∀ n, rate_limit_key (rq_client_ip req) (ext_now n) = key) → counted key T c w →
  ∃ r w', run (RateLimit rps req) w = (Ret r, w') ∧ counted key T (c + 1) w' ∧
    match r with inl _ => rps < c + 1 | inr _ => c + 1 ≤ rps end.
Proof.
  intros Hredis Hclock Hkey Hc. unfold RateLimit, now, ask. rewrite run_bind, run_act.
  cbv beta iota zeta. rewrite Hkey. rewrite run_bind, run_attempt.
  unfold redis_Incr, redis_command. rewrite run_act. cbv beta. rewrite Hredis.
  set (w1 := w <| w_tick := _ |>). set (t := ext_db_now _). change (w_redis (w1 <| w_tick := S (w_tick w1) |>)) with (w_redis w).
  assert (T ≤ t < T + 2 * Minute) as Ht by apply Hclock. clearbody t.
  assert (∃ x, (match redis_live t (w_redis w) key with
                | Some e => (re_value e + 1, re_expires e) | None => (1, None) end) = (c + 1, x) ∧
          (∀ y, x = Some y → T + 2 * Minute ≤ y) ∧ 0 < c + 1) as (x & Hx & Hlive & Hpos).
  { unfold counted, redis_live in *. destruct (w_redis w !! key) as [[v x]|]; simpl in *.
    - destruct Hc as (-> & Hv & Hexp). exists x. split; [|split; [done|lia]].
      destruct x as [y|]; [|done]. rewrite decide_False; [done|].
      specialize (Hexp y eq_refl). lia.
    - subst c. by exists None. }
  rewrite Hx. cbv beta iota. set (w2 := _ <| w_redis := _ |>).
  assert (w_redis w2 !! key = Some (MkRedisEntry (c + 1) x)) as Hw2
    by (simpl; apply lookup_insert_eq).
  clearbody w2.
  assert (∃ w3, run (if decide (c + 1 = 1) then ignore_err (redis_Expire key (2 * Minute))
                     else mret ()) w2 = (Ret (), w3) ∧ counted key T (c + 1) w3) as (w3 & Hexp & Hw3).
  { case_decide as Hone; [|exists w2; split; [done|]; unfold counted; by rewrite Hw2].
    rewrite run_ignore_err. unfold redis_Expire, redis_command. rewrite run_act. cbv beta.
    rewrite Hredis. cbv beta iota zeta. eexists. split; [done|]. unfold counted, redis_live.
    change (w_redis (w2 <| w_tick := S (w_tick w2) |>)) with (w_redis w2). rewrite Hw2. simpl.
    specialize (Hclock (w_tick w2)).
    destruct x as [y|]; [case_decide; simpl; [by rewrite Hw2|]|];
      rewrite lookup_insert_eq; (split; [done|]; split; [done|]); intros z [= <-]; lia. }
  rewrite run_bind, Hexp. cbv beta iota.
  destruct (decide (rps < c + 1)); rewrite run_ret; (eexists _, w3; split; [done|]);
    split; [done|lia|done|lia].
Qed.

(** C25: within one minute the limiter lets exactly the first [rps] requests of
    an address through and answers all the later ones with 429, as long as Redis
    answers. *)
Theorem RateLimit_window rps reqs ip key T w :
  (∀ n, ext_redis n = None) → (∀ n, T ≤ ext_db_now n < T + 2 * Minute) →
  (∀ n, rate_limit_key ip (ext_now n) = key) → w_redis w !! key = None →
  Forall (λ req, rq_client_ip req = ip) reqs →
  ∃ w', run (rate_limited rps reqs) w =
    (Ret ((λ i, bool_decide (Z.of_nat i < rps)) <$> seq 0 (length reqs)), w').
Proof.
  intros Hredis Hclock Hkey Hnone Hips.
  assert (∀ c, counted key T (Z.of_nat c) w → ∃ w', run (rate_limited rps reqs) w =
    (Ret ((λ i, bool_decide (Z.of_nat i < rps)) <$> seq c (length reqs)), w')) as Hall.
  { clear Hnone. revert w. induction Hips as [|req reqs <- _ IH]; intros w c Hc; [by exists w|].
    cbn [rate_limited length seq fmap list_fmap]. rewrite run_bind.
    destruct (run_RateLimit rps req key T (Z.of_nat c) w Hredis Hclock Hkey Hc)
      as (r & w1 & Hrun & Hc1 & Hr). rewrite Hrun, run_bind.
    destruct (IH w1 (S c)) as (w2 & Hrest).
    { by replace (Z.of_nat (S c)) with (Z.of_nat c + 1) by lia. }
    rewrite Hrest, run_ret. exists w2. do 3 f_equal.
    destruct r; symmetry; [apply bool_decide_false|apply bool_decide_true]; lia. }
  apply (Hall 0%nat). unfold counted. by rewrite Hnone.
Qed.
End properties.

(** ** Witnesses *)

#[local] Existing Instance sample.

(** Not a hash and not a signature: the length of the password, and a token that
    names its claims by their number. *)
#[local] Instance sample_argon : PasswordHash :=
  {| argon2_IDKey := λ password salt, ascii_of_nat (String.length password) :: salt |}.

Definition sample_claims : gmap string json :=
  access_claims 7 "ann@shop.example" RoleUser uuid_Nil (sample_epoch + 900 * Second)
    (sample_epoch + Second) 3.

#[local] Instance sample_jwt : JWTLib := {|
  jwt_sign := λ claims, inr (if decide (claims = sample_claims) then "ann" else "other");
  jwt_parse := λ t token,
    if decide (token = "ann" ∧ Unix t < Unix sample_epoch + 900) then inr sample_claims
    else inl "token is expired"
|}.
#[local] Instance sample_floats : FloatText := {| parse_float := λ _, float64_of_int 0 |}.
#[local] Instance sample_totp : TOTP :=
  {| totp_Validate := λ _ code secret, bool_decide (code = "123456") |}.

Lemma sample_jwt_faithful : jwt_faithful.
Proof.
  intros t claims token. simpl. destruct (decide (claims = sample_claims)) as [->|]; intros [= <-];
    case_decide; eauto. naive_solver.
Qed.

Definition asking (headers : list (string * string)) (body : string) : Request :=
  MkRequest headers [] [] (inr body) "192.0.2.1" [].
Definition anns_request : Request := asking [("authorization", "Bearer ann")] "".

Definition ann (active mfa : bool) : UserRow :=
  MkUserRow (zero_user <| us_ID := 7%N |> <| us_Email := "ann@shop.example" |>
    <| us_PasswordHash := "00:0c00" |> <| us_Role := RoleUser |> <| us_IsActive := active |>
    <| us_MfaEnabled := mfa |> <| us_MfaSecret := Some "SECRET" |>) None.
Definition anns_world (active mfa : bool) : world :=
  world_of (empty_database <| db_users := {[7%N := ann active mfa]} |>).

(** The body of a request, as text and as the value it stands for. *)
Definition sending (v : json) : Externals :=
  sample_with (λ _ _ _, Accepted) (λ _ _, inl "no route to host") (λ _, inr v).

Lemma HashPassword_verifies_witness :
  ∃ hash w', run (HashPassword "correct horse") (world_of empty_database) = (Ret hash, w') ∧
    VerifyPassword "correct horse" hash = inr true.
Proof.
  destruct (run_returns (HashPassword "correct horse") (world_of empty_database))
    as (hash & w' & Hrun); [vm_compute; reflexivity|].
  exists hash, w'. split; [exact Hrun|]. exact (proj1 (HashPassword_verifies _ _ _ _ Hrun)).
Defined.

Definition anns_login : json :=
  JObj [("email", JStr "ann@shop.example"); ("password", JStr "open sesame!")].

Lemma Login_authenticated_witness :
  ∃ a r w', run (@Login (sending anns_login) _ _ (MkJWTService Hour day) (asking [] "")) (anns_world true false) =
      (Ret (tokens_reply a r), w') ∧
    ∃ password, VerifyPassword password (us_PasswordHash (ur_user (ann true false))) = inr true.
Proof.
  destruct (run (@Login (sending anns_login) _ _ (MkJWTService Hour day) (asking [] "")) (anns_world true false)) as [o w'] eqn:Hrun.
  assert (o = Ret (tokens_reply "other" "other")) as ->.
  { change o with (fst (o, w')). rewrite <- Hrun. vm_compute. reflexivity. }
  exists "other", "other", w'. split; [reflexivity|].
  destruct (@Login_authenticated (sending anns_login) _ _ _ _ _ _ _ _ Hrun)
    as (email & password & id & row & _ & Hrow & _ & _ & _ & Hv).
  exists password. unfold anns_world in Hrow. simpl in Hrow.
  apply lookup_singleton_Some in Hrow as [_ <-]. exact Hv.
Defined.

Definition quarter : JWTService := MkJWTService (900 * Second) day.

Lemma access_token_anonymous_witness :
  ∃ w1 req' w3, run (GenerateAccessToken quarter 7 "ann@shop.example" RoleUser uuid_Nil) (world_of empty_database)
      = (Ret "ann", w1) ∧
    run (NewAuthMiddleware true anns_request) w1 = (Ret (inr req'), w3) ∧
    GetString req' "role" = RoleUser ∧ GetString req' "user_id" = "".
Proof.
  destruct (run (GenerateAccessToken quarter 7 "ann@shop.example" RoleUser uuid_Nil) (world_of empty_database))
    as [o w1] eqn:Htok.
  assert (o = Ret "ann") as ->.
  { change o with (fst (o, w1)). rewrite <- Htok. vm_compute. reflexivity. }
  destruct (run (NewAuthMiddleware true anns_request) w1) as [o w3] eqn:Hrun.
  assert (∃ req', o = Ret (inr req') ∧ GetString req' "role" = RoleUser) as (req' & -> & Hrole).
  { change o with (fst (o, w3)). rewrite <- Hrun. change w1 with (snd (@Ret string "ann", w1)).
    rewrite <- Htok. eexists. split; vm_compute; reflexivity. }
  exists w1, req', w3. split; [reflexivity|]. split; [exact Hrun|]. split; [exact Hrole|].
  exact (proj1 (access_token_anonymous quarter 7 _ _ _ _ _ _ _ _ _ _ _ _ sample_jwt_faithful
                  (eq_refl : uuid_Parse "" = inl "invalid UUID length") Htok
                  (eq_refl : bearer (GetHeader anns_request "Authorization") = Some "ann") Hrun)).
Defined.

(** An access token, of a user since deactivated. *)
Lemma Refresh_any_token_witness :
  ∃ a r w', run (@Refresh (sending (JObj [("refresh_token", JStr "ann")])) _ quarter (asking [] ""))
              (anns_world false false) = (Ret (tokens_reply a r), w').
Proof.
  apply (@Refresh_any_token (sending (JObj [("refresh_token", JStr "ann")])) _ quarter (asking [] "")
    (anns_world false false) "ann" sample_claims "7" 7%N (ann false false)).
  - intros n db db'. reflexivity.
  - intros claims. eexists. reflexivity.
  - reflexivity.
  - reflexivity.
  - reflexivity.
  - reflexivity.
  - reflexivity.
Defined.

Definition anns_code : json := JObj [("user_id", JStr "7"); ("code", JStr "123456")].
Lemma VerifyMFA_alone_witness :
  ∃ a r w', run (@VerifyMFA (sending anns_code) _ _ quarter (asking [] ""))
              (anns_world false true) = (Ret (tokens_reply a r), w').
Proof.
  apply (@VerifyMFA_alone (sending anns_code) _ _ quarter (asking [] "")
    (anns_world false true) "7" "123456" 7%N (ann false true) "SECRET").
  - intros n db db'. reflexivity.
  - intros claims. eexists. reflexivity.
  - reflexivity.
  - reflexivity.
  - reflexivity.
  - reflexivity.
  - reflexivity.
Defined.

Lemma Logout_revokes_witness :
  let w1 := (run (Logout (λ _, "") true anns_request) (world_of empty_database)).2 in
  ∃ r w3, run (NewAuthMiddleware true anns_request) w1 = (Ret (inl r), w3) ∧
          rs_status r = StatusUnauthorized.
Proof.
  intros w1. destruct (run (Logout (λ _, "") true anns_request) (world_of empty_database)) as [o w'] eqn:Hrun.
  assert (∃ resp, o = Ret resp ∧ w_tick w' = 3%nat) as (resp & -> & Htick).
  { change o with (fst (o, w')). change w' with (snd (o, w')) at 2. rewrite <- Hrun.
    eexists. split; vm_compute; reflexivity. }
  assert (w1 = w') as Hw1 by reflexivity. clearbody w1. subst w1.
  apply (Logout_revokes (λ _, "") 7 "ann@shop.example" RoleUser uuid_Nil
    (sample_epoch + 900 * Second) (sample_epoch + Second) 3 "ann" "token is expired"
    anns_request resp (world_of empty_database) w' anns_request w').
  - reflexivity.
  - reflexivity.
  - intros n m Hnm. simpl. unfold Second. lia.
  - intros t. simpl. case_decide; [left|right]; reflexivity.
  - vm_compute. discriminate.
  - vm_compute. reflexivity.
  - reflexivity.
  - vm_compute. reflexivity.
  - exact Hrun.
  - reflexivity.
  - reflexivity.
  - rewrite Htick. vm_compute. reflexivity.
  - reflexivity.
Defined.

(** A clock that stands still: four requests, of which two are let through. *)
Definition still : Externals := {|
  ext_now := λ _, sample_epoch; ext_db_now := λ _, sample_epoch; ext_uuid := ext_uuid;
  ext_rand := ext_rand; ext_db := ext_db; ext_locked := ext_locked; ext_rows := ext_rows;
  ext_publish := ext_publish; ext_http := ext_http; ext_redis := ext_redis;
  ext_json := ext_json; uuid_String := uuid_String; uuid_Parse := uuid_Parse;
  pg_uuid_in := pg_uuid_in; ext_order := ext_order
|}.

Lemma RateLimit_window_witness :
  ∃ w', run (@rate_limited still 2 (replicate 4 anns_request)) (world_of empty_database) =
    (Ret [true; true; false; false], w').
Proof.
  destruct (@RateLimit_window still 2 (replicate 4 anns_request) "192.0.2.1"
    (rate_limit_key "192.0.2.1" sample_epoch) sample_epoch (world_of empty_database)) as (w' & Hrun).
  - reflexivity.
  - intros n. vm_compute. split; [discriminate|reflexivity].
  - reflexivity.
  - reflexivity.
  - repeat constructor.
  - exists w'. exact Hrun.
Defined.
