(* ===== verification/PaymentHandlers.v ===== *)
(** The handlers of payments, subscriptions, invoices, payouts and disputes:
    [internal/handler/payment.go], [subscription.go], [invoice.go],
    [payout.go] and [dispute.go]. *)

From S2P Require Import Prelude GoInt GoTime Pagination TimeParse GoJson Model Errors World Effects Logic.
From S2P Require Import History RepoHistory EventBus Provider PaymentSvc SubscriptionSvc.
From S2P Require Import InvoiceSvc CatalogSvc Http.

Open Scope Z_scope.

Section handlers.
Context `{!Externals, !Crypto} (bus : EventBus) (providers : Factory).

(** ** payment.go *)

(** The body of a payment: customer, method, amount, currency and key. *)
Definition decode_payment (ms : list (string * json)) : option (string * string * Z * string * string) :=
  customer ← decode_field decode_string "customer_id" ms "";
  pm ← decode_field decode_string "payment_method_id" ms "";
  amount ← decode_field decode_int64 "amount" ms 0;
  currency ← decode_field decode_string "currency" ms "";
  key ← decode_field decode_string "idempotency_key" ms "";
  Some (customer, pm, amount, currency, key).

Definition PaymentHandler_ProcessPayment (req : Request) : M Response :=
  with_param req "merchantId" "invalid merchant id" (λ merchantID,
  bound req decode_payment
    (λ '(customer, pm, amount, currency, _),
      bool_decide (customer ≠ "" ∧ pm ≠ "" ∧ 0 < amount ∧ currency ≠ ""))
    (λ '(customer, pm, amount, currency, key),
  parsed customer "invalid customer id" (λ customerID,
  parsed pm "invalid payment method id" (λ pmID,
  tried (PaymentService_ProcessPayment bus providers merchantID customerID pmID amount currency key)
    (λ err, error_reply StatusInternalServerError (Error err))
    (λ tx, mret (MkResponse StatusCreated (VTransaction tx))))))).

Definition PaymentHandler_ListTransactions (req : Request) : M Response :=
  with_param req "merchantId" "invalid merchant id" (λ merchantID,
  tried (PaymentService_ListTransactions merchantID (query_page (Query req "page"))
           (query_page_size (Query req "page_size")))
    (λ err, error_reply StatusInternalServerError (Error err))
    (λ '(txns, total), mret (MkResponse StatusOK
      (VObj [("transactions", VList (map VTransaction txns)); ("total", VJson (JNum total))])))).

Definition PaymentHandler_GetTransaction (req : Request) : M Response :=
  with_param req "transactionId" "invalid transaction id" (λ id,
  replied (PaymentService_GetTransaction id) StatusNotFound "transaction not found"
    (λ tx, MkResponse StatusOK (VTransaction tx))).

(** The merchant of the path is parsed, and used for nothing. *)
Definition PaymentHandler_CreateRefund (req : Request) : M Response :=
  with_param req "merchantId" "invalid merchant id" (λ _,
  bound req
    (λ ms, tx ← decode_field decode_string "transaction_id" ms "";
           amount ← decode_field decode_int64 "amount" ms 0;
           reason ← decode_field decode_string "reason" ms "";
           Some (tx, amount, reason))
    (λ '(tx, amount, _), bool_decide (tx ≠ "" ∧ 0 < amount))
    (λ '(tx, amount, reason),
  parsed tx "invalid transaction id" (λ txID,
  replied (PaymentService_Refund bus providers txID amount reason)
    StatusInternalServerError "refund failed"
    (λ refund, MkResponse StatusCreated (VTransaction refund))))).

(** ** subscription.go *)

Definition known_interval (interval : SubscriptionInterval) : bool :=
  bool_decide (interval ∈ [SubscriptionIntervalDay; SubscriptionIntervalWeek;
                           SubscriptionIntervalMonth; SubscriptionIntervalYear]).

Record CreateSubscriptionRequest := MkCreateSubscriptionRequest {
  cs_CustomerID : string; cs_Amount : Z; cs_Currency : string; cs_Interval : string;
  cs_IntervalCount : Z; cs_PlanID : string; cs_Provider : string
}.

Definition decode_CreateSubscription (ms : list (string * json))
    : option CreateSubscriptionRequest :=
  customer ← decode_field decode_string "customer_id" ms "";
  amount ← decode_field decode_int64 "amount" ms 0;
  currency ← decode_field decode_string "currency" ms "";
  interval ← decode_field decode_string "interval" ms "";
  count ← decode_field decode_int16 "interval_count" ms 0;
  plan ← decode_field decode_string "plan_id" ms "";
  provider ← decode_field decode_string "provider" ms "";
  Some (MkCreateSubscriptionRequest customer amount currency interval count plan provider).

Definition SubscriptionHandler_CreateSubscription (req : Request) : M Response :=
  with_param req "merchantId" "invalid merchant id" (λ merchantID,
  bound req decode_CreateSubscription
    (λ b, bool_decide (cs_CustomerID b ≠ "" ∧ 0 < cs_Amount b ∧ cs_Currency b ≠ "" ∧
                       cs_Interval b ≠ ""))
    (λ b,
  parsed (cs_CustomerID b) "invalid customer id" (λ customerID,
  let count := if decide (cs_IntervalCount b ≤ 0) then 1 else cs_IntervalCount b in
  if negb (known_interval (cs_Interval b))
  then mret (error_reply StatusBadRequest "invalid interval")
  else
    replied (CreateSubscription bus merchantID customerID (cs_Amount b) (cs_Currency b)
               (cs_Interval b) count (cs_PlanID b) (cs_Provider b))
      StatusInternalServerError "failed to create subscription"
      (λ sub, MkResponse StatusCreated (VSubscription sub))))).

Definition SubscriptionHandler_ListSubscriptions (req : Request) : M Response :=
  with_param req "merchantId" "invalid merchant id" (λ merchantID,
  listed req (ListSubscriptions merchantID) "failed to list subscriptions"
    "subscriptions" VSubscription).

Definition SubscriptionHandler_GetSubscription (req : Request) : M Response :=
  with_param req "subscriptionId" "invalid subscription id" (λ id,
  replied (GetSubscription id) StatusNotFound "subscription not found"
    (λ sub, MkResponse StatusOK (VSubscription sub))).

Definition SubscriptionHandler_UpdateSubscription (req : Request) : M Response :=
  with_param req "subscriptionId" "invalid subscription id" (λ id,
  bound req
    (λ ms, amount ← decode_nullable decode_int64 "amount" ms None;
           currency ← decode_nullable decode_string "currency" ms None;
           interval ← decode_nullable decode_string "interval" ms None;
           count ← decode_nullable decode_int16 "interval_count" ms None;
           Some (amount, currency, interval, count))
    (λ _, true)
    (λ '(amount, currency, interval, count),
  if match interval with Some v => negb (known_interval v) | None => false end
  then mret (error_reply StatusBadRequest "invalid interval")
  else
    replied (UpdateSubscription bus id amount currency interval count)
      StatusInternalServerError "failed to update subscription"
      (λ sub, MkResponse StatusOK (VSubscription sub)))).

Definition SubscriptionHandler_CancelSubscription (req : Request) : M Response :=
  with_param req "subscriptionId" "invalid subscription id" (λ id,
  replied (CancelSubscription bus id) StatusInternalServerError "failed to cancel subscription"
    (λ sub, MkResponse StatusOK (VSubscription sub))).

(** ** invoice.go *)

Record CreateInvoiceRequest := MkCreateInvoiceRequest {
  ci_CustomerID : string; ci_SubscriptionID : option string; ci_Amount : Z;
  ci_Currency : string; ci_Provider : string; ci_DueDate : string; ci_PeriodStart : string;
  ci_PeriodEnd : string
}.

Definition decode_CreateInvoice (ms : list (string * json)) : option CreateInvoiceRequest :=
  customer ← decode_field decode_string "customer_id" ms "";
  subscription ← decode_nullable decode_string "subscription_id" ms None;
  amount ← decode_field decode_int64 "amount" ms 0;
  currency ← decode_field decode_string "currency" ms "";
  provider ← decode_field decode_string "provider" ms "";
  due ← decode_field decode_string "due_date" ms "";
  start ← decode_field decode_string "period_start" ms "";
  stop ← decode_field decode_string "period_end" ms "";
  Some (MkCreateInvoiceRequest customer subscription amount currency provider due start stop).

(** An RFC 3339 field of the body. *)
Definition parsed_time (s msg : string) (k : time → M Response) : M Response :=
  match time_Parse_RFC3339 s with
  | None => mret (error_reply StatusBadRequest msg)
  | Some t => k t
  end.

Definition parsed_option (s : option string) (msg : string) (k : option uuid → M Response)
    : M Response :=
  match s with None => k None | Some s => parsed s msg (λ id, k (Some id)) end.

Definition InvoiceHandler_CreateInvoice (req : Request) : M Response :=
  with_param req "merchantId" "invalid merchant id" (λ merchantID,
  bound req decode_CreateInvoice
    (λ b, bool_decide (ci_CustomerID b ≠ "" ∧ 0 < ci_Amount b ∧ ci_Currency b ≠ "" ∧
                       ci_DueDate b ≠ "" ∧ ci_PeriodStart b ≠ "" ∧ ci_PeriodEnd b ≠ ""))
    (λ b,
  parsed (ci_CustomerID b) "invalid customer id" (λ customerID,
  parsed_option (ci_SubscriptionID b) "invalid subscription id" (λ subscriptionID,
  parsed_time (ci_PeriodStart b) "invalid period_start" (λ periodStart,
  parsed_time (ci_PeriodEnd b) "invalid period_end" (λ periodEnd,
  parsed_time (ci_DueDate b) "invalid due_date" (λ dueDate,
  replied (CreateInvoice bus merchantID customerID subscriptionID (ci_Amount b) (ci_Currency b)
             (ci_Provider b) dueDate periodStart periodEnd)
    StatusInternalServerError "failed to create invoice"
    (λ inv, MkResponse StatusCreated (VInvoice inv))))))))).

Definition InvoiceHandler_ListInvoices (req : Request) : M Response :=
  with_param req "merchantId" "invalid merchant id" (λ merchantID,
  listed req (ListInvoices merchantID) "failed to list invoices" "invoices" VInvoice).

Definition InvoiceHandler_GetInvoice (req : Request) : M Response :=
  with_param req "invoiceId" "invalid invoice id" (λ id,
  replied (GetInvoice id) StatusNotFound "invoice not found"
    (λ inv, MkResponse StatusOK (VInvoice inv))).

(** ** payout.go *)

Definition PayoutHandler_CreatePayout (req : Request) : M Response :=
  with_param req "merchantId" "invalid merchant id" (λ merchantID,
  bound req
    (λ ms, provider ← decode_field decode_string "provider" ms "";
           amount ← decode_field decode_int64 "amount" ms 0;
           currency ← decode_field decode_string "currency" ms "";
           method ← decode_field decode_string "method" ms "";
           Some (provider, amount, currency, method))
    (λ '(provider, amount, currency, _),
      bool_decide (provider ≠ "" ∧ 0 < amount ∧ currency ≠ ""))
    (λ '(provider, amount, currency, method),
  let method := if decide (method = "") then PayoutMethodStandard else method in
  replied (CreatePayout bus merchantID provider currency amount method)
    StatusInternalServerError "failed to create payout"
    (λ payout, MkResponse StatusCreated (VPayout payout)))).

Definition PayoutHandler_GetPayout (req : Request) : M Response :=
  with_param req "payoutId" "invalid payout id" (λ id,
  replied (GetPayout id) StatusNotFound "payout not found"
    (λ payout, MkResponse StatusOK (VPayout payout))).

Definition PayoutHandler_ListPayouts (req : Request) : M Response :=
  with_param req "merchantId" "invalid merchant id" (λ merchantID,
  listed req (ListPayouts merchantID) "failed to list payouts" "payouts" VPayout).

(** ** dispute.go *)

Definition DisputeHandler_CreateDispute (req : Request) : M Response :=
  with_param req "merchantId" "invalid merchant id" (λ merchantID,
  bound req
    (λ ms, tx ← decode_field decode_string "transaction_id" ms "";
           provider ← decode_field decode_string "provider" ms "";
           reason ← decode_field decode_string "reason" ms "";
           amount ← decode_field decode_int64 "amount" ms 0;
           Some (tx, provider, reason, amount))
    (λ '(tx, provider, reason, amount),
      bool_decide (tx ≠ "" ∧ provider ≠ "" ∧ reason ≠ "" ∧ 0 < amount))
    (λ '(tx, provider, reason, amount),
  parsed tx "invalid transaction id" (λ txID,
  replied (CreateDispute bus merchantID txID provider reason amount)
    StatusInternalServerError "failed to create dispute"
    (λ dispute, MkResponse StatusCreated (VDispute dispute))))).

Definition DisputeHandler_GetDispute (req : Request) : M Response :=
  with_param req "disputeId" "invalid dispute id" (λ id,
  replied (GetDispute id) StatusNotFound "dispute not found"
    (λ dispute, MkResponse StatusOK (VDispute dispute))).

Definition DisputeHandler_ListDisputes (req : Request) : M Response :=
  with_param req "merchantId" "invalid merchant id" (λ merchantID,
  listed req (ListDisputes merchantID) "failed to list disputes" "disputes" VDispute).

Definition DisputeHandler_AddEvidence (req : Request) : M Response :=
  with_param req "disputeId" "invalid dispute id" (λ disputeID,
  bound req (λ ms, decode_field decode_string "evidence_url" ms "")
    (λ url, bool_decide (url ≠ ""))
    (λ url,
  replied (AddEvidence bus disputeID url) StatusInternalServerError "failed to add evidence"
    (λ dispute, MkResponse StatusOK (VDispute dispute)))).
End handlers.
