(* ===== verification/AccountHandlers.v ===== *)
(** The handlers over accounts and their settings: [merchant.go],
    [customer.go], [provider.go], [payment_method.go], [webhook.go],
    [webhook_delivery.go], [product.go], [user.go] and [audit.go] of
    [internal/handler]. *)

From S2P Require Import Prelude GoInt GoTime Pagination GoJson Model Errors World Effects Logic.
From S2P Require Import History Repository RepoPayments RepoAccounts RepoHistory EventBus Provider.
From S2P Require Import CatalogSvc WebhookSvc Http Auth Sample.

Open Scope Z_scope.

(** [if new != "" { field = new }]. *)
Definition override (new old : string) : string := if decide (new = "") then old else new.
Definition override_raw (new : option string) (old : RawMessage) : RawMessage :=
  match new with None => old | Some _ => new end.

Definition message_reply (msg : string) : Response :=
  MkResponse StatusOK (JObj [("message", JStr msg)]).

Definition zero_merchant : Merchant :=
  MkMerchant uuid_Nil "" "" "" "" "" "" "" "" "" "" "" None None time_zero time_zero None.
Definition zero_customer : Customer :=
  MkCustomer uuid_Nil uuid_Nil "" "" "" "" None time_zero time_zero None.
Definition zero_provider_config : ProviderConfig :=
  MkProviderConfig uuid_Nil uuid_Nil "" false None 0 "" None None time_zero time_zero.
Definition zero_webhook_config : WebhookConfig :=
  MkWebhookConfig uuid_Nil uuid_Nil "" "" [] false None time_zero time_zero.
Definition zero_product : Product :=
  MkProduct "" "" "" "" 0 "" "" None time_zero time_zero None.

Section handlers.
Context `{!Externals, !Validator}.

(** ** merchant.go *)

Definition decode_CreateMerchant (ms : list (string * json)) : option Merchant :=
  legal ← decode_field decode_string "legal_name" ms "";
  trade ← decode_field decode_string "trade_name" ms "";
  email ← decode_field decode_string "email" ms "";
  phone ← decode_field decode_string "phone" ms "";
  country ← decode_field decode_string "country" ms "";
  currency ← decode_field decode_string "currency" ms "";
  Some (zero_merchant <| me_LegalName := legal |> <| me_TradeName := trade |>
    <| me_Email := email |> <| me_Phone := phone |> <| me_Country := country |>
    <| me_Currency := currency |>).

(** No slug is set. *)
Definition MerchantHandler_CreateMerchant (req : Request) : M Response :=
  bound req decode_CreateMerchant
    (λ m, bool_decide (me_LegalName m ≠ "" ∧ me_Email m ≠ "" ∧ me_Country m ≠ "" ∧
                       me_Currency m ≠ "") && valid_email (me_Email m))
    (λ m,
  id ← uuid_New;
  let merchant := m <| me_ID := id |> <| me_Status := MerchantStatusPending |>
                    <| me_KycStatus := KycStatusPending |> in
  replied (MerchantRepo_Create merchant) StatusInternalServerError "failed to create merchant"
    (λ merchant, MkResponse StatusCreated (VMerchant merchant))).

Definition MerchantHandler_ListMerchants (req : Request) : M Response :=
  replied (MerchantRepo_List 1 20) StatusInternalServerError "failed to list merchants"
    (λ '(merchants, total), MkResponse StatusOK
      (VObj [("merchants", VList (map VMerchant merchants)); ("total", VJson (JNum total))])).

Definition MerchantHandler_GetMerchant (req : Request) : M Response :=
  with_param req "merchantId" "invalid merchant id" (λ id,
  replied (MerchantRepo_GetByID id) StatusNotFound "merchant not found"
    (λ merchant, MkResponse StatusOK (VMerchant merchant))).

(** The body of an update: empty strings and absent values change nothing. *)
Record UpdateMerchantRequest := MkUpdateMerchantRequest {
  um_LegalName : string; um_TradeName : string; um_Email : string; um_Phone : string;
  um_Status : string; um_KycStatus : string; um_Country : string; um_Currency : string;
  um_Timezone : string; um_Branding : option string; um_Settings : option string
}.

Definition decode_UpdateMerchant (ms : list (string * json)) : option UpdateMerchantRequest :=
  legal ← decode_field decode_string "legal_name" ms "";
  trade ← decode_field decode_string "trade_name" ms "";
  email ← decode_field decode_string "email" ms "";
  phone ← decode_field decode_string "phone" ms "";
  status ← decode_field decode_string "status" ms "";
  kyc ← decode_field decode_string "kyc_status" ms "";
  country ← decode_field decode_string "country" ms "";
  currency ← decode_field decode_string "currency" ms "";
  timezone ← decode_field decode_string "timezone" ms "";
  Some (MkUpdateMerchantRequest legal trade email phone status kyc country currency timezone
          (decode_raw "branding" ms None) (decode_raw "settings" ms None)).

Definition merged_merchant (b : UpdateMerchantRequest) (m : Merchant) : Merchant :=
  m <| me_LegalName := override (um_LegalName b) (me_LegalName m) |>
    <| me_TradeName := override (um_TradeName b) (me_TradeName m) |>
    <| me_Email := override (um_Email b) (me_Email m) |>
    <| me_Phone := override (um_Phone b) (me_Phone m) |>
    <| me_Status := override (um_Status b) (me_Status m) |>
    <| me_KycStatus := override (um_KycStatus b) (me_KycStatus m) |>
    <| me_Country := override (um_Country b) (me_Country m) |>
    <| me_Currency := override (um_Currency b) (me_Currency m) |>
    <| me_Timezone := override (um_Timezone b) (me_Timezone m) |>
    <| me_Branding := override_raw (um_Branding b) (me_Branding m) |>
    <| me_Settings := override_raw (um_Settings b) (me_Settings m) |>.

Definition MerchantHandler_UpdateMerchant (req : Request) : M Response :=
  with_param req "merchantId" "invalid merchant id" (λ id,
  bound req decode_UpdateMerchant (λ _, true) (λ b,
  tried (MerchantRepo_GetByID id) (λ _, error_reply StatusNotFound "merchant not found")
    (λ merchant,
  if decide (um_Country b ≠ "" ∧ String.length (um_Country b) ≠ 2%nat)
  then mret (error_reply StatusBadRequest "country must be a 2-letter code")
  else if decide (um_Currency b ≠ "" ∧ String.length (um_Currency b) ≠ 3%nat)
  then mret (error_reply StatusBadRequest "currency must be a 3-letter code")
  else
    let merchant := merged_merchant b merchant in
    replied (MerchantRepo_Update merchant) StatusInternalServerError "failed to update merchant"
      (λ _, MkResponse StatusOK (VMerchant merchant))))).

(** ** customer.go *)

Definition decode_contact (ms : list (string * json)) : option (string * string * string) :=
  name ← decode_field decode_string "name" ms "";
  email ← decode_field decode_string "email" ms "";
  phone ← decode_field decode_string "phone" ms "";
  Some (name, email, phone).

Definition CustomerHandler_CreateCustomer (req : Request) : M Response :=
  with_param req "merchantId" "invalid merchant id" (λ merchantID,
  bound req decode_contact
    (λ '(name, email, _), bool_decide (name ≠ "" ∧ email ≠ "") && valid_email email)
    (λ '(name, email, phone),
  id ← uuid_New;
  let customer := zero_customer <| cu_ID := id |> <| cu_MerchantID := merchantID |>
    <| cu_Name := name |> <| cu_Email := email |> <| cu_Phone := phone |>
    <| cu_Metadata := Some "{}" |> in
  replied (CustomerRepo_Create customer) StatusInternalServerError "failed to create customer"
    (λ _, MkResponse StatusCreated (VCustomer customer)))).

Definition CustomerHandler_ListCustomers (req : Request) : M Response :=
  with_param req "merchantId" "invalid merchant id" (λ merchantID,
  replied (CustomerRepo_ListByMerchant merchantID 1 20)
    StatusInternalServerError "failed to list customers"
    (λ '(customers, total), MkResponse StatusOK
      (VObj [("customers", VList (map VCustomer customers)); ("total", VJson (JNum total))]))).

(** The payment methods are left out when they cannot be read. *)
Definition CustomerHandler_GetCustomer (req : Request) : M Response :=
  with_param req "customerId" "invalid customer id" (λ id,
  tried (CustomerRepo_GetByID id) (λ _, error_reply StatusNotFound "customer not found")
    (λ customer,
  methods ← attempt (PaymentMethodRepo_ListByCustomer id);
  mret (MkResponse StatusOK (VObj [("customer", VCustomer customer);
    ("payment_methods", VList (map VPaymentMethod
      match methods with inl _ => [] | inr l => l end))])))).

Definition CustomerHandler_UpdateCustomer (req : Request) : M Response :=
  with_param req "customerId" "invalid customer id" (λ id,
  bound req decode_contact (λ _, true) (λ '(name, email, phone),
  tried (CustomerRepo_GetByID id) (λ _, error_reply StatusNotFound "customer not found")
    (λ customer,
  let customer := customer <| cu_Name := override name (cu_Name customer) |>
    <| cu_Email := override email (cu_Email customer) |>
    <| cu_Phone := override phone (cu_Phone customer) |> in
  replied (CustomerRepo_Update customer) StatusInternalServerError "failed to update customer"
    (λ _, MkResponse StatusOK (VCustomer customer))))).

(** ** provider.go *)

Definition ProviderHandler_CreateProvider (req : Request) : M Response :=
  with_param req "merchantId" "invalid merchant id" (λ merchantID,
  bound req
    (λ ms, provider ← decode_field decode_string "provider" ms "";
           active ← decode_field decode_bool "is_active" ms false;
           order ← decode_field decode_int16 "fallback_order" ms 0;
           Some (provider, decode_raw "config" ms None, active, order))
    (λ '(provider, _, _, _), bool_decide (provider ≠ ""))
    (λ '(provider, config, active, order),
  id ← uuid_New;
  let pc := zero_provider_config <| pc_ID := id |> <| pc_MerchantID := merchantID |>
    <| pc_Provider := provider |> <| pc_IsActive := active |> <| pc_Config := config |>
    <| pc_FallbackOrder := order |> <| pc_HealthStatus := HealthStatusHealthy |> in
  replied (ProviderConfigRepo_Create pc)
    StatusInternalServerError "failed to create provider config"
    (λ _, MkResponse StatusCreated (VProviderConfig pc)))).

Definition ProviderHandler_ListProviders (req : Request) : M Response :=
  with_param req "merchantId" "invalid merchant id" (λ merchantID,
  replied (ProviderConfigRepo_ListByMerchant merchantID)
    StatusInternalServerError "failed to list providers"
    (λ l, MkResponse StatusOK (VObj [("providers", VList (map VProviderConfig l))]))).

Definition ProviderHandler_GetProvider (req : Request) : M Response :=
  with_param req "providerId" "invalid provider id" (λ id,
  replied (ProviderConfigRepo_GetByID id) StatusNotFound "provider not found"
    (λ pc, MkResponse StatusOK (VProviderConfig pc))).

Definition ProviderHandler_UpdateProvider (req : Request) : M Response :=
  with_param req "providerId" "invalid provider id" (λ id,
  bound req
    (λ ms, active ← decode_nullable decode_bool "is_active" ms None;
           order ← decode_nullable decode_int16 "fallback_order" ms None;
           health ← decode_nullable decode_string "health_status" ms None;
           Some (decode_raw "config" ms None, active, order, health))
    (λ _, true)
    (λ '(config, active, order, health),
  tried (ProviderConfigRepo_GetByID id) (λ _, error_reply StatusNotFound "provider not found")
    (λ pc,
  let pc := pc <| pc_Config := override_raw config (pc_Config pc) |>
    <| pc_IsActive := default (pc_IsActive pc) active |>
    <| pc_FallbackOrder := default (pc_FallbackOrder pc) order |>
    <| pc_HealthStatus := default (pc_HealthStatus pc) health |> in
  replied (ProviderConfigRepo_Update pc) StatusInternalServerError "failed to update provider"
    (λ _, MkResponse StatusOK (VProviderConfig pc))))).

Definition ProviderHandler_DeleteProvider (req : Request) : M Response :=
  with_param req "providerId" "invalid provider id" (λ id,
  replied (ProviderConfigRepo_Delete id) StatusInternalServerError "failed to delete provider"
    (λ _, message_reply "provider deleted")).

(** ** payment_method.go *)

Definition decode_PaymentMethod (ms : list (string * json)) : option (string * PaymentMethod) :=
  customer ← decode_field decode_string "customer_id" ms "";
  type ← decode_field decode_string "type" ms "";
  provider ← decode_field decode_string "provider" ms "";
  token ← decode_field decode_string "provider_token" ms "";
  last4 ← decode_field decode_string "last4" ms "";
  fingerprint ← decode_field decode_string "fingerprint" ms "";
  brand ← decode_field decode_string "brand" ms "";
  month ← decode_field decode_int16 "exp_month" ms 0;
  year ← decode_field decode_int16 "exp_year" ms 0;
  is_default ← decode_field decode_bool "is_default" ms false;
  Some (customer, MkPaymentMethod uuid_Nil uuid_Nil uuid_Nil type provider token fingerprint brand
    last4 month year is_default (Some (default "{}" (decode_raw "metadata" ms None)))
    time_zero time_zero).

Definition PaymentMethodHandler_CreatePaymentMethod (req : Request) : M Response :=
  with_param req "merchantId" "invalid merchant id" (λ merchantID,
  bound req decode_PaymentMethod
    (λ '(customer, pm), bool_decide (customer ≠ "" ∧ pm_Type pm ≠ "" ∧ pm_Provider pm ≠ "" ∧
                                     pm_ProviderToken pm ≠ ""))
    (λ '(customer, pm),
  parsed customer "invalid customer id" (λ customerID,
  id ← uuid_New;
  let pm := pm <| pm_ID := id |> <| pm_CustomerID := customerID |>
               <| pm_MerchantID := merchantID |> in
  replied (PaymentMethodRepo_Create pm) StatusInternalServerError "failed to create payment method"
    (λ _, MkResponse StatusCreated (VPaymentMethod pm))))).

Definition PaymentMethodHandler_ListPaymentMethods (req : Request) : M Response :=
  let customerIDStr := default "" (Query req "customer_id") in
  if decide (customerIDStr = "")
  then mret (error_reply StatusBadRequest "customer_id query param is required")
  else
    parsed customerIDStr "invalid customer id" (λ customerID,
    replied (PaymentMethodRepo_ListByCustomer customerID)
      StatusInternalServerError "failed to list payment methods"
      (λ l, MkResponse StatusOK (VObj [("payment_methods", VList (map VPaymentMethod l))]))).

Definition PaymentMethodHandler_GetPaymentMethod (req : Request) : M Response :=
  with_param req "paymentMethodId" "invalid payment method id" (λ id,
  replied (PaymentMethodRepo_GetByID id) StatusNotFound "payment method not found"
    (λ pm, MkResponse StatusOK (VPaymentMethod pm))).

Definition PaymentMethodHandler_DeletePaymentMethod (req : Request) : M Response :=
  with_param req "paymentMethodId" "invalid payment method id" (λ id,
  replied (PaymentMethodRepo_Delete id)
    StatusInternalServerError "failed to delete payment method"
    (λ _, message_reply "payment method deleted")).

(** ** webhook.go *)

Definition WebhookHandler_CreateWebhook (req : Request) : M Response :=
  with_param req "merchantId" "invalid merchant id" (λ merchantID,
  bound req
    (λ ms, url ← decode_field decode_string "url" ms "";
           secret ← decode_field decode_string "secret" ms "";
           events ← decode_nullable decode_strings "events" ms None;
           active ← decode_field decode_bool "is_active" ms false;
           Some (url, secret, events, active))
    (λ '(url, _, events, _), bool_decide (url ≠ "" ∧ events ≠ None))
    (λ '(url, secret, events, active),
  let config := zero_webhook_config <| wc_MerchantID := merchantID |> <| wc_URL := url |>
    <| wc_Secret := secret |> <| wc_Events := default [] events |> <| wc_IsActive := active |> in
  replied (CreateWebhook config) StatusInternalServerError "failed to create webhook"
    (λ config, MkResponse StatusCreated (VWebhookConfig config)))).

Definition WebhookHandler_GetWebhook (req : Request) : M Response :=
  with_param req "webhookId" "invalid webhook id" (λ id,
  replied (GetWebhook id) StatusNotFound "webhook not found"
    (λ config, MkResponse StatusOK (VWebhookConfig config))).

Definition WebhookHandler_ListWebhooks (req : Request) : M Response :=
  with_param req "merchantId" "invalid merchant id" (λ merchantID,
  replied (ListWebhooks merchantID) StatusInternalServerError "failed to list webhooks"
    (λ l, MkResponse StatusOK (VObj [("webhooks", VList (map VWebhookConfig l));
                                     ("total", VJson (JNum (Z.of_nat (length l))))]))).

(** The webhook of the path, if it is of the merchant of the path. *)
Definition with_webhook (req : Request) (k : uuid → WebhookConfig → M Response) : M Response :=
  with_param req "merchantId" "invalid merchant id" (λ merchantID,
  with_param req "webhookId" "invalid webhook id" (λ webhookID,
  tried (GetWebhook webhookID) (λ _, error_reply StatusNotFound "webhook not found")
    (λ existing,
  if decide (wc_MerchantID existing ≠ merchantID)
  then mret (error_reply StatusNotFound "webhook not found")
  else k webhookID existing))).

Definition WebhookHandler_UpdateWebhook (req : Request) : M Response :=
  with_webhook req (λ _ existing,
  bound req
    (λ ms, url ← decode_field decode_string "url" ms "";
           secret ← decode_field decode_string "secret" ms "";
           events ← decode_nullable decode_strings "events" ms None;
           active ← decode_nullable decode_bool "is_active" ms None;
           Some (url, secret, events, active))
    (λ _, true)
    (λ '(url, secret, events, active),
  let config := existing <| wc_URL := override url (wc_URL existing) |>
    <| wc_Secret := override secret (wc_Secret existing) |>
    <| wc_Events := default (wc_Events existing) events |>
    <| wc_IsActive := default (wc_IsActive existing) active |> in
  replied (UpdateWebhook config) StatusInternalServerError "failed to update webhook"
    (λ config, MkResponse StatusOK (VWebhookConfig config)))).

Definition WebhookHandler_DeleteWebhook (req : Request) : M Response :=
  with_webhook req (λ webhookID _,
  replied (DeleteWebhook webhookID) StatusInternalServerError "failed to delete webhook"
    (λ _, message_reply "webhook deleted")).

(** ** webhook_delivery.go *)

Definition WebhookDeliveryHandler_ListDeliveries (req : Request) : M Response :=
  with_param req "merchantId" "invalid merchant id" (λ merchantID,
  listed req (ListDeliveries merchantID) "failed to list deliveries"
    "deliveries" VWebhookDelivery).

Definition WebhookDeliveryHandler_GetDelivery (req : Request) : M Response :=
  with_param req "deliveryId" "invalid delivery id" (λ id,
  tried (GetDelivery id)
    (λ err, if Is err ErrNotFound then error_reply StatusNotFound "delivery not found"
            else error_reply StatusInternalServerError "failed to get delivery")
    (λ delivery, mret (MkResponse StatusOK (VWebhookDelivery delivery)))).

(** ** product.go *)

(** The merchant and the product of the path, as they are. *)
Definition with_product (req : Request) (k : string → string → M Response) : M Response :=
  let merchantID := Param req "merchantId" in
  let productID := Param req "productId" in
  if decide (merchantID = "" ∨ productID = "")
  then mret (error_reply StatusBadRequest "invalid id") else k merchantID productID.

Definition with_merchant_text (req : Request) (k : string → M Response) : M Response :=
  let merchantID := Param req "merchantId" in
  if decide (merchantID = "")
  then mret (error_reply StatusBadRequest "invalid merchant id") else k merchantID.

(** The metadata of the body is checked to be JSON and dropped. *)
Definition ProductHandler_CreateProduct (req : Request) : M Response :=
  with_merchant_text req (λ merchantID,
  bound req
    (λ ms, name ← decode_field decode_string "name" ms "";
           description ← decode_field decode_string "description" ms "";
           price ← decode_field decode_int64 "price" ms 0;
           currency ← decode_field decode_string "currency" ms "";
           status ← decode_field decode_string "status" ms "";
           Some (name, description, price, currency, status))
    (λ '(name, _, price, currency, _), bool_decide (name ≠ "" ∧ 0 < price ∧ currency ≠ ""))
    (λ '(name, description, price, currency, status),
  id ← uuid_New;
  let product := zero_product <| pd_ID := uuid_String id |> <| pd_MerchantID := merchantID |>
    <| pd_Name := name |> <| pd_Description := description |> <| pd_Price := price |>
    <| pd_Currency := currency |> <| pd_Status := status |> <| pd_Metadata := Some "{}" |> in
  replied (CreateProduct product) StatusInternalServerError "failed to create product"
    (λ product, MkResponse StatusCreated (VProduct product)))).

Definition ProductHandler_ListProducts (req : Request) : M Response :=
  with_merchant_text req (λ merchantID,
  replied (ListProducts merchantID 1 20) StatusInternalServerError "failed to list products"
    (λ '(products, total), MkResponse StatusOK
      (VObj [("products", VList (map VProduct products)); ("total", VJson (JNum total))]))).

Definition ProductHandler_GetProduct (req : Request) : M Response :=
  with_product req (λ merchantID productID,
  replied (GetProduct productID merchantID) StatusNotFound "product not found"
    (λ product, MkResponse StatusOK (VProduct product))).

Definition ProductHandler_UpdateProduct (req : Request) : M Response :=
  with_product req (λ merchantID productID,
  bound req
    (λ ms, name ← decode_field decode_string "name" ms "";
           description ← decode_field decode_string "description" ms "";
           price ← decode_nullable decode_int64 "price" ms None;
           currency ← decode_field decode_string "currency" ms "";
           status ← decode_field decode_string "status" ms "";
           Some (name, description, price, currency, status, decode_raw "metadata" ms None))
    (λ _, true)
    (λ '(name, description, price, currency, status, metadata),
  tried (GetProduct productID merchantID) (λ _, error_reply StatusNotFound "product not found")
    (λ existing,
  let product := existing <| pd_Name := override name (pd_Name existing) |>
    <| pd_Description := override description (pd_Description existing) |>
    <| pd_Price := default (pd_Price existing) price |>
    <| pd_Currency := override currency (pd_Currency existing) |>
    <| pd_Status := override status (pd_Status existing) |>
    <| pd_Metadata := override_raw metadata (pd_Metadata existing) |> in
  replied (UpdateProduct product) StatusInternalServerError "failed to update product"
    (λ product, MkResponse StatusOK (VProduct product))))).

Definition ProductHandler_DeleteProduct (req : Request) : M Response :=
  with_product req (λ merchantID productID,
  replied (DeleteProduct productID merchantID) StatusNotFound "product not found"
    (λ _, message_reply "product deleted")).

(** ** user.go and audit.go *)

Definition UserHandler_UpdateUser (req : Request) : M Response :=
  parsed (GetString req "user_id") "invalid user id" (λ uid,
  bound req
    (λ ms, name ← decode_field decode_string "name" ms "";
           email ← decode_field decode_string "email" ms "";
           Some (name, email))
    (λ '(_, email), bool_decide (email = "") || valid_email email)
    (λ '(name, email),
  tried (UserRepo_GetByID uid) (λ _, error_reply StatusNotFound "user not found")
    (λ user,
  let user := user <| us_Name := override name (us_Name user) |>
                   <| us_Email := override email (us_Email user) |> in
  replied (UserRepo_Update user) StatusInternalServerError "failed to update user"
    (λ _, MkResponse StatusOK (user_json user))))).

Definition AuditHandler_ListAuditLogs (req : Request) : M Response :=
  with_param req "merchantId" "invalid merchant id" (λ merchantID,
  replied (AuditLogRepo_ListByMerchant merchantID 1 50)
    StatusInternalServerError "failed to list audit logs"
    (λ '(logs, total), MkResponse StatusOK
      (VObj [("audit_logs", VList (map VAuditLog logs)); ("total", VJson (JNum total))]))).
End handlers.

(** ** Webhooks of other merchants *)

Section isolation.
Context `{!Externals, !Validator}.

(** The configurations other than [id] stay as they are. *)
Definition others_kept (id : uuid) : relation database := λ db db',
  ∀ k, k ≠ id → db_webhook_configs db' !! k = db_webhook_configs db !! k.

#[local] Instance others_kept_preorder id : PreOrder (others_kept id).
Proof. split; [by intros db k|]. intros x y z Hxy Hyz k Hk. by rewrite Hyz, Hxy. Qed.

Definition keeps_others (id : uuid) : relation world := evolves (others_kept id) eq.

Lemma unchanged_keeps_others id {A} (m : M A) : Acts unchanged m → Acts (keeps_others id) m.
Proof. apply Acts_weaken. intros w w' [Hdb Hc]. split; [by rewrite Hdb|done]. Qed.

Lemma acts_UpdateWebhook_others id w :
  wc_ID w = id → Acts (keeps_others id) (UpdateWebhook w).
Proof.
  intros <-. apply Acts_bind; [apply unchanged_keeps_others; acts|intros t].
  apply Acts_bind; [|done]. unfold WebhookConfigRepo_Update, exec_one.
  apply Acts_bind; [|intros n; by case_decide]. apply Acts_wrap_err, Acts_db_Exec_in; [apply _|].
  intros t' db db' n (tbl & Hs & ->)%on_table_inv k Hk. unfold row_update in Hs. simpl.
  destruct (_ !! _) in Hs; injection Hs as <- <-; [|done]. by rewrite lookup_insert_ne.
Qed.

Lemma acts_DeleteWebhook_others id : Acts (keeps_others id) (DeleteWebhook id).
Proof.
  unfold DeleteWebhook, WebhookConfigRepo_Delete, exec_one.
  apply Acts_bind; [|intros n; by case_decide]. apply Acts_wrap_err, Acts_db_Exec_in; [apply _|].
  intros t' db db' n Hs k Hk. destruct (_ !! id) in Hs; injection Hs as <- <-; [|done].
  simpl. by rewrite lookup_delete_ne.
Qed.

(** The rest of a handler runs only for a webhook of the merchant of the path,
    and for its own row. *)
Lemma run_with_webhook req k w o w' c x :
  map_Forall (λ c x, wc_ID x = c) (db_webhook_configs (w_db w)) →
  (∀ id existing, wc_ID existing = id → Acts (keeps_others id) (k id existing)) →
  run (with_webhook req k) w = (o, w') →
  db_webhook_configs (w_db w) !! c = Some x →
  uuid_Parse (Param req "merchantId") ≠ inr (wc_MerchantID x) →
  db_webhook_configs (w_db w') !! c = Some x.
Proof.
  intros Hids Hk Hrun Hx Hm. unfold with_webhook, with_param, parsed in Hrun.
  destruct (uuid_Parse (Param req "merchantId")) as [|m]; [by injection Hrun as <- <-|].
  destruct (uuid_Parse (Param req "webhookId")) as [|id]; [by injection Hrun as <- <-|].
  unfold tried in Hrun. rewrite run_bind, run_attempt in Hrun.
  destruct (run (GetWebhook id) w) as [og w1] eqn:Hget. unfold GetWebhook, WebhookConfigRepo_GetByID in Hget.
  pose proof (Acts_outcome _ _ _ _ _ (acts_query_row _ _ _) Hget) as [Hdb _].
  rewrite <- Hdb in Hx, Hids. destruct og as [existing|err|msg]; [|by injection Hrun as <- <-..].
  apply query_row_Ret in Hget as (_ & r & Hr & Hscan). injection Hscan as ->. rewrite <- Hdb in Hr.
  case_decide as Hmerchant; [by injection Hrun as <- <-|].
  assert (c ≠ id) as Hne by (intros ->; apply Hm; f_equal; congruence).
  destruct (Acts_outcome (keeps_others id) _ _ _ _ (Hk id existing (Hids _ _ Hr)) Hrun) as [Hkept _].
  by rewrite (Hkept c Hne).
Qed.

(** C35: no merchant changes or deletes the webhook of another: whatever the
    request holds and whatever fails, after an update or a deletion under the
    path of one merchant every configuration of the others is as it was. *)
Theorem webhooks_isolated handler req w o w' c x :
  handler = WebhookHandler_UpdateWebhook ∨ handler = WebhookHandler_DeleteWebhook →
  map_Forall (λ c x, wc_ID x = c) (db_webhook_configs (w_db w)) →
  run (handler req) w = (o, w') →
  db_webhook_configs (w_db w) !! c = Some x →
  uuid_Parse (Param req "merchantId") ≠ inr (wc_MerchantID x) →
  db_webhook_configs (w_db w') !! c = Some x.
Proof.
  intros [-> | ->] Hids Hrun; refine (run_with_webhook req _ w o w' c x Hids _ Hrun);
    intros id existing Hid.
  - apply acts_bound. intros [[[url secret] events] active]. apply acts_replied.
    by apply acts_UpdateWebhook_others.
  - apply acts_replied, acts_DeleteWebhook_others.
Qed.
End isolation.

(** ** Witness *)

(** Merchant 3 asks for the deletion of webhook 8, which is merchant 4's. *)
Definition foreign_webhook : WebhookConfig :=
  zero_webhook_config <| wc_ID := 8%N |> <| wc_MerchantID := 4%N |>.
Definition webhook_world : world :=
  world_of (empty_database <| db_webhook_configs := {[8%N := foreign_webhook]} |>).
Definition foreign_request : Request :=
  MkRequest [] [("merchantId", "3"); ("webhookId", "8")] [] (inr "") "192.0.2.1" [].

#[local] Existing Instance sample.

Lemma webhooks_isolated_witness :
  ∃ w', run (WebhookHandler_DeleteWebhook foreign_request) webhook_world =
      (Ret (error_reply StatusNotFound "webhook not found"), w') ∧
    db_webhook_configs (w_db w') !! 8%N = Some foreign_webhook.
Proof.
  destruct (run (WebhookHandler_DeleteWebhook foreign_request) webhook_world) as [o w'] eqn:Hrun.
  assert (o = Ret (error_reply StatusNotFound "webhook not found")) as ->
    by (vm_compute in Hrun; by injection Hrun as <- _).
  exists w'. split; [reflexivity|].
  apply (webhooks_isolated WebhookHandler_DeleteWebhook foreign_request webhook_world
    (Ret (error_reply StatusNotFound "webhook not found")) w' 8%N foreign_webhook (or_intror eq_refl)).
  - apply map_Forall_singleton. reflexivity.
  - exact Hrun.
  - reflexivity.
  - vm_compute. discriminate.
Defined.
