(* ===== verification/ApiKeys.v ===== *)
(** API keys: [internal/service/apikey.go] and [internal/handler/apikey.go].

    A key is 32 random bytes in hexadecimal, of which the table keeps the
    SHA-256 digest. No middleware accepts keys yet: [Validate] has no caller. *)

From S2P Require Import Prelude GoInt GoTime GoJson Model Errors World Effects Logic History.
From S2P Require Import Repository RepoHistory EventBus Provider Http Sample.

Open Scope Z_scope.

Class Digest := { sha256_Sum256 : string → list ascii }.

(** An INTEGER column. *)
Definition in_int32 (z : Z) : Prop := - 2 ^ 31 ≤ z < 2 ^ 31.
#[export] Instance in_int32_dec z : Decision (in_int32 z).
Proof. unfold in_int32. apply _. Defined.

Section service.
Context `{!Externals, !Digest}.

Definition key_hash (key : string) : string := EncodeToString (sha256_Sum256 key).

Definition new_api_key (id merchantID userID : uuid) (name fullKey : string)
    (scopes : option (list string)) (rateLimit : Z) (expiresAt : option time) (t : time) : ApiKey :=
  MkApiKey id merchantID userID name (String.substring 0 8 fullKey) (key_hash fullKey) scopes
    rateLimit true expiresAt t None.

Definition api_key_row (t : time) (x : ApiKey) : ApiKey :=
  x <| ak_ExpiresAt := pg_timestamptz <$> ak_ExpiresAt x |> <| ak_CreatedAt := t |>
    <| ak_LastUsedAt := None |>.

(** [idx_api_keys_key_hash] is unique. *)
Definition insert_api_key (x : ApiKey) : stmt := λ t db,
  if decide (map_Forall (λ _ y, ak_KeyHash y ≠ ak_KeyHash x) (db_api_keys db))
  then on_table db_api_keys (row_insert (ak_ID x) (api_key_row t x)) db
  else None.

Definition ApiKeyService_Create (merchantID userID : uuid) (name : string)
    (scopes : option (list string)) (rateLimit : Z) (expiresAt : option time)
    : M (string * ApiKey) :=
  keyBytes ← wrap_err "generate api key" (rand_Read 32);
  let fullKey := EncodeToString keyBytes in
  id ← uuid_New;
  t ← now;
  let apiKey := new_api_key id merchantID userID name fullKey scopes rateLimit expiresAt t in
  wrap_err "insert api key"
    (if decide (in_int32 rateLimit) then db_Exec (insert_api_key apiKey)
     else fail (EDriver "unable to encode rate_limit: greater than maximum value for int4"));;
  mret (fullKey, apiKey).

Definition with_hash (hash : string) (db : database) : option ApiKey :=
  head (rows_where (λ x, bool_decide (ak_KeyHash x = hash)) (db_api_keys db)).

Definition expired (t : time) (x : ApiKey) : bool :=
  match ak_ExpiresAt x with Some e => bool_decide (e < t) | None => false end.

Definition touch (id : uuid) : stmt := λ t,
  on_table db_api_keys (row_update id (λ x, x <| ak_LastUsedAt := Some t |>)).

(** The clock is read only when the key has an expiry. *)
Definition ApiKeyService_Validate (key : string) : M ApiKey :=
  r ← attempt (db_QueryRow (λ _, with_hash (key_hash key)) scan_ok);
  match r with
  | inl ENoRows => fail (EVar ErrUnauthorized)
  | inl err => fail (EWrap "query api key" err)
  | inr apiKey =>
      if negb (ak_IsActive apiKey) then fail (EVar ErrUnauthorized)
      else
        t ← (match ak_ExpiresAt apiKey with Some _ => now | None => mret 0 end);
        if expired t apiKey then fail (EVar ErrUnauthorized)
        else
          wrap_err "update last used" (db_Exec (touch (ak_ID apiKey)));;
          mret apiKey
  end.

(** The digest is not selected. *)
Definition ApiKeyService_ListByMerchant (merchantID : uuid) : M (list ApiKey) :=
  query_rows "list api keys" "scan api key"
    (λ db, Some (order_by (newest_first ak_CreatedAt)
      (rows_where (λ x, bool_decide (ak_MerchantID x = merchantID)) (db_api_keys db))))
    (λ x, inr (x <| ak_KeyHash := "" |>)).

Definition revoke (id : uuid) : stmt := λ _,
  on_table db_api_keys (row_update id (λ x, x <| ak_IsActive := false |>)).

Definition ApiKeyService_Revoke (keyID : uuid) : M unit := exec_one "revoke api key" (revoke keyID).

(** ** The handler *)

(** Scopes that are left out are nil, and stored as NULL. *)
Definition ApiKeyHandler_CreateApiKey (req : Request) : M Response :=
  bound req
    (λ ms, name ← decode_field decode_string "name" ms "";
           scopes ← decode_nullable decode_strings "scopes" ms None;
           rate ← decode_field decode_int64 "rate_limit" ms 0;
           Some (name, scopes, rate))
    (λ '(name, _, _), bool_decide (name ≠ ""))
    (λ '(name, scopes, rate),
  parsed (GetString req "merchant_id") "invalid merchant id" (λ merchantID,
  parsed (GetString req "user_id") "invalid user id" (λ userID,
  let rate := if decide (rate = 0) then 1000 else rate in
  replied (ApiKeyService_Create merchantID userID name scopes rate None)
    StatusInternalServerError "failed to create API key"
    (λ '(fullKey, apiKey), MkResponse StatusCreated (VObj [
       ("key", VJson (JStr fullKey)); ("api_key", VApiKey apiKey);
       ("message", VJson (JStr "save this key securely, it will not be shown again"))]))))).

Definition ApiKeyHandler_ListApiKeys (req : Request) : M Response :=
  parsed (GetString req "merchant_id") "invalid merchant id" (λ merchantID,
  replied (ApiKeyService_ListByMerchant merchantID)
    StatusInternalServerError "failed to list API keys"
    (λ keys, MkResponse StatusOK (VObj [("api_keys", VList (map VApiKey keys))]))).

(** Whoever asks: the merchant of the key is not looked at. *)
Definition ApiKeyHandler_RevokeApiKey (req : Request) : M Response :=
  with_param req "keyId" "invalid key id" (λ keyID,
  replied (ApiKeyService_Revoke keyID) StatusInternalServerError "failed to revoke API key"
    (λ _, MkResponse StatusOK (JObj [("message", JStr "API key revoked")]))).
End service.

(** ** What the statements do to the table *)

Lemma keys_le_insert k x t :
  t !! k = None → ak_ID x = k → map_Forall (λ _ y, ak_KeyHash y ≠ ak_KeyHash x) t →
  keys_le t (<[k := x]> t).
Proof.
  intros Hk Hid Hnew. split; [by apply (table_le_insert _ _)|].
  intros k' y [[<- <-]|[_ Hy]]%lookup_insert_Some; [by right; intros k' z Hz; apply (Hnew k')|].
  left. eauto.
Qed.

Lemma keys_le_update k f t t' n :
  (∀ x, ak_le x (f x)) → row_update k f t = Some (t', n) → keys_le t t'.
Proof.
  unfold row_update. intros Hf. destruct (t !! k) as [x|] eqn:Hk; intros [= <- <-]; [|reflexivity].
  split; [by eapply (table_le_replace _ _)|].
  intros k' y [[<- <-]|[_ Hy]]%lookup_insert_Some; left; [|by eauto].
  exists x. split; [done|]. destruct (Hf x) as [-> _]. done.
Qed.

Section history.
Context `{!Externals, !Digest}.

Lemma insert_api_key_le x : stmt_le (insert_api_key x).
Proof.
  intros t db db' n. unfold insert_api_key. case_decide as Hnew; [|done].
  intros (tb & Hs & ->)%on_table_inv. unfold row_insert in Hs.
  destruct (_ !! _) eqn:Hk; [done|]. injection Hs as <- <-.
  split; simpl; try reflexivity. by apply keys_le_insert.
Qed.

Lemma key_update_le id f :
  (∀ t x, ak_le x (f t x)) → stmt_le (λ t, on_table db_api_keys (row_update id (f t))).
Proof.
  intros Hf t db db' n (tb & Hs & ->)%on_table_inv.
  split; simpl; try reflexivity. by eapply keys_le_update.
Qed.

Lemma touch_le id : stmt_le (touch id).
Proof. by apply (key_update_le _ (λ t x, x <| ak_LastUsedAt := Some t |>)). Qed.

Lemma revoke_le id : stmt_le (revoke id).
Proof. by apply (key_update_le _ (λ _ x, x <| ak_IsActive := false |>)). Qed.

Hint Resolve Acts_db_Exec insert_api_key_le touch_le : acts.

Lemma acts_ApiKey_Create m u name scopes rate exp :
  Acts quiet (ApiKeyService_Create m u name scopes rate exp).
Proof.
  unfold ApiKeyService_Create, rand_Read. acts.
Qed.
Lemma acts_ApiKey_Validate key : Acts quiet (ApiKeyService_Validate key).
Proof. unfold ApiKeyService_Validate, db_QueryRow. acts. Qed.
Lemma acts_ApiKey_List m : Acts unchanged (ApiKeyService_ListByMerchant m).
Proof. apply acts_query_rows. Qed.
Lemma acts_ApiKey_Revoke id : Acts quiet (ApiKeyService_Revoke id).
Proof. apply acts_exec_one, revoke_le. Qed.
End history.

#[export] Hint Resolve acts_ApiKey_Create acts_ApiKey_Validate acts_ApiKey_List
  acts_ApiKey_Revoke : acts.

(** ** The life of a key *)

Section life.
Context `{!Externals, !Digest}.

(** Row [id] is [row], and the only one with the digest [hash]. *)
Definition holds_hash (hash : string) (id : uuid) (row : ApiKey) (t : gmap uuid ApiKey) : Prop :=
  t !! id = Some row ∧ ak_KeyHash row = hash ∧
  ∀ k y, t !! k = Some y → ak_KeyHash y = hash → k = id.

Lemma holds_hash_later hash id row t t' :
  holds_hash hash id row t → keys_le t t' →
  ∃ row', holds_hash hash id row' t' ∧ ak_le row row'.
Proof.
  intros (Hrow & Hh & Honly) [[Hold _] Hnew]. destruct (Hold id row Hrow) as (row' & Hrow' & Hle).
  exists row'. split; [|done]. split_and!; [done|destruct Hle as [-> _]; done|].
  intros k y Hy Heq. destruct (Hnew k y Hy) as [(z & Hz & Hhz)|Hno].
  - apply (Honly k z); congruence.
  - destruct (Hno id row Hrow). congruence.
Qed.

Lemma with_hash_holds hash id row db :
  holds_hash hash id row (db_api_keys db) → with_hash hash db = Some row.
Proof.
  intros (Hrow & Hh & Honly). unfold with_hash.
  set (P := λ x, bool_decide (ak_KeyHash x = hash)).
  assert (∀ x, x ∈ rows_where P (db_api_keys db) ↔ x = row) as Hin.
  { intros x. rewrite elem_of_rows_where. unfold P. rewrite bool_decide_eq_true. split.
    - intros (Heq & k & Hk). rewrite (Honly k x Hk Heq) in Hk. congruence.
    - intros ->. eauto. }
  destruct (rows_where P _) as [|x l] eqn:Hl.
  - exfalso. eapply not_elem_of_nil, Hin. reflexivity.
  - simpl. f_equal. apply Hin. set_solver.
Qed.

Lemma Create_holds m u name scopes rate exp w key k w1 :
  run (ApiKeyService_Create m u name scopes rate exp) w = (Ret (key, k), w1) →
  ∃ t, holds_hash (key_hash key) (ak_ID k) (api_key_row t k) (db_api_keys (w_db w1)) ∧
    ak_MerchantID k = m ∧ ak_UserID k = u ∧ ak_Scopes k = scopes ∧ ak_ExpiresAt k = exp.
Proof.
  intros Hrun. unfold ApiKeyService_Create in Hrun.
  apply run_bind_Ret in Hrun as (bytes & wa & _ & Hrun). cbv zeta in Hrun.
  apply run_bind_Ret in Hrun as (id & wb & _ & Hrun).
  apply run_bind_Ret in Hrun as (t & wc & _ & Hrun).
  apply run_bind_Ret in Hrun as (n & wd & Hins & Hrun).
  rewrite run_ret in Hrun. injection Hrun as <- <- <-.
  apply run_wrap_err_Ret in Hins. case_decide; [|done].
  apply db_Exec_Ret in Hins as [Hs _]. unfold insert_api_key in Hs. case_decide as Hnew; [|done].
  apply on_table_inv in Hs as (tb & Hs & Hdb). unfold row_insert in Hs.
  destruct (_ !! _) eqn:Hk; [done|]. injection Hs as <- _. rewrite Hdb. simpl.
  eexists. split; [|done]. split_and!; [by rewrite lookup_insert_eq|done|].
  intros k' y [[<- _]|[_ Hy]]%lookup_insert_Some Heq; [done|]. by destruct (Hnew k' y Hy).
Qed.

(** When the statements are accepted, the holder decides. *)
Lemma run_Validate key id row w :
  db_accepts → holds_hash (key_hash key) id row (db_api_keys (w_db w)) → ak_ID row = id →
  ∃ w', run (ApiKeyService_Validate key) w =
    (if ak_IsActive row && negb (expired (ext_now (S (w_tick w))) row) then Ret row
     else Err (EVar ErrUnauthorized), w').
Proof.
  intros Hok Hrow Hid. unfold ApiKeyService_Validate.
  rewrite run_bind, run_attempt. unfold db_QueryRow, db_read. rewrite run_bind, run_act.
  cbv beta. rewrite Hok. cbv beta iota. change (w_db (w <| w_tick := _ |>)) with (w_db w).
  rewrite (with_hash_holds _ _ _ _ Hrow). cbv [scan_ok]. rewrite run_ret.
  set (w1 := w <| w_tick := _ |>). destruct (ak_IsActive row); cbn [negb andb];
    [|by eexists].
  assert (∃ t w2, run (match ak_ExpiresAt row with Some _ => now | None => mret 0 end) w1 =
    (Ret t, w2) ∧ w_db w2 = w_db w ∧ expired t row = expired (ext_now (S (w_tick w))) row)
    as (t & w2 & Hrun & Hdb & Hexp).
  { unfold expired. destruct (ak_ExpiresAt row); [|by rewrite run_ret; eauto].
    unfold now, ask. rewrite run_act. by eexists _, _. }
  rewrite run_bind, Hrun, Hexp. clear Hrun Hexp. destruct (expired _ row); [by eexists|]. cbn [negb].
  rewrite run_bind, run_wrap_err. unfold db_Exec. rewrite run_act. cbv beta.
  unfold touch, on_table, row_update. change (w_db (w2 <| w_tick := _ |>)) with (w_db w2).
  rewrite Hdb, Hid, (proj1 Hrow). cbn. rewrite Hok. by eexists.
Qed.

(** C28: a key that was created is the way back to its row: at any later time,
    while the database answers, [Validate] of the key returns the row - with
    the merchant, user and scopes it was created for - exactly as long as it is
    active and not expired, and refuses the key with [ErrUnauthorized] after. *)
Theorem ApiKey_Create_Validate m u name scopes rate exp w key k w1 w2 :
  db_accepts →
  run (ApiKeyService_Create m u name scopes rate exp) w = (Ret (key, k), w1) →
  db_history (w_db w1) (w_db w2) →
  ∃ row w3, db_api_keys (w_db w2) !! ak_ID k = Some row ∧
    ak_MerchantID row = m ∧ ak_UserID row = u ∧ ak_Scopes row = scopes ∧
    ak_ExpiresAt row = pg_timestamptz <$> exp ∧
    run (ApiKeyService_Validate key) w2 =
      (if ak_IsActive row && negb (expired (ext_now (S (w_tick w2))) row) then Ret row
       else Err (EVar ErrUnauthorized), w3).
Proof.
  intros Hok Hrun Hlater. apply Create_holds in Hrun as (t & Hk & <- & <- & <- & <-).
  destruct (holds_hash_later _ _ _ _ _ Hk (le_api_keys Hlater)) as (row & Hrow & Hle & _).
  destruct (run_Validate key (ak_ID k) row w2 Hok Hrow) as [w3 Hval]; [by rewrite Hle|].
  exists row, w3. split; [apply Hrow|]. split_and!; [by rewrite Hle..|done].
Qed.

(** C29: revocation is final: after [Revoke] returned, whatever happens in
    between, [Validate] never returns the key again, and answers
    [ErrUnauthorized] while the database answers. *)
Theorem ApiKey_Revoke_final m u name scopes rate exp w key k w1 wa wb w2 o w3 :
  run (ApiKeyService_Create m u name scopes rate exp) w = (Ret (key, k), w1) →
  db_history (w_db w1) (w_db wa) →
  run (ApiKeyService_Revoke (ak_ID k)) wa = (Ret (), wb) →
  db_history (w_db wb) (w_db w2) →
  run (ApiKeyService_Validate key) w2 = (o, w3) →
  (∃ err, o = Err err) ∧ (db_accepts → o = Err (EVar ErrUnauthorized)).
Proof.
  intros Hrun Hla Hrev Hlb Hval. apply Create_holds in Hrun as (t & Hk & _).
  destruct (holds_hash_later _ _ _ _ _ Hk (le_api_keys Hla)) as (ra & Ha & _).
  apply (update_Ret db_api_keys) in Hrev as (_ & r & _ & Hr & Hdb).
  rewrite (proj1 Ha) in Hr. injection Hr as <-.
  assert (holds_hash (key_hash key) (ak_ID k) (ra <| ak_IsActive := false |>)
    (db_api_keys (w_db wb))) as Hb.
  { rewrite Hdb. destruct Ha as (Hra & Hh & Honly). split_and!; simpl;
      [by rewrite lookup_insert_eq|done|].
    intros k' y [[<- _]|[_ Hy]]%lookup_insert_Some Heq; [done|by apply (Honly k' y)]. }
  destruct (holds_hash_later _ _ _ _ _ Hb (le_api_keys Hlb)) as (row & Hrow & _ & Hinactive).
  specialize (Hinactive eq_refl). revert Hval. unfold ApiKeyService_Validate, db_QueryRow, db_read.
  rewrite run_bind, run_attempt, run_bind, run_act. cbv beta.
  change (w_db (w2 <| w_tick := _ |>)) with (w_db w2). unfold db_accepts.
  destruct (ext_db _ _ _) eqn:Hv; cbv beta iota;
    [|intros [= <- <-]; split; [by eexists|intros Hok; by rewrite Hok in Hv]..].
  rewrite (with_hash_holds _ _ _ _ Hrow). cbv [scan_ok]. rewrite run_ret, Hinactive.
  intros [= <- <-]. by split; [eexists|].
Qed.
End life.

(** ** Witnesses *)

#[local] Existing Instance sample.
(** Not a hash: the length of the key. *)
#[local] Instance sample_digest : Digest :=
  {| sha256_Sum256 := λ s, [ascii_of_nat (String.length s)] |}.

Definition creating : M (string * ApiKey) :=
  ApiKeyService_Create 3 7 "ci" (Some ["read"]) 1000 None.
Definition new_key_world : world := (run creating (world_of empty_database)).2.
Definition new_key : string * ApiKey :=
  match (run creating (world_of empty_database)).1 with
  | Ret kk => kk | _ => ("", new_api_key 0 0 0 "" "" None 0 None 0) end.

Lemma ApiKey_Create_Validate_witness :
  ∃ row w3, run (ApiKeyService_Validate new_key.1) new_key_world = (Ret row, w3) ∧
    ak_MerchantID row = 3%N.
Proof.
  assert (@db_accepts sample) as Hok by done.
  destruct (ApiKey_Create_Validate 3 7 "ci" (Some ["read"]) 1000 None (world_of empty_database)
    new_key.1 new_key.2 new_key_world new_key_world Hok)
    as (row & w3 & Hrow & Hm & _ & _ & _ & Hval); [vm_compute; reflexivity|reflexivity|].
  exists row, w3. split; [|exact Hm]. rewrite Hval.
  vm_compute in Hrow. injection Hrow as <-. vm_compute. reflexivity.
Defined.

Lemma ApiKey_Revoke_final_witness :
  let w := (run (ApiKeyService_Revoke (ak_ID new_key.2)) new_key_world).2 in
  run (ApiKeyService_Validate new_key.1) w =
    (Err (EVar ErrUnauthorized), (run (ApiKeyService_Validate new_key.1) w).2).
Proof.
  intros w. destruct (run (ApiKeyService_Validate new_key.1) w) as [o w3] eqn:Hrun.
  destruct (ApiKey_Revoke_final 3 7 "ci" (Some ["read"]) 1000 None (world_of empty_database)
    new_key.1 new_key.2 new_key_world new_key_world w w o w3)
    as [_ Herr]; [vm_compute; reflexivity|reflexivity|vm_compute; reflexivity|reflexivity|exact Hrun|].
  rewrite Herr; done.
Defined.
