(* ===== verification/Reporting.v ===== *)
(** Figures over the data: [billing.go], [analytics.go], [exchangerate.go],
    [reconciliation.go] and [discrepancy.go] of [internal/service], the handlers
    of the first three, and [internal/handler/health.go].

    Some of the statements name columns or enum labels that the migrations do
    not create: PostgreSQL refuses them when it parses them ([db_refused]), and
    what the code would do with their rows is there all the same. *)

From S2P Require Import Prelude GoInt GoTime GoFloat TimeParse Pagination GoJson Model Errors.
From S2P Require Import World Effects Logic History Repository RepoHistory EventBus Provider Http Csv Sample.

Open Scope Z_scope.

Section services.
Context `{!Externals, !FloatText} (bus : EventBus).

(** SUM over a BIGINT column, scanned into an [int64]. *)
Definition sql_sum (l : list Z) : Z := foldr Z.add 0 l.
Definition scan_int64 (z : Z) : M Z :=
  if decide (in_int64 z) then mret z else fail (EDriver "numeric value out of int64 range").

(** [created_at BETWEEN $from AND $to]. *)
Definition between (from to t : time) : bool := bool_decide (from ≤ t ≤ to).

Definition period_transactions (merchantID : uuid) (from to : time) (P : Transaction → bool)
    (db : database) : list Transaction :=
  rows_where (λ x, bool_decide (tx_MerchantID x = merchantID) &&
                   between from to (tx_CreatedAt x) && P x) (db_transactions db).

(** ** billing.go *)

Record FeeStructure := MkFeeStructure { PercentageFee : float64; FixedFee : Z }.
Definition platform_fees : FeeStructure := MkFeeStructure float_0_01 10.

Record BillingPeriod := MkBillingPeriod {
  bp_MerchantID : uuid; bp_PeriodStart : time; bp_PeriodEnd : time; bp_TotalTransactions : Z;
  bp_TotalAmount : Z; bp_TotalFees : Z; bp_Currency : string
}.

Definition total_fees (fees : FeeStructure) (amount count : Z) : Z :=
  let percentageFee := int64_of_float (fmul (float64_of_int amount) (PercentageFee fees)) in
  let fixedFee := mul64 (FixedFee fees) count in
  add64 percentageFee fixedFee.

(** The currency is neither grouped nor aggregated. *)
Definition CalculateFees (merchantID : uuid) (from to : time) : M BillingPeriod :=
  '(amount, count, currency) ← db_refused
    "column transactions.currency must appear in the GROUP BY clause or be used in an aggregate function";
  mret (MkBillingPeriod merchantID from to count amount (total_fees platform_fees amount count)
          currency).

Definition billing_invoice (x : Invoice) : value :=
  VObj [("amount", VJson (JNum (inv_Amount x)));
        ("created_at", VJson (JStr (RFC3339Nano (inv_CreatedAt x))));
        ("currency", VJson (JStr (inv_Currency x)));
        ("id", VJson (JStr (uuid_String (inv_ID x)))); ("status", VJson (JStr (inv_Status x)))].

Definition ListBillingInvoices (merchantID : uuid) (page pageSize : Z) : M (list value * Z) :=
  let offset := mul64 (sub64 page 1) pageSize in
  let mine db := rows_where (λ x, bool_decide (inv_MerchantID x = merchantID)) (db_invoices db) in
  total ← db_read (λ _ db, Z.of_nat (length (mine db)));
  rows ← db_Query (λ db, sql_page pageSize offset (order_by (newest_first inv_CreatedAt) (mine db)));
  l ← db_rows scan_ok rows;
  mret (map billing_invoice l, total).

(** ** analytics.go *)

Record AnalyticsSummary := MkAnalyticsSummary {
  as_TotalRevenue : Z; as_TotalTransactions : Z; as_SuccessfulTransactions : Z;
  as_FailedTransactions : Z; as_AverageTransactionSize : float64; as_RefundAmount : Z;
  as_Period : string
}.

(** [completed] and [refunded] are no labels of [transaction_status]. *)
Definition no_label : string := "invalid input value for enum transaction_status: completed".

Definition GetSummary (merchantID : uuid) (from to : time) : M AnalyticsSummary :=
  '(revenue, total, ok, failed, average, refunded) ← db_refused no_label;
  mret (MkAnalyticsSummary revenue total ok failed average refunded
          (FormatDate from +:+ " to " +:+ FormatDate to)).

(** [groupBy] becomes part of the text of the query. *)
Definition analytics_query (groupBy : string) : string :=
  "SELECT DATE_TRUNC('" +:+ groupBy +:+ "', created_at) as period, COUNT(*) as count, "
  +:+ "COALESCE(SUM(CASE WHEN status = 'completed' THEN amount ELSE 0 END), 0) as revenue "
  +:+ "FROM transactions WHERE merchant_id = $1 AND created_at BETWEEN $2 AND $3 "
  +:+ "GROUP BY period ORDER BY period".

Definition analytics_row (row : time * Z * Z) : value :=
  let '(period, count, revenue) := row in
  VObj [("count", VJson (JNum count)); ("period", VJson (JStr (RFC3339 period)));
        ("revenue", VJson (JNum revenue))].

Definition GetTransactionAnalytics (merchantID : uuid) (from to : time) (groupBy : string)
    : M (list value) :=
  rows ← db_refused (no_label +:+ " in " +:+ analytics_query groupBy);
  mret (map analytics_row rows).

Definition csv_header : list string := ["ID"; "Amount"; "Currency"; "Status"; "Provider"; "Created At"].
Definition csv_record (x : Transaction) : list string :=
  [uuid_String (tx_ID x); pretty (tx_Amount x); tx_Currency x; tx_Status x; tx_Provider x;
   RFC3339 (tx_CreatedAt x)].

Definition ExportTransactions (merchantID : uuid) (from to : time) : M string :=
  rows ← db_Query (λ db, Some (order_by (newest_first tx_CreatedAt)
           (period_transactions merchantID from to (λ _, true) db)));
  l ← db_rows scan_ok rows;
  mret (String.concat "" (map csv_line (csv_header :: map csv_record l))).

(** ** exchangerate.go *)

(** [exchange_rates] has a [quote_currency], and no [target_currency]. *)
Definition no_column : string := "column target_currency does not exist".

Definition decode_rate (v : json) : option float64 :=
  match v with
  | JNum z => Some (float64_of_int z)
  | JFrac text => Some (parse_float text)
  | _ => None
  end.

(** [rates] of the answer: a map, in which a later key replaces an earlier. *)
Definition decode_rates (body : string) : option (gmap string float64) :=
  match ext_json body with
  | inl _ => None
  | inr v =>
      ms ← decode_members v;
      l ← decode_nullable (λ v, match v with JObj members => Some members | _ => None end)
            "rates" ms None;
      rates ← mapM (λ kv : string * json,
                r ← match kv.2 with JNull => Some (float64_of_int 0) | v => decode_rate v end;
                Some (kv.1, r)) (default [] l);
      Some (list_to_map (reverse rates))
  end.

Definition frankfurter (from to : string) : http_request :=
  MkHttpRequest "GET" ("https://api.frankfurter.app/latest?from=" +:+ from +:+ "&to=" +:+ to)
    [] (inr "").

(** The body is decoded as far as it could be read. *)
Definition GetRate (from to : string) : M float64 :=
  cached ← attempt (db_refused (A := float64) no_column);
  match cached with
  | inr rate => mret rate
  | inl _ =>
      resp ← attempt (http_Do (frankfurter from to));
      match (match resp with
             | inr (_, (body, _)) => rates ← decode_rates body; rates !! to
             | inl _ => None
             end) with
      | Some r =>
          ignore_err (db_refused (A := Z) no_column);;
          mret r
      | None =>
          stale ← attempt (db_refused (A := float64) no_column);
          match stale with
          | inr rate => mret rate
          | inl _ => fail (EText ("no exchange rate available for " +:+ from +:+ "/" +:+ to))
          end
      end
  end.

Definition Convert (amount : Z) (from to : string) : M (Z * float64) :=
  if decide (from = to) then mret (amount, float64_of_int 1)
  else
    rate ← GetRate from to;
    mret (int64_of_float (fmul (float64_of_int amount) rate), rate).

(** ** reconciliation.go and discrepancy.go *)

Definition ReconciliationStatusMatch : string := "match".
Definition ReconciliationStatusMismatch : string := "mismatch".
Definition ReconciliationStatusUnavailable : string := "unavailable".

Record ReconciliationResult := MkReconciliationResult {
  rr_PlatformTotal : Z; rr_ProviderTotal : Z; rr_Discrepancy : Z; rr_TransactionCount : Z;
  rr_Status : string
}.

Definition succeeded_with (provider : string) (x : Transaction) : bool :=
  bool_decide (tx_Provider x = provider ∧ tx_Status x = TransactionStatusSucceeded).

(** The total of the provider is a stub. *)
Definition Reconcile (merchantID : uuid) (provider : string) (from to : time)
    : M ReconciliationResult :=
  l ← db_read (λ _, period_transactions merchantID from to (succeeded_with provider));
  total ← scan_int64 (sql_sum (map tx_Amount l));
  mret (MkReconciliationResult total 0 (sub64 total 0) (Z.of_nat (length l))
          ReconciliationStatusUnavailable).

Record Discrepancy := MkDiscrepancy {
  dc_MerchantID : uuid; dc_Provider : string; dc_Amount : Z; dc_Severity : string;
  dc_DetectedAt : time
}.

Definition severity (amount : Z) : string :=
  if decide (10000 < amount) then "high" else if decide (1000 < amount) then "medium" else "low".

Definition CheckDiscrepancies (merchantID : uuid) (provider : string) (from to : time)
    : M (option Discrepancy) :=
  result ← Reconcile merchantID provider from to;
  if decide (rr_Status result = ReconciliationStatusUnavailable) then mret None
  else if decide (rr_Discrepancy result = 0) then mret None
  else
    t ← now;
    let d := MkDiscrepancy merchantID provider (rr_Discrepancy result)
               (severity (rr_Discrepancy result)) t in
    emit bus "events.reconciliation.discrepancy" "reconciliation.discrepancy"
      (DDiscrepancy merchantID provider (dc_Amount d) (dc_Severity d) t);;
    mret (Some d).
End services.

(** ** The handlers *)

Section handlers.
Context `{!Externals, !FloatText}.

(** [c.DefaultQuery]: the default is computed in any case. *)
Definition DefaultQuery (req : Request) (name default_ : string) : string :=
  default default_ (Query req name).

Definition period_value (p : BillingPeriod) : value :=
  JObj [("merchant_id", JStr (uuid_String (bp_MerchantID p)));
        ("period_start", JStr (RFC3339Nano (bp_PeriodStart p)));
        ("period_end", JStr (RFC3339Nano (bp_PeriodEnd p)));
        ("total_transactions", JNum (bp_TotalTransactions p));
        ("total_amount", JNum (bp_TotalAmount p)); ("total_fees", JNum (bp_TotalFees p));
        ("currency", JStr (bp_Currency p))].

Definition BillingHandler_GetFees (req : Request) : M Response :=
  with_param req "merchantId" "invalid merchant id" (λ merchantID,
  t1 ← now;
  let fromStr := DefaultQuery req "from" (RFC3339 (AddDate t1 0 0 (-30))) in
  t2 ← now;
  let toStr := DefaultQuery req "to" (RFC3339 t2) in
  match time_Parse_RFC3339 fromStr with
  | None => mret (error_reply StatusBadRequest "invalid 'from' date")
  | Some from =>
      match time_Parse_RFC3339 toStr with
      | None => mret (error_reply StatusBadRequest "invalid 'to' date")
      | Some to =>
          replied (CalculateFees merchantID from to)
            StatusInternalServerError "failed to calculate fees"
            (λ period, MkResponse StatusOK (period_value period))
      end
  end).

Definition BillingHandler_GetBillingInvoices (req : Request) : M Response :=
  with_param req "merchantId" "invalid merchant id" (λ merchantID,
  replied (ListBillingInvoices merchantID (query_page (Query req "page"))
             (query_page_size (Query req "page_size")))
    StatusInternalServerError "failed to list billing invoices"
    (λ '(invoices, total), MkResponse StatusOK
      (VObj [("merchant_id", VJson (JStr (uuid_String merchantID)));
             ("invoices", VList invoices); ("total", VJson (JNum total))]))).

(** The merchant and the period of an analytics request: what does not parse is
    the zero value. *)
Definition with_period (req : Request) (k : uuid → time → time → M Response) : M Response :=
  let merchantID := match uuid_Parse (Param req "merchantId") with inl _ => uuid_Nil | inr id => id end in
  t1 ← now;
  let fromStr := DefaultQuery req "from" (FormatDate (AddDate t1 0 0 (-30))) in
  t2 ← now;
  let toStr := DefaultQuery req "to" (FormatDate t2) in
  let from := default time_zero (time_Parse_Date fromStr) in
  let to := default time_zero (time_Parse_Date toStr) in
  k merchantID from (Add to (24 * Hour - Second)).

Definition summary_value (s : AnalyticsSummary) : value :=
  VObj [("total_revenue", VJson (JNum (as_TotalRevenue s)));
        ("total_transactions", VJson (JNum (as_TotalTransactions s)));
        ("successful_transactions", VJson (JNum (as_SuccessfulTransactions s)));
        ("failed_transactions", VJson (JNum (as_FailedTransactions s)));
        ("average_transaction_size", VFloat (as_AverageTransactionSize s));
        ("refund_amount", VJson (JNum (as_RefundAmount s))); ("period", VJson (JStr (as_Period s)))].

Definition AnalyticsHandler_GetSummary (req : Request) : M Response :=
  with_period req (λ merchantID from to,
  replied (GetSummary merchantID from to) StatusInternalServerError "failed to get summary"
    (λ summary, MkResponse StatusOK (summary_value summary))).

Definition AnalyticsHandler_GetTransactionAnalytics (req : Request) : M Response :=
  with_period req (λ merchantID from to,
  replied (GetTransactionAnalytics merchantID from to (DefaultQuery req "group_by" "day"))
    StatusInternalServerError "failed to get analytics"
    (λ analytics, MkResponse StatusOK (VObj [("analytics", VList analytics)]))).

Definition AnalyticsHandler_ExportTransactions (req : Request) : M Response :=
  with_period req (λ merchantID from to,
  replied (ExportTransactions merchantID from to) StatusInternalServerError "export failed"
    (λ csv, MkResponse StatusOK (VText csv))).

Definition ExchangeRateHandler_GetExchangeRate (req : Request) : M Response :=
  let from := default "" (Query req "from") in
  let to := default "" (Query req "to") in
  if decide (from = "" ∨ to = "")
  then mret (error_reply StatusBadRequest "from and to query params required")
  else
    tried (GetRate from to) (λ err, error_reply StatusInternalServerError (Error err))
      (λ rate, mret (MkResponse StatusOK
        (VObj [("from", VJson (JStr from)); ("to", VJson (JStr to)); ("rate", VFloat rate)]))).

(** ** health.go *)

Definition db_Ping : M unit := db_read (λ _ _, ()).
Definition redis_Ping : M unit := redis_command (λ _ store, ((), store)).

Definition probe (r : error + unit) : json :=
  match r with
  | inl err => JObj [("status", JStr "unhealthy"); ("error", JStr (Error err))]
  | inr _ => JObj [("status", JStr "healthy")]
  end.

Definition HealthHandler_Health (req : Request) : M Response :=
  db ← attempt db_Ping;
  redis ← attempt redis_Ping;
  let status := match db, redis with
                | inr _, inr _ => StatusOK
                | _, _ => StatusServiceUnavailable
                end in
  mret (MkResponse status (JObj [("status", JStr "healthy"); ("postgresql", probe db);
                                 ("redis", probe redis)])).

Definition HealthHandler_Readiness (req : Request) : M Response :=
  tried db_Ping
    (λ _, MkResponse StatusServiceUnavailable (JObj [("status", JStr "not ready")]))
    (λ _, mret (MkResponse StatusOK (JObj [("status", JStr "ready")]))).

Definition HealthHandler_Liveness (req : Request) : M Response :=
  mret (MkResponse StatusOK (JObj [("status", JStr "alive")])).
End handlers.

(** ** What the services promise *)

Section promises.
Context `{!Externals, !FloatText} (bus : EventBus).

Definition export_rows (merchantID : uuid) (from to : time) (db : database) : list Transaction :=
  order_by (newest_first tx_CreatedAt) (period_transactions merchantID from to (λ _, true) db).

Lemma scan_rows_ok {R} (l : list R) : scan_rows scan_ok l = inr l.
Proof. induction l as [|r l IH]; simpl; [done|]. by rewrite IH. Qed.

(** C34: a reader of CSV gets back from an export exactly the header and one
    record for each transaction of the merchant in the period, newest first -
    whatever commas, quotes and line breaks its texts hold. When the connection
    breaks midway the export is cut there, and is not an error. *)
Theorem ExportTransactions_roundtrip m from to w csv w' :
  run (ExportTransactions m from to) w = (Ret csv, w') →
  ∃ l, l `prefix_of` export_rows m from to (w_db w) ∧
    ReadAll csv = Some (csv_header :: map csv_record l) ∧
    ((∀ n, ext_rows n = None) → l = export_rows m from to (w_db w)).
Proof.
  unfold ExportTransactions, db_Query, db_rows, db_read, ask. rewrite run_bind, run_bind, run_act.
  cbv beta. change (w_db (w <| w_tick := _ |>)) with (w_db w).
  destruct (ext_db _ _ _); [|done..]. cbv beta iota. rewrite run_ret, run_bind, run_bind, run_act.
  cbv beta iota. rewrite scan_rows_ok, !run_ret. intros [= <- <-].
  set (rows := order_by _ _). set (broken := ext_rows _).
  exists (match broken with None => rows | Some k => take k rows end). split_and!.
  - destruct broken as [k|]; [|done]. exists (drop k rows). by rewrite take_drop.
  - apply (ReadAll_lines (csv_header :: map csv_record _)). constructor; [done|].
    apply Forall_map, Forall_true. by intros x ?.
  - intros Hall. subst broken. by rewrite Hall.
Qed.

(** While the database answers, a reconciliation adds up the succeeded
    transactions of the merchant with the provider in the period, or fails when
    the sum is no [int64]; it never has a total of the provider, so a check for
    discrepancies finds none, publishes nothing and changes nothing. *)
Theorem CheckDiscrepancies_silent m provider from to w :
  db_accepts →
  let rows := period_transactions m from to (succeeded_with provider) (w_db w) in
  let total := sql_sum (map tx_Amount rows) in
  ∃ w', w' = w <| w_tick := S (w_tick w) |> ∧
    (in_int64 total →
       run (Reconcile m provider from to) w =
         (Ret (MkReconciliationResult total 0 total (Z.of_nat (length rows))
                 ReconciliationStatusUnavailable), w') ∧
       run (CheckDiscrepancies bus m provider from to) w = (Ret None, w')) ∧
    (¬ in_int64 total →
       ∃ err, run (Reconcile m provider from to) w = (Err err, w') ∧
              run (CheckDiscrepancies bus m provider from to) w = (Err err, w')).
Proof.
  intros Hok rows total. eexists. split; [done|].
  assert (∀ o, run (Reconcile m provider from to) w = (o, w <| w_tick := S (w_tick w) |>) →
    run (CheckDiscrepancies bus m provider from to) w =
      match o with
      | Ret r => if decide (rr_Status r = ReconciliationStatusUnavailable)
                 then (Ret None, w <| w_tick := S (w_tick w) |>)
                 else run (CheckDiscrepancies bus m provider from to) w
      | Err e => (Err e, w <| w_tick := S (w_tick w) |>)
      | Panic s => (Panic s, w <| w_tick := S (w_tick w) |>)
      end) as Hcheck.
  { intros o Ho. unfold CheckDiscrepancies. rewrite run_bind, Ho.
    destruct o as [r| |]; [|done..]. by case_decide. }
  unfold Reconcile, scan_int64 in *. rewrite run_bind in *. unfold db_read in *. rewrite run_act in *.
  cbv beta in *. change (w_db (w <| w_tick := _ |>)) with (w_db w) in *. rewrite Hok in *.
  cbv beta iota in *. fold rows in Hcheck |- *. fold total in Hcheck |- *. split; intros Htotal.
  - rewrite decide_True in * by done. rewrite run_bind, run_ret, run_ret in *.
    unfold sub64 in *. rewrite Z.sub_0_r, wrap64_id in * by done. split; [done|].
    by rewrite (Hcheck _ eq_refl).
  - rewrite decide_False in * by done. eexists. split; [done|]. by rewrite (Hcheck _ eq_refl).
Qed.
End promises.

(** The reports whose statements the server refuses never succeed, whatever
    the request is, and leave everything as it is. *)
Definition fails_always `{!Externals} (h : Request → M Response) : Prop := ∀ req w,
  ∃ resp w', run (h req) w = (Ret resp, w') ∧ rs_status resp ≠ StatusOK ∧ w_db w' = w_db w.

Lemma reports_fail `{!Externals, !FloatText} :
  fails_always BillingHandler_GetFees ∧ fails_always AnalyticsHandler_GetSummary ∧
  fails_always AnalyticsHandler_GetTransactionAnalytics.
Proof.
  split_and!; intros req w.
  - unfold BillingHandler_GetFees, with_param, parsed.
    destruct (uuid_Parse _) as [|m]; [by repeat eexists|].
    rewrite run_bind. unfold now at 1, ask. rewrite run_act. cbv beta iota zeta.
    rewrite run_bind. unfold now, ask. rewrite run_act. cbv beta iota zeta.
    destruct (time_Parse_RFC3339 _); [|by repeat eexists].
    destruct (time_Parse_RFC3339 _); by repeat eexists.
  - by repeat eexists.
  - by repeat eexists.
Qed.

(** ** Witnesses *)

#[local] Existing Instance sample.
#[local] Instance no_floats : FloatText := {| parse_float := λ _, float64_of_int 0 |}.

(** A succeeded payment whose provider has an awkward name. *)
Definition odd_transaction : Transaction :=
  zero_transaction <| tx_ID := 5%N |> <| tx_MerchantID := 3%N |> <| tx_Amount := 700 |>
    <| tx_Currency := "EUR" |> <| tx_Status := TransactionStatusSucceeded |>
    <| tx_Provider := "a " +:+ quote +:+ "bank" +:+ quote +:+ ", inc" |>
    <| tx_CreatedAt := sample_epoch |>.

Definition reporting_world : world :=
  world_of (empty_database <| db_transactions := {[5%N := odd_transaction]} |>).

Definition exporting : M string :=
  ExportTransactions 3%N (sample_epoch - Hour) (sample_epoch + Hour).

Lemma ExportTransactions_roundtrip_witness :
  ∃ csv, (run exporting reporting_world).1 = Ret csv ∧
    ReadAll csv = Some [csv_header; csv_record odd_transaction] ∧
    ∃ l, ReadAll csv = Some (csv_header :: map csv_record l).
Proof.
  destruct (run exporting reporting_world) as [o w'] eqn:Hrun. assert (∃ csv, o = Ret csv) as [csv ->].
  { vm_compute in Hrun. injection Hrun as <- <-. by eexists. }
  change (run (ExportTransactions 3%N (sample_epoch - Hour) (sample_epoch + Hour)) reporting_world = (Ret csv, w')) in Hrun.
  destruct (ExportTransactions_roundtrip 3%N (sample_epoch - Hour) (sample_epoch + Hour)
    reporting_world csv w' Hrun) as (l & _ & Hread & Hall).
  exists csv. split; [done|]. split; [|by exists l]. rewrite Hread, Hall by done. vm_compute. done.
Defined.

Lemma CheckDiscrepancies_silent_witness :
  ∃ w', run (CheckDiscrepancies NoopEventBus 3%N (tx_Provider odd_transaction)
               (sample_epoch - Hour) (sample_epoch + Hour)) reporting_world = (Ret None, w').
Proof.
  assert (@db_accepts sample) as Hok by done.
  destruct (CheckDiscrepancies_silent NoopEventBus 3%N (tx_Provider odd_transaction)
    (sample_epoch - Hour) (sample_epoch + Hour) reporting_world Hok) as (w' & _ & Hin & _).
  exists w'. apply Hin. vm_compute. split; discriminate.
Defined.
