(* ===== verification/Edge.v ===== *)
(** The middleware that [cmd/server/main.go] adds after the routes are
    registered: [cors.go], [request_id.go], [security.go], [request_size.go] and
    [recovery.go] of [internal/middleware].

    gin gives a route the middleware known when the route is added, so this
    chain runs on no route: only on requests that no route takes. *)

From S2P Require Import Prelude GoInt GoTime GoJson Model Errors World Effects Logic History Http Auth.

Open Scope Z_scope.

Definition StatusSwitchingProtocols : Z := 101.
Definition StatusNoContent : Z := 204.

(** What a chain of middleware passes along: the request, the headers set on
    the answer, and the values kept for the request. *)
Record Exchange := MkExchange {
  ex_method : string; ex_request : Request;
  ex_headers : list (string * string);
  ex_request_id : string;
  ex_body_limit : option Z
}.
#[export] Instance eta_Exchange : Eta Exchange := λ r,
  MkExchange (ex_method r) (ex_request r) (ex_headers r) (ex_request_id r) (ex_body_limit r).

(** [c.Header(key, value)]: sets, does not add. *)
Definition set_header (key v : string) (x : Exchange) : Exchange :=
  x <| ex_headers := (key, v) :: List.filter (λ kv, negb (bool_decide (kv.1 = key))) (ex_headers x) |>.
Definition set_headers (l : list (string * string)) (x : Exchange) : Exchange :=
  fold_left (λ x kv, set_header kv.1 kv.2 x) l x.
Definition header_of (x : Exchange) (key : string) : option string := lookup_first key (ex_headers x).

Section edge.
Context `{!Externals}.

(** [inl]: the chain is aborted with an answer. *)
Definition Step : Type := Exchange → M (Response * Exchange + Exchange).

Definition CORS : Step := λ x,
  let x := set_headers [
    ("Access-Control-Allow-Origin", "*");
    ("Access-Control-Allow-Methods", "GET, POST, PUT, PATCH, DELETE, OPTIONS");
    ("Access-Control-Allow-Headers",
      "Origin, Content-Type, Accept, Authorization, X-Request-ID, X-Idempotency-Key");
    ("Access-Control-Expose-Headers", "X-Request-ID");
    ("Access-Control-Max-Age", "86400")] x in
  mret (if decide (ex_method x = "OPTIONS") then inl (MkResponse StatusNoContent (VText ""), x) else inr x).

Definition RequestID : Step := λ x,
  let given := GetHeader (ex_request x) "X-Request-ID" in
  id ← (if decide (given = "") then u ← uuid_New; mret (uuid_String u) else mret given);
  mret (inr (set_header "X-Request-ID" id (x <| ex_request_id := id |>))).

Definition security_headers : list (string * string) := [
  ("X-Content-Type-Options", "nosniff"); ("X-Frame-Options", "DENY");
  ("X-XSS-Protection", "1; mode=block");
  ("Referrer-Policy", "strict-origin-when-cross-origin");
  ("Content-Security-Policy", "default-src 'self'");
  ("Strict-Transport-Security", "max-age=31536000; includeSubDomains");
  ("Cache-Control", "no-store, no-cache, must-revalidate"); ("Pragma", "no-cache")].

Definition SecurityHeaders : Step := λ x, mret (inr (set_headers security_headers x)).

Definition RequestSizeLimit (maxBytes : Z) : Step := λ x,
  mret (inr (x <| ex_body_limit := Some maxBytes |>)).

(** Panics become a 500; the rest of the chain follows. *)
Definition recovering (next : Step) : Step := λ x,
  on_outcome (λ o, match o with
                   | Panic _ => mret (inl (error_reply StatusInternalServerError "internal server error", x))
                   | o => Done o
                   end) (next x).

Definition and_then (first next : Step) : Step := λ x,
  r ← first x;
  match r with inl stop => mret (inl stop) | inr x => next x end.

(** The chain of [main], in its order; [Logger] only logs. *)
Definition server_chain : Step :=
  recovering (and_then CORS (and_then RequestID (and_then SecurityHeaders
    (RequestSizeLimit (10 * 2 ^ 20))))).

(** A request no route takes: what the chain decides, else gin's 404. *)
Definition unrouted (method : string) (req : Request) : M (Response * Exchange) :=
  r ← server_chain (MkExchange method req [] "" None);
  mret match r with
       | inl (resp, x) => (resp, x)
       | inr x => (MkResponse 404 (VText "404 page not found"), x)
       end.

(** ** What the chain does *)

Lemma unrouted_preflight req w :
  ∃ x, run (unrouted "OPTIONS" req) w = (Ret (MkResponse StatusNoContent (VText ""), x), w) ∧
    header_of x "Access-Control-Allow-Origin" = Some "*" ∧
    header_of x "Access-Control-Allow-Methods" = Some "GET, POST, PUT, PATCH, DELETE, OPTIONS".
Proof. eexists. split; [reflexivity|]. by split. Qed.

(** Any other request gets a 404 with the headers of every step, and the
    identifier it came with or a fresh one. *)
Lemma unrouted_other method req w :
  method ≠ "OPTIONS" →
  ∃ x w', run (unrouted method req) w = (Ret (MkResponse 404 (VText "404 page not found"), x), w') ∧
    (∃ n, w' = w <| w_tick := n |>) ∧
    (∀ k v, (k, v) ∈ security_headers → header_of x k = Some v) ∧
    header_of x "Access-Control-Allow-Origin" = Some "*" ∧
    header_of x "X-Request-ID" = Some (ex_request_id x) ∧
    ex_request_id x = (if decide (GetHeader req "X-Request-ID" = "")
                       then uuid_String (ext_uuid (w_tick w)) else GetHeader req "X-Request-ID").
Proof.
  intros Hm. unfold unrouted, server_chain, recovering, and_then, RequestID.
  set (given := GetHeader req "X-Request-ID").
  assert (∃ n, run (if decide (given = "") then u ← uuid_New; mret (uuid_String u) else mret given) w =
    (Ret (if decide (given = "") then uuid_String (ext_uuid (w_tick w)) else given),
     w <| w_tick := n |>)) as [n Hid].
  { destruct (decide (given = "")); [by exists (S (w_tick w))|exists (w_tick w); by destruct w]. }
  eexists _, _. split; [|split; [by exists n|]].
  - rewrite run_bind, run_on_outcome, run_bind. unfold CORS. cbv zeta.
    rewrite run_ret. simpl (ex_method _). rewrite decide_False by done.
    rewrite run_bind, run_bind. simpl (GetHeader _ _). fold given. rewrite Hid. reflexivity.
  - split; [|by repeat split].
    intros k v Hin. unfold security_headers in Hin.
    repeat (apply elem_of_cons in Hin as [[= -> ->]|Hin]; [reflexivity|]). by apply not_elem_of_nil in Hin.
Qed.

Lemma acts_unrouted method req : Acts unchanged (unrouted method req).
Proof.
  unfold unrouted, server_chain, recovering. apply Acts_bind; [|by intros []].
  apply Acts_on_outcome; [|by intros []].
  unfold and_then, CORS, RequestID, SecurityHeaders, RequestSizeLimit. handler_acts.
Qed.

Lemma answers_unrouted method req : Answers (unrouted method req).
Proof.
  unfold unrouted, server_chain, recovering. apply Answers_bind; [|by intros []].
  apply Answers_on_answer; [|done].
  unfold and_then, CORS, RequestID, SecurityHeaders, RequestSizeLimit. answers.
Qed.
End edge.

#[export] Hint Resolve acts_unrouted : acts.
#[export] Hint Resolve answers_unrouted : answers.
