(* ===== verification/Sdk.v ===== *)
(** The Go client: [sdk/go].

    A method makes one HTTP request and decodes the answer. The client runs in a
    world of its own, of which it uses the network only. *)

From S2P Require Import Prelude GoInt GoTime GoFloat Pagination TimeParse GoJson Model Errors World.
From S2P Require Import Effects Logic WebhookSvc Http.

Open Scope Z_scope.

(** ** client.go *)

Record Client := MkClient { cl_baseURL : string; cl_apiKey : string }.

Definition ClientOption : Type := Client → Client.
Definition WithAPIKey (key : string) : ClientOption := λ c, MkClient (cl_baseURL c) key.

(** The options in turn. The HTTP client, with its timeout of 30 seconds, is
    the network of the model. *)
Definition NewClient (baseURL : string) (opts : list ClientOption) : Client :=
  fold_left (λ c opt, opt c) opts (MkClient baseURL "").

Section client.
Context `{!Externals, !NetURL}.

Definition cl_headers (c : Client) : list (string * string) :=
  ("Content-Type", "application/json") ::
  omit_if (bool_decide (cl_apiKey c = "")) "Authorization" ("Bearer " +:+ cl_apiKey c).

(** [c.do]: the data of an answer below 400. *)
Definition do_request (c : Client) (method path : string) (body : option json) : M string :=
  let url := cl_baseURL c +:+ path in
  match url_error url with
  | Some err => fail (EWrap "create request" (EDriver err))
  | None =>
      '(status, (data, broken)) ← wrap_err "execute request" (http_Do (MkHttpRequest method url
        (cl_headers c) (match body with Some v => inl v | None => inr "" end)));
      match broken with
      | Some err => fail (EWrap "read response" (EDriver err))
      | None => if decide (400 ≤ status) then fail (EAPI status data) else mret data
      end
  end.

(** [json.Unmarshal(data, &v)] into a struct. *)
Definition unmarshal {A} (decode : list (string * json) → option A) (data : string) : M A :=
  match ext_json data with
  | inl err => fail (EWrap "unmarshal response" (EDriver err))
  | inr v =>
      match (ms ← decode_members v; decode ms) with
      | None => fail (EWrap "unmarshal response" (EDriver "json: cannot unmarshal value into Go struct"))
      | Some a => mret a
      end
  end.

Definition call {A} (decode : list (string * json) → option A)
    (c : Client) (method path : string) (body : option json) : M A :=
  data ← do_request c method path body; unmarshal decode data.

(** [uuid.UUID] and [time.Time] read themselves from strings. *)
Definition decode_uuid (v : json) : option uuid :=
  match v with
  | JStr s => match uuid_Parse s with inr id => Some id | inl _ => None end
  | _ => None
  end.
Definition decode_time (v : json) : option time :=
  match v with JStr s => time_Parse_RFC3339 s | _ => None end.

(** A slice of structs; [null] for an element leaves its zero value. *)
Definition decode_slice {A} (decode : list (string * json) → option A) (v : json)
    : option (list A) :=
  match v with
  | JArr l => mapM (λ v, ms ← decode_members v; decode ms) l
  | _ => None
  end.

(** ** transaction.go *)

Record SdkTransaction := MkSdkTransaction {
  st_ID : uuid; st_MerchantID : uuid; st_CustomerID : uuid; st_Amount : Z; st_Currency : string;
  st_Status : string; st_Provider : string; st_CreatedAt : time
}.

Definition decode_SdkTransaction (ms : list (string * json)) : option SdkTransaction :=
  id ← decode_field decode_uuid "id" ms uuid_Nil;
  merchant ← decode_field decode_uuid "merchant_id" ms uuid_Nil;
  customer ← decode_field decode_uuid "customer_id" ms uuid_Nil;
  amount ← decode_field decode_int64 "amount" ms 0;
  currency ← decode_field decode_string "currency" ms "";
  status ← decode_field decode_string "status" ms "";
  provider ← decode_field decode_string "provider" ms "";
  created ← decode_field decode_time "created_at" ms time_zero;
  Some (MkSdkTransaction id merchant customer amount currency status provider created).

Record ProcessPaymentRequest := MkProcessPaymentRequest {
  pp_CustomerID : string; pp_PaymentMethodID : string; pp_Amount : Z; pp_Currency : string;
  pp_IdempotencyKey : string
}.

Definition ProcessPaymentRequest_json (r : ProcessPaymentRequest) : json := JObj
  [("customer_id", JStr (pp_CustomerID r)); ("payment_method_id", JStr (pp_PaymentMethodID r));
   ("amount", JNum (pp_Amount r)); ("currency", JStr (pp_Currency r));
   ("idempotency_key", JStr (pp_IdempotencyKey r))].

Definition merchant_path (merchantID : uuid) (rest : string) : string :=
  "/api/v1/merchants/" +:+ uuid_String merchantID +:+ rest.

Definition Client_ProcessPayment (c : Client) (merchantID : uuid) (req : ProcessPaymentRequest)
    : M SdkTransaction :=
  call decode_SdkTransaction c "POST" (merchant_path merchantID "/transactions")
    (Some (ProcessPaymentRequest_json req)).

Definition Client_GetTransaction (c : Client) (merchantID transactionID : uuid) : M SdkTransaction :=
  call decode_SdkTransaction c "GET"
    (merchant_path merchantID ("/transactions/" +:+ uuid_String transactionID)) None.

Definition Client_ListTransactions (c : Client) (merchantID : uuid) : M (list SdkTransaction) :=
  call (λ ms, decode_field (decode_slice decode_SdkTransaction) "transactions" ms [])
    c "GET" (merchant_path merchantID "/transactions") None.

(** ** merchant.go *)

Record SdkMerchant := MkSdkMerchant {
  sm_ID : uuid; sm_LegalName : string; sm_TradeName : string; sm_Email : string; sm_Phone : string;
  sm_Country : string; sm_Currency : string; sm_Status : string; sm_CreatedAt : time
}.

Definition decode_SdkMerchant (ms : list (string * json)) : option SdkMerchant :=
  id ← decode_field decode_uuid "id" ms uuid_Nil;
  legal ← decode_field decode_string "legal_name" ms "";
  trade ← decode_field decode_string "trade_name" ms "";
  email ← decode_field decode_string "email" ms "";
  phone ← decode_field decode_string "phone" ms "";
  country ← decode_field decode_string "country" ms "";
  currency ← decode_field decode_string "currency" ms "";
  status ← decode_field decode_string "status" ms "";
  created ← decode_field decode_time "created_at" ms time_zero;
  Some (MkSdkMerchant id legal trade email phone country currency status created).

Record CreateMerchantRequest := MkCreateMerchantRequest {
  cm_LegalName : string; cm_TradeName : string; cm_Email : string; cm_Phone : string;
  cm_Country : string; cm_Currency : string
}.

Definition CreateMerchantRequest_json (r : CreateMerchantRequest) : json := JObj
  [("legal_name", JStr (cm_LegalName r)); ("trade_name", JStr (cm_TradeName r));
   ("email", JStr (cm_Email r)); ("phone", JStr (cm_Phone r)); ("country", JStr (cm_Country r));
   ("currency", JStr (cm_Currency r))].

Definition Client_CreateMerchant (c : Client) (req : CreateMerchantRequest) : M SdkMerchant :=
  call decode_SdkMerchant c "POST" "/api/v1/merchants" (Some (CreateMerchantRequest_json req)).

Definition Client_GetMerchant (c : Client) (id : uuid) : M SdkMerchant :=
  call decode_SdkMerchant c "GET" (merchant_path id "") None.

Definition Client_ListMerchants (c : Client) : M (list SdkMerchant) :=
  call (λ ms, decode_field (decode_slice decode_SdkMerchant) "merchants" ms [])
    c "GET" "/api/v1/merchants" None.

(** ** customer.go *)

Record SdkCustomer := MkSdkCustomer {
  sc_ID : uuid; sc_MerchantID : uuid; sc_Name : string; sc_Email : string; sc_Phone : string;
  sc_CreatedAt : time
}.

Definition decode_SdkCustomer (ms : list (string * json)) : option SdkCustomer :=
  id ← decode_field decode_uuid "id" ms uuid_Nil;
  merchant ← decode_field decode_uuid "merchant_id" ms uuid_Nil;
  name ← decode_field decode_string "name" ms "";
  email ← decode_field decode_string "email" ms "";
  phone ← decode_field decode_string "phone" ms "";
  created ← decode_field decode_time "created_at" ms time_zero;
  Some (MkSdkCustomer id merchant name email phone created).

Record CreateCustomerRequest := MkCreateCustomerRequest {
  cc_Name : string; cc_Email : string; cc_Phone : string
}.

Definition CreateCustomerRequest_json (r : CreateCustomerRequest) : json := JObj
  [("name", JStr (cc_Name r)); ("email", JStr (cc_Email r)); ("phone", JStr (cc_Phone r))].

Definition Client_CreateCustomer (c : Client) (merchantID : uuid) (req : CreateCustomerRequest)
    : M SdkCustomer :=
  call decode_SdkCustomer c "POST" (merchant_path merchantID "/customers")
    (Some (CreateCustomerRequest_json req)).

Definition Client_GetCustomer (c : Client) (merchantID customerID : uuid) : M SdkCustomer :=
  call decode_SdkCustomer c "GET"
    (merchant_path merchantID ("/customers/" +:+ uuid_String customerID)) None.

Definition Client_ListCustomers (c : Client) (merchantID : uuid) : M (list SdkCustomer) :=
  call (λ ms, decode_field (decode_slice decode_SdkCustomer) "customers" ms [])
    c "GET" (merchant_path merchantID "/customers") None.

(** ** subscription.go *)

Record SdkSubscription := MkSdkSubscription {
  ss_ID : uuid; ss_MerchantID : uuid; ss_CustomerID : uuid; ss_Amount : Z; ss_Currency : string;
  ss_Status : string; ss_Interval : string; ss_CreatedAt : time
}.

Definition decode_SdkSubscription (ms : list (string * json)) : option SdkSubscription :=
  id ← decode_field decode_uuid "id" ms uuid_Nil;
  merchant ← decode_field decode_uuid "merchant_id" ms uuid_Nil;
  customer ← decode_field decode_uuid "customer_id" ms uuid_Nil;
  amount ← decode_field decode_int64 "amount" ms 0;
  currency ← decode_field decode_string "currency" ms "";
  status ← decode_field decode_string "status" ms "";
  interval ← decode_field decode_string "interval" ms "";
  created ← decode_field decode_time "created_at" ms time_zero;
  Some (MkSdkSubscription id merchant customer amount currency status interval created).

Record SdkSubscriptionRequest := MkSdkSubscriptionRequest {
  sb_CustomerID : string; sb_Amount : Z; sb_Currency : string; sb_Interval : string;
  sb_IntervalCount : Z
}.

Definition SdkSubscriptionRequest_json (r : SdkSubscriptionRequest) : json := JObj
  [("customer_id", JStr (sb_CustomerID r)); ("amount", JNum (sb_Amount r));
   ("currency", JStr (sb_Currency r)); ("interval", JStr (sb_Interval r));
   ("interval_count", JNum (sb_IntervalCount r))].

Definition Client_CreateSubscription (c : Client) (merchantID : uuid) (req : SdkSubscriptionRequest)
    : M SdkSubscription :=
  call decode_SdkSubscription c "POST" (merchant_path merchantID "/subscriptions")
    (Some (SdkSubscriptionRequest_json req)).

Definition Client_GetSubscription (c : Client) (merchantID subscriptionID : uuid)
    : M SdkSubscription :=
  call decode_SdkSubscription c "GET"
    (merchant_path merchantID ("/subscriptions/" +:+ uuid_String subscriptionID)) None.

Definition Client_CancelSubscription (c : Client) (merchantID subscriptionID : uuid) : M unit :=
  do_request c "DELETE"
    (merchant_path merchantID ("/subscriptions/" +:+ uuid_String subscriptionID)) None;;
  mret ().

(** ** auth.go *)

(** Access token and refresh token. *)
Record AuthTokens := MkAuthTokens { at_AccessToken : string; at_RefreshToken : string }.

Definition decode_AuthTokens (ms : list (string * json)) : option AuthTokens :=
  access ← decode_field decode_string "access_token" ms "";
  refresh ← decode_field decode_string "refresh_token" ms "";
  Some (MkAuthTokens access refresh).

Definition Client_Login (c : Client) (email password : string) : M AuthTokens :=
  call decode_AuthTokens c "POST" "/api/v1/auth/login"
    (Some (JObj [("email", JStr email); ("password", JStr password)])).

Definition Client_Register (c : Client) (email password name : string) : M AuthTokens :=
  call decode_AuthTokens c "POST" "/api/v1/auth/register"
    (Some (JObj [("email", JStr email); ("password", JStr password); ("name", JStr name)])).

Definition Client_RefreshToken (c : Client) (refreshToken : string) : M AuthTokens :=
  call decode_AuthTokens c "POST" "/api/v1/auth/refresh"
    (Some (JObj [("refresh_token", JStr refreshToken)])).
End client.
