(* ===== verification/SdkContract.v ===== *)
(** The client against the server: what the handlers answer is what [sdk/go]
    reads, except where it is not. *)

From S2P Require Import Prelude GoInt GoTime GoFloat Pagination TimeParse GoJson Model Errors World.
From S2P Require Import Effects Logic History Repository RepoPayments RepoAccounts RepoHistory.
From S2P Require Import EventBus Provider PaymentSvc SubscriptionSvc InvoiceSvc CatalogSvc WebhookSvc.
From S2P Require Import Http Wire Auth PaymentHandlers AccountHandlers Sdk Sample.

Open Scope Z_scope.

(** ** Reading members *)

Section fields.
Context {A : Type} (dec : json → option A) (field : string).

Lemma decode_field_miss k v ms zero :
  key_matches k field = false → decode_field dec field ((k, v) :: ms) zero = decode_field dec field ms zero.
Proof. intros Hk. cbn [decode_field]. by rewrite Hk. Qed.

Lemma decode_field_hit k v ms zero :
  key_matches k field = true → v ≠ JNull →
  decode_field dec field ((k, v) :: ms) zero = (a ← dec v; decode_field dec field ms a).
Proof. intros Hk Hv. cbn [decode_field]. rewrite Hk. by destruct v. Qed.

Lemma decode_field_end zero : decode_field dec field [] zero = Some zero.
Proof. done. Qed.
End fields.

Section contract.
Context `{!Externals, !NetURL} (FormatFloat : float64 → option string).
Abbreviation value_json := (json_value FormatFloat).

(** github.com/google/uuid reads what it writes. *)
Hypothesis uuid_reads : ∀ id, uuid_Parse (uuid_String id) = inr id.

Lemma decode_uuid_written id : decode_uuid (JStr (uuid_String id)) = Some id.
Proof using uuid_reads. unfold decode_uuid. by rewrite uuid_reads. Qed.

Lemma time_value_reads t v :
  time_value t = Some v → v = JStr (RFC3339Nano t) ∧ decode_time v = Some t.
Proof using.
  unfold time_value. case_decide as Hy; [|done]. intros [= <-]. split; [done|].
  by apply RFC3339Nano_Parse.
Qed.

Lemma decode_int64_written n : in_int64 n → decode_int64 (JNum n) = Some n.
Proof using. intros Hn. unfold decode_int64. by rewrite decide_True. Qed.

Definition transaction_view (x : Transaction) : SdkTransaction :=
  MkSdkTransaction (tx_ID x) (tx_MerchantID x) (tx_CustomerID x) (tx_Amount x) (tx_Currency x)
    (tx_Status x) (tx_Provider x) (tx_CreatedAt x).

Lemma object_inv fields v :
  object fields = Some v →
  ∃ ms, v = JObj ms ∧ Forall2 (λ f m, m.1 = f.1 ∧ f.2 = Some m.2) fields ms.
Proof using.
  unfold object. destruct (mapM _ fields) as [ms|] eqn:Hms; [|done]. intros [= <-].
  exists ms. split; [done|]. apply mapM_Some in Hms. eapply Forall2_impl; [exact Hms|].
  intros [k o] [k' j]. simpl. destruct o as [j'|]; simpl; [|done]. by intros [= <- <-].
Qed.

(** [marshalled H]: the members of a struct whose [json.Marshal] is [H]. *)
Ltac marshalled H :=
  apply object_inv in H as (ms & -> & Hall);
  repeat match goal with
    | Hall : Forall2 _ (_ :: _) _ |- _ =>
        apply Forall2_cons_inv_l in Hall as ([? ?] & ? & [? ?] & Hall & ->); simpl in *; subst
    | Hall : Forall2 _ [] _ |- _ => apply Forall2_nil_inv_l in Hall as ->
    | Hf : string_value _ = Some _ |- _ => injection Hf as <-
    | Hf : int_value _ = Some _ |- _ => injection Hf as <-
    | Hf : uuid_value _ = Some _ |- _ => injection Hf as <-
    | Hf : time_value _ = Some _ |- _ => apply time_value_reads in Hf as [-> ?]
    end;
  eexists; split; [reflexivity|].

(** [read_fields] decodes a struct from literal members. *)
Ltac read_fields :=
  repeat first
    [ rewrite decode_field_miss by (vm_compute; reflexivity)
    | rewrite decode_field_hit by first [discriminate | vm_compute; reflexivity]
    | rewrite decode_field_end
    | rewrite decode_uuid_written
    | rewrite decode_int64_written by assumption
    | match goal with Hd : decode_time _ = Some _ |- _ => rewrite Hd end
    | progress cbn [mbind option_bind decode_string] ];
  reflexivity.

Lemma transaction_reads x v :
  in_int64 (tx_Amount x) → transaction_json x = Some v →
  ∃ ms, v = JObj ms ∧ decode_SdkTransaction ms = Some (transaction_view x).
Proof using uuid_reads.
  intros Hamount Hv. marshalled Hv. unfold decode_SdkTransaction. read_fields.
Qed.

Definition merchant_view (x : Merchant) : SdkMerchant :=
  MkSdkMerchant (me_ID x) (me_LegalName x) (me_TradeName x) (me_Email x) (me_Phone x)
    (me_Country x) (me_Currency x) (me_Status x) (me_CreatedAt x).

Lemma merchant_reads x v :
  merchant_json x = Some v →
  ∃ ms, v = JObj ms ∧ decode_SdkMerchant ms = Some (merchant_view x).
Proof using uuid_reads.
  intros Hv. unfold merchant_json in Hv. destruct (me_DeletedAt x); simpl in Hv;
    marshalled Hv; unfold decode_SdkMerchant; read_fields.
Qed.

Definition customer_view (x : Customer) : SdkCustomer :=
  MkSdkCustomer (cu_ID x) (cu_MerchantID x) (cu_Name x) (cu_Email x) (cu_Phone x) (cu_CreatedAt x).

Lemma customer_reads x v :
  customer_json x = Some v →
  ∃ ms, v = JObj ms ∧ decode_SdkCustomer ms = Some (customer_view x).
Proof using uuid_reads.
  intros Hv. unfold customer_json in Hv. destruct (cu_DeletedAt x); simpl in Hv;
    marshalled Hv; unfold decode_SdkCustomer; read_fields.
Qed.

Definition subscription_view (x : Subscription) : SdkSubscription :=
  MkSdkSubscription (sub_ID x) (sub_MerchantID x) (sub_CustomerID x) (sub_Amount x)
    (sub_Currency x) (sub_Status x) (sub_Interval x) (sub_CreatedAt x).

Lemma subscription_reads x v :
  in_int64 (sub_Amount x) → subscription_json x = Some v →
  ∃ ms, v = JObj ms ∧ decode_SdkSubscription ms = Some (subscription_view x).
Proof using uuid_reads.
  intros Hamount Hv. marshalled Hv. unfold decode_SdkSubscription. read_fields.
Qed.

(** ** Calls

    [delivered resp w]: the network answers the next request of the client with
    the response of a handler, and the body is JSON that reads as it was
    written. *)
Definition delivered (resp : Response) (w : world) : Prop :=
  ∃ v, value_json (rs_body resp) = Some v ∧ ext_json (Marshal v) = inr v ∧
    ∀ req, ext_http (w_tick w) req = inr (rs_status resp, (Marshal v, None)).

(** What a call gives, decoded from [v]. *)
Definition received {A} (decode : list (string * json) → option A) (resp : Response) (v : json)
    : outcome A :=
  if decide (400 ≤ rs_status resp) then Err (EAPI (rs_status resp) (Marshal v))
  else match (ms ← decode_members v; decode ms) with
       | Some a => Ret a
       | None => Err (EWrap "unmarshal response" (EDriver "json: cannot unmarshal value into Go struct"))
       end.

Lemma call_delivered {A} (decode : list (string * json) → option A) c method path body resp w :
  url_error (cl_baseURL c +:+ path) = None → delivered resp w →
  ∃ v w', value_json (rs_body resp) = Some v ∧
    run (call decode c method path body) w = (received decode resp v, w').
Proof using.
  intros Hurl (v & Hv & Hparse & Hhttp). exists v. unfold call, do_request, received. rewrite Hurl.
  rewrite !run_bind, run_wrap_err. unfold http_Do. rewrite run_act, Hhttp. cbv beta iota.
  case_decide as Hst; [by eexists|]. rewrite run_ret. unfold unmarshal. rewrite Hparse.
  destruct (_ ≫= _) as [a|]; by eexists.
Qed.

(** A handler that answered something below 400 did not refuse. *)
Lemma run_tried_ok {A} (m : M A) refuse k w resp w' :
  run (tried m refuse k) w = (Ret resp, w') → (∀ e, 400 ≤ rs_status (refuse e)) →
  rs_status resp < 400 → ∃ a w1, run m w = (Ret a, w1) ∧ run (k a) w1 = (Ret resp, w').
Proof using.
  unfold tried. rewrite run_bind, run_attempt. intros Hrun Href Hst.
  destruct (run m w) as [[a|e|s] w1]; [by exists a, w1| |done].
  rewrite run_ret in Hrun. injection Hrun as <- _. specialize (Href e). lia.
Qed.

Lemma run_with_param_ok req name msg k w resp w' :
  run (with_param req name msg k) w = (Ret resp, w') → rs_status resp < 400 →
  ∃ id, uuid_Parse (Param req name) = inr id ∧ run (k id) w = (Ret resp, w').
Proof using.
  unfold with_param, parsed. intros Hrun Hst. destruct (uuid_Parse _) as [e|id]; [|by exists id].
  rewrite run_ret in Hrun. injection Hrun as <- _. done.
Qed.

(** C38: what the client reads is what the server stores: when the server's
    answer to [GET .../transactions/:id] is no error and is delivered, the
    client's [GetTransaction] returns the identifier, parties, amount, currency,
    status, provider and creation time of the row with that identifier. *)
Theorem GetTransaction_reads_row c merchantID id req ws resp ws' w :
  map_Forall (λ _ x, in_int64 (tx_Amount x)) (db_transactions (w_db ws)) →
  Param req "transactionId" = uuid_String id →
  run (PaymentHandler_GetTransaction req) ws = (Ret resp, ws') → rs_status resp < 400 →
  delivered resp w → (∀ path, url_error (cl_baseURL c +:+ path) = None) →
  ∃ x w', db_transactions (w_db ws) !! id = Some x ∧
    run (Client_GetTransaction c merchantID id) w = (Ret (transaction_view x), w').
Proof using uuid_reads.
  intros Hrange Hparam Hrun Hst Hdel Hurl. unfold PaymentHandler_GetTransaction in Hrun.
  apply run_with_param_ok in Hrun as (k & Hk & Hrun); [|done].
  rewrite Hparam, uuid_reads in Hk. injection Hk as <-.
  apply run_tried_ok in Hrun as (x & w1 & Hx & Hresp); [|by intros|done].
  apply query_row_Ret in Hx as (_ & row & Hrow & Hscan). injection Hscan as ->.
  rewrite run_ret in Hresp. injection Hresp as <- _. exists x.
  destruct (call_delivered decode_SdkTransaction c "GET"
    (merchant_path merchantID ("/transactions/" +:+ uuid_String id)) None _ w (Hurl _) Hdel)
    as (v & w' & Hv & Hcall).
  exists w'. split; [done|]. unfold Client_GetTransaction. rewrite Hcall.
  destruct (transaction_reads x v (Hrange _ _ Hrow) Hv) as (ms & -> & Hms).
  unfold received. simpl. by rewrite Hms.
Qed.

(** The client's [GetCustomer] never returns the customer: the server wraps
    it in an object with the payment methods, the client decodes the object
    itself, and the answer is the zero customer and no error. *)
Theorem GetCustomer_returns_zero c merchantID id req ws resp ws' w :
  run (CustomerHandler_GetCustomer req) ws = (Ret resp, ws') → rs_status resp < 400 →
  delivered resp w → (∀ path, url_error (cl_baseURL c +:+ path) = None) →
  ∃ w', run (Client_GetCustomer c merchantID id) w =
    (Ret (MkSdkCustomer uuid_Nil uuid_Nil "" "" "" time_zero), w').
Proof using.
  intros Hrun Hst Hdel Hurl. unfold CustomerHandler_GetCustomer in Hrun.
  apply run_with_param_ok in Hrun as (k & _ & Hrun); [|done].
  apply run_tried_ok in Hrun as (x & w1 & Hx & Hrun); [|by intros|done].
  apply run_bind_Ret in Hrun as (methods & w2 & _ & Hrun).
  rewrite run_ret in Hrun. injection Hrun as <- _.
  destruct (call_delivered decode_SdkCustomer c "GET"
    (merchant_path merchantID ("/customers/" +:+ uuid_String id)) None _ w (Hurl _) Hdel)
    as (v & w' & Hv & Hcall).
  exists w'. unfold Client_GetCustomer. rewrite Hcall. unfold received. simpl in Hv.
  destruct (customer_json x) as [cv|]; [|done]. simpl in Hv.
  destruct (match map VPaymentMethod _ with [] => _ | _ => _ end) as [pv|]; [|done].
  injection Hv as <-. rewrite decide_False by (simpl; unfold StatusOK; lia).
  unfold decode_members, decode_SdkCustomer. cbn [mbind option_bind].
  repeat (rewrite !decode_field_miss by (vm_compute; reflexivity);
    rewrite decode_field_end; cbn [mbind option_bind]).
  reflexivity.
Qed.
End contract.

(** ** Witnesses *)

(** Identifiers as numerals of one digit, which read back whatever their size. *)
Definition tally (id : uuid) : string := Nat.iter (N.to_nat id) (String "1") "".

Lemma length_tally id : String.length (tally id) = N.to_nat id.
Proof. unfold tally. induction (N.to_nat id); simpl; congruence. Qed.

(** A network that delivers one answer, whose text reads as it was written. *)
Definition network (status : Z) (v : json) : Externals := {|
  ext_now := @ext_now sample; ext_db_now := @ext_db_now sample; ext_uuid := @ext_uuid sample;
  ext_rand := @ext_rand sample; ext_db := @ext_db sample; ext_locked := @ext_locked sample;
  ext_rows := @ext_rows sample; ext_publish := @ext_publish sample;
  ext_http := λ _ _, inr (status, (Marshal v, None));
  ext_redis := @ext_redis sample;
  ext_json := λ text, if decide (text = Marshal v) then inr v else inl "no JSON";
  uuid_String := tally;
  uuid_Parse := λ s, inr (N.of_nat (String.length s));
  pg_uuid_in := @pg_uuid_in sample;
  ext_order := @ext_order sample
|}.

Lemma network_uuid_reads status v id :
  @uuid_Parse (network status v) (@uuid_String (network status v) id) = inr id.
Proof. simpl. rewrite length_tally. by rewrite N2Nat.id. Qed.

Lemma network_delivers status v resp w :
  rs_status resp = status → @json_value (network status v) (λ _, None) (rs_body resp) = Some v →
  @delivered (network status v) (λ _, None) resp w.
Proof.
  intros <- Hv. exists v. split; [exact Hv|]. split; [|done]. simpl. by rewrite decide_True.
Qed.

#[local] Instance any_url : NetURL := {| url_error := λ _, None |}.
Definition local_client : Client := MkClient "http://localhost:8080" "".
Definition asking_for (name : string) (id : uuid) : Request :=
  MkRequest [] [(name, tally id)] [] (inr "") "10.0.0.1" [].

(** Transaction 2 and customer 4 of merchant 3. *)
Definition sold : Transaction :=
  MkTransaction 2 3 4 "mock" "ch_2" TransactionTypeCharge 2500 "USD" TransactionStatusSucceeded 9
    (Some "order-1") None None None None 102 (Some 2398) (Some sample_epoch) sample_epoch sample_epoch.
Definition ann_row : CustomerRow :=
  MkCustomerRow 4 3 (Some "a-1") "Ann" "ann@example.com" "" None sample_epoch sample_epoch.
Definition shop_world : world :=
  world_of (empty_database <| db_transactions := {[2%N := sold]} |> <| db_customers := {[4%N := ann_row]} |>).

Definition sold_json : json :=
  default JNull (@transaction_json (network 200 JNull) sold).
Definition ann_json : json :=
  default JNull (@json_value (network 200 JNull) (λ _, None)
    (VObj [("customer", VCustomer (MkCustomer 4 3 "a-1" "Ann" "ann@example.com" "" None
             sample_epoch sample_epoch None)); ("payment_methods", VList [])])).

Lemma GetTransaction_reads_row_witness :
  ∃ w', run (@Client_GetTransaction (network 200 sold_json) _ local_client 3 2) shop_world =
    (Ret (MkSdkTransaction 2 3 4 2500 "USD" TransactionStatusSucceeded "mock" sample_epoch), w').
Proof.
  destruct (run_returns (@PaymentHandler_GetTransaction (network 200 sold_json) (asking_for "transactionId" 2))
    shop_world) as (resp & ws' & Hrun); [vm_compute; reflexivity|].
  assert (resp = MkResponse StatusOK (VTransaction sold)) as ->.
  { pose proof Hrun as H. vm_compute in H. injection H as <- _. reflexivity. }
  destruct (@GetTransaction_reads_row (network 200 sold_json) _ (λ _, None)
    (network_uuid_reads 200 sold_json) local_client 3 2 (asking_for "transactionId" 2) shop_world
    (MkResponse StatusOK (VTransaction sold)) ws' shop_world) as (x & w' & Hx & Hcall).
  - intros k x Hx. change (({[2%N := sold]} : gmap uuid Transaction) !! k = Some x) in Hx.
    apply lookup_singleton_Some in Hx as [_ <-]. vm_compute. split; discriminate.
  - reflexivity.
  - exact Hrun.
  - reflexivity.
  - apply network_delivers; [reflexivity|]. vm_compute. reflexivity.
  - reflexivity.
  - exists w'. rewrite Hcall. change (({[2%N := sold]} : gmap uuid Transaction) !! 2%N = Some x) in Hx.
    apply lookup_singleton_Some in Hx as [_ <-]. reflexivity.
Defined.

Lemma GetCustomer_returns_zero_witness :
  ∃ ws' w', run (@CustomerHandler_GetCustomer (network 200 ann_json) (asking_for "customerId" 4)) shop_world =
      (Ret (MkResponse StatusOK (VObj [("customer", VCustomer (MkCustomer 4 3 "a-1" "Ann"
        "ann@example.com" "" None sample_epoch sample_epoch None)); ("payment_methods", VList [])])), ws') ∧
    run (@Client_GetCustomer (network 200 ann_json) _ local_client 3 4) shop_world =
      (Ret (MkSdkCustomer uuid_Nil uuid_Nil "" "" "" time_zero), w').
Proof.
  destruct (run_returns (@CustomerHandler_GetCustomer (network 200 ann_json) (asking_for "customerId" 4))
    shop_world) as (resp & ws' & Hrun); [vm_compute; reflexivity|].
  assert (resp = MkResponse StatusOK (VObj [("customer", VCustomer (MkCustomer 4 3 "a-1" "Ann"
        "ann@example.com" "" None sample_epoch sample_epoch None)); ("payment_methods", VList [])])) as ->.
  { pose proof Hrun as H. vm_compute in H. injection H as <- _. reflexivity. }
  destruct (@GetCustomer_returns_zero (network 200 ann_json) _ (λ _, None) local_client 3 4
    (asking_for "customerId" 4) shop_world _ ws' shop_world Hrun) as (w' & Hcall).
  - reflexivity.
  - apply network_delivers; [reflexivity|]. vm_compute. reflexivity.
  - reflexivity.
  - exists ws', w'. split; [exact Hrun|exact Hcall].
Defined.
