(* ===== verification/Subscriber.v ===== *)
(** The other end of the event bus: [Subscribe] of [internal/eventbus], and the
    JSON of an event.

    Nothing in the repository subscribes; [JetStream] is the library that calls
    the callback for each message, and calls it again for one that was not
    acknowledged. *)

From Stdlib Require Import Floats.SpecFloat.
From S2P Require Import Prelude GoInt GoTime GoFloat Pagination TimeParse GoJson Model Errors World.
From S2P Require Import Effects Logic History Repository RepoPayments RepoAccounts RepoHistory.
From S2P Require Import EventBus Http Wire Sdk SdkContract Sample.

Open Scope Z_scope.

(** ** The text of an event *)

Section text.
Context `{!Externals, !FloatText}.

Definition event_data_json (d : event_data) : option json :=
  match d with
  | DTransaction x => transaction_json x
  | DSubscription x => subscription_json x
  | DInvoice x => invoice_json x
  | DPayout x => payout_json x
  | DDispute x => dispute_json x
  | DDiscrepancy merchant provider amount severity detected => object
      [("merchant_id", uuid_value merchant); ("provider", string_value provider);
       ("amount", int_value amount); ("severity", string_value severity);
       ("detected_at", time_value detected)]
  | DString s => string_value s
  end.

Definition event_json (e : Event) : option json := object
  [("type", string_value (ev_Type e)); ("source", string_value (ev_Source e));
   ("data", event_data_json (ev_Data e)); ("timestamp", int_value (ev_Timestamp e))].

(** An [interface{}] filled by [json.Unmarshal]: numbers are [float64]. *)
Inductive any :=
  | ANil | ABool (b : bool) | ANumber (x : float64) | AString (s : string)
  | AArray (l : list any) | AMap (m : gmap string any).

(** A number beyond the range of [float64] is an error. *)
Definition number (x : float64) : option any :=
  match x with S754_infinity _ => None | _ => Some (ANumber x) end.

(** Of two members of one name the later counts. *)
Fixpoint any_of (v : json) : option any :=
  match v with
  | JNull => Some ANil
  | JBool b => Some (ABool b)
  | JNum z => number (float64_of_int z)
  | JFrac text => number (parse_float text)
  | JStr s => Some (AString s)
  | JArr l =>
      (fix elements (l : list json) (done : list any) : option any :=
         match l with
         | [] => Some (AArray (reverse done))
         | v :: l => a ← any_of v; elements l (a :: done)
         end) l []
  | JObj members =>
      (fix fill (members : list (string * json)) (m : gmap string any) : option any :=
         match members with
         | [] => Some (AMap m)
         | (k, v) :: members => a ← any_of v; fill members (<[k := a]> m)
         end) members ∅
  end.

(** An [Event] as a subscriber gets it: [Data] is an [interface{}]. *)
Record Received := MkReceived {
  rc_Type : string; rc_Source : string; rc_Data : any; rc_Timestamp : Z
}.

Definition decode_Received (ms : list (string * json)) : option Received :=
  type ← decode_field decode_string "type" ms "";
  source ← decode_field decode_string "source" ms "";
  data ← decode_nullable any_of "data" ms None;
  timestamp ← decode_field decode_int64 "timestamp" ms 0;
  Some (MkReceived type source (default ANil data) timestamp).
End text.

(** ** Subscribing *)

(** [js.Subscribe(subject, callback, nats.Durable(name), nats.ManualAck())]. *)
Class JetStream := js_Subscribe : string → (string → M bool) → string → M unit.

Section subscribe.
Context `{!Externals, !FloatText, !JetStream}.

(** The callback, on the data of a message: whether it acknowledges it. *)
Definition on_message (handler : Received → M unit) (data : string) : M bool :=
  match (v ← match ext_json data with inr v => Some v | inl _ => None end;
         ms ← decode_members v; decode_Received ms) with
  | None => mret false
  | Some event => ignore_err (handler event);; mret true
  end.

Definition NatsEventBus_Subscribe (subject : string) (handler : Received → M unit) : M unit :=
  js_Subscribe subject (on_message handler) "helix-seller".

Definition NoopEventBus_Subscribe (subject : string) (handler : Received → M unit) : M unit :=
  mret ().

(** ** From a publisher to a subscriber *)

Lemma run_NatsEventBus_Publish subject e w w' :
  run (NatsEventBus_Publish subject e) w = (Ret (), w') →
  ∃ t, w_events w' = w_events w ++ [(subject, e <| ev_Timestamp := UnixMilli t |>)].
Proof.
  unfold NatsEventBus_Publish, now, ask. rewrite run_bind, run_act. cbv beta iota zeta.
  rewrite run_act. intros Hrun. eexists. destruct (ext_publish _); by simplify_eq.
Qed.

(** What a subscriber is given of an event. *)
Definition received_of (e : Event) (data : any) : Received :=
  MkReceived (ev_Type e) (ev_Source e) data (ev_Timestamp e).

Lemma decode_data t s d ts :
  default ANil <$> decode_nullable any_of "data"
    [("type", t); ("source", s); ("data", d); ("timestamp", ts)] None = any_of d.
Proof.
  cbn [decode_nullable]. change (key_matches "type" "data") with false.
  change (key_matches "source" "data") with false. change (key_matches "data" "data") with true.
  change (key_matches "timestamp" "data") with false.
  cbv iota. destruct d as [|b|z|x|x|l|ms]; [done|..]; by destruct (any_of _).
Qed.

Lemma event_reads e v :
  in_int64 (ev_Timestamp e) → event_json e = Some v →
  ∃ ms data, v = JObj ms ∧ event_data_json (ev_Data e) = Some data ∧
    decode_Received ms = received_of e <$> any_of data.
Proof.
  intros Hts (ms & -> & Hall)%object_inv. exists ms.
  repeat match goal with
    | Hall : Forall2 _ (_ :: _) _ |- _ =>
        apply Forall2_cons_inv_l in Hall as ([? ?] & ? & [? ?] & Hall & ->); simpl in *; subst
    | Hall : Forall2 _ [] _ |- _ => apply Forall2_nil_inv_l in Hall as ->
    | Hf : string_value _ = Some _ |- _ => injection Hf as <-
    | Hf : int_value _ = Some _ |- _ => injection Hf as <-
    end.
  match goal with Hf : event_data_json _ = Some ?d |- _ =>
    exists d; split; [done|]; split; [exact Hf|]; clear Hf end.
  rewrite <- (decode_data (JStr (ev_Type e)) (JStr (ev_Source e)) _ (JNum (ev_Timestamp e))).
  cbv [decode_Received].
  repeat first
    [ rewrite decode_field_miss by (vm_compute; reflexivity)
    | rewrite decode_field_hit by first [discriminate | vm_compute; reflexivity]
    | rewrite decode_field_end | rewrite decode_int64_written by assumption
    | progress cbn [mbind option_bind decode_string] ].
  by destruct (decode_nullable _ _ _ _).
Qed.

(** Numbers arrive as [float64]: an integer of up to 53 bits is still itself. *)
Lemma any_of_int z :
  Z.abs z ≤ 2 ^ 53 → ∃ x, any_of (JNum z) = Some (ANumber x) ∧ int64_of_float x = z.
Proof.
  intros Hz. pose proof (float64_of_int_exact z Hz) as Hx. cbn [any_of]. unfold number.
  destruct (float64_of_int z) as [s|s| |s m e]; try by eexists.
  simpl in Hx. subst z. unfold int64_min in Hz. lia.
Qed.

(** An amount of 2^53 + 1 does not arrive as it was published. *)
Theorem any_of_rounds :
  any_of (JNum (2 ^ 53 + 1)) = any_of (JNum (2 ^ 53)) ∧
  int64_of_float (float64_of_int (2 ^ 53 + 1)) ≠ 2 ^ 53 + 1.
Proof. split; [reflexivity|]. vm_compute. discriminate. Qed.

(** C33: when a publication succeeds, the message at the end of the stream is
    that event, stamped with the time of its publication. A subscriber is given
    its type, source and time as published and its data as Go reads JSON into an
    [interface{}]: every number a [float64], which is the same integer up to
    2^53. The message is acknowledged whatever the handler answers - an event
    whose handler fails is not delivered again - and data that cannot be read
    (a number beyond [float64]) never reach the handler. *)
Theorem Publish_Subscribe subject e handler w w1 :
  run (NatsEventBus_Publish subject e) w = (Ret (), w1) →
  ∃ stored, last (w_events w1) = Some (subject, stored) ∧ (∃ t, stored = e <| ev_Timestamp := UnixMilli t |>) ∧
    ∀ v w2, event_json stored = Some v → ext_json (Marshal v) = inr v →
      in_int64 (ev_Timestamp stored) →
      ∃ data, event_data_json (ev_Data e) = Some data ∧
        run (on_message handler (Marshal v)) w2 =
          match any_of data with
          | None => (Ret false, w2)
          | Some a =>
              match run (handler (received_of stored a)) w2 with
              | (Panic msg, w3) => (Panic msg, w3)
              | (_, w3) => (Ret true, w3)
              end
          end ∧
        (∀ z, Z.abs z ≤ 2 ^ 53 →
           ∃ x, any_of (JNum z) = Some (ANumber x) ∧ int64_of_float x = z).
Proof.
  intros [t Hev]%run_NatsEventBus_Publish. eexists. rewrite Hev, last_snoc. split; [done|].
  split; [by exists t|]. intros v w2 Hv Hparse Hts.
  destruct (event_reads _ v Hts Hv) as (ms & data & -> & Hdata & Hdec).
  exists data. split; [exact Hdata|]. split; [|apply any_of_int].
  unfold on_message. rewrite Hparse. cbn [mbind option_bind decode_members].
  rewrite Hdec. destruct (any_of data) as [a|]; [|done]. cbn [fmap option_fmap option_map].
  rewrite run_bind, run_ignore_err. by destruct (run (handler _) w2) as [[] w3].
Qed.

(** A message that is no event is left unacknowledged, and the handler is not
    called. *)
Theorem Subscribe_unreadable handler data msg w :
  ext_json data = inl msg → run (on_message handler data) w = (Ret false, w).
Proof. intros Hno. unfold on_message. by rewrite Hno. Qed.
End subscribe.

(** ** Witnesses *)

Definition sale : Event := MkEvent "payment.initiated" "helix-seller" (DTransaction sold) 0.
(** The sale, published at the start of the sample's clock. *)
Definition stored_sale : Event :=
  sale <| ev_Timestamp := UnixMilli (@ext_now sample 0) |>.
Definition sale_json : json := default JNull (@event_json (network 200 JNull) stored_sale).
Definition at_sale : Externals := network 200 sale_json.

Lemma network_parses status v : @ext_json (network status v) (Marshal v) = inr v.
Proof. simpl. by rewrite decide_True. Qed.

(** A handler that is busy, and checks the amount it is given. *)
#[local] Instance no_floats : FloatText := {| parse_float := λ _, float64_of_int 0 |}.

Definition busy (r : Received) : M unit :=
  match rc_Data r with
  | AMap m =>
      match m !! "amount" with
      | Some (ANumber x) =>
          if decide (int64_of_float x = tx_Amount sold) then fail (EText "busy") else panic "amount"
      | _ => panic "no amount"
      end
  | _ => panic "no object"
  end.

Lemma Publish_Subscribe_witness :
  @event_data_json at_sale (DTransaction sold) = Some sold_json ∧
  run (@on_message at_sale _ busy (Marshal sale_json)) shop_world = (Ret true, shop_world).
Proof.
  destruct (run_returns (@NatsEventBus_Publish at_sale "events.payment.initiated" sale) shop_world)
    as ([] & w1 & Hrun); [vm_compute; reflexivity|].
  assert (last (w_events w1) = Some ("events.payment.initiated", stored_sale)) as Hstored.
  { pose proof Hrun as H. vm_compute in H. injection H as <-. vm_compute. reflexivity. }
  destruct (@Publish_Subscribe at_sale _ "events.payment.initiated" sale busy shop_world w1 Hrun)
    as (stored & Hlast & _ & Hread).
  rewrite Hstored in Hlast. injection Hlast as <-.
  destruct (Hread sale_json shop_world) as (data & Hdata & Hmsg & _).
  - vm_compute. reflexivity.
  - apply network_parses.
  - vm_compute. split; discriminate.
  - assert (data = sold_json) as -> by (vm_compute in Hdata; injection Hdata as <-; vm_compute; reflexivity).
    split; [exact Hdata|]. rewrite Hmsg. vm_compute. reflexivity.
Defined.
