(* ===== verification/Cli.v ===== *)
(** The command line client: [cmd/cli].

    A command is what [RunE] does once cobra has parsed its arguments: it calls
    the API, prints lines - for a table the cells handed to the tabwriter - and
    may change the configuration that viper keeps and writes. *)

From S2P Require Import Prelude GoInt GoTime GoFloat GoJson Model Errors World Effects Logic History.
From S2P Require Import Repository RepoAccounts EventBus Provider WebhookSvc Http Wire Auth Sdk SdkContract Sample.

Open Scope Z_scope.

(** The verbs [%s] and [%v] of fmt on a value of [map[string]interface{}]; a key
    that is absent gives nil, which is [null] here. *)
Class Fmt := { verb_s : json → string; verb_v : json → string }.

(** viper: what it finds for a key in flags, environment and file, before
    anything is set, and the errors of writing the file. *)
Class Viper := {
  viper_GetString : string → string;
  viper_WriteConfigAs : list (string * string) → option string;
  viper_SafeWriteConfigAs : list (string * string) → option string
}.

Definition lines : Type := list (list string).

(** What a command leaves: its output, and the settings it has made and asked
    viper to write. *)
Record Effect := MkEffect { stdout : lines; settings_made : list (string * string) }.
Definition shows (l : lines) : Effect := MkEffect l [].

Section cli.
Context `{!Externals, !NetURL, !Fmt, !Viper}.

(** [PersistentPreRun]: flag, then configuration, then default. *)
Definition connect (url_flag key_flag : string) : Client :=
  let base := if decide (url_flag = "") then viper_GetString "base_url" else url_flag in
  MkClient (if decide (base = "") then "http://localhost:8080" else base)
    (if decide (key_flag = "") then viper_GetString "api_key" else key_flag).

(** ** api.go *)

Definition api_call (c : Client) (method path : string) (body : option json) : M string :=
  let url := cl_baseURL c +:+ path in
  match url_error url with
  | Some err => fail (EDriver err)
  | None =>
      '(status, (data, broken)) ← wrap_err "request failed" (http_Do (MkHttpRequest method url
        (cl_headers c) (match body with Some v => inl v | None => inr "" end)));
      match broken with
      | Some err => fail (EDriver err)
      | None =>
          if decide (400 ≤ status) then fail (EText ("API error " +:+ pretty status +:+ ": " +:+ data))
          else mret data
      end
  end.
Definition apiGet (c : Client) (path : string) : M string := api_call c "GET" path None.
Definition apiPost (c : Client) (path : string) (body : json) : M string :=
  api_call c "POST" path (Some body).

(** ** json.Unmarshal with its error ignored *)

(** Into a map: anything but an object leaves it nil. *)
Definition object_of (data : string) : list (string * json) :=
  match ext_json data with inr (JObj ms) => ms | _ => [] end.
Definition member (ms : list (string * json)) (key : string) : json :=
  default JNull ((list_to_map (rev ms) : gmap string json) !! key).

(** Into a struct with a slice of maps under [key]: an element that is no
    object leaves its map nil, a member of another kind leaves the slice. *)
Definition rows_of (key data : string) : list (list (string * json)) :=
  fold_left (λ rows kv,
    if key_matches kv.1 key then
      match kv.2 with
      | JArr l => map (λ v, match v with JObj ms => ms | _ => [] end) l
      | JNull => []
      | _ => rows
      end
    else rows) (object_of data) [].

(** Into a struct with a string under [key]. *)
Definition text_of (key data : string) : string :=
  fold_left (λ s kv,
    match kv.2 with JStr t => if key_matches kv.1 key then t else s | _ => s end)
    (object_of data) "".

(** The table of a list command. *)
Definition table (header : list string) (cells : list (string * json) → list string)
    (rows : list (list (string * json))) : Effect :=
  shows (header :: map cells rows).

(** The lines of a get command, one for a member, in the order of the map. *)
Definition details (data : string) : Effect :=
  shows (map (λ kv, [kv.1 +:+ ":"; verb_v kv.2])
    (map_to_list (list_to_map (rev (object_of data)) : gmap string json))).

(** ** merchant.go, customer.go, transaction.go *)

Definition merchants_path : string := "/api/v1/merchants".

Definition merchantList (c : Client) : M Effect :=
  data ← apiGet c merchants_path;
  mret (table ["ID"; "NAME"; "STATUS"; "COUNTRY"]
    (λ m, [verb_s (member m "id"); verb_s (member m "legal_name"); verb_s (member m "status");
           verb_s (member m "country")]) (rows_of "merchants" data)).

Definition merchantGet (c : Client) (id : string) : M Effect :=
  data ← apiGet c (merchants_path +:+ "/" +:+ id); mret (details data).

Definition merchantCreate (c : Client) (legalName email country currency : string) : M Effect :=
  data ← apiPost c merchants_path (JObj [("country", JStr country); ("currency", JStr currency);
    ("email", JStr email); ("legal_name", JStr legalName)]);
  mret (shows [["Merchant created: " +:+ verb_s (member (object_of data) "id")]]).

Definition customers_path (merchantID : string) : string :=
  merchants_path +:+ "/" +:+ merchantID +:+ "/customers".

Definition customerList (c : Client) (merchantID : string) : M Effect :=
  data ← apiGet c (customers_path merchantID);
  mret (table ["ID"; "NAME"; "EMAIL"; "PHONE"]
    (λ m, [verb_s (member m "id"); verb_s (member m "name"); verb_s (member m "email");
           verb_s (member m "phone")]) (rows_of "customers" data)).

Definition customerGet (c : Client) (merchantID customerID : string) : M Effect :=
  data ← apiGet c (customers_path merchantID +:+ "/" +:+ customerID); mret (details data).

Definition customerCreate (c : Client) (merchantID name email phone : string) : M Effect :=
  data ← apiPost c (customers_path merchantID)
    (JObj [("email", JStr email); ("name", JStr name); ("phone", JStr phone)]);
  mret (shows [["Customer created: " +:+ verb_s (member (object_of data) "id")]]).

Definition transactions_path (merchantID : string) : string :=
  merchants_path +:+ "/" +:+ merchantID +:+ "/transactions".

Definition transactionList (c : Client) (merchantID : string) : M Effect :=
  data ← apiGet c (transactions_path merchantID);
  mret (table ["ID"; "AMOUNT"; "CURRENCY"; "STATUS"; "PROVIDER"]
    (λ m, [verb_s (member m "id"); verb_v (member m "amount"); verb_s (member m "currency");
           verb_s (member m "status"); verb_s (member m "provider")]) (rows_of "transactions" data)).

Definition transactionGet (c : Client) (merchantID transactionID : string) : M Effect :=
  data ← apiGet c (transactions_path merchantID +:+ "/" +:+ transactionID); mret (details data).

(** ** analytics.go *)

Definition analyticsSummary (c : Client) (merchantID from to : string) : M Effect :=
  let url := merchants_path +:+ "/" +:+ merchantID +:+ "/analytics/summary" in
  let url := if decide (from ≠ "" ∧ to ≠ "") then url +:+ "?from=" +:+ from +:+ "&to=" +:+ to else url in
  data ← apiGet c url;
  let s := object_of data in
  mret (shows [["Revenue:    " +:+ verb_v (member s "total_revenue")];
    ["Transactions: " +:+ verb_v (member s "total_transactions")];
    ["Successful: " +:+ verb_v (member s "successful_transactions")];
    ["Failed:     " +:+ verb_v (member s "failed_transactions")];
    ["Avg Size:   " +:+ verb_v (member s "average_transaction_size")]]).

(** ** auth.go and config.go *)

Definition authLogin (c : Client) (email password : string) : M Effect :=
  data ← apiPost c "/api/v1/auth/login" (JObj [("email", JStr email); ("password", JStr password)]);
  mret (MkEffect [["Logged in successfully"]] [("api_key", text_of "access_token" data)]).

Definition authLogout : Effect := MkEffect [["Logged out"]] [("api_key", "")].

(** [key[:4] + "****" + key[len(key)-4:]] *)
Definition maskKey (key : string) : string :=
  let n := String.length key in
  if decide (n ≤ 8)%nat then "****"
  else String.substring 0 4 key +:+ "****" +:+ String.substring (n - 4) 4 key.

Definition configShow : Effect :=
  shows [["Base URL: " +:+ viper_GetString "base_url"];
         ["API Key:  " +:+ maskKey (viper_GetString "api_key")]].

(** Nothing is printed when only the second way of writing the file works. *)
Definition configSet (key v : string) : error + Effect :=
  let set := [(key, v)] in
  match viper_WriteConfigAs set with
  | None => inr (MkEffect [["Set " +:+ key +:+ " = " +:+ v]] set)
  | Some _ =>
      match viper_SafeWriteConfigAs set with
      | None => inr (MkEffect [] set)
      | Some err => inl (EDriver err)
      end
  end.
End cli.

(** ** Against the server *)

Section contract.
Context `{!Externals, !NetURL, !PasswordHash, !JWTLib} (FormatFloat : float64 → option string).

Lemma api_call_delivered c method path body resp w :
  url_error (cl_baseURL c +:+ path) = None → delivered FormatFloat resp w → rs_status resp < 400 →
  ∃ v w', json_value FormatFloat (rs_body resp) = Some v ∧ ext_json (Marshal v) = inr v ∧
    run (api_call c method path body) w = (Ret (Marshal v), w').
Proof.
  intros Hurl (v & Hv & Hparse & Hhttp) Hst. exists v. unfold api_call. rewrite Hurl.
  rewrite run_bind, run_wrap_err. unfold http_Do. rewrite run_act, Hhttp. cbv beta iota.
  rewrite decide_False by lia. by eexists.
Qed.

Lemma issue_tokens_ok jwtSvc user err reply w resp w' :
  run (issue_tokens jwtSvc user err reply) w = (Ret resp, w') → rs_status resp < 400 →
  ∃ a r, resp = reply a r.
Proof.
  unfold issue_tokens. rewrite run_bind, run_attempt.
  destruct (run (GenerateAccessToken _ _ _ _ _) w) as [[a|e|s] w1]; [|by rewrite run_ret; intros [= <- _]|done].
  rewrite run_bind, run_attempt.
  destruct (run (GenerateRefreshToken _ _) w1) as [[r|e|s] w2];
    rewrite ?run_ret; try done; intros [= <- _]; [eauto|done].
Qed.

(** What the server says of a login that is not over. *)
Definition asks_for_code (resp : Response) : Prop :=
  ∃ id, rs_body resp = VJson (JObj [("mfa_required", JBool true); ("user_id", JStr (uuid_String id))]).

(** The command [helix auth login] reports success whenever the server does not refuse,
    and the key it then saves is the access token - or, for a user with a second
    factor, for whom the server has only asked for the code, no key at all: the
    key saved before is lost and nobody is logged in. *)
Theorem authLogin_saves jwtSvc req ws resp ws' c email password w :
  run (Login jwtSvc req) ws = (Ret resp, ws') → rs_status resp < 400 →
  delivered FormatFloat resp w → (∀ path, url_error (cl_baseURL c +:+ path) = None) →
  ∃ key w', run (authLogin c email password) w =
      (Ret (MkEffect [["Logged in successfully"]] [("api_key", key)]), w') ∧
    ((asks_for_code resp ∧ key = "") ∨ ∃ refresh, resp = tokens_reply key refresh).
Proof.
  intros Hrun Hst Hdel Hurl.
  destruct (api_call_delivered c "POST" "/api/v1/auth/login"
    (Some (JObj [("email", JStr email); ("password", JStr password)])) resp w (Hurl _) Hdel Hst)
    as (v & w' & Hv & Hparse & Hcall).
  exists (text_of "access_token" (Marshal v)), w'.
  unfold authLogin, apiPost. rewrite run_bind, Hcall, run_ret. split; [done|].
  unfold text_of, object_of. rewrite Hparse.
  unfold Login in Hrun. destruct (ShouldBindJSON _ _ _) as [e|[em pw]].
  { rewrite run_ret in Hrun. injection Hrun as <- _. done. }
  rewrite run_bind, run_attempt in Hrun.
  destruct (run (Authenticate em pw) ws) as [[user|e|p] w1]; [|by rewrite run_ret in Hrun; injection Hrun as <- _|done].
  destruct (us_MfaEnabled user).
  - rewrite run_ret in Hrun. injection Hrun as <- _. left. split; [by eexists|].
    by injection Hv as <-.
  - apply issue_tokens_ok in Hrun as (a & r & ->); [|done]. right. exists r.
    by injection Hv as <-.
Qed.
End contract.

(** ** Witness *)

(** Ann has a second factor: the server asks for her code, and the client has
    forgotten its key. *)
Definition asking_code : json := JObj [("mfa_required", JBool true); ("user_id", JStr (tally 7))].

Definition login_network : Externals := {|
  ext_now := @ext_now sample; ext_db_now := @ext_db_now sample; ext_uuid := @ext_uuid sample;
  ext_rand := @ext_rand sample; ext_db := @ext_db sample; ext_locked := @ext_locked sample;
  ext_rows := @ext_rows sample; ext_publish := @ext_publish sample;
  ext_http := λ _ _, inr (StatusOK, (Marshal asking_code, None));
  ext_redis := @ext_redis sample;
  ext_json := λ text, if decide (text = Marshal asking_code) then inr asking_code
                      else if decide (text = Marshal anns_login) then inr anns_login else inl "no JSON";
  uuid_String := tally;
  uuid_Parse := λ s, inr (N.of_nat (String.length s));
  pg_uuid_in := @pg_uuid_in sample;
  ext_order := @ext_order sample
|}.

#[local] Existing Instances any_url sample_argon sample_jwt.
#[local] Existing Instance login_network.

Lemma authLogin_saves_witness :
  ∃ w', run (authLogin local_client "ann@shop.example" "open sesame!") (world_of empty_database) =
    (Ret (MkEffect [["Logged in successfully"]] [("api_key", "")]), w').
Proof.
  destruct (run_returns (Login (MkJWTService Hour day) (asking [] (Marshal anns_login)))
    (anns_world true true)) as (resp & ws' & Hrun); [vm_compute; reflexivity|].
  assert (resp = MkResponse StatusOK (VJson asking_code)) as ->.
  { pose proof Hrun as H. vm_compute in H. injection H as <- _. vm_compute. reflexivity. }
  destruct (authLogin_saves (λ _, None) (MkJWTService Hour day) (asking [] (Marshal anns_login))
    (anns_world true true) (MkResponse StatusOK (VJson asking_code)) ws' local_client
    "ann@shop.example" "open sesame!" (world_of empty_database)) as (key & w' & Hcall & Hkey).
  - exact Hrun.
  - reflexivity.
  - exists asking_code. split; [reflexivity|]. split; [reflexivity|]. done.
  - done.
  - exists w'. rewrite Hcall. destruct Hkey as [[_ ->]|[refresh [=]]]. reflexivity.
Defined.
