(* ===== verification/Router.v ===== *)
(** The routes of [internal/handler/router.go] and the middleware around them,
    with [internal/middleware/audit.go].

    The routing tree is gin's: what it is relied on for is [find_route]. *)

From S2P Require Import Prelude GoInt GoTime GoFloat Pagination TimeParse GoJson Model Errors.
From S2P Require Import World Effects Logic History Repository RepoPayments RepoAccounts RepoHistory.
From S2P Require Import EventBus Provider PaymentSvc SubscriptionSvc InvoiceSvc CatalogSvc.
From S2P Require Import Background WebhookSvc Http Ingress Auth PaymentHandlers AccountHandlers.
From S2P Require Import ApiKeys Csv Reporting Edge Sample.

Open Scope Z_scope.

Definition HandlerFunc : Type := Request → M Response.

Record route := MkRoute { rt_method : string; rt_path : string; rt_handler : HandlerFunc }.
#[export] Instance eta_route : Eta route := λ r, MkRoute (rt_method r) (rt_path r) (rt_handler r).

(** [Group] and [Use]. *)
Definition group (prefix : string) (l : list route) : list route :=
  map (λ r, r <| rt_path := prefix +:+ rt_path r |>) l.
Definition use (middleware : HandlerFunc → HandlerFunc) (l : list route) : list route :=
  map (λ r, r <| rt_handler := middleware (rt_handler r) |>) l.

Definition GET : string → HandlerFunc → route := MkRoute "GET".
Definition POST : string → HandlerFunc → route := MkRoute "POST".
Definition PUT : string → HandlerFunc → route := MkRoute "PUT".
Definition PATCH : string → HandlerFunc → route := MkRoute "PATCH".
Definition DELETE : string → HandlerFunc → route := MkRoute "DELETE".

(** A middleware that may answer the request itself ([AbortWithStatusJSON]). *)
Definition guard `{!Externals} (mw : Middleware) (next : HandlerFunc) : HandlerFunc := λ req,
  r ← mw req;
  match r with inl resp => mret resp | inr req => next req end.

Definition RoleRootAdmin : string := "root_admin".
Definition RoleAccountAdmin : string := "account_admin".
Definition RoleUser : string := "user".

(** What the process is configured with. *)
Record Settings := MkSettings {
  st_redis : bool;              (** whether there is a Redis client *)
  st_rate_limit : Z;
  st_stripe_secret : string; st_paypal_webhook_id : string; st_square_key : string
}.

(** gin and net/http: the route of a request with its path parameters, what was
    read of a body before it broke, the answer after a panic, the redirection to a
    path with or without a final slash; the page of Prometheus' handler; and
    what gorilla's [Upgrade] comes to: an error it has answered itself, or a
    connection that was upgraded. *)
Class Gin `{!Externals} := {
  find_route : list route → string → string → option (route * list (string * string));
  read_before_error : Request → string;
  recovered : string → Response;
  redirect_slash : list route → string → string → option Response;
  promhttp_ServeHTTP : nat → Request → Response;
  websocket_Upgrade : nat → Request → Response + unit
}.
Class GinLaws `{!Externals, !Gin} := {
  find_route_in l method path r params :
    find_route l method path = Some (r, params) → r ∈ l ∧ rt_method r = method
}.

(** ** The two handlers that are no JSON handlers *)

Definition MetricsHandler `{!Externals, !Gin} : HandlerFunc := λ req,
  ask (λ n, promhttp_ServeHTTP n req).

(** What [HandleWebSocket] is to the request: the reply of the handshake. The
    new client, its registration - which the hub takes at its next turn - and
    its two pumps are those of the component of WebSockets. *)
Definition HandleWebSocket `{!Externals, !Gin} : HandlerFunc := λ req,
  r ← ask (λ n, websocket_Upgrade n req);
  match r with
  | inl refused => mret refused
  | inr () =>
      id ← uuid_New;
      mret (MkResponse StatusSwitchingProtocols (VText ""))
  end.

Section router.
Context `{!Externals, !Gin, !Crypto, !NetURL, !PKI, !Digest, !PasswordHash, !JWTLib, !TOTP}.
Context `{!FloatText, !Validator} (Sprint : json → string).
Context (bus : EventBus) (providers : Factory) (jwtSvc : JWTService) (settings : Settings).

(** The request is logged by a goroutine of its own, after the answer; the
    INSERT names columns the table does not have. *)
Definition Audit (next : HandlerFunc) : HandlerFunc := λ req,
  let bodyBytes := match rq_body req with inl _ => read_before_error req | inr b => b end in
  start ← now;
  resp ← next (req <| rq_body := inr bodyBytes |>);
  stop ← now;
  created ← now;
  ignore_err (db_refused (A := Z) "column method of relation audit_logs does not exist");;
  mret resp.

Definition protect (next : HandlerFunc) : HandlerFunc :=
  guard (NewAuthMiddleware (st_redis settings))
    (guard (RequireRole [RoleUser; RoleAccountAdmin; RoleRootAdmin])
      (Audit (guard (RateLimit (st_rate_limit settings)) next))).

Definition auth_routes : list route := [
  POST "/register" (Register jwtSvc);
  POST "/login" (Login jwtSvc);
  POST "/refresh" (Refresh jwtSvc);
  POST "/logout" (Logout Sprint (st_redis settings));
  POST "/mfa/setup" SetupMFA;
  POST "/mfa/verify" (VerifyMFA jwtSvc)].

(** Below [/merchants/:merchantId]. *)
Definition merchant_routes : list route :=
  group "/customers" [
    GET "" CustomerHandler_ListCustomers; POST "" CustomerHandler_CreateCustomer;
    GET "/:customerId" CustomerHandler_GetCustomer;
    PUT "/:customerId" CustomerHandler_UpdateCustomer] ++
  group "/transactions" [
    GET "" PaymentHandler_ListTransactions;
    POST "" (PaymentHandler_ProcessPayment bus providers);
    GET "/:transactionId" PaymentHandler_GetTransaction] ++
  group "/refunds" [POST "" (PaymentHandler_CreateRefund bus providers)] ++
  group "/subscriptions" [
    GET "" SubscriptionHandler_ListSubscriptions;
    POST "" (SubscriptionHandler_CreateSubscription bus);
    GET "/:subscriptionId" SubscriptionHandler_GetSubscription;
    PATCH "/:subscriptionId" (SubscriptionHandler_UpdateSubscription bus);
    DELETE "/:subscriptionId" (SubscriptionHandler_CancelSubscription bus)] ++
  group "/invoices" [
    GET "" InvoiceHandler_ListInvoices; POST "" (InvoiceHandler_CreateInvoice bus);
    GET "/:invoiceId" InvoiceHandler_GetInvoice] ++
  group "/payouts" [
    GET "" PayoutHandler_ListPayouts; GET "/:payoutId" PayoutHandler_GetPayout;
    POST "" (PayoutHandler_CreatePayout bus)] ++
  group "/disputes" [
    GET "" DisputeHandler_ListDisputes; GET "/:disputeId" DisputeHandler_GetDispute;
    POST "" (DisputeHandler_CreateDispute bus);
    POST "/:disputeId/evidence" (DisputeHandler_AddEvidence bus)] ++
  group "/payment-methods" [
    GET "" PaymentMethodHandler_ListPaymentMethods;
    POST "" PaymentMethodHandler_CreatePaymentMethod;
    GET "/:paymentMethodId" PaymentMethodHandler_GetPaymentMethod;
    DELETE "/:paymentMethodId" PaymentMethodHandler_DeletePaymentMethod] ++
  group "/webhooks" [
    GET "" WebhookHandler_ListWebhooks; POST "" WebhookHandler_CreateWebhook;
    GET "/:webhookId" WebhookHandler_GetWebhook; PUT "/:webhookId" WebhookHandler_UpdateWebhook;
    DELETE "/:webhookId" WebhookHandler_DeleteWebhook;
    GET "/deliveries" WebhookDeliveryHandler_ListDeliveries;
    GET "/deliveries/:deliveryId" WebhookDeliveryHandler_GetDelivery] ++
  group "/providers" [
    GET "" ProviderHandler_ListProviders; POST "" ProviderHandler_CreateProvider;
    GET "/:providerId" ProviderHandler_GetProvider;
    PUT "/:providerId" ProviderHandler_UpdateProvider;
    DELETE "/:providerId" ProviderHandler_DeleteProvider] ++
  [GET "/exchange-rates" ExchangeRateHandler_GetExchangeRate] ++
  group "/analytics" [
    GET "/summary" AnalyticsHandler_GetSummary;
    GET "/transactions" AnalyticsHandler_GetTransactionAnalytics;
    GET "/export" AnalyticsHandler_ExportTransactions] ++
  group "/audit-logs" [GET "" AuditHandler_ListAuditLogs] ++
  group "/products" [
    GET "" ProductHandler_ListProducts; POST "" ProductHandler_CreateProduct;
    GET "/:productId" ProductHandler_GetProduct; PUT "/:productId" ProductHandler_UpdateProduct;
    DELETE "/:productId" ProductHandler_DeleteProduct] ++
  group "/billing" [
    GET "/fees" BillingHandler_GetFees; GET "/invoices" BillingHandler_GetBillingInvoices].

Definition account_routes : list route := [
  GET "/users/me" GetUser; PUT "/users/me" UserHandler_UpdateUser;
  POST "/api-keys" ApiKeyHandler_CreateApiKey; GET "/api-keys" ApiKeyHandler_ListApiKeys;
  DELETE "/api-keys/:keyId" ApiKeyHandler_RevokeApiKey;
  GET "/merchants" MerchantHandler_ListMerchants; POST "/merchants" MerchantHandler_CreateMerchant;
  GET "/merchants/:merchantId" MerchantHandler_GetMerchant;
  PUT "/merchants/:merchantId" MerchantHandler_UpdateMerchant].

Definition protected_handlers : list route :=
  account_routes ++ group "/merchants/:merchantId" merchant_routes.

Definition ingress_routes : list route := [
  POST "/stripe" (HandleStripe bus (st_stripe_secret settings));
  POST "/paypal" (HandlePayPal bus (st_paypal_webhook_id settings));
  POST "/square" (HandleSquare bus (st_square_key settings))].

Definition service_routes : list route := [
  GET "/health" HealthHandler_Health; GET "/health/ready" HealthHandler_Readiness;
  GET "/health/live" HealthHandler_Liveness; GET "/metrics" MetricsHandler;
  GET "/ws" HandleWebSocket].

Definition NewRouter : list route :=
  service_routes ++
  group "/api/v1" (group "/auth" auth_routes ++ use protect protected_handlers ++
                   group "/webhooks" ingress_routes).

(** [gin.Recovery]: a panic of a handler becomes an answer. *)
Definition Recovery (next : HandlerFunc) : HandlerFunc := λ req,
  on_outcome (λ o, match o with Panic msg => mret (recovered msg) | o => Done o end) (next req).

Definition ServeHTTP (method path : string) (req : Request) : M Response :=
  match find_route NewRouter method path with
  | None =>
      match redirect_slash NewRouter method path with
      | Some resp => mret resp
      | None => '(resp, _) ← unrouted method req; mret resp
      end
  | Some (r, params) => Recovery (rt_handler r) (req <| rq_params := params |>)
  end.
End router.
