(* ===== verification/Answering.v ===== *)
(** The handlers behind every route but those of [/api/v1/auth] return an
    answer: none of the operations they are made of panics. *)

From S2P Require Import Prelude GoInt GoTime GoFloat Pagination TimeParse GoJson Model Errors.
From S2P Require Import World Effects Logic History Repository RepoPayments RepoAccounts RepoHistory.
From S2P Require Import EventBus Provider PaymentSvc SubscriptionSvc InvoiceSvc CatalogSvc.
From S2P Require Import Background WebhookSvc Http Ingress Auth PaymentHandlers AccountHandlers.
From S2P Require Import ApiKeys Csv Reporting Router Sample.

Open Scope Z_scope.

(** ** No handler panics *)

Section answers.
Context `{!Externals, !Gin, !GinLaws, !Crypto, !NetURL, !PKI, !Digest, !PasswordHash, !JWTLib}.
Context `{!TOTP, !FloatText, !Validator} (Sprint : json → string).
Context (bus : EventBus) (providers : Factory) (jwtSvc : JWTService) (settings : Settings).
Context `{!PublishesOnly bus, !FactoryLaws providers}.

Lemma safe_emit subject type data : Safe (emit bus subject type data).
Proof. apply Safe_ignore_err, publish_safe. Qed.
Lemma safe_log_call c : Safe (log_call c).
Proof. by apply Safe_act. Qed.
Lemma safe_charge name p req : Factory_Get providers name = inr p → Safe (call_Charge p req).
Proof.
  intros Hp. apply Safe_bind; [apply safe_log_call|intros _].
  eapply Charge_safe. Unshelve. by eapply Factory_Get_laws.
Qed.
Lemma safe_refund name p req : Factory_Get providers name = inr p → Safe (call_Refund p req).
Proof.
  intros Hp. apply Safe_bind; [apply safe_log_call|intros _].
  eapply Refund_safe. Unshelve. by eapply Factory_Get_laws.
Qed.
Lemma safe_db_refused {A} msg : Safe (db_refused (A := A) msg).
Proof. by apply Safe_act. Qed.
Hint Resolve safe_emit safe_charge safe_refund safe_db_refused publish_safe : acts.

Definition answering (r : route) : Prop := ∀ req, Answers (rt_handler r req).

Lemma answering_group prefix l : Forall answering l → Forall answering (group prefix l).
Proof. intros Hl. by apply Forall_map. Qed.

Lemma answering_cons method path h l :
  (∀ req, Answers (h req)) → Forall answering l → Forall answering (MkRoute method path h :: l).
Proof. by constructor. Qed.

Ltac routes_answer :=
  repeat first
    [ apply Forall_nil_2
    | apply Forall_app_2
    | apply answering_group
    | apply answering_cons; [intros req; solve [answers]|] ].

Lemma merchant_routes_answer : Forall answering (merchant_routes bus providers).
Proof. unfold merchant_routes. routes_answer. Qed.
Lemma account_routes_answer : Forall answering account_routes.
Proof. unfold account_routes. routes_answer. Qed.
Lemma ingress_routes_answer : Forall answering (ingress_routes bus settings).
Proof. unfold ingress_routes. routes_answer. Qed.
Lemma service_routes_answer : Forall answering service_routes.
Proof.
  unfold service_routes.
  repeat (apply answering_cons; [intros req; solve [answers]|]). constructor.
Qed.
End answers.

#[export] Hint Resolve safe_emit safe_charge safe_refund safe_db_refused publish_safe : acts.
