(* ===== verification/Serving.v ===== *)
(** What the routes promise together: every request is answered, and the
    protected routes are behind the token. *)

From S2P Require Import Prelude GoInt GoTime GoFloat Pagination TimeParse GoJson Model Errors.
From S2P Require Import World Effects Logic History Repository RepoPayments RepoAccounts RepoHistory.
From S2P Require Import EventBus Provider PaymentSvc SubscriptionSvc InvoiceSvc CatalogSvc.
From S2P Require Import Background WebhookSvc Http Ingress Auth PaymentHandlers AccountHandlers.
From S2P Require Import ApiKeys Csv Reporting Edge Router Answering Sample.

Open Scope Z_scope.

Section serving.
Context `{!Externals, !Gin, !GinLaws, !Crypto, !NetURL, !PKI, !Digest, !PasswordHash, !JWTLib}.
Context `{!TOTP, !FloatText, !Validator} (Sprint : json → string).
Context (bus : EventBus) (providers : Factory) (jwtSvc : JWTService) (settings : Settings).
Context `{!PublishesOnly bus, !FactoryLaws providers}.

(** ** The two handlers that can panic *)

(** [Refresh] on a token that verifies and names no subject, or none that is a
    string. *)
Definition refresh_panics (req : Request) (w : world) : Prop :=
  ∃ token claims,
    ShouldBindJSON req (λ ms, decode_field decode_string "refresh_token" ms "")
      (λ t, bool_decide (t ≠ "")) = inr token ∧
    jwt_parse (ext_now (w_tick w)) token = inr claims ∧
    ∀ sub, claims !! "sub" ≠ Some (JStr sub).

(** [Logout] with a token that verifies, has an id, and an expiry that is no
    number. *)
Definition logout_panics (redis : bool) (req : Request) (w : world) : Prop :=
  ∃ token claims jti exp,
    redis = true ∧ GetHeader req "Authorization" ≠ "" ∧
    bearer (GetHeader req "Authorization") = Some token ∧
    jwt_parse (ext_now (w_tick w)) token = inr claims ∧
    claims !! "jti" = Some jti ∧ claims !! "exp" = Some exp ∧ claim_int64 exp = None.

(** A computation that returns, or panics exactly when [P]. *)
Definition panics_when {A} (P : Prop) (r : outcome A * world) : Prop :=
  (∃ a w', r = (Ret a, w') ∧ ¬ P) ∨ (∃ msg w', r = (Panic msg, w') ∧ P).

Lemma panics_never {A} (P : Prop) (m : M A) w : Answers m → ¬ P → panics_when P (run m w).
Proof. intros Hm HP. left. destruct (Answers_run m w Hm) as (a & w' & Hrun). eauto. Qed.

Lemma run_ValidateToken token w :
  run (attempt (ValidateToken token)) w =
    (Ret (match jwt_parse (ext_now (w_tick w)) token with
          | inl msg => inl (EWrap "parse token" (EDriver msg)) | inr claims => inr claims end),
     w <| w_tick := S (w_tick w) |>).
Proof.
  rewrite run_attempt. unfold ValidateToken, now, ask. rewrite run_bind, run_act. cbv beta iota.
  by destruct (jwt_parse _ _).
Qed.

Lemma Refresh_panics req w : panics_when (refresh_panics req w) (run (Refresh jwtSvc req) w).
Proof.
  unfold Refresh, refresh_panics.
  destruct (ShouldBindJSON _ _ _) as [err|token] eqn:Hbind.
  { apply panics_never; [done|]. by intros (? & ? & ? & _). }
  rewrite run_bind, run_ValidateToken.
  destruct (jwt_parse (ext_now (w_tick w)) token) as [msg|claims] eqn:Hp.
  { apply panics_never; [done|]. intros (t & c & [= <-] & Hc & _). congruence. }
  destruct (claims !! "sub") as [[| | | |sub| |]|] eqn:Hsub.
  5: { apply panics_never; [answers|]. intros (t & c & [= <-] & Hc & Hno).
       rewrite Hp in Hc. injection Hc as <-. by apply (Hno sub). }
  all: right; eexists _, _; split; [done|]; exists token, claims; split_and!; [done..|congruence].
Qed.

Lemma Logout_panics req w :
  panics_when (logout_panics (st_redis settings) req w) (run (Logout Sprint (st_redis settings) req) w).
Proof.
  unfold Logout, logout_panics. case_decide as Hne.
  2: { apply panics_never; [done|]. by intros (? & ? & ? & ? & _ & ? & _). }
  destruct (st_redis settings) eqn:Hredis, (bearer _) as [token|] eqn:Hb.
  2-4: apply panics_never; [done|]; naive_solver.
  rewrite run_bind, run_bind, run_ValidateToken.
  destruct (jwt_parse (ext_now (w_tick w)) token) as [msg|claims] eqn:Hp; cbv beta iota.
  { left. eexists _, _. split; [done|]. intros (t & c & ? & ? & _ & _ & [= <-] & Hc & _). congruence. }
  set (w1 := w <| w_tick := _ |>). unfold blacklist.
  destruct (claims !! "jti") as [jti|] eqn:Hjti, (claims !! "exp") as [exp|] eqn:Hexp.
  2-4: left; eexists _, _; split; [done|]; intros (t & c & ? & ? & _ & _ & [= <-] & Hc & ? & ? & _); congruence.
  destruct (claim_int64 exp) as [z|] eqn:Hz.
  - match goal with |- context [run ?m w1] =>
      assert (Answers m) as Hm by answers; destruct (Answers_run m w1 Hm) as ([] & w2 & ->) end.
    left. eexists _, _. split; [done|].
    intros (t & c & ? & ? & _ & _ & [= <-] & Hc & ? & ? & ?). congruence.
  - right. eexists _, _. split; [done|]. exists token, claims, jti, exp. by split_and!.
Qed.

(** ** Every route *)

Definition endpoint (r : route) : string * string := (rt_method r, rt_path r).

Definition refresh_endpoint : string * string := ("POST", "/api/v1/auth/refresh").
Definition logout_endpoint : string * string := ("POST", "/api/v1/auth/logout").

Definition handler_panics (r : route) (req : Request) (w : world) : Prop :=
  (endpoint r = refresh_endpoint ∧ refresh_panics req w) ∨
  (endpoint r = logout_endpoint ∧ logout_panics (st_redis settings) req w).

Lemma answers_protect h : (∀ req, Answers (h req)) → ∀ req, Answers (protect settings h req).
Proof. intros Hh req. unfold protect. answers. Qed.

(** The other handlers never panic. *)
Definition harmless (r : route) : Prop := answering r ∨ endpoint r ∈ [refresh_endpoint; logout_endpoint].

Lemma harmless_all l : Forall answering l → Forall harmless l.
Proof. intros Hl. eapply Forall_impl; [exact Hl|]. by left. Qed.

Lemma auth_routes_harmless :
  Forall harmless (group "/api/v1" (group "/auth" (auth_routes Sprint jwtSvc settings))).
Proof.
  unfold auth_routes, group. cbn [map].
  apply Forall_cons; split; [left; intros req; cbn [rt_handler]; answers|].
  apply Forall_cons; split; [left; intros req; cbn [rt_handler]; answers|].
  apply Forall_cons; split; [right; constructor|].
  apply Forall_cons; split; [right; do 2 constructor|].
  apply Forall_cons; split; [left; intros req; cbn [rt_handler]; answers|].
  apply Forall_cons; split; [left; intros req; cbn [rt_handler]; answers|]. constructor.
Qed.

Lemma routes_harmless : Forall harmless (NewRouter Sprint bus providers jwtSvc settings).
Proof.
  unfold NewRouter. apply Forall_app_2; [apply harmless_all, service_routes_answer|].
  unfold group at 1. rewrite map_app. apply Forall_app_2; [apply auth_routes_harmless|].
  apply harmless_all, answering_group, Forall_app_2.
  - apply Forall_map. eapply Forall_impl;
      [|intros r' Hr' req'; exact (answers_protect (rt_handler r') Hr' req')].
    apply Forall_app_2; [apply account_routes_answer|by apply answering_group, merchant_routes_answer].
  - by apply answering_group, ingress_routes_answer.
Qed.

(** No two routes have one endpoint. *)
Lemma endpoints_NoDup : NoDup (map endpoint (NewRouter Sprint bus providers jwtSvc settings)).
Proof. apply (bool_decide_unpack _). by vm_compute. Qed.

Lemma NoDup_map_inj {A B} (f : A → B) (l : list A) x y :
  NoDup (map f l) → x ∈ l → y ∈ l → f x = f y → x = y.
Proof.
  change (map f l) with (f <$> l).
  intros Hnd [i Hi]%list_elem_of_lookup [j Hj]%list_elem_of_lookup Hf.
  assert (i = j) as ->; [|congruence].
  eapply NoDup_lookup; [exact Hnd|..]; rewrite list_lookup_fmap, ?Hi, ?Hj; simpl; [done|].
  by rewrite Hf.
Qed.

Lemma route_panics r req w :
  r ∈ NewRouter Sprint bus providers jwtSvc settings →
  panics_when (handler_panics r req w) (run (rt_handler r req) w).
Proof.
  intros Hr. destruct (decide (endpoint r ∈ [refresh_endpoint; logout_endpoint])) as [He|He].
  - assert (∀ r', r' ∈ NewRouter Sprint bus providers jwtSvc settings →
      endpoint r = endpoint r' → r = r') as Hone.
    { intros r' Hr' Heq. by eapply NoDup_map_inj; [apply endpoints_NoDup|..]. }
    apply elem_of_cons in He as [He|He%list_elem_of_singleton].
    + pose proof (Hone (POST "/api/v1/auth/refresh" (Refresh jwtSvc))
        ltac:(do 7 right; left) He) as ->.
      destruct (Refresh_panics req w) as [(resp & w' & Hrun & Hno)|(msg & w' & Hrun & Hyes)].
      * left. exists resp, w'. split; [exact Hrun|]. by intros [[_ ?]|[? _]].
      * right. exists msg, w'. split; [exact Hrun|by left].
    + pose proof (Hone (POST "/api/v1/auth/logout" (Logout Sprint (st_redis settings)))
        ltac:(do 8 right; left) He) as ->.
      destruct (Logout_panics req w) as [(resp & w' & Hrun & Hno)|(msg & w' & Hrun & Hyes)].
      * left. exists resp, w'. split; [exact Hrun|]. by intros [[? _]|[_ ?]].
      * right. exists msg, w'. split; [exact Hrun|by right].
  - apply panics_never; [|unfold handler_panics; set_solver].
    pose proof (proj1 (Forall_forall _ _) routes_harmless r Hr) as [Hans|?]; [apply Hans|done].
Qed.
(** A handler that answers is not changed by [Recovery]. *)
Lemma run_Recovery h req w resp w' :
  run (h req) w = (Ret resp, w') → run (Recovery h req) w = (Ret resp, w').
Proof. intros Hrun. unfold Recovery. by rewrite run_on_outcome, Hrun. Qed.

Lemma run_ServeHTTP method path req w :
  ∃ resp w', run (ServeHTTP Sprint bus providers jwtSvc settings method path req) w = (Ret resp, w') ∧
    ∀ r params, find_route (NewRouter Sprint bus providers jwtSvc settings) method path = Some (r, params) →
      let req' := req <| rq_params := params |> in
      (¬ handler_panics r req' w ∧ run (rt_handler r req') w = (Ret resp, w')) ∨
      (handler_panics r req' w ∧
       ∃ msg, run (rt_handler r req') w = (Panic msg, w') ∧ resp = recovered msg).
Proof.
  unfold ServeHTTP. destruct (find_route _ _ _) as [[r params]|] eqn:Hfind.
  - destruct (find_route_in _ _ _ _ _ Hfind) as [Hr _].
    destruct (route_panics r (req <| rq_params := params |>) w Hr)
      as [(resp & w' & Hrun & Hno)|(msg & w' & Hrun & Hyes)].
    + exists resp, w'. split; [by apply run_Recovery|]. intros r' params' [= <- <-]. by left.
    + exists (recovered msg), w'. unfold Recovery. rewrite run_on_outcome, Hrun, run_ret.
      split; [done|]. intros r' params' [= <- <-]. right. split; [done|]. by exists msg.
  - destruct (redirect_slash _ _ _) as [resp|].
    + exists resp, w. by rewrite run_ret.
    + assert (Answers ('(resp, _) ← unrouted method req; mret resp)) as Hm
        by (apply Answers_bind; [apply answers_unrouted|by intros []]).
      destruct (Answers_run _ w Hm) as (resp & w' & Hrun). by exists resp, w'.
Qed.

(** C4: every request gets an answer, whatever it and its tokens hold and
    however the database, Redis, the event bus and the providers behave. It is
    the answer of the route's own handler, unless that panics, when it is
    [gin.Recovery]'s; and a handler panics exactly when a refresh is asked for
    with a token that verifies and names no subject that is a string, or a
    logout with one whose expiry is no number. (The library refuses the second
    kind of token, and the service signs neither.) *)
Theorem Router_answers method path req w :
  ∃ resp w', run (ServeHTTP Sprint bus providers jwtSvc settings method path req) w = (Ret resp, w') ∧
    ∀ r params, find_route (NewRouter Sprint bus providers jwtSvc settings) method path = Some (r, params) →
      let req' := req <| rq_params := params |> in
      (¬ handler_panics r req' w ∧ run (rt_handler r req') w = (Ret resp, w')) ∨
      (handler_panics r req' w ∧
       ∃ msg, run (rt_handler r req') w = (Panic msg, w') ∧ resp = recovered msg).
Proof. apply run_ServeHTTP. Qed.

(** ** The protected routes *)

Definition ticked (w w' : world) : Prop := ∃ n, w' = w <| w_tick := n |>.

(** The request carries a token of the service that is valid now, names one of
    [roles] and - as far as Redis answers - was not revoked. *)
Definition authenticated (redis : bool) (roles : list string) (req : Request) (w : world) : Prop :=
  ∃ token m claims, bearer (GetHeader req "Authorization") = Some token ∧
    jwt_parse (ext_now (w_tick w)) token = inr m ∧ decode_Claims m = Some claims ∧
    cl_Role claims ∈ roles ∧
    (redis = true → cl_ID claims ≠ "" → ext_redis (S (w_tick w)) = None →
     redis_live (ext_db_now (S (w_tick w))) (w_redis w) ("token_blacklist:" +:+ cl_ID claims) = None).

Lemma run_NewAuthMiddleware redis req w :
  (∃ resp w', run (NewAuthMiddleware redis req) w = (Ret (inl resp), w') ∧
     rs_status resp = StatusUnauthorized ∧ ticked w w') ∨
  (∃ token m claims w', run (NewAuthMiddleware redis req) w = (Ret (inr (setAuthContext claims req)), w') ∧
     ticked w w' ∧ bearer (GetHeader req "Authorization") = Some token ∧
     jwt_parse (ext_now (w_tick w)) token = inr m ∧ decode_Claims m = Some claims ∧
     (redis = true → cl_ID claims ≠ "" → ext_redis (S (w_tick w)) = None →
      redis_live (ext_db_now (S (w_tick w))) (w_redis w)
        ("token_blacklist:" +:+ cl_ID claims) = None)).
Proof.
  assert (ticked w w) as Hw by (exists (w_tick w); by destruct w).
  unfold NewAuthMiddleware. case_decide; [left; eauto|].
  destruct (bearer _) as [token|] eqn:Hb; [|left; eauto].
  unfold now, ask. rewrite run_bind, run_act. cbv beta iota.
  assert (ticked w (w <| w_tick := S (w_tick w) |>)) as Hw1 by by eexists.
  destruct (jwt_parse _ token) as [|m] eqn:Hp; [left; eauto|].
  destruct (decode_Claims m) as [claims|] eqn:Hc; [|left; eauto].
  rewrite run_bind. destruct (decide (redis = true ∧ cl_ID claims ≠ "")) as [[Hr Hid]|Hno].
  - rewrite run_bind, run_attempt. unfold redis_Exists, redis_command. rewrite run_act. cbv beta.
    destruct (ext_redis _) eqn:Hredis; cbv beta iota.
    + rewrite run_ret. right. exists token, m, claims. eexists. rewrite run_ret.
      split; [done|]. split_and!; try done. by eexists.
    + rewrite run_ret. destruct (redis_live _ _ _) eqn:Hlive.
      * left. do 2 eexists. split; [done|]. split; [done|]. by eexists.
      * right. exists token, m, claims. eexists. split; [done|]. split_and!; try done. by eexists.
  - rewrite run_ret, run_ret. right. exists token, m, claims. eexists. split; [done|].
    split_and!; try done. tauto.
Qed.

(** The endpoints anyone may call. *)
Definition public_endpoints : list (string * string) := [
  ("GET", "/health"); ("GET", "/health/ready"); ("GET", "/health/live"); ("GET", "/metrics");
  ("GET", "/ws");
  ("POST", "/api/v1/auth/register"); ("POST", "/api/v1/auth/login");
  ("POST", "/api/v1/auth/refresh"); ("POST", "/api/v1/auth/logout");
  ("POST", "/api/v1/auth/mfa/setup"); ("POST", "/api/v1/auth/mfa/verify");
  ("POST", "/api/v1/webhooks/stripe"); ("POST", "/api/v1/webhooks/paypal");
  ("POST", "/api/v1/webhooks/square")].

Lemma protected_or_public r :
  r ∈ NewRouter Sprint bus providers jwtSvc settings →
  endpoint r ∈ public_endpoints ∨ ∃ h, rt_handler r = protect settings h.
Proof.
  unfold NewRouter. intros [Hr|Hr]%elem_of_app.
  { left. revert r Hr. apply Forall_forall. repeat constructor. }
  unfold group in Hr. rewrite !map_app in Hr.
  apply elem_of_app in Hr as [Hr|[Hr|Hr]%elem_of_app].
  - left. revert r Hr. apply Forall_forall. repeat constructor.
  - right. apply list_elem_of_fmap in Hr as (r1 & -> & Hr).
    apply list_elem_of_fmap in Hr as (r2 & -> & _). by eexists.
  - left. revert r Hr. apply Forall_forall. repeat constructor.
Qed.

Lemma run_protect h req w o w' :
  run (protect settings h req) w = (o, w') →
  authenticated (st_redis settings) [RoleUser; RoleAccountAdmin; RoleRootAdmin] req w ∨
  ∃ resp, o = Ret resp ∧ (rs_status resp = StatusUnauthorized ∨ rs_status resp = StatusForbidden) ∧
    ticked w w'.
Proof.
  intros Hrun. unfold protect in Hrun. unfold guard at 1 in Hrun.
  rewrite run_bind in Hrun.
  destruct (run_NewAuthMiddleware (st_redis settings) req w)
    as [(resp & w1 & Heq & Hst & Ht)|(token & m & claims & w1 & Heq & Ht & Hb & Hp & Hc & Hrev)];
    rewrite Heq in Hrun; clear Heq.
  { rewrite run_ret in Hrun. injection Hrun as <- <-. right. eauto. }
  unfold guard at 1 in Hrun. rewrite run_bind in Hrun. unfold RequireRole in Hrun.
  change (GetString (setAuthContext claims req) "role") with (cl_Role claims) in Hrun.
  destruct (decide (cl_Role claims = "")).
  { rewrite !run_ret in Hrun. injection Hrun as <- <-. right. eauto. }
  destruct (decide (_ ∈ _)) as [Hrole|].
  - left. exists token, m, claims. by split_and!.
  - rewrite !run_ret in Hrun. injection Hrun as <- <-. right. eauto.
Qed.

(** No route takes [OPTIONS]: a preflight request is the chain's of the
    unrouted, which answers it for any path, unless gin redirects it. *)
Lemma no_options_route r :
  r ∈ NewRouter Sprint bus providers jwtSvc settings → rt_method r ≠ "OPTIONS".
Proof.
  intros Hr Hm. assert ("OPTIONS" ∈ map rt_method (NewRouter Sprint bus providers jwtSvc settings)) as Hin.
  { rewrite <- Hm. by apply list_elem_of_fmap_2. }
  revert Hin. apply (bool_decide_unpack _). by vm_compute.
Qed.

Theorem preflight_answered path req w :
  redirect_slash (NewRouter Sprint bus providers jwtSvc settings) "OPTIONS" path = None →
  run (ServeHTTP Sprint bus providers jwtSvc settings "OPTIONS" path req) w =
    (Ret (MkResponse StatusNoContent (VText "")), w).
Proof.
  intros Hredirect. unfold ServeHTTP.
  destruct (find_route _ _ _) as [[r params]|] eqn:Hfind.
  { destruct (find_route_in _ _ _ _ _ Hfind) as [Hr Hm]. by destruct (no_options_route r Hr). }
  rewrite Hredirect, run_bind. destruct (unrouted_preflight req w) as (x & -> & _). apply run_ret.
Qed.

(** C2: every endpoint but the fourteen public ones is behind the token. A
    request that gin routes to another either carries a token of the service
    that is valid, not revoked and of one of the three roles, or it is answered
    401 or 403 and nothing at all has happened. *)
Theorem Router_protected method path req w r params o w' :
  find_route (NewRouter Sprint bus providers jwtSvc settings) method path = Some (r, params) →
  endpoint r ∉ public_endpoints →
  run (ServeHTTP Sprint bus providers jwtSvc settings method path req) w = (o, w') →
  authenticated (st_redis settings) [RoleUser; RoleAccountAdmin; RoleRootAdmin] req w ∨
  ∃ resp, o = Ret resp ∧ (rs_status resp = StatusUnauthorized ∨ rs_status resp = StatusForbidden) ∧
    ticked w w'.
Proof.
  intros Hfind Hnp. unfold ServeHTTP. rewrite Hfind.
  destruct (find_route_in _ _ _ _ _ Hfind) as [Hr _].
  apply protected_or_public in Hr as [|[h Hh]]; [done|].
  unfold Recovery. rewrite run_on_outcome, Hh.
  destruct (run (protect settings h _) w) as [o1 w1] eqn:Hrun.
  apply run_protect in Hrun as [Hauth|(resp & -> & Hst & Ht)]; [by left|].
  intros [= <- <-]. right. eauto.
Qed.
End serving.

(** ** Witnesses *)

#[local] Existing Instances sample sample_crypto sample_url sample_pki sample_digest sample_argon.
#[local] Existing Instances sample_jwt sample_floats sample_totp.
#[local] Instance any_email : Validator := {| valid_email := λ _, true |}.

(** Routes without parameters, found by their text. *)
#[local] Instance plain_gin `{!Externals} : Gin := {|
  find_route := λ l method path,
    (λ r, (r, [])) <$> List.find (λ r, bool_decide (rt_method r = method ∧ rt_path r = path)) l;
  read_before_error := λ _, "";
  recovered := λ _, MkResponse StatusInternalServerError (VText "");
  redirect_slash := λ _ _ _, None;
  promhttp_ServeHTTP := λ _ _, MkResponse StatusOK (VText "");
  websocket_Upgrade := λ _ _, inl (MkResponse StatusBadRequest (VText "Bad Request"))
|}.

#[local] Instance plain_gin_laws `{!Externals} : GinLaws.
Proof.
  split. intros l method path r params Hf. simpl in Hf.
  destruct (List.find _ l) as [r'|] eqn:Hr; [|done]. injection Hf as <- <-.
  apply List.find_some in Hr as [Hin Heq]. apply bool_decide_eq_true in Heq as [<- _].
  by split; [apply list_elem_of_In|].
Qed.

Definition plain_settings : Settings := MkSettings true 10 "whsec" "wh-1" "key".
Definition plain_jwt : JWTService := MkJWTService (900 * Second) (3600 * Second).
Definition serve (method path : string) (req : Request) : M Response :=
  ServeHTTP (λ _, "") NoopEventBus (NewFactory mock_settings) plain_jwt plain_settings
    method path req.

(** A token without a subject makes the refresh panic, and gin answers. *)
Definition anonymous_jwt : JWTLib := {|
  jwt_sign := λ _, inr "t"; jwt_parse := λ _ _, inr ∅
|}.

Definition refreshing : Externals :=
  sample_with (λ _ _ _, Accepted) (λ _ _, inl "no host")
    (λ _, inr (JObj [("refresh_token", JStr "t")])).

Definition refresh : M Response :=
  @ServeHTTP refreshing _ _ _ _ _ anonymous_jwt _ _ _ (λ _, "") NoopEventBus (NewFactory mock_settings)
    plain_jwt plain_settings "POST" "/api/v1/auth/refresh" (asking [] "{}").

Lemma Router_answers_witness :
  ∃ resp w', run refresh (world_of empty_database) = (Ret resp, w') ∧
    rs_status resp = StatusInternalServerError.
Proof.
  destruct (@Router_answers refreshing _ _ _ _ _ _ anonymous_jwt _ _ _ (λ _, "") NoopEventBus
    (NewFactory mock_settings) plain_jwt plain_settings _ _ "POST" "/api/v1/auth/refresh"
    (asking [] "{}") (world_of empty_database)) as (resp & w' & Hrun & Hown).
  exists resp, w'. split; [exact Hrun|].
  edestruct Hown as [[Hno _]|(_ & msg & _ & ->)]; [reflexivity| |reflexivity].
  destruct Hno. left. split; [reflexivity|]. exists "t", ∅. split; [reflexivity|].
  split; [reflexivity|]. intros sub. by rewrite lookup_empty.
Defined.

(** Without a token the merchants are not listed. *)
Lemma Router_protected_witness :
  ∃ resp w', run (serve "GET" "/api/v1/merchants" (asking [] "")) (anns_world true false) = (Ret resp, w') ∧
    (rs_status resp = StatusUnauthorized ∨ rs_status resp = StatusForbidden) ∧
    ticked (anns_world true false) w'.
Proof.
  destruct (run (serve "GET" "/api/v1/merchants" (asking [] "")) (anns_world true false))
    as [o w'] eqn:Hrun.
  assert (∃ r, find_route (NewRouter (λ _, "") NoopEventBus (NewFactory mock_settings) plain_jwt
    plain_settings) "GET" "/api/v1/merchants" = Some (r, []) ∧
    endpoint r = ("GET", "/api/v1/merchants")) as (r & Hfind & Hend)
    by (eexists; split; reflexivity).
  destruct (Router_protected (λ _, "") NoopEventBus (NewFactory mock_settings) plain_jwt plain_settings
    "GET" "/api/v1/merchants" (asking [] "") (anns_world true false) r [] o w' Hfind)
    as [(token & _ & _ & Hb & _)|(resp & -> & Hst & Ht)].
  - rewrite Hend. set_solver.
  - exact Hrun.
  - vm_compute in Hb. discriminate.
  - by exists resp, w'.
Defined.
