(* ===== verification/Replies.v ===== *)
(** The form of the answers below [/api/v1]: a success, or a refusal that says
    why in the member [error]. *)

From S2P Require Import Prelude GoInt GoText GoTime GoFloat Pagination TimeParse GoJson Model Errors.
From S2P Require Import World Effects Logic History Repository RepoPayments RepoAccounts RepoHistory.
From S2P Require Import EventBus Provider PaymentSvc SubscriptionSvc InvoiceSvc CatalogSvc.
From S2P Require Import Background WebhookSvc Http Ingress Auth PaymentHandlers AccountHandlers.
From S2P Require Import ApiKeys Csv Reporting Router Serving Sample.

Open Scope Z_scope.

(** What an API client may rely on. *)
Definition success (resp : Response) : Prop := rs_status resp = StatusOK ∨ rs_status resp = StatusCreated.
Definition refusal (resp : Response) : Prop :=
  400 ≤ rs_status resp < 600 ∧ ∃ msg, rs_body resp = JObj [("error", JStr msg)].
Definition proper (resp : Response) : Prop := success resp ∨ refusal resp.

(** [Yields P m]: what [m] returns, if it does, satisfies [P]. *)
Section yields.
Context {A : Type} (P : A → Prop).

Fixpoint Yields (m : M A) : Prop :=
  match m with
  | Done (Ret a) => P a
  | Done _ => True
  | Act f k => ∀ w, Yields (k (f w).1)
  end.

Lemma Yields_run (m : M A) w a w' : Yields m → run m w = (Ret a, w') → P a.
Proof.
  revert w. induction m as [o|X f k IH]; intros w Hm.
  - intros [= -> _]. exact Hm.
  - change (run (Act f k) w) with (let '(x, w1) := f w in run (k x) w1).
    simpl in Hm. specialize (Hm w). destruct (f w) as [x w1]. by apply IH.
Qed.
End yields.

Lemma Yields_ret {A} (P : A → Prop) a : P a → Yields P (mret a).
Proof. done. Qed.
Lemma Yields_fail {A} (P : A → Prop) e : Yields P (fail e).
Proof. done. Qed.
Lemma Yields_panic {A} (P : A → Prop) msg : Yields P (panic msg).
Proof. done. Qed.

Lemma Yields_bind {A B} (P : B → Prop) (m : M A) (k : A → M B) :
  (∀ a, Yields P (k a)) → Yields P (m ≫= k).
Proof.
  intros Hk. unfold mbind, M_bind. induction m as [[]|X f g IH]; simpl; auto.
Qed.

Lemma Yields_then {A B} (P : A → Prop) (Q : B → Prop) (m : M A) (k : A → M B) :
  Yields P m → (∀ a, P a → Yields Q (k a)) → Yields Q (m ≫= k).
Proof.
  intros Hm Hk. unfold mbind, M_bind. induction m as [[]|X f g IH]; simpl in *; auto.
Qed.

Abbreviation Replies := (Yields proper).

Lemma proper_ok v : proper (MkResponse StatusOK v).
Proof. by left; left. Qed.
Lemma proper_created v : proper (MkResponse StatusCreated v).
Proof. by left; right. Qed.
Lemma proper_error st msg : 400 ≤ st < 600 → proper (error_reply st msg).
Proof. intros Hst. right. split; [done|by eexists]. Qed.

Create HintDb replies.
#[export] Hint Resolve proper_ok proper_created : replies.
#[export] Hint Extern 1 (proper (error_reply _ _)) => (apply proper_error; vm_compute; split; [discriminate|reflexivity]) : replies.

Section bind.
Context `{!Externals}.

Lemma replies_parsed s msg k : (∀ id, Replies (k id)) → Replies (parsed s msg k).
Proof.
  intros Hk. unfold parsed. destruct (uuid_Parse s); [|done]. apply proper_error. unfold StatusBadRequest. lia.
Qed.
Lemma replies_bound {A} req decode required (k : A → M Response) :
  (∀ a, Replies (k a)) → Replies (bound req decode required k).
Proof.
  intros Hk. unfold bound. destruct (ShouldBindJSON _ _ _); [|done].
  apply proper_error. unfold StatusBadRequest. lia.
Qed.
Lemma replies_tried {A} (m : M A) refuse k :
  (∀ e, proper (refuse e)) → (∀ a, Replies (k a)) → Replies (tried m refuse k).
Proof. intros Hr Hk. apply Yields_bind. intros []; [apply Hr|done]. Qed.
End bind.

Ltac open_reply :=
  lazymatch goal with |- Yields _ ?m => let f := head_of m in unfold f end; cbv beta iota zeta.

Ltac replies :=
  repeat (intros; cbv beta zeta; first
    [ solve [eauto 2 with replies]
    | lazymatch goal with
      | |- Yields _ (mret _) => apply Yields_ret
      | |- Yields _ (fail _) => apply Yields_fail
      | |- Yields _ (panic _) => apply Yields_panic
      end
    | apply replies_parsed | apply replies_bound | apply replies_tried
    | apply Yields_bind
    | progress case_match | case_decide | open_reply ]).

Section routes.
Context `{!Externals, !Gin, !GinLaws, !Crypto, !NetURL, !PKI, !Digest, !PasswordHash, !JWTLib}.
Context `{!TOTP, !FloatText, !Validator} (Sprint : json → string).
Context (bus : EventBus) (providers : Factory) (jwtSvc : JWTService) (settings : Settings).

Definition replying (r : route) : Prop := ∀ req, Replies (rt_handler r req).

Lemma replying_group prefix l : Forall replying l → Forall replying (group prefix l).
Proof. intros Hl. by apply Forall_map. Qed.
Lemma replying_cons method path h l :
  (∀ req, Replies (h req)) → Forall replying l → Forall replying (MkRoute method path h :: l).
Proof. by constructor. Qed.

Ltac routes_reply :=
  repeat first
    [ apply Forall_nil_2
    | apply Forall_app_2
    | apply replying_group
    | apply replying_cons; [intros req; solve [replies]|] ].

Lemma account_routes_reply : Forall replying account_routes.
Proof. unfold account_routes. routes_reply. Qed.
Lemma merchant_routes_reply : Forall replying (merchant_routes bus providers).
Proof. unfold merchant_routes. routes_reply. Qed.
Lemma ingress_routes_reply : Forall replying (ingress_routes bus settings).
Proof. unfold ingress_routes. routes_reply. Qed.
Lemma auth_routes_reply : Forall replying (auth_routes Sprint jwtSvc settings).
Proof. unfold auth_routes. routes_reply. Qed.

(** ** The middleware *)

Definition refuses (r : Response + Request) : Prop :=
  match r with inl resp => refusal resp | inr _ => True end.

Lemma replies_guard mw next req :
  Yields refuses (mw req) → (∀ req, Replies (next req)) → Replies (guard mw next req).
Proof.
  intros Hmw Hnext. eapply Yields_then; [exact Hmw|]. intros [resp|req'] Hr; [by right|done].
Qed.

Lemma refuses_error st msg : 400 ≤ st < 600 → refuses (inl (error_reply st msg)).
Proof. intros Hst. split; [done|by eexists]. Qed.

Ltac refuses_all :=
  repeat (intros; cbv beta zeta; first
    [ lazymatch goal with
      | |- Yields _ (mret (inl (error_reply _ _))) =>
          apply Yields_ret, refuses_error; vm_compute; split; [discriminate|reflexivity]
      | |- Yields _ (mret _) => exact I
      end
    | apply Yields_bind | progress case_match | case_decide ]).

Lemma replies_protect next req :
  (∀ req, Replies (next req)) → Replies (protect settings next req).
Proof.
  intros Hnext. unfold protect. apply replies_guard.
  { unfold NewAuthMiddleware. refuses_all. }
  intros req1. apply replies_guard; [unfold RequireRole; refuses_all|intros req2].
  unfold Audit. cbv zeta. apply Yields_bind. intros start.
  eapply (Yields_then proper).
  { apply replies_guard; [unfold RateLimit; refuses_all|done]. }
  intros resp Hresp. repeat (apply Yields_bind; intros). exact Hresp.
Qed.

Lemma api_routes_reply :
  Forall replying (group "/api/v1" (group "/auth" (auth_routes Sprint jwtSvc settings) ++
    use (protect settings) (protected_handlers bus providers) ++
    group "/webhooks" (ingress_routes bus settings))).
Proof.
  apply replying_group, Forall_app_2; [|apply Forall_app_2].
  - apply replying_group, auth_routes_reply.
  - apply Forall_map. eapply Forall_impl; [|intros r Hr req; exact (replies_protect (rt_handler r) req Hr)].
    apply Forall_app_2; [apply account_routes_reply|apply replying_group, merchant_routes_reply].
  - apply replying_group, ingress_routes_reply.
Qed.

Lemma service_routes_apart :
  Forall (λ r, after_prefix "/api/v1" (rt_path r) = None) service_routes.
Proof. repeat constructor. Qed.

(** C9: every answer of an endpoint below [/api/v1] - of its handler or of the
    middleware before it - is a 200 or a 201, or a status from 400 to 599 with
    the body [{"error": message}]; the one exception is what gin answers when a
    handler panics. *)
Theorem Router_replies method path req w r params resp w' :
  find_route (NewRouter Sprint bus providers jwtSvc settings) method path = Some (r, params) →
  is_Some (after_prefix "/api/v1" (rt_path r)) →
  run (ServeHTTP Sprint bus providers jwtSvc settings method path req) w = (Ret resp, w') →
  proper resp ∨ ∃ msg, resp = recovered msg.
Proof.
  intros Hfind [rest Hapi]. unfold ServeHTTP. rewrite Hfind.
  destruct (find_route_in _ _ _ _ _ Hfind) as [Hr _]. unfold NewRouter in Hr.
  apply elem_of_app in Hr as [Hr|Hr].
  { pose proof (proj1 (Forall_forall _ _) service_routes_apart r Hr). congruence. }
  pose proof (proj1 (Forall_forall _ _) api_routes_reply r Hr) as Hreply.
  unfold Recovery. rewrite run_on_outcome.
  destruct (run (rt_handler r _) w) as [[resp1|e|msg] w1] eqn:Hrun; [|done|].
  - intros [= <- _]. left. by eapply Yields_run; [apply Hreply|].
  - rewrite run_ret. intros [= <- _]. right. by eexists.
Qed.
End routes.

(** ** Witness *)

#[local] Existing Instances sample sample_crypto sample_url sample_pki sample_digest sample_argon.
#[local] Existing Instances sample_jwt sample_floats sample_totp any_email plain_gin plain_gin_laws.

(** A listing of merchants without a token. *)
Lemma Router_replies_witness :
  ∃ resp w', run (serve "GET" "/api/v1/merchants" (asking [] "")) (anns_world true false) = (Ret resp, w') ∧
    (proper resp ∨ ∃ msg, resp = recovered msg).
Proof.
  destruct (run_returns (serve "GET" "/api/v1/merchants" (asking [] "")) (anns_world true false))
    as (resp & w' & Hrun); [vm_compute; reflexivity|].
  assert (∃ r, find_route (NewRouter (λ _, "") NoopEventBus (NewFactory mock_settings) plain_jwt
    plain_settings) "GET" "/api/v1/merchants" = Some (r, []) ∧
    rt_path r = "/api/v1/merchants") as (r & Hfind & Hpath)
    by (eexists; split; reflexivity).
  exists resp, w'. split; [exact Hrun|].
  apply (Router_replies (λ _, "") NoopEventBus (NewFactory mock_settings) plain_jwt plain_settings
    "GET" "/api/v1/merchants" (asking [] "") (anns_world true false) r [] resp w' Hfind); [|exact Hrun].
  rewrite Hpath. by eexists.
Defined.
