(* ===== verification/QuietRoutes.v ===== *)
(** What the routes do to the data: every handler but two is quiet - it reads
    and writes rows within the history of the database, and calls no payment
    provider. *)

From S2P Require Import Prelude GoInt GoTime GoFloat Pagination TimeParse GoJson Model Errors.
From S2P Require Import World Effects Logic History Repository RepoPayments RepoAccounts RepoHistory.
From S2P Require Import EventBus Provider PaymentSvc SubscriptionSvc InvoiceSvc CatalogSvc.
From S2P Require Import Background WebhookSvc Http Ingress Auth PaymentHandlers AccountHandlers.
From S2P Require Import ApiKeys Csv Reporting Router Answering Serving Sample.

Open Scope Z_scope.

Section quiet_routes.
Context `{!Externals, !Gin, !GinLaws, !Crypto, !NetURL, !PKI, !Digest, !PasswordHash, !JWTLib}.
Context `{!TOTP, !FloatText, !Validator} (Sprint : json → string).
Context (bus : EventBus) (providers : Factory) (jwtSvc : JWTService) (settings : Settings).
Context `{!PublishesOnly bus, !FactoryLaws providers}.

Definition quiet_route (r : route) : Prop := ∀ req, Acts quiet (rt_handler r req).

Lemma acts_db_refused {A} msg : Acts unchanged (db_refused (A := A) msg).
Proof. by apply Acts_act. Qed.
Hint Resolve acts_db_refused : acts.

Lemma quiet_group prefix l : Forall quiet_route l → Forall quiet_route (group prefix l).
Proof. intros Hl. by apply Forall_map. Qed.

Lemma quiet_cons method path h l :
  (∀ req, Acts quiet (h req)) → Forall quiet_route l → Forall quiet_route (MkRoute method path h :: l).
Proof. by constructor. Qed.

Ltac routes_quiet :=
  repeat first
    [ apply Forall_nil_2
    | apply Forall_app_2
    | apply quiet_group
    | apply quiet_cons; [intros req; solve [handler_acts]|] ].

Lemma account_routes_quiet : Forall quiet_route account_routes.
Proof. unfold account_routes. routes_quiet. Qed.
Lemma auth_routes_quiet : Forall quiet_route (auth_routes Sprint jwtSvc settings).
Proof. unfold auth_routes. routes_quiet. Qed.
Lemma ingress_routes_quiet : Forall quiet_route (ingress_routes bus settings).
Proof. unfold ingress_routes. routes_quiet. Qed.
Lemma service_routes_quiet : Forall quiet_route service_routes.
Proof.
  unfold service_routes.
  repeat (apply quiet_cons; [intros req; solve [handler_acts]|]).
  constructor.
Qed.

(** The two routes that reach a provider. *)
Definition pays (r : route) : Prop :=
  r = POST "/transactions" (PaymentHandler_ProcessPayment bus providers) ∨
  r = POST "/refunds" (PaymentHandler_CreateRefund bus providers).

Lemma merchant_routes_quiet :
  Forall (λ r, pays r ∨ quiet_route r) (merchant_routes bus providers).
Proof.
  unfold merchant_routes.
  assert (∀ l, Forall quiet_route l → Forall (λ r, pays r ∨ quiet_route r) l) as Hq.
  { intros l Hl. eapply Forall_impl; [exact Hl|]. intros r Hr; by right. }
  repeat first
    [ apply Hq; solve [routes_quiet]
    | apply Forall_app_2
    | apply Forall_cons; split; [first [by left; left | by left; right
        | right; intros req; cbn [rt_handler]; solve [handler_acts]]|]
    | apply Forall_nil_2 ].
Qed.
End quiet_routes.

#[export] Hint Resolve acts_db_refused : acts.
