(* ===== verification/System.v ===== *)
(** The system: requests to every route, background workers, producers of tasks
    and the operations no route reaches, all running at once. *)

From S2P Require Import Prelude GoInt GoTime GoFloat Pagination TimeParse GoJson Model Errors.
From S2P Require Import World Effects Logic History Repository RepoPayments RepoAccounts RepoHistory.
From S2P Require Import EventBus Provider PaymentSvc SubscriptionSvc InvoiceSvc CatalogSvc.
From S2P Require Import Background WebhookSvc Http Ingress Auth PaymentHandlers AccountHandlers.
From S2P Require Import ApiKeys Csv Reporting Edge Router Answering Serving QuietRoutes Sample.

Open Scope Z_scope.


Section system.
Context `{!Externals, !Gin, !GinLaws, !Crypto, !NetURL, !PKI, !Digest, !PasswordHash, !JWTLib}.
Context `{!TOTP, !FloatText, !Validator} (Sprint : json → string).
Context (bus : EventBus) (providers : Factory) (jwtSvc : JWTService) (settings : Settings).
Context `{!PublishesOnly bus, !FactoryLaws providers}.

(** Operations of the services that no handler calls. *)
Inductive internal : ∀ {A}, M A → Prop :=
  | internal_SendInvoice id : internal (SendInvoice bus id)
  | internal_MarkPaid id : internal (MarkPaid bus id)
  | internal_MarkOverdue id : internal (MarkOverdue bus id)
  | internal_ProcessRenewal id : internal (ProcessRenewal bus id)
  | internal_Deliver m type payload : internal (Deliver m type payload)
  | internal_sendWithRetry id config body : internal (sendWithRetry id config body)
  | internal_Validate key : internal (ApiKeyService_Validate key)
  | internal_CheckDiscrepancies m provider from to :
      internal (CheckDiscrepancies bus m provider from to).

(** What runs in the process. *)
Inductive running : thread → Prop :=
  | running_request method path req :
      running (Thread (ServeHTTP Sprint bus providers jwtSvc settings method path req))
  | running_worker n : running (Thread (worker server_handlers n))
  | running_producer type payload priority : running (Thread (Enqueue type payload priority))
  | running_internal {A} (m : M A) : internal m → running (Thread m).

Lemma acts_internal {A} (m : M A) : internal m → Acts quiet m.
Proof. intros []; first [apply acts_Deliver | handler_acts]. Qed.

(** ** Requests *)

(** A handler that spends nothing of the budget of a key: it charges at most
    when it has put the key into the table. *)
Definition frugal (key : string) {A} (m : M A) : Prop :=
  Spends (charge_budget key) 0 m (λ _, 0%nat).

Lemma frugal_quiet key {A} (m : M A) : Acts quiet m → frugal key m.
Proof. apply spends_quiet. Qed.

Lemma frugal_on_outcome key {A B} (k : outcome A → M B) m :
  frugal key m → (∀ o, frugal key (k o)) → frugal key (on_outcome k m).
Proof. intros Hm Hk. by eapply Spends_on_outcome. Qed.

Lemma frugal_bind key {A B} (m : M A) (k : A → M B) :
  frugal key m → (∀ a, frugal key (k a)) → frugal key (m ≫= k).
Proof. intros Hm Hk. apply frugal_on_outcome; [done|]. by intros [a|e|msg]; [|apply frugal_quiet..]. Qed.

Lemma frugal_tried key {A} (m : M A) refuse k :
  frugal key m → (∀ a, frugal key (k a)) → frugal key (tried m refuse k).
Proof.
  intros Hm Hk. apply frugal_bind; [by apply Spends_attempt|].
  by intros []; [apply frugal_quiet|].
Qed.

Lemma frugal_ProcessPayment key req :
  key ≠ "" → frugal key (PaymentHandler_ProcessPayment bus providers req).
Proof.
  intros Hne. unfold PaymentHandler_ProcessPayment, with_param, parsed, bound.
  repeat (case_match; try (by apply frugal_quiet)).
  apply frugal_tried; [by apply spends_ProcessPayment|by intros; apply frugal_quiet].
Qed.

Lemma frugal_CreateRefund key req : frugal key (PaymentHandler_CreateRefund bus providers req).
Proof.
  unfold PaymentHandler_CreateRefund, with_param, parsed, bound.
  repeat (case_match; try (by apply frugal_quiet)).
  apply frugal_tried; [by apply spends_Refund|by intros; apply frugal_quiet].
Qed.

Lemma lawful_ProcessPayment req : Acts lawful (PaymentHandler_ProcessPayment bus providers req).
Proof.
  unfold PaymentHandler_ProcessPayment, with_param, parsed, bound.
  repeat (case_match; try done). by apply acts_tried; [apply acts_ProcessPayment|].
Qed.

Lemma lawful_CreateRefund req : Acts lawful (PaymentHandler_CreateRefund bus providers req).
Proof.
  unfold PaymentHandler_CreateRefund, with_param, parsed, bound.
  repeat (case_match; try done). by apply acts_tried; [apply acts_Refund|].
Qed.

(** What holds of the routes, and of the wrappers around their handlers. *)
Record behaves (key : string) (m : M Response) : Prop := MkBehaves {
  behaves_lawful : Acts lawful m;
  behaves_frugal : key ≠ "" → frugal key m
}.

Lemma behaves_quiet key m : Acts quiet m → behaves key m.
Proof. split; [by apply quiet_lawful|by intros; apply frugal_quiet]. Qed.

Lemma behaves_bind key {A} (m : M A) (k : A → M Response) :
  Acts quiet m → (∀ a, behaves key (k a)) → behaves key (m ≫= k).
Proof.
  intros Hm Hk. split.
  - apply Acts_bind; [by apply quiet_lawful|intros a; apply (behaves_lawful _ _ (Hk a))].
  - intros Hne. apply frugal_bind; [by apply frugal_quiet|].
    intros a. by apply (behaves_frugal _ _ (Hk a)).
Qed.

Lemma behaves_then key (m : M Response) (k : Response → M Response) :
  behaves key m → (∀ a, Acts quiet (k a)) → behaves key (m ≫= k).
Proof.
  intros [Hl Hf] Hk. split.
  - apply Acts_bind; [done|intros a; by apply quiet_lawful].
  - intros Hne. apply frugal_bind; [auto|intros a; by apply frugal_quiet].
Qed.

Lemma behaves_guard key mw next req :
  (∀ req, Acts quiet (mw req)) → (∀ req, behaves key (next req)) → behaves key (guard mw next req).
Proof.
  intros Hmw Hnext. apply behaves_bind; [done|]. by intros [|req']; [apply behaves_quiet|].
Qed.

Lemma behaves_protect key h req :
  (∀ req, behaves key (h req)) → behaves key (protect settings h req).
Proof.
  intros Hh. unfold protect. apply behaves_guard; [intros; handler_acts|intros req1].
  apply behaves_guard; [intros; handler_acts|intros req2].
  unfold Audit. cbv zeta. apply behaves_bind; [handler_acts|intros start].
  apply behaves_then; [apply behaves_guard; [intros; handler_acts|done]|intros resp].
  handler_acts.
Qed.

Lemma behaves_Recovery key h req : behaves key (h req) → behaves key (Recovery h req).
Proof.
  intros [Hl Hf]. split.
  - apply Acts_on_outcome; [done|]. by intros [].
  - intros Hne. apply frugal_on_outcome; [auto|]. intros []; by apply frugal_quiet.
Qed.

Definition behaving (key : string) (r : route) : Prop := ∀ req, behaves key (rt_handler r req).

Lemma quiet_behaving key l : Forall quiet_route l → Forall (behaving key) l.
Proof. intros Hl. eapply Forall_impl; [exact Hl|]. intros r Hr req. by apply behaves_quiet. Qed.

Lemma routes_behave key : Forall (behaving key) (NewRouter Sprint bus providers jwtSvc settings).
Proof.
  assert (∀ prefix l, Forall (behaving key) l → Forall (behaving key) (group prefix l)) as Hgroup
    by (intros prefix l Hl; by apply Forall_map).
  unfold NewRouter. apply Forall_app_2; [by apply quiet_behaving, service_routes_quiet|].
  apply Hgroup. repeat apply Forall_app_2.
  - by apply Hgroup, quiet_behaving, auth_routes_quiet.
  - apply Forall_map. eapply Forall_impl;
      [|intros r' Hr' req'; exact (behaves_protect key (rt_handler r') req' Hr')].
    apply Forall_app_2; [by apply quiet_behaving, account_routes_quiet|apply Hgroup].
    eapply Forall_impl; [by apply merchant_routes_quiet|].
    intros r [[-> | ->]|Hq] req; [split|split|by apply behaves_quiet].
    + apply lawful_ProcessPayment.
    + apply frugal_ProcessPayment.
    + apply lawful_CreateRefund.
    + intros _. apply frugal_CreateRefund.
  - by apply Hgroup, quiet_behaving, ingress_routes_quiet.
Qed.

Lemma ServeHTTP_behaves key method path req :
  behaves key (ServeHTTP Sprint bus providers jwtSvc settings method path req).
Proof.
  unfold ServeHTTP. destruct (find_route _ _ _) as [[r params]|] eqn:Hfind.
  2:{ destruct (redirect_slash _ _ _); apply behaves_quiet; [done|]. handler_acts. }
  destruct (find_route_in _ _ _ _ _ Hfind) as [Hr _].
  apply behaves_Recovery, (proj1 (Forall_forall _ _) (routes_behave key) r Hr).
Qed.

(** ** The queue and its workers *)

(** Calls no provider and keeps the table of idempotency keys. *)
Definition charge_free : relation world :=
  evolves (λ db db', table_le eq ik_row (db_idempotency_keys db) (db_idempotency_keys db')) eq.

Lemma quiet_charge_free w w' : quiet w w' → charge_free w w'.
Proof. intros [Hdb Hc]. split; [exact (le_idempotency_keys Hdb)|done]. Qed.

Lemma charge_free_budget key w w' :
  charge_free w w' → (charge_budget key w' ≤ charge_budget key w)%nat.
Proof.
  intros [Hk Hc]. unfold charge_budget, charges_with. rewrite Hc.
  destruct (db_idempotency_keys (w_db w) !! key) as [r|] eqn:Hr.
  - destruct (table_le_lookup _ _ _ _ _ _ Hk Hr) as (r' & Hr' & _).
    rewrite decide_False by congruence. lia.
  - rewrite (decide_True (P := None = None)) by done. case_decide; lia.
Qed.

Lemma frugal_charge_free key {A} (m : M A) : Acts charge_free m → frugal key m.
Proof.
  intros Hm. eapply Spends_mono; [apply Spends_frame|done|simpl; lia].
  eapply Acts_weaken; [|exact Hm]. apply charge_free_budget.
Qed.

Lemma charge_free_exec (f : time → gmap uuid BackgroundTask → option (gmap uuid BackgroundTask * Z)) :
  Acts charge_free (db_Exec (λ t, on_table db_background_tasks (f t))).
Proof.
  apply Acts_db_Exec_in; [intros db; reflexivity|].
  intros t db db' n (q & _ & ->)%on_table_inv. simpl. reflexivity.
Qed.

Lemma charge_free_set_task id f : Acts charge_free (set_task id f).
Proof. apply Acts_bind; [apply charge_free_exec|done]. Qed.

Lemma charge_free_claimTask : Acts charge_free claimTask.
Proof.
  intros w. split; [|done]. unfold claimTask. cbn.
  repeat case_match; split; cbn; reflexivity.
Qed.

Lemma charge_free_quiet {A} (m : M A) : Acts quiet m → Acts charge_free m.
Proof. apply Acts_weaken, quiet_charge_free. Qed.

Lemma charge_free_processTask task : Acts charge_free (processTask server_handlers task).
Proof.
  unfold processTask. destruct (server_handlers !! _) as [h|] eqn:Hh; [|apply charge_free_set_task].
  apply Acts_bind; [by eapply Acts_attempt, charge_free_quiet, server_handlers_quiet|].
  intros [err|[]]; [|apply charge_free_set_task].
  unfold handleTaskError. case_decide; [apply charge_free_set_task|].
  apply Acts_bind; [apply charge_free_quiet; acts|intros t; apply charge_free_set_task].
Qed.

Lemma charge_free_worker n : Acts charge_free (worker server_handlers n).
Proof.
  induction n as [|n IH]; [done|]. apply Acts_bind; [|done].
  apply Acts_bind; [apply Acts_attempt, charge_free_claimTask|].
  intros [err|task]; [done|]. apply Acts_ignore_err, charge_free_processTask.
Qed.

Lemma charge_free_Enqueue ty payload prio : Acts charge_free (Enqueue ty payload prio).
Proof.
  apply Acts_bind; [apply charge_free_quiet; acts|intros id]. destruct payload; [done|].
  apply Acts_bind; [apply charge_free_exec|done].
Qed.

(** ** The whole *)

Lemma running_frugal key th :
  key ≠ "" → running th → match th with Thread m => frugal key m end.
Proof.
  intros Hne []; [by apply (behaves_frugal _ _ (ServeHTTP_behaves key _ _ _))|..].
  - apply frugal_charge_free, charge_free_worker.
  - apply frugal_charge_free, charge_free_Enqueue.
  - by apply frugal_quiet, acts_internal.
Qed.

(** What may still be charged for a key never grows. *)
Lemma pool_budget ths w ths' w' key :
  key ≠ "" → Forall running ths → rtc pool_step (ths, w) (ths', w') →
  (charge_budget key w' ≤ charge_budget key w)%nat.
Proof.
  intros Hne Hths Hsteps.
  destruct (Spends_pool (charge_budget key) ths w ths' w' ((λ _, 0%nat) <$> ths) Hsteps)
    as (cs & _ & Hle).
  - apply Forall2_fmap_r, Forall_Forall2_diag. eapply Forall_impl; [exact Hths|].
    intros th Hth. apply (running_frugal key) in Hth; [|done]. destruct th as [A m].
    exact Hth.
  - assert (sum_list ((λ _ : thread, 0%nat) <$> ths) = 0%nat) as Hz
      by (clear; induction ths; simpl; auto).
    lia.
Qed.

Lemma charge_budget_bound key w w' :
  (charge_budget key w' ≤ charge_budget key w)%nat →
  (charges_with key w' ≤ charges_with key w +
     match db_idempotency_keys (w_db w) !! key with None => 1 | Some _ => 0 end)%nat.
Proof.
  unfold charge_budget. destruct (db_idempotency_keys (w_db w) !! key); repeat case_decide; simplify_eq; lia.
Qed.

(** C1: however many requests - to any routes, with any tokens and bodies -
    workers, producers and internal calls run at once, however their steps
    interleave and whatever the database does, the providers are charged at most
    once for an idempotency key, and never when the key was there before. *)
Theorem one_charge_per_key ths w ths' w' key :
  key ≠ "" → Forall running ths → rtc pool_step (ths, w) (ths', w') →
  (charges_with key w' ≤ charges_with key w +
     match db_idempotency_keys (w_db w) !! key with None => 1 | Some _ => 0 end)%nat.
Proof.
  intros Hne Hths Hsteps. by eapply charge_budget_bound, pool_budget.
Qed.

(** The tasks are filed under their identifiers, and everything since [w0] is
    progress. *)
Definition since (w0 w : world) : Prop := filed w ∧ progress w0 w.

Lemma since_progress w0 w w' : progress w w' → since w0 w → since w0 w'.
Proof. intros Hp [Hf Hw0]. split; [by eapply filed_stable|by etrans]. Qed.

Lemma keeps_progress w0 {A} (m : M A) : Acts progress m → Keeps (since w0) m (λ _, True).
Proof. apply Keeps_acts, since_progress. Qed.

Lemma claimTask_progress w : filed w → progress w (run claimTask w).2.
Proof.
  intros Hw. unfold claimTask. rewrite run_act.
  set (w1 := w <| w_tick := S (w_tick w) |>). change (w_db w1) with (w_db w).
  assert (progress w w1) as Hno by by split.
  destruct (next_task _ _) as [x|] eqn:Hx; [|by destruct (ext_db _ _ _)].
  apply next_task_Some in Hx as (_ & Hx & _); [|exact Hw]. case_decide; [done|].
  assert (progress w (w1 <| w_db := claim (w_tick w) x (w_db w) |>)) as Hp.
  { split; [|done]. split; simpl; try reflexivity.
    eapply (table_le_replace _ _); [exact Hx|]. split_and!; simpl; done || lia. }
  cbv zeta. by destruct (ext_db _ _ _).
Qed.

Lemma keeps_claimTask w0 : Keeps (since w0) claimTask (λ _, True).
Proof.
  apply Keeps_act. intros w Hw. pose proof (claimTask_progress w (proj1 Hw)) as Hp.
  unfold claimTask in Hp. rewrite run_act in Hp. destruct (match next_task _ _ with None => _ | _ => _ end)
    as [o w']. split; [by eapply since_progress|by destruct o].
Qed.

Lemma acts_processTask task : Acts progress (processTask server_handlers task).
Proof.
  unfold processTask. destruct (server_handlers !! _) as [h|] eqn:Hh; [|by apply acts_set_task].
  apply Acts_bind; [by eapply Acts_attempt, lawful_progress, server_handlers_lawful|].
  intros [err|[]]; [|by apply acts_set_task].
  unfold handleTaskError. case_decide; [by apply acts_set_task|].
  apply Acts_bind; [apply lawful_progress; acts|intros t; by apply acts_set_task].
Qed.

Lemma keeps_worker w0 n : Keeps (since w0) (worker server_handlers n) (λ _, True).
Proof.
  induction n as [|n IH]; [by apply Keeps_ret|].
  apply (Keeps_bind _ _ _ (λ _, True)); [|by intros [] _].
  eapply Keeps_bind; [apply Keeps_attempt, keeps_claimTask|].
  intros [err|task] _; [by apply Keeps_ret|]. apply keeps_progress, Acts_ignore_err, acts_processTask.
Qed.

Lemma running_keeps w0 th : running th → thread_keeps (since w0) th.
Proof.
  intros []; simpl.
  - apply keeps_progress, lawful_progress, (behaves_lawful "" _ (ServeHTTP_behaves "" _ _ _)).
  - apply keeps_worker.
  - apply keeps_progress, acts_Enqueue.
  - by apply keeps_progress, lawful_progress, quiet_lawful, acts_internal.
Qed.

(** C3: the books are append-only. Whatever runs at once, no transaction,
    subscription, invoice, payout, dispute, product, merchant, API key, task or
    idempotency key ever disappears or passes to another owner, amounts of
    transactions, invoices and disputes never change, a revoked API key stays
    revoked, attempts are not taken back, and calls to providers are never
    forgotten; and every row stays filed under its own identifier. *)
Theorem books_append_only ths w ths' w' :
  Forall running ths → well_formed (w_db w) → rtc pool_step (ths, w) (ths', w') →
  db_history (w_db w) (w_db w') ∧ w_calls w `prefix_of` w_calls w' ∧ well_formed (w_db w').
Proof.
  intros Hths Hwf Hsteps.
  assert (since w w') as [_ [Hdb Hc]].
  { eapply (Keeps_pool (since w)); [exact Hsteps|..].
    - eapply Forall_impl; [exact Hths|]. intros th. apply running_keeps.
    - split; [apply Hwf|done]. }
  split; [exact Hdb|]. split; [exact Hc|]. by eapply well_formed_history.
Qed.
End system.

(** ** Witnesses *)

(** Ann pays twice at once with one key. *)
Definition paying : json := JObj [
  ("customer_id", JStr "4"); ("payment_method_id", JStr "9"); ("amount", JNum 1000);
  ("currency", JStr "USD"); ("idempotency_key", JStr "order-1")].
Definition shop : Externals := sending paying.
#[local] Existing Instances shop sample_crypto sample_url sample_pki sample_digest sample_argon.
#[local] Existing Instances sample_jwt sample_floats sample_totp any_email.

(** The only path parameter is merchant 3. *)
#[local] Instance shop_gin : Gin := {|
  find_route := λ l method path, (λ r, (r, [("merchantId", "3")])) <$>
    List.find (λ r, bool_decide (rt_method r = method ∧ rt_path r = path)) l;
  read_before_error := λ _, "";
  recovered := λ _, MkResponse StatusInternalServerError (VText "");
  redirect_slash := λ _ _ _, None;
  promhttp_ServeHTTP := λ _ _, MkResponse StatusOK (VText "");
  websocket_Upgrade := λ _ _, inl (MkResponse StatusBadRequest (VText "Bad Request"))
|}.

#[local] Instance shop_gin_laws : GinLaws.
Proof.
  split. intros l method path r params Hf. simpl in Hf.
  destruct (List.find _ l) as [r'|] eqn:Hr; [|done]. injection Hf as <- <-.
  apply List.find_some in Hr as [Hin Heq]. apply bool_decide_eq_true in Heq as [<- _].
  by split; [apply list_elem_of_In|].
Qed.

Definition pay_request : M Response :=
  ServeHTTP (λ _, "") NoopEventBus (NewFactory mock_settings) plain_jwt plain_settings
    "POST" "/api/v1/merchants/:merchantId/transactions" anns_request.
Definition two_payments : list thread := [Thread pay_request; Thread pay_request; Thread (worker server_handlers 2)].
Definition shop_world : world := world_of sample_db.
Definition shop_schedule : list nat :=
  (concat (replicate 10 [0; 1]) ++ replicate 8 1 ++ [2; 2])%nat.

Lemma two_payments_run : Forall (running (λ _, "") NoopEventBus (NewFactory mock_settings)
  plain_jwt plain_settings) two_payments.
Proof. repeat constructor. Qed.

Lemma shop_world_well_formed : well_formed (w_db shop_world).
Proof. unfold well_formed. split_and!; apply map_Forall_empty. Qed.

(** Both are answered, and the provider was called once. *)
Lemma one_charge_per_key_witness :
  ∃ ths' w', rtc pool_step (two_payments, shop_world) (ths', w') ∧
    forallb returned ths' = true ∧ charges_with "order-1" w' = 1%nat.
Proof.
  assert (match run_schedule shop_schedule (two_payments, shop_world) with
          | Some (ths', w') => forallb returned ths' && bool_decide (charges_with "order-1" w' = 1%nat)
          | None => false
          end = true) as Hdone by (vm_compute; reflexivity).
  destruct (run_schedule _ _) as [[ths' w']|] eqn:Hrun; [|discriminate].
  apply andb_true_iff in Hdone as [Hret Hcharges%bool_decide_eq_true].
  apply run_schedule_steps in Hrun. exists ths', w'. split; [exact Hrun|]. split; [exact Hret|].
  pose proof (one_charge_per_key _ _ _ _ _ two_payments shop_world ths' w' "order-1" ltac:(discriminate)
    two_payments_run Hrun) as Hle.
  apply Nat.le_antisymm; [exact Hle|]. rewrite Hcharges. apply Nat.le_refl.
Defined.

Lemma books_append_only_witness :
  ∃ ths' w', rtc pool_step (two_payments, shop_world) (ths', w') ∧
    db_history (w_db shop_world) (w_db w') ∧ well_formed (w_db w').
Proof.
  assert (match run_schedule shop_schedule (two_payments, shop_world) with
          | Some _ => true | None => false end = true) as Hdone by (vm_compute; reflexivity).
  destruct (run_schedule _ _) as [[ths' w']|] eqn:Hrun; [|discriminate].
  apply run_schedule_steps in Hrun. exists ths', w'. split; [exact Hrun|].
  pose proof (books_append_only _ _ _ _ _ two_payments shop_world ths' w' two_payments_run
    shop_world_well_formed Hrun) as (Hdb & _ & Hwf). by split.
Defined.
