(* ===== verification/Server.v ===== *)
(** The start of the process: [cmd/server/main.go], with the constructors it
    calls - [internal/database], [eventbus.NewNatsEventBus], [NewJWTService] and
    [NewAuthMiddleware].

    [boot] turns the environment into the application: its keys, bus, providers
    and settings, or the error the process dies of; [main] makes it listen. *)

From S2P Require Import Prelude GoInt GoTime GoFloat Pagination TimeParse Config GoJson Model Errors.
From S2P Require Import World Effects Logic History Repository RepoPayments RepoAccounts RepoHistory.
From S2P Require Import EventBus Provider PaymentSvc SubscriptionSvc InvoiceSvc CatalogSvc.
From S2P Require Import Background WebhookSvc Http Ingress Auth PaymentHandlers AccountHandlers.
From S2P Require Import ApiKeys Csv Reporting Edge Router Answering Serving QuietRoutes System Sample.

Open Scope Z_scope.

(** What the libraries answer when the process starts: godotenv, zap, pgxpool,
    go-redis, nats.go, the file system, and the parsers of RSA keys. [Some msg]
    is an error. *)
Class Machine := {
  godotenv_Load : environ → environ;
  zap_ParseLevel : string → option string;
  zap_Build : string → option string;
  pgxpool_ParseConfig : string → option string;
  pgxpool_NewWithConfig : string → option string;
  pgxpool_Ping : string → option string;
  redis_ParseURL : string → option string;
  redis_Ping : string → option string;
  nats_Connect : string → option string;
  nats_JetStream : string → option string;
  ReadFile : string → string + string;
  RSAPrivateKey : Type;
  RSAPublicKey : Type;
  ParseRSAPrivateKeyFromPEM : string → string + RSAPrivateKey;
  ParseRSAPublicKeyFromPEM : string → string + RSAPublicKey;
  pem_Decode : string → option string;
  ParsePKIXPublicKey : string → string + option RSAPublicKey;  (* [None]: of another kind *)
  PublicKey : RSAPrivateKey → RSAPublicKey;
  rsa_sign : RSAPrivateKey → gmap string json → string + string;
  rsa_parse : RSAPublicKey → time → string → string + gmap string json;
  net_Listen : string → option string
}.

(** golang-jwt with RS256: signed with one key, read with another. *)
Definition rsa_tokens `{!Machine} (priv : RSAPrivateKey) (pub : RSAPublicKey) : JWTLib := {|
  jwt_sign := rsa_sign priv; jwt_parse := rsa_parse pub
|}.

Section boot.
Context `{!Externals, !Crypto, !Machine}.

(** A step of a constructor: its error, wrapped. *)
Definition checked (prefix : string) (r : option string) : error + unit :=
  match r with None => inr () | Some msg => inl (EWrap prefix (EDriver msg)) end.
Definition got {A} (prefix : string) (r : string + A) : error + A :=
  match r with inr a => inr a | inl msg => inl (EWrap prefix (EDriver msg)) end.

Definition bind_error {A B} (k : A → error + B) (r : error + A) : error + B :=
  match r with inl e => inl e | inr a => k a end.
#[local] Instance error_bind : MBind (sum error) := λ A B, @bind_error A B.

(** ** The constructors *)

Definition NewPostgres (databaseURL : string) : error + unit :=
  checked "unable to parse database URL" (pgxpool_ParseConfig databaseURL) ≫= λ _,
  checked "unable to create connection pool" (pgxpool_NewWithConfig databaseURL) ≫= λ _,
  checked "unable to ping database" (pgxpool_Ping databaseURL).

Definition NewRedis (redisURL : string) : error + unit :=
  checked "unable to parse redis URL" (redis_ParseURL redisURL) ≫= λ _,
  checked "unable to ping redis" (redis_Ping redisURL).

(** [repository/connection.go], which nothing calls: the same through
    database/sql, whose parts are [sql_Open] and [sql_Ping]. *)
Definition NewPostgresConnection (sql_Open sql_Ping : string → option string) (databaseURL : string)
    : error + unit :=
  checked "failed to open database" (sql_Open databaseURL) ≫= λ _,
  checked "failed to ping database" (sql_Ping databaseURL).

Definition NewRedisConnection (redisURL : string) : error + unit :=
  checked "failed to parse Redis URL" (redis_ParseURL redisURL) ≫= λ _,
  checked "failed to ping Redis" (redis_Ping redisURL).

(** A stream that cannot be added may be there already: the bus is used. *)
Definition NewNatsEventBus (natsURL : string) : error + EventBus :=
  match nats_Connect natsURL with
  | Some msg => inl (EDriver msg)
  | None =>
      match nats_JetStream natsURL with
      | Some msg => inl (EDriver msg)
      | None => inr NatsEventBus
      end
  end.

Definition NewJWTService (cfg : Config) : error + (RSAPrivateKey * RSAPublicKey * JWTService) :=
  got "read private key" (ReadFile (JWTPrivateKeyPath cfg)) ≫= λ privateKeyData,
  got "parse private key" (ParseRSAPrivateKeyFromPEM privateKeyData) ≫= λ privateKey,
  got "read public key" (ReadFile (JWTPublicKeyPath cfg)) ≫= λ publicKeyData,
  match pem_Decode publicKeyData with
  | None => inl (EText "decode public key PEM")
  | Some block =>
      got "parse public key" (ParsePKIXPublicKey block) ≫= λ pub,
      match pub with
      | None => inl (EText "public key is not RSA")
      | Some publicKey =>
          inr (privateKey, publicKey, MkJWTService (JWTAccessExpiry cfg) (JWTRefreshExpiry cfg))
      end
  end.

(** The first half of [middleware.NewAuthMiddleware], which reads the key. *)
Definition auth_key (publicKeyPath : string) : error + RSAPublicKey :=
  got "failed to read public key" (ReadFile publicKeyPath) ≫= λ data,
  got "failed to parse public key" (ParseRSAPublicKeyFromPEM data).

Definition provider_settings (cfg : Config) : ProviderSettings :=
  MkProviderSettings (cfg_ProviderMock cfg) (cfg_StripeAPIKey cfg) (cfg_StripeWebhookSecret cfg)
    (cfg_PayPalClientID cfg) (cfg_PayPalSecret cfg) (cfg_PayPalWebhookID cfg)
    (cfg_SquareAccessToken cfg) (cfg_SquareApplicationID cfg) (cfg_SquareWebhookSigKey cfg).

(** ** main *)

(** The background service with its four handlers. *)
Definition background_service (cfg : Config) : BackgroundService :=
  RegisterHandler "webhook_delivery" webhookDeliveryTaskHandler $
  RegisterHandler "invoice" invoiceTaskHandler $
  RegisterHandler "reconciliation" reconciliationTaskHandler $
  RegisterHandler "payout" payoutTaskHandler $
  NewBackgroundService (BackgroundWorkers cfg) (PollInterval cfg).

Lemma background_handlers cfg : bs_handlers (background_service cfg) = server_handlers.
Proof. reflexivity. Qed.

(** The running process. The service reads the public key it verifies with, and
    the middleware its own from the same file; nobody compares either with the
    private key. *)
Record App := MkApp {
  app_private : RSAPrivateKey; app_public : RSAPublicKey; app_verifier : RSAPublicKey;
  app_bus : EventBus; app_providers : Factory;
  app_jwtSvc : JWTService; app_settings : Settings;
  app_background : BackgroundService; app_addr : string * Z
}.

(** What [logger.Fatal] prints before the process exits. *)
Record fatal := MkFatal { fatal_message : string; fatal_error : error }.

Definition or_die {A B} (message : string) (r : error + A) (k : A → fatal + B) : fatal + B :=
  match r with inl e => inl (MkFatal message e) | inr a => k a end.
Definition driver_error (r : option string) : error + unit :=
  match r with None => inr () | Some msg => inl (EDriver msg) end.

(** [log.Fatal] of the standard logger. *)
Definition initLogger {A} (cfg : Config) (k : unit → fatal + A) : fatal + A :=
  or_die "Invalid LOG_LEVEL" (driver_error (zap_ParseLevel (LogLevel cfg))) $ λ _,
  or_die "Failed to initialize logger" (driver_error (zap_Build (LogFormat cfg))) k.

Definition boot (environment : environ) : fatal + App :=
  let cfg := Load (godotenv_Load environment) in
  initLogger cfg $ λ _,
  or_die "Failed to connect to PostgreSQL" (NewPostgres (DatabaseURL cfg)) $ λ _,
  or_die "Failed to connect to Redis" (NewRedis (RedisURL cfg)) $ λ _,
  let eb := match NewNatsEventBus (NATSURL cfg) with inl _ => NoopEventBus | inr bus => bus end in
  or_die "Failed to initialize JWT service" (NewJWTService cfg) $ λ '(privateKey, publicKey, jwtSvc),
  or_die "Failed to initialize auth middleware" (auth_key (JWTPublicKeyPath cfg)) $ λ verifier,
  inr {|
    app_private := privateKey; app_public := publicKey; app_verifier := verifier;
    app_bus := eb; app_providers := NewFactory (provider_settings cfg); app_jwtSvc := jwtSvc;
    app_settings := MkSettings true (RateLimitRPS cfg) (cfg_StripeWebhookSecret cfg)
      (cfg_PayPalWebhookID cfg) (cfg_SquareWebhookSigKey cfg);
    app_background := background_service cfg;
    app_addr := (ServerHost cfg, ServerPort cfg)
  |}.

(** [ListenAndServe] runs in a goroutine of its own, and an address that cannot
    be listened on ends the process. (So would a listener that breaks later.) *)
Definition listen_address (app : App) : string :=
  (app_addr app).1 +:+ ":" +:+ pretty (app_addr app).2.

Definition main (environment : environ) : fatal + App :=
  match boot environment with
  | inl f => inl f
  | inr app =>
      or_die "Failed to start server" (driver_error (net_Listen (listen_address app))) $ λ _, inr app
  end.

(** The tokens of the process, as its service signs and reads them, and as its
    middleware reads them. *)
Definition app_tokens (app : App) : JWTLib := rsa_tokens (app_private app) (app_public app).
Definition app_middleware (app : App) : Middleware :=
  let verifying : JWTLib := rsa_tokens (app_private app) (app_verifier app) in
  NewAuthMiddleware true.

(** What [backgroundSvc.Start] starts. *)
Definition app_threads (app : App) (turns : nat) : list thread :=
  Background.Start turns (app_background app).
End boot.

(** A request to the process. *)
Definition app_serve `{!Externals, !Gin, !Crypto, !Machine, !PKI, !Digest, !PasswordHash}
    `{!TOTP, !FloatText, !Validator} (Sprint : json → string) (app : App)
    : string → string → Request → M Response :=
  let tokens := app_tokens app in
  ServeHTTP Sprint (app_bus app) (app_providers app) (app_jwtSvc app) (app_settings app).

(** Numbers of a token are floats when it is read. *)
Definition exact (v : json) : Prop :=
  match v with JStr _ => True | JNum n => Z.abs n < 2 ^ 53 | _ => False end.

(** What golang-jwt and the parsers of keys are relied on for. A token is read
    back with the public half of the key it was signed with, as long as it has
    not expired (texts are valid UTF-8), and not a word about any other key. A
    file with a PKIX public key is the same key to both parsers. *)
Class KeysWork `{!Machine} := {
  tokens_verify priv t claims token exp :
    rsa_sign priv claims = inr token →
    map_Forall (λ _, exact) claims → claims !! "nbf" = None →
    claims !! "exp" = Some (JNum exp) → t < exp * Second →
    rsa_parse (PublicKey priv) t token = inr claims;
  parsers_agree pem block pub :
    pem_Decode pem = Some block → ParsePKIXPublicKey block = inr (Some pub) →
    ParseRSAPublicKeyFromPEM pem = inr pub
}.

(** ** What a start decides *)

Section started.
Context `{!Externals, !Crypto, !Machine}.

(** The logger, the database and Redis are there. *)
Definition services_up (cfg : Config) : Prop :=
  zap_ParseLevel (LogLevel cfg) = None ∧ zap_Build (LogFormat cfg) = None ∧
  pgxpool_ParseConfig (DatabaseURL cfg) = None ∧ pgxpool_NewWithConfig (DatabaseURL cfg) = None ∧
  pgxpool_Ping (DatabaseURL cfg) = None ∧
  redis_ParseURL (RedisURL cfg) = None ∧ redis_Ping (RedisURL cfg) = None.

(** The files of the configuration hold these keys. *)
Definition keys_found (cfg : Config) (priv : RSAPrivateKey) (pub verifier : RSAPublicKey) : Prop :=
  ∃ private_pem public_pem block,
    ReadFile (JWTPrivateKeyPath cfg) = inr private_pem ∧
    ParseRSAPrivateKeyFromPEM private_pem = inr priv ∧
    ReadFile (JWTPublicKeyPath cfg) = inr public_pem ∧ pem_Decode public_pem = Some block ∧
    ParsePKIXPublicKey block = inr (Some pub) ∧ ParseRSAPublicKeyFromPEM public_pem = inr verifier.

Definition nats_up (cfg : Config) : Prop :=
  nats_Connect (NATSURL cfg) = None ∧ nats_JetStream (NATSURL cfg) = None.
#[export] Instance nats_up_dec cfg : Decision (nats_up cfg).
Proof. unfold nats_up. apply _. Defined.

Lemma NewPostgres_inr url :
  NewPostgres url = inr () ↔
  pgxpool_ParseConfig url = None ∧ pgxpool_NewWithConfig url = None ∧ pgxpool_Ping url = None.
Proof.
  unfold NewPostgres, checked. simpl.
  destruct (pgxpool_ParseConfig url), (pgxpool_NewWithConfig url), (pgxpool_Ping url); simpl; naive_solver.
Qed.

Lemma NewRedis_inr url :
  NewRedis url = inr () ↔ redis_ParseURL url = None ∧ redis_Ping url = None.
Proof.
  unfold NewRedis, checked. simpl.
  destruct (redis_ParseURL url), (redis_Ping url); simpl; naive_solver.
Qed.

(** Both ways to Redis are open or closed together. *)
Lemma NewRedisConnection_inr url : NewRedisConnection url = inr () ↔ NewRedis url = inr ().
Proof.
  rewrite NewRedis_inr. unfold NewRedisConnection, checked. simpl.
  destruct (redis_ParseURL url), (redis_Ping url); simpl; naive_solver.
Qed.

Lemma got_inr {A} prefix (r : string + A) a : got prefix r = inr a ↔ r = inr a.
Proof. destruct r; simpl; naive_solver. Qed.

Lemma bind_inr {A B} (r : error + A) (k : A → error + B) b :
  bind_error k r = inr b ↔ ∃ a, r = inr a ∧ k a = inr b.
Proof. destruct r; simpl; naive_solver. Qed.

Lemma or_die_inr {A B} message (r : error + A) (k : A → fatal + B) b :
  or_die message r k = inr b ↔ ∃ a, r = inr a ∧ k a = inr b.
Proof. destruct r; simpl; naive_solver. Qed.

Lemma driver_error_inr r : driver_error r = inr () ↔ r = None.
Proof. destruct r; simpl; naive_solver. Qed.

Lemma keys_inr cfg priv pub s verifier :
  NewJWTService cfg = inr (priv, pub, s) ∧ auth_key (JWTPublicKeyPath cfg) = inr verifier ↔
  keys_found cfg priv pub verifier ∧ s = MkJWTService (JWTAccessExpiry cfg) (JWTRefreshExpiry cfg).
Proof.
  unfold NewJWTService, auth_key, mbind, error_bind, keys_found. split.
  - intros [E1 E2]. repeat setoid_rewrite bind_inr in E1.
    destruct E1 as (d1 & E1%got_inr & p & Hp%got_inr & d2 & Hd%got_inr & Hrest).
    apply bind_inr in E2 as (d3 & E3%got_inr & E4%got_inr).
    destruct (pem_Decode d2) as [block|] eqn:Hblock; [|done].
    rewrite bind_inr in Hrest. destruct Hrest as (k & Hk & Hrest). rewrite got_inr in Hk. destruct k as [k|]; [|done]. simplify_eq.
    split; [|done]. assert (d3 = d2) as -> by congruence. exists d1, d2, block. by split_and!.
  - intros [(d1 & d2 & block & E1 & E2 & E3 & E4 & E5 & E6) ->].
    rewrite E1. simpl. rewrite E2. simpl. rewrite E3. simpl. rewrite E4, E5, E6. simpl. by split.
Qed.

(** What the process is when it starts. *)
Definition started (cfg : Config) (priv : RSAPrivateKey) (pub verifier : RSAPublicKey) : App := {|
  app_private := priv; app_public := pub; app_verifier := verifier;
  app_bus := if decide (nats_up cfg) then NatsEventBus else NoopEventBus;
  app_providers := NewFactory (provider_settings cfg);
  app_jwtSvc := MkJWTService (JWTAccessExpiry cfg) (JWTRefreshExpiry cfg);
  app_settings := MkSettings true (RateLimitRPS cfg) (cfg_StripeWebhookSecret cfg)
    (cfg_PayPalWebhookID cfg) (cfg_SquareWebhookSigKey cfg);
  app_background := background_service cfg;
  app_addr := (ServerHost cfg, ServerPort cfg)
|}.

Lemma NewNatsEventBus_bus cfg :
  match NewNatsEventBus (NATSURL cfg) with inl _ => NoopEventBus | inr bus => bus end =
  if decide (nats_up cfg) then NatsEventBus else NoopEventBus.
Proof.
  unfold NewNatsEventBus. destruct (decide (nats_up cfg)) as [[-> ->]|Hno]; [done|].
  destruct (nats_Connect _) eqn:Hc; [done|]. by destruct (nats_JetStream _) eqn:Hj; [|destruct Hno].
Qed.

Lemma boot_inr environment app :
  let cfg := Load (godotenv_Load environment) in
  boot environment = inr app ↔
  services_up cfg ∧ ∃ priv pub verifier, keys_found cfg priv pub verifier ∧
                                         app = started cfg priv pub verifier.
Proof.
  intros cfg. unfold boot, initLogger. fold cfg. rewrite NewNatsEventBus_bus.
  repeat setoid_rewrite or_die_inr. unfold services_up. split.
  - intros ([] & E1%driver_error_inr & [] & E2%driver_error_inr & [] & E3%NewPostgres_inr & []
      & E4%NewRedis_inr & [[priv pub] s] & E5 & E6).
    apply or_die_inr in E6 as (verifier & E6 & [= <-]).
    destruct (proj1 (keys_inr _ _ _ _ _) (conj E5 E6)) as [Hkeys ->].
    split; [tauto|]. by exists priv, pub, verifier.
  - intros [(E1 & E2 & E3 & E4 & E5 & E6 & E7) (priv & pub & verifier & Hkeys & ->)].
    destruct (proj2 (keys_inr cfg priv pub _ verifier) (conj Hkeys eq_refl)) as [E8 E9].
    exists (). split; [by apply driver_error_inr|]. exists (). split; [by apply driver_error_inr|].
    exists (). split; [by apply NewPostgres_inr|]. exists (). split; [by apply NewRedis_inr|].
    eexists. split; [exact E8|]. cbv beta iota. by rewrite E9.
Qed.

Lemma main_inr environment app :
  main environment = inr app ↔ boot environment = inr app ∧ net_Listen (listen_address app) = None.
Proof.
  unfold main. destruct (boot environment) as [f|app0]; [naive_solver|].
  rewrite or_die_inr. split.
  - intros ([] & Hl%driver_error_inr & [= ->]). by split.
  - intros [[= ->] Hl]. exists (). by rewrite driver_error_inr.
Qed.

(** The address of the configuration can be listened on. *)
Definition can_listen (cfg : Config) : Prop :=
  net_Listen (ServerHost cfg +:+ ":" +:+ pretty (ServerPort cfg)) = None.

(** C37: the process comes to serve exactly when the log settings are known,
    PostgreSQL and Redis can be reached, the key files hold a private key and a
    public key that both the service and the middleware can read, and the
    configured address can be listened on; otherwise it dies of a fatal error.
    Whether NATS can be reached only decides the bus: without it events go
    nowhere. That the two keys belong together is not asked. *)
Theorem boot_outcome environment :
  let cfg := Load (godotenv_Load environment) in
  match main environment with
  | inl _ => ¬ (services_up cfg ∧ (∃ priv pub verifier, keys_found cfg priv pub verifier) ∧
                can_listen cfg)
  | inr app => services_up cfg ∧ keys_found cfg (app_private app) (app_public app) (app_verifier app) ∧
      can_listen cfg ∧
      (app_bus app = if decide (nats_up cfg) then NatsEventBus else NoopEventBus) ∧
      app_providers app = NewFactory (provider_settings cfg) ∧
      listen_address app = ServerHost cfg +:+ ":" +:+ pretty (ServerPort cfg)
  end.
Proof.
  intros cfg. destruct (main environment) as [f|app] eqn:Hmain.
  - intros (Hup & (priv & pub & verifier & Hkeys) & Hl).
    assert (main environment = inr (started cfg priv pub verifier)); [|congruence].
    apply main_inr. split; [apply boot_inr; eauto 10|exact Hl].
  - apply main_inr in Hmain as [(Hup & priv & pub & verifier & Hkeys & ->)%boot_inr Hl].
    by split_and!.
Qed.
End started.

(** ** The sessions of a process *)

Section sessions.
Context `{!Externals, !Gin, !GinLaws, !Crypto, !Machine, !PKI, !Digest, !PasswordHash}.
Context `{!TOTP, !FloatText, !Validator, !KeysWork}.

Lemma started_bus cfg priv pub verifier : PublishesOnly (app_bus (started cfg priv pub verifier)).
Proof. simpl. case_decide; apply _. Qed.

(** Whatever the environment the process was started in, it answers every
    request: the laws the handlers rely on hold of the bus, the providers and
    the keys that [main] gives them. *)
Theorem booted_answers Sprint environment app method path req w :
  boot environment = inr app →
  ∃ resp w', run (app_serve Sprint app method path req) w = (Ret resp, w').
Proof.
  intros (_ & priv & pub & verifier & _ & ->)%boot_inr.
  pose proof (started_bus (Load (godotenv_Load environment)) priv pub verifier).
  pose proof (NewFactory_laws (provider_settings (Load (godotenv_Load environment)))).
  set (app := started _ _ _ _) in *. pose (tokens := app_tokens app : JWTLib).
  destruct (run_ServeHTTP Sprint (app_bus app) (app_providers app) (app_jwtSvc app)
    (app_settings app) method path req w) as (resp & w' & Hrun & _).
  by exists resp, w'.
Qed.

(** What a process runs - its workers and the requests it gets - is what the
    theorems on the whole system are about. *)
Lemma booted_running `{!NetURL} Sprint environment app turns requests :
  boot environment = inr app →
  let tokens : JWTLib := app_tokens app in
  Forall (running Sprint (app_bus app) (app_providers app) (app_jwtSvc app) (app_settings app))
    (app_threads app turns ++
     map (λ '(method, path, req), Thread (app_serve Sprint app method path req)) requests).
Proof.
  intros (_ & priv & pub & verifier & _ & ->)%boot_inr tokens. apply Forall_app_2.
  - apply Forall_replicate. cbn [app_background started]. rewrite background_handlers. apply running_worker.
  - apply Forall_map, Forall_true. intros [[method path] req]. apply running_request.
Qed.

Lemma Unix_bound x l : 0 ≤ x < 2 ^ 50 * Second → in_int64 l → Z.abs (Unix (x + l)) < 2 ^ 53.
Proof.
  unfold in_int64, int64_min, int64_max, Unix, Second. intros Hx Hl.
  change (10 ^ 9) with 1000000000 in *. change (2 ^ 50) with 1125899906842624 in *.
  change (2 ^ 53) with 9007199254740992. change (2 ^ 63) with 9223372036854775808 in *.
  apply Z.abs_lt. split; [|apply Z.div_lt_upper_bound; lia].
  apply Z.lt_le_trans with (-9007199254740991); [done|]. apply Z.div_le_lower_bound; lia.
Qed.

Lemma access_claims_exact uid email role mid exp iat jti :
  Z.abs (Unix exp) < 2 ^ 53 → Z.abs (Unix iat) < 2 ^ 53 →
  map_Forall (λ _, exact) (access_claims uid email role mid exp iat jti).
Proof.
  intros Hexp Hiat k v Hk. apply elem_of_list_to_map_2 in Hk.
  repeat (apply elem_of_cons in Hk as [[= _ ->]|Hk]; [done|]). by apply elem_of_nil in Hk.
Qed.

(** The middleware reads the public key of the service. *)
Lemma one_public_key cfg priv pub verifier : keys_found cfg priv pub verifier → verifier = pub.
Proof.
  intros (d1 & d2 & block & _ & _ & _ & Hpem & Hpub & Hver).
  pose proof (parsers_agree _ _ _ Hpem Hpub). congruence.
Qed.

(** C36: a session works as long as the process was configured for. When the
    configured public key is that of the configured private key - which a start
    does not check - an access token the process issues is let through by its
    middleware, with the role and the merchant of its user, until the lifetime
    read from [JWT_ACCESS_EXPIRY] is over, unless the blacklist has an entry for
    the id of that token. *)
Theorem session_lasts environment app uid email role mid w token w1 req w2 :
  main environment = inr app →
  app_public app = PublicKey (app_private app) →
  (∀ n, (n ≤ S (w_tick w))%nat → 0 ≤ ext_now n < 2 ^ 50 * Second) →
  let tokens : JWTLib := app_tokens app in
  let lifetime := JWTAccessExpiry (Load (godotenv_Load environment)) in
  run (GenerateAccessToken (app_jwtSvc app) uid email role mid) w = (Ret token, w1) →
  bearer (GetHeader req "Authorization") = Some token →
  ext_now (w_tick w2) < Unix (ext_now (w_tick w) + lifetime) * Second →
  (∀ claims jti, jwt_parse (ext_now (w_tick w2)) token = inr claims →
     claims !! "jti" = Some (JStr jti) →
     redis_live (ext_db_now (S (w_tick w2))) (w_redis w2) ("token_blacklist:" +:+ jti) = None) →
  ∃ req' w3, run (app_middleware app req) w2 = (Ret (inr req'), w3) ∧
    GetString req' "role" = role ∧ GetString req' "merchant_id" = uuid_String mid ∧
    w_db w3 = w_db w2.
Proof.
  intros [(_ & priv & pub & verifier & Hkeys & ->)%boot_inr _]%main_inr Hpair Hclock tokens lifetime
    Hgen Hb Hlive Hblack. simpl in Hpair. apply one_public_key in Hkeys as ->.
  unfold GenerateAccessToken, now, uuid_New, ask in Hgen.
  repeat (rewrite run_bind, run_act in Hgen; cbv beta iota in Hgen).
  apply run_sign in Hgen. unfold Add in Hgen.
  change (accessExpiry _) with lifetime in Hgen. simpl (w_tick _) in Hgen.
  set (claims := access_claims _ _ _ _ _ _ _) in Hgen.
  assert (in_int64 lifetime) as Hlife by by apply getEnvAsDuration_in_int64.
  assert (rsa_parse pub (ext_now (w_tick w2)) token = inr claims) as Hparse.
  { rewrite Hpair. eapply tokens_verify; [exact Hgen| |done|done|exact Hlive].
    pose proof (Hclock (w_tick w) (Nat.le_succ_diag_r _)). pose proof (Hclock (S (w_tick w)) (le_n _)).
    apply access_claims_exact; [by apply Unix_bound|].
    rewrite <-(Z.add_0_r (ext_now _)). by apply Unix_bound. }
  specialize (Hblack claims _ Hparse eq_refl).
  assert (GetHeader req "Authorization" ≠ "") as Hne by by intros Heq; rewrite Heq in Hb.
  unfold app_middleware, NewAuthMiddleware. rewrite decide_False by done. rewrite Hb, run_bind.
  unfold now, ask. rewrite run_act. cbv beta iota. cbn [jwt_parse rsa_tokens started app_verifier].
  rewrite Hparse. unfold claims.
  rewrite decode_access_claims. cbn [cl_ID]. set (jti := uuid_String (ext_uuid _)) in *.
  set (w3 := w2 <| w_tick := _ |>).
  assert (∃ w4, run (if decide (true = true ∧ jti ≠ "") then
      n ← attempt (redis_Exists ("token_blacklist:" +:+ jti));
      match n with inl _ => mret false | inr n => mret (bool_decide (0 < n)) end
      else mret false) w3 = (Ret false, w4) ∧ w_db w4 = w_db w2) as (w4 & Hrun & Hdb).
  { case_decide; [|by eexists]. rewrite run_bind, run_attempt. unfold redis_Exists, redis_command.
    rewrite run_act. cbv beta. change (w_tick w3) with (S (w_tick w2)).
    destruct (ext_redis _); [by eexists|]. cbv beta iota zeta.
    set (w4 := w3 <| w_tick := _ |>). change (w_redis w4) with (w_redis w2).
    rewrite Hblack. by eexists. }
  eexists _, w4. rewrite run_bind. cbv beta iota zeta. rewrite Hrun, run_ret. by split_and!.
Qed.
End sessions.

(** ** A machine *)

Module Plain.
(** Tokens in the clear: a list of claims written as a binary number. *)
Fixpoint write_bits (p : positive) : string :=
  match p with xH => "" | xO p => String "0" (write_bits p) | xI p => String "1" (write_bits p) end.
Fixpoint read_bits (s : string) : positive :=
  match s with
  | "" => xH
  | String c s => if decide (c = "0"%char) then xO (read_bits s) else xI (read_bits s)
  end.

Lemma read_write_bits p : read_bits (write_bits p) = p.
Proof. induction p as [p IH|p IH|]; simpl; by rewrite ?IH. Qed.

Definition flat (v : json) : option (string + Z) :=
  match v with JStr s => Some (inl s) | JNum n => Some (inr n) | _ => None end.
Definition unflat (x : string + Z) : json := match x with inl s => JStr s | inr n => JNum n end.

Definition pairs : Type := list (string * (string + Z)).
Definition write_claims (claims : gmap string json) : option pairs :=
  mapM (λ '(k, v), x ← flat v; Some (k, x)) (map_to_list claims).
Definition read_claims (l : pairs) : gmap string json := list_to_map (prod_map id unflat <$> l).

Lemma read_write_claims claims l : write_claims claims = Some l → read_claims l = claims.
Proof.
  unfold write_claims, read_claims. intros Hl.
  assert (prod_map id unflat <$> l = map_to_list claims) as ->; [|apply list_to_map_to_list].
  revert l Hl. induction (map_to_list claims) as [|[k v] kvs IH]; intros l Hl; simpl in Hl; [by injection Hl as <-|].
  destruct v; simpl in Hl; try done;
    apply bind_Some in Hl as (l' & Hkvs & [= <-]); by rewrite fmap_cons, (IH l' Hkvs).
Qed.

Lemma write_claims_exact claims : map_Forall (λ _, exact) claims → is_Some (write_claims claims).
Proof.
  intros Hc. unfold write_claims. apply mapM_is_Some, Forall_forall. intros [k v] Hk%elem_of_map_to_list.
  specialize (Hc k v Hk). destruct v; try done; by eexists.
Qed.

(** A token: the public half of the key that signed it, and the claims. *)
Definition half (priv : string) : string := "public half of " +:+ priv.

Definition expires_after (t : time) (claims : gmap string json) : bool :=
  match claims !! "exp" with Some (JNum exp) => bool_decide (t < exp * Second) | _ => false end.

(** Two pairs of keys: the shop's in its files, and somebody else's. *)
Definition files : gmap string string :=
  {["keys/jwt_private.pem" := "the shop's key"; "keys/jwt_public.pem" := half "the shop's key";
    "keys/other_public.pem" := half "another key"]}.

#[export] Instance machine : Machine := {|
  godotenv_Load := id; zap_ParseLevel := λ _, None; zap_Build := λ _, None;
  pgxpool_ParseConfig := λ _, None; pgxpool_NewWithConfig := λ _, None; pgxpool_Ping := λ _, None;
  redis_ParseURL := λ _, None; redis_Ping := λ _, None;
  nats_Connect := λ _, Some "nats: no servers available for connection"; nats_JetStream := λ _, None;
  ReadFile := λ path, match files !! path with
    Some data => inr data | None => inl "no such file or directory" end;
  RSAPrivateKey := string; RSAPublicKey := string;
  ParseRSAPrivateKeyFromPEM := inr; ParseRSAPublicKeyFromPEM := inr;
  pem_Decode := Some; ParsePKIXPublicKey := λ block, inr (Some block); PublicKey := half;
  rsa_sign := λ priv claims, match write_claims claims with
    | None => inl "unsupported claim" | Some l => inr (write_bits (encode (half priv, l))) end;
  rsa_parse := λ pub t token, match decode (A := string * pairs) (read_bits token) with
    | Some (signer, l) =>
        if decide (signer ≠ pub) then inl "token signature is invalid: crypto/rsa: verification error"
        else if expires_after t (read_claims l) then inr (read_claims l)
        else inl "token has invalid claims: token is expired"
    | None => inl "token is malformed"
    end;
  net_Listen := λ addr, if decide (addr = "0.0.0.0:8080") then None
                        else Some "listen tcp: bind: permission denied"
|}.

#[export] Instance keys_work : KeysWork.
Proof.
  split; [|by intros pem block pub [= <-] [= <-]].
  intros priv t claims token exp Hsign _ _ Hexp Hlive. simpl in *.
  destruct (write_claims claims) as [l|] eqn:Hl; [|done]. injection Hsign as <-.
  rewrite read_write_bits, decode_encode, (read_write_claims _ _ Hl).
  rewrite decide_False by (by intros Hno). unfold expires_after. rewrite Hexp.
  by rewrite bool_decide_true.
Qed.
End Plain.
Import Plain.

#[local] Existing Instances sample sample_crypto sample_pki sample_digest sample_argon.
#[local] Existing Instances sample_floats sample_totp any_email plain_gin plain_gin_laws.

(** The process with nothing set but the lifetime of its tokens. *)
Definition short_sessions : environ := {["JWT_ACCESS_EXPIRY" := "1m30s"]}.
Definition short_app : App :=
  started (Load short_sessions) "the shop's key" (half "the shop's key") (half "the shop's key").

Lemma short_boot : boot short_sessions = inr short_app.
Proof.
  apply boot_inr. split; [by unfold services_up|].
  eexists _, _, _. split; [|reflexivity]. eexists _, _, _. split_and!; reflexivity.
Qed.

Lemma short_main : main short_sessions = inr short_app.
Proof. apply main_inr. split; [exact short_boot|reflexivity]. Qed.

Lemma booted_answers_witness :
  ∃ resp w', run (app_serve (λ _, "") short_app "POST" "/api/v1/auth/login" (asking [] "no JSON"))
    (world_of empty_database) = (Ret resp, w').
Proof. apply (booted_answers (λ _, "") short_sessions short_app). exact short_boot. Defined.

(** 89 seconds after it was issued the token still works. *)
Definition issue_with (app : App) : M string :=
  let tokens : JWTLib := app_tokens app in
  GenerateAccessToken (app_jwtSvc app) 7 "ann@shop.example" RoleUser 9.
Definition issue : M string := issue_with short_app.
Definition anns_token : string :=
  match (run issue (world_of empty_database)).1 with Ret token => token | _ => "" end.
Definition anns_header : string * string := ("authorization", "Bearer " +:+ anns_token).
Definition later : world := (world_of empty_database) <| w_tick := 89%nat |>.

Lemma issued : ∃ w1, run issue (world_of empty_database) = (Ret anns_token, w1).
Proof.
  destruct (run_returns issue (world_of empty_database)) as (token & w1 & Hrun);
    [vm_compute; reflexivity|].
  exists w1. unfold anns_token. by rewrite Hrun.
Qed.

Lemma session_lasts_witness :
  ∃ req' w3, run (app_middleware short_app (asking [anns_header] "")) later = (Ret (inr req'), w3) ∧
    GetString req' "role" = RoleUser.
Proof.
  destruct issued as [w1 Hissued].
  destruct (session_lasts short_sessions short_app 7 "ann@shop.example" RoleUser 9
    (world_of empty_database) anns_token w1 (asking [anns_header] "") later)
    as (req' & w3 & Hrun & Hrole & _).
  - exact short_main.
  - reflexivity.
  - intros n Hn. simpl in Hn. destruct n as [|[|n]]; [split; by vm_compute..|lia].
  - exact Hissued.
  - vm_compute. reflexivity.
  - vm_compute. reflexivity.
  - intros claims jti _ _. change (w_redis later) with (∅ : gmap string redis_entry).
    unfold redis_live. by rewrite lookup_empty.
  - exists req', w3. split; [exact Hrun|exact Hrole].
Defined.

(** Keys that do not belong together start the process as well; the token it
    issues does not get past its own middleware. *)
Definition mismatched : environ := {["JWT_PUBLIC_KEY_PATH" := "keys/other_public.pem"]}.
Definition mismatched_app : App :=
  started (Load mismatched) "the shop's key" (half "another key") (half "another key").
Definition nobodys_token : string :=
  match (run (issue_with mismatched_app) (world_of empty_database)).1 with
  | Ret token => token | _ => "" end.
Definition refused : M (Response + Request) :=
  app_middleware mismatched_app (asking [("authorization", "Bearer " +:+ nobodys_token)] "").

Theorem mismatched_keys_serve :
  main mismatched = inr mismatched_app ∧
  (run (issue_with mismatched_app) (world_of empty_database)).1 = Ret nobodys_token ∧
  match (run refused later).1 with
  | Ret (inl resp) => rs_status resp = StatusUnauthorized
  | _ => False
  end.
Proof.
  split; [|split; [by vm_compute|by vm_compute]].
  apply main_inr. split; [|reflexivity]. apply boot_inr. split; [by unfold services_up|].
  eexists _, _, _. split; [|reflexivity]. eexists _, _, _. split_and!; reflexivity.
Qed.
