(* ===== verification/Restart.v ===== *)
(** Crashes and restarts, and the end of [main] in [cmd/server/main.go].

    A process may stop between any two interactions: what its requests and
    workers were about to do is gone, what they did stays.  A [life] is a process
    from its start to wherever it stops; a service is a sequence of lives over
    one database, each with its own configuration. *)

From S2P Require Import Prelude GoInt GoTime GoFloat Pagination TimeParse GoJson Model Errors.
From S2P Require Import World Effects Logic History Repository RepoPayments RepoAccounts RepoHistory.
From S2P Require Import EventBus Provider PaymentSvc SubscriptionSvc InvoiceSvc CatalogSvc.
From S2P Require Import Background QueueSpec WebhookSvc Http Ingress Auth PaymentHandlers.
From S2P Require Import AccountHandlers ApiKeys Csv Reporting Edge Router Answering Serving.
From S2P Require Import QuietRoutes System Config Server Sample.

Open Scope Z_scope.

(** ** The end of main *)

(** [server.Shutdown] waits for the requests it has accepted, for at most thirty
    seconds; [main] then cancels the workers' context and returns. It waits for
    no worker in either case. *)
Inductive ending := Graceful | Forced.
Definition Shutdown (requests : list thread) : ending :=
  if forallb returned requests then Graceful else Forced.
Definition last_words (e : ending) : string :=
  match e with
  | Graceful => "Server exited gracefully"
  | Forced => "Server forced to shutdown"
  end.

(** ** Lives *)

Section lives.
Context `{!Externals, !Gin, !GinLaws, !Crypto, !NetURL, !PKI, !Digest, !PasswordHash}.
Context `{!TOTP, !FloatText, !Validator} (Sprint : json → string).

Inductive life (w w' : world) : Prop :=
  | Life (tokens : JWTLib) bus providers jwtSvc settings ths ths'
      (Hbus : PublishesOnly bus) (Hproviders : FactoryLaws providers) :
      Forall (running Sprint bus providers jwtSvc settings) ths →
      rtc pool_step (ths, w) (ths', w') → life w w'.

Lemma running_queue_user `{!JWTLib} bus providers jwtSvc settings `{!PublishesOnly bus, !FactoryLaws providers} th :
  running Sprint bus providers jwtSvc settings th → queue_user server_handlers th.
Proof.
  intros [method path req|n|type payload priority|A m Hm]; [|by constructor..|].
  - constructor. by apply (behaves_lawful "" _ (ServeHTTP_behaves Sprint bus providers jwtSvc settings "" _ _ _)).
  - constructor. eapply quiet_lawful. by eapply acts_internal.
Qed.

Lemma life_sane w w' : life w w' → sane (tasks_of w) → sane (tasks_of w').
Proof.
  intros [tokens bus providers jwtSvc settings ths ths' Hbus Hproviders Hths Hsteps] Hw.
  destruct (Conducts_pool (registered server_handlers) ths w ths' w' ((λ _, None) <$> ths) [] Hsteps)
    as (_ & hs & _ & Hok & _); [|by split_and!; [|apply Forall_app; split; [apply Forall_fmap, Forall_true|]
                                                  |apply apart_idle; constructor]|done].
  apply (idle_hands server_handlers server_handlers_lawful).
  eapply Forall_impl; [exact Hths|]. intros th. by apply running_queue_user.
Qed.

(** A process that was started, serving any requests beside its workers, lives
    such a life, whatever its environment was. *)
Lemma booted_life `{!Machine} environment app turns requests ths' w w' :
  boot environment = inr app →
  rtc pool_step (app_threads app turns ++
    map (λ '(method, path, req), Thread (app_serve Sprint app method path req)) requests, w) (ths', w') →
  life w w'.
Proof.
  intros Hboot Hsteps. pose proof (booted_running Sprint environment app turns requests Hboot) as Hrunning.
  assert (PublishesOnly (app_bus app) ∧ FactoryLaws (app_providers app)) as [Hbus Hproviders].
  { apply boot_inr in Hboot as (_ & priv & pub & verifier & _ & ->).
    split; [apply started_bus|apply NewFactory_laws]. }
  by eapply (Life _ _ (app_tokens app) (app_bus app) (app_providers app)).
Qed.

(** C7: over any number of crashes and restarts - whenever the process stops,
    whatever runs in each life and however it is configured - the providers are
    charged at most once for an idempotency key, and never when the key was
    there before. *)
Theorem restarts_charge_once w w' key :
  key ≠ "" → rtc life w w' →
  (charges_with key w' ≤ charges_with key w +
     match db_idempotency_keys (w_db w) !! key with None => 1 | Some _ => 0 end)%nat.
Proof.
  intros Hne Hlives. apply charge_budget_bound.
  refine (rtc_invariant life (λ w1, charge_budget key w1 ≤ charge_budget key w)%nat w w' _ _ Hlives); [|lia].
  intros w1 w2 Hle [tokens bus providers jwtSvc settings ths ths' Hbus Hproviders Hths Hsteps].
  etrans; [|exact Hle]. by eapply pool_budget.
Qed.

(** Nothing that was written is lost: the history of the books goes on. *)
Theorem restarts_keep_books w w' :
  well_formed (w_db w) → rtc life w w' →
  db_history (w_db w) (w_db w') ∧ w_calls w `prefix_of` w_calls w' ∧ well_formed (w_db w').
Proof.
  intros Hwf Hlives.
  assert (since w w') as [_ [Hdb Hc]]; [|split; [exact Hdb|split; [exact Hc|by eapply well_formed_history]]].
  refine (rtc_invariant life (since w) w w' _ _ Hlives); [|split; [apply Hwf|done]].
  intros w1 w2 Hw1 [tokens bus providers jwtSvc settings ths ths' Hbus Hproviders Hths Hsteps].
  eapply (Keeps_pool (since w)); [exact Hsteps| |exact Hw1].
  eapply Forall_impl; [exact Hths|]. intros th. by apply running_keeps.
Qed.

(** C8: a task in the hands of a worker when the process stops is never
    worked on again: whatever later lives run, it stays running, with the
    attempts it had. *)
Theorem orphans_stay w w' x :
  sane (tasks_of w) → tasks_of w !! bt_ID x = Some x → bt_Status x = TaskStatusRunning →
  rtc life w w' →
  ∃ y, tasks_of w' !! bt_ID x = Some y ∧ bt_Status y = TaskStatusRunning ∧ task_row y = task_row x.
Proof.
  intros Hw Hx Hrun Hlives.
  refine (proj2 (rtc_invariant life (λ w1, sane (tasks_of w1) ∧ ∃ y, tasks_of w1 !! bt_ID x = Some y ∧
    bt_Status y = TaskStatusRunning ∧ task_row y = task_row x) w w' _ _ Hlives)); [|by split; [|exists x]].
  intros w1 w2 [Hw1 (y & Hy & Hry & Hrow)] Hlife. split; [by eapply life_sane|].
  destruct Hlife as [tokens bus providers jwtSvc settings ths ths' Hbus Hproviders Hths Hsteps].
  destruct (Hw1 _ _ Hy) as [Hid _]. rewrite <- Hid in Hy.
  destruct (orphan_rests server_handlers server_handlers_lawful ths w1 ths' w2 y) as (z & Hz & ? & Hzy);
    [|done..|].
  - eapply Forall_impl; [exact Hths|]. intros th. by apply running_queue_user.
  - exists z. rewrite <- Hid, Hz. split_and!; [done|done|congruence].
Qed.
End lives.

(** ** Witnesses *)

#[local] Existing Instances shop sample_crypto sample_url sample_pki sample_digest sample_argon.
#[local] Existing Instances sample_jwt sample_floats sample_totp any_email shop_gin shop_gin_laws.
Abbreviation shop_life := (life (λ _ : json, "")).

(** What a pool has become after a schedule that it can follow. *)
Definition after_schedule (sched : list nat) (ths : list thread) (w : world) : list thread * world :=
  default (ths, w) (run_schedule sched (ths, w)).

Lemma shop_life_to sched ths w :
  Forall (running (λ _, "") NoopEventBus (NewFactory mock_settings) plain_jwt plain_settings) ths →
  bool_decide (is_Some (run_schedule sched (ths, w))) = true → shop_life w (after_schedule sched ths w).2.
Proof.
  intros Hths [[ths' w'] Hrun]%bool_decide_eq_true. unfold after_schedule. rewrite Hrun.
  eapply (Life _ _ _ _ NoopEventBus (NewFactory mock_settings)); [apply _..|exact Hths|].
  by apply (run_schedule_steps sched).
Qed.

(** Ann pays; the process stops when the provider has answered. She pays again
    in the next life, and is answered. *)
Definition interrupted : world := (after_schedule (replicate 13 0%nat) [Thread pay_request] shop_world).2.
Definition retried : world := (after_schedule (replicate 9 0%nat) [Thread pay_request] interrupted).2.

Lemma interrupted_lives : rtc shop_life shop_world retried.
Proof.
  apply (rtc_l _ _ interrupted); [|apply rtc_once].
  - apply (shop_life_to (replicate 13 0%nat) [Thread pay_request]); [repeat constructor|].
    vm_compute. reflexivity.
  - apply (shop_life_to (replicate 9 0%nat) [Thread pay_request]); [repeat constructor|].
    vm_compute. reflexivity.
Qed.

(** She was charged once; her payment stays pending, and her key is used up. *)
Lemma restarts_charge_once_witness :
  rtc shop_life shop_world retried ∧ charges_with "order-1" retried = 1%nat ∧
  (charges_with "order-1" retried ≤ 1)%nat ∧
  tx_Status <$> (map_to_list (db_transactions (w_db retried))).*2 = [TransactionStatusPending].
Proof.
  split; [exact interrupted_lives|]. split; [vm_compute; reflexivity|].
  split; [|vm_compute; reflexivity].
  exact (restarts_charge_once (λ _, "") shop_world retried "order-1" ltac:(discriminate) interrupted_lives).
Defined.

(** A request and a worker; the process ends when the request is answered. *)
Definition tasked_world : world :=
  world_of (sample_db <| db_background_tasks := {[6%N := enqueued sample_epoch 6 "invoice" "{}" 1]} |>).
Definition at_exit : list thread * world :=
  after_schedule (replicate 19 0 ++ [1])%nat [Thread pay_request; Thread (worker server_handlers 1)] tasked_world.

Lemma exit_life : shop_life tasked_world at_exit.2.
Proof.
  apply (shop_life_to (replicate 19 0 ++ [1])%nat [Thread pay_request; Thread (worker server_handlers 1)]);
    [repeat constructor|]. vm_compute. reflexivity.
Qed.

Lemma exit_sane : sane (tasks_of at_exit.2).
Proof. unfold sane. apply (bool_decide_unpack _). vm_compute. reflexivity. Qed.

Definition orphan : BackgroundTask := default (enqueued 0 0 "" "" 0) (tasks_of at_exit.2 !! 6%N).

(** The exit is graceful, and leaves a task that no later life takes up. *)
Lemma orphans_stay_witness :
  Shutdown (take 1 at_exit.1) = Graceful ∧
  ∀ w', rtc shop_life at_exit.2 w' →
    ∃ y, tasks_of w' !! 6%N = Some y ∧ bt_Status y = TaskStatusRunning ∧ task_row y = task_row orphan.
Proof.
  split; [vm_compute; reflexivity|]. intros w' Hlives.
  exact (orphans_stay (λ _, "") at_exit.2 w' orphan exit_sane
    ltac:(vm_compute; reflexivity) ltac:(vm_compute; reflexivity) Hlives).
Defined.
