(* ===== verification/Shared.v ===== *)
(** The packages shared by programs of the repository: [pkg/crypto],
    [pkg/errors], [pkg/utils] and [internal/validator].

    AES-GCM is a parameter. *)

From S2P Require Import Prelude GoInt GoText GoTime TimeParse Model Errors World Effects Logic Provider Auth Sample.

Open Scope Z_scope.

(** ** crypto/encrypt.go *)

(** AES-GCM: [Seal] of a key, a nonce and a plaintext, and [Open]. *)
Class AES_GCM := {
  gcm_Seal : list ascii → list ascii → list ascii → list ascii;
  gcm_Open : list ascii → list ascii → list ascii → string + list ascii
}.

(** Opening undoes sealing, and what opens was sealed: the counter mode is a
    bijection and the tag is a function of key, nonce and ciphertext. *)
Class AES_GCM_Laws `{!AES_GCM} := {
  gcm_Open_Seal key nonce p : gcm_Open key nonce (gcm_Seal key nonce p) = inr p;
  gcm_Open_inr key nonce c p : gcm_Open key nonce c = inr p → c = gcm_Seal key nonce p
}.

Definition NonceSize : nat := 12.

Section crypto.
Context `{!Externals, !AES_GCM}.

(** [hex.DecodeString] and [aes.NewCipher]. *)
Definition cipher_key (keyHex : string) : error + list ascii :=
  match DecodeString keyHex with
  | None => inl (EWrap "invalid hex key" (EDriver "encoding/hex: invalid byte or odd length hex string"))
  | Some key =>
      if decide (length key ∈ [16; 24; 32]%nat) then inr key
      else inl (EWrap "failed to create cipher"
                 (EDriver ("crypto/aes: invalid key size " +:+ pretty (length key))))
  end.

Definition Encrypt (plaintext : list ascii) (keyHex : string) : M (list ascii) :=
  match cipher_key keyHex with
  | inl err => fail err
  | inr key =>
      nonce ← wrap_err "failed to generate nonce" (rand_Read NonceSize);
      mret (nonce ++ gcm_Seal key nonce plaintext)
  end.

Definition Decrypt (ciphertext : list ascii) (keyHex : string) : error + list ascii :=
  match cipher_key keyHex with
  | inl err => inl err
  | inr key =>
      if decide (length ciphertext < NonceSize)%nat then inl (EText "ciphertext too short")
      else match gcm_Open key (take NonceSize ciphertext) (drop NonceSize ciphertext) with
           | inl msg => inl (EWrap "failed to decrypt" (EDriver msg))
           | inr plaintext => inr plaintext
           end
  end.

Definition GenerateKey : M string :=
  key ← wrap_err "failed to generate key" (rand_Read 32); mret (EncodeToString key).

(** The random source fills what it is asked to fill. *)
Definition full_reads : Prop := ∀ n len bs, ext_rand n len = inr bs → length bs = len.

Lemma cipher_key_inr keyHex key :
  cipher_key keyHex = inr key ↔ DecodeString keyHex = Some key ∧ length key ∈ [16; 24; 32]%nat.
Proof. unfold cipher_key. destruct (DecodeString keyHex); [case_decide|]; naive_solver. Qed.

Lemma run_rand_Read n w bs w' :
  run (rand_Read n) w = (Ret bs, w') → ext_rand (w_tick w) n = inr bs.
Proof.
  unfold rand_Read, ask. rewrite run_bind, run_act. cbv beta iota.
  destruct (ext_rand _ _); [done|]. rewrite run_ret. by intros [= -> _].
Qed.

Lemma Decrypt_sealed `{!AES_GCM_Laws} key nonce keyHex p :
  DecodeString keyHex = Some key → length key ∈ [16; 24; 32]%nat → length nonce = NonceSize →
  Decrypt (nonce ++ gcm_Seal key nonce p) keyHex = inr p.
Proof.
  intros Hkey Hsize Hlen. unfold Decrypt.
  rewrite (proj2 (cipher_key_inr _ _) (conj Hkey Hsize)).
  rewrite decide_False by (rewrite length_app; lia).
  rewrite <-Hlen, take_app_length, drop_app_length. by rewrite gcm_Open_Seal.
Qed.

(** C40: a ciphertext decrypts to [p] exactly when it is a nonce followed by
    what AES-GCM seals of [p] under that nonce and the key: nothing else is
    accepted, and nothing [Encrypt] makes is refused. *)
Theorem Decrypt_exact `{!AES_GCM_Laws} c keyHex p :
  Decrypt c keyHex = inr p ↔
  ∃ key nonce, DecodeString keyHex = Some key ∧ length key ∈ [16; 24; 32]%nat ∧
    length nonce = NonceSize ∧ c = nonce ++ gcm_Seal key nonce p.
Proof.
  split.
  - unfold Decrypt. destruct (cipher_key keyHex) as [|key] eqn:Hkey; [done|].
    apply cipher_key_inr in Hkey as [Hkey Hsize]. case_decide; [done|].
    destruct (gcm_Open _ _ _) as [|p'] eqn:Hopen; [done|]. intros [= ->].
    apply gcm_Open_inr in Hopen. exists key, (take NonceSize c).
    split_and!; [done..|rewrite length_take; lia|]. by rewrite <-Hopen, take_drop.
  - intros (key & nonce & Hkey & Hsize & Hlen & ->). by apply Decrypt_sealed.
Qed.

(** Whatever is encrypted under a generated key is decrypted with it. *)
Theorem GenerateKey_roundtrip `{!AES_GCM_Laws} w keyHex w1 plaintext c w2 w3 :
  full_reads →
  run GenerateKey w = (Ret keyHex, w1) → run (Encrypt plaintext keyHex) w2 = (Ret c, w3) →
  Decrypt c keyHex = inr plaintext.
Proof.
  intros Hfull Hgen Henc. unfold GenerateKey in Hgen. run_inv Hgen.
  apply run_rand_Read, Hfull in Hrun.
  assert (length a ∈ [16; 24; 32]%nat) as Hsize by (rewrite Hrun; compute_done).
  unfold Encrypt in Henc.
  rewrite (proj2 (cipher_key_inr _ _) (conj (DecodeString_EncodeToString a) Hsize)) in Henc.
  run_inv Henc. apply run_rand_Read, Hfull in Hrun0.
  by apply Decrypt_sealed; [apply DecodeString_EncodeToString|..].
Qed.
End crypto.

(** ** errors/errors.go *)

Module pkg_errors.
(** Errors as this package sees them: its own, and those of [fmt.Errorf] with
    and without [%w]. *)
Inductive goerror :=
  | App (Code Message Details : string) (HTTPStatus : Z) (Err : option goerror)
  | Wrapped (prefix : string) (e : goerror)
  | Other (msg : string).

Fixpoint Error (e : goerror) : string :=
  match e with
  | App _ message _ _ _ => message
  | Wrapped prefix e => prefix +:+ ": " +:+ Error e
  | Other msg => msg
  end.

Definition Unwrap (e : goerror) : option goerror :=
  match e with App _ _ _ _ cause => cause | Wrapped _ e => Some e | Other _ => None end.

Definition New (code message : string) (httpStatus : Z) : goerror :=
  App code message "" httpStatus None.
Definition Wrap (err : goerror) (code message : string) : goerror :=
  App code message (Error err) StatusInternalServerError (Some err).
(** [message]: the format applied to its arguments. *)
Definition Wrapf (err : goerror) (code : string) (httpStatus : Z) (message : string) : goerror :=
  App code message (Error err) httpStatus (Some err).

(** [errors.As(err, &appErr)]: the first of the package's errors. *)
Fixpoint As (e : goerror) : option (string * Z) :=
  match e with
  | App code _ _ status _ => Some (code, status)
  | Wrapped _ e => As e
  | Other _ => None
  end.

Definition StatusCode (e : goerror) : Z :=
  match As e with Some (_, status) => status | None => StatusInternalServerError end.
Definition ErrorCode (e : goerror) : string :=
  match As e with Some (code, _) => code | None => "INTERNAL_ERROR" end.

(** The errors of the package, by their variables. *)
Definition variables : list (string * goerror) := [
  ("ErrBadRequest", New "BAD_REQUEST" "invalid request" 400);
  ("ErrUnauthorized", New "UNAUTHORIZED" "unauthorized" 401);
  ("ErrForbidden", New "FORBIDDEN" "forbidden" 403);
  ("ErrNotFound", New "NOT_FOUND" "resource not found" 404);
  ("ErrConflict", New "CONFLICT" "resource conflict" 409);
  ("ErrUnprocessableEntity", New "UNPROCESSABLE_ENTITY" "unprocessable entity" 422);
  ("ErrTooManyRequests", New "TOO_MANY_REQUESTS" "rate limit exceeded" 429);
  ("ErrInternalServerError", New "INTERNAL_ERROR" "internal server error" 500);
  ("ErrServiceUnavailable", New "SERVICE_UNAVAILABLE" "service unavailable" 503);
  ("ErrGatewayTimeout", New "GATEWAY_TIMEOUT" "gateway timeout" 504);
  ("ErrValidationFailed", New "VALIDATION_FAILED" "validation failed" 422);
  ("ErrInvalidCurrency", New "INVALID_CURRENCY" "invalid currency code" 400);
  ("ErrInvalidAmount", New "INVALID_AMOUNT" "invalid amount" 400);
  ("ErrInvalidEmail", New "INVALID_EMAIL" "invalid email address" 400);
  ("ErrJWTExpired", New "JWT_EXPIRED" "token has expired" 401);
  ("ErrJWTInvalid", New "JWT_INVALID" "invalid token" 401);
  ("ErrAPIKeyInvalid", New "API_KEY_INVALID" "invalid API key" 401);
  ("ErrIdempotencyConflict", New "IDEMPOTENCY_CONFLICT" "idempotency key conflict" 409);
  ("ErrPaymentDeclined", New "PAYMENT_DECLINED" "payment declined" 402);
  ("ErrInsufficientFunds", New "INSUFFICIENT_FUNDS" "insufficient funds" 402)].

(** A code tells which of them it was, and only one has the code of an error
    that is none of the package's. *)
Lemma variables_told_apart :
  NoDup (map (λ xe, ErrorCode xe.2) variables) ∧
  (∀ x e, (x, e) ∈ variables → 400 ≤ StatusCode e < 600) ∧
  ∀ x e, (x, e) ∈ variables → ErrorCode e = ErrorCode (Other "") → x = "ErrInternalServerError".
Proof.
  split; [apply (bool_decide_unpack _); by vm_compute|].
  split; intros x e Hin; repeat (apply elem_of_cons in Hin as [[= -> ->]|Hin]; [by vm_compute|]);
    by apply elem_of_nil in Hin.
Qed.

(** Wrapping with the package hides the status of the cause; wrapping with
    [fmt.Errorf] keeps it. *)
Lemma StatusCode_Wrap e code message :
  StatusCode (Wrap e code message) = StatusInternalServerError ∧ ErrorCode (Wrap e code message) = code.
Proof. done. Qed.
Lemma StatusCode_Wrapped prefix e :
  StatusCode (Wrapped prefix e) = StatusCode e ∧ ErrorCode (Wrapped prefix e) = ErrorCode e.
Proof. done. Qed.
End pkg_errors.

(** ** internal/validator and utils/currency.go *)

(** [^[A-Z]{3}$] *)
Definition upper (c : ascii) : bool := bool_decide (65 ≤ N_of_ascii c ≤ 90)%N.
Definition IsValidCurrency (code : string) : bool :=
  match code with
  | String a (String b (String c "")) => upper a && upper b && upper c
  | _ => false
  end.
Definition majorCurrencies : list string :=
  ["USD"; "EUR"; "GBP"; "JPY"; "CHF"; "CAD"; "AUD"; "CNY"; "INR"; "BRL"].
Definition IsMajorCurrency (code : string) : bool := bool_decide (code ∈ majorCurrencies).

Definition IsValidAmount (amount : Z) : bool := bool_decide (0 < amount).
Definition SanitizeString (s : string) : string := TrimSpace s.
Definition IsEmpty (s : string) : bool := bool_decide (TrimSpace s = "").
Definition MinLength (s : string) (min : Z) : bool := bool_decide (min ≤ RuneCount s).
Definition MaxLength (s : string) (max : Z) : bool := bool_decide (RuneCount s ≤ max).
Definition InRange (val min max : Z) : bool := bool_decide (min ≤ val) && bool_decide (val ≤ max).

(** [regexp]: the regular expression, as the function [MatchString]. *)
Definition ContainsOnly (s : string) (charset : string → bool) : bool := charset s.

(** Every major currency is written as a currency. *)
Lemma major_valid code : IsMajorCurrency code = true → IsValidCurrency code = true.
Proof.
  unfold IsMajorCurrency. intros Hin%bool_decide_eq_true.
  repeat (apply elem_of_cons in Hin as [->|Hin]; [reflexivity|]). by apply elem_of_nil in Hin.
Qed.

(** ** utils/uuid.go *)

Section uuids.
Context `{!Externals}.
Definition NewUUID : M uuid := uuid_New.
Definition NewUUIDString : M string := id ← uuid_New; mret (uuid_String id).
Definition Parse (s : string) : string + uuid := uuid_Parse s.
Definition MustParse (s : string) : M uuid :=
  match uuid_Parse s with
  | inr id => mret id
  | inl msg => panic ("uuid: Parse(" +:+ s +:+ "): " +:+ msg)
  end.

(** What the package writes it reads, where the uuid library does. *)
Lemma MustParse_NewUUIDString w s w' :
  (∀ id, uuid_Parse (uuid_String id) = inr id) →
  run NewUUIDString w = (Ret s, w') → ∃ id, Parse s = inr id ∧ run (MustParse s) w' = (Ret id, w').
Proof.
  intros Hreads. unfold NewUUIDString, uuid_New, ask. rewrite run_bind, run_act. cbv beta iota.
  rewrite run_ret. intros [= <- <-]. eexists. unfold Parse, MustParse. rewrite Hreads. by split.
Qed.
End uuids.

(** ** utils/time.go *)

Section clock.
Context `{!Externals}.
Definition ParseTime (s : string) : option time := time_Parse_RFC3339 s.
Definition NowUTC : M time := now.
(** [time.Duration(m) * time.Minute] wraps. *)
Definition from_now (n : Z) (unit : Duration) : M time := t ← now; mret (Add t (mul64 n unit)).
Definition MinutesFromNow (m : Z) : M time := from_now m Minute.
Definition HoursFromNow (h : Z) : M time := from_now h Hour.
Definition DaysFromNow (d : Z) : M time := t ← now; mret (Add t (mul64 (mul64 d 24) Hour)).
Definition IsExpired (x : time) : M bool := t ← now; mret (bool_decide (x < t)).
End clock.

(** ** Witnesses *)

(** Sealing puts key and nonce in front, as a tag. *)
#[local] Instance clear_gcm : AES_GCM := {|
  gcm_Seal := λ key nonce p, (key ++ nonce) ++ p;
  gcm_Open := λ key nonce c,
    if decide (take (length (key ++ nonce)) c = key ++ nonce)
    then inr (drop (length (key ++ nonce)) c) else inl "cipher: message authentication failed"
|}.
#[local] Instance clear_gcm_laws : AES_GCM_Laws.
Proof.
  split; intros key nonce; unfold gcm_Open, gcm_Seal, clear_gcm.
  - intros p. by rewrite take_app_length, drop_app_length, decide_True.
  - intros c p. case_decide as Htag; [|done]. intros [= <-]. rewrite <-Htag at 1. by rewrite take_drop.
Qed.

#[local] Existing Instance sample.

Definition card : list ascii := ["4"; "2"]%char.

Lemma GenerateKey_roundtrip_witness :
  ∃ keyHex w1 c w2, run GenerateKey (world_of empty_database) = (Ret keyHex, w1) ∧
    run (Encrypt card keyHex) w1 = (Ret c, w2) ∧ Decrypt c keyHex = inr card.
Proof.
  destruct (run_returns GenerateKey (world_of empty_database)) as (keyHex & w1 & Hgen);
    [vm_compute; reflexivity|].
  destruct (run_returns (Encrypt card keyHex) w1) as (c & w2 & Henc).
  { pose proof Hgen as Hkey. vm_compute in Hkey. injection Hkey as <- <-. vm_compute. reflexivity. }
  exists keyHex, w1, c, w2. split; [exact Hgen|]. split; [exact Henc|].
  apply (GenerateKey_roundtrip (world_of empty_database) keyHex w1 card c w1 w2); [|exact Hgen|exact Henc].
  intros n len bs Hbs. simpl in Hbs. injection Hbs as <-. apply repeat_length.
Defined.

Definition zero_key : string := Nat.iter 32 (String "0"%char) "".
Definition sealed_card : list ascii := replicate 12 "n"%char ++ gcm_Seal (replicate 16 zero) (replicate 12 "n"%char) card.

Lemma Decrypt_exact_witness :
  ∃ key nonce, DecodeString zero_key = Some key ∧ length key ∈ [16; 24; 32]%nat ∧
    length nonce = NonceSize ∧ sealed_card = nonce ++ gcm_Seal key nonce card.
Proof. apply (Decrypt_exact sealed_card zero_key card). vm_compute. reflexivity. Defined.
