(* ===== verification/Migrate.v ===== *)
(** The migration command: [cmd/migrate/main.go].

    golang-migrate is a parameter: a database is at a version, and its
    operations move it along the migrations of the [migrations] directory. *)

From S2P Require Import Prelude GoInt GoText Pagination Config World.

Open Scope Z_scope.

(** What [migrate.New] and its operations answer: an error that is
    [migrate.ErrNoChange], or another. [V] is the state of the database. *)
Inductive migrate_error := ErrNoChange | MigrateError (msg : string).

Class Migrate (V : Type) := {
  migrate_New : string → option string;
  Up : V → V * option migrate_error;
  Down : V → V * option migrate_error;
  Drop_all : V → V * option migrate_error;
  Version : V → string + (Z * bool);
  Steps : Z → V → V * option migrate_error
}.

(** How the process ends: [log.Fatal], or what it has printed. *)
Inductive ending := Fatal (msg : string) | Done_with (output : list string).

Section migrate.
Context {V : Type} `{!Migrate V} (dotenv : environ → environ).

(** An operation that changes nothing is no error. *)
Definition lenient (what : string) (r : V * option migrate_error) : ending * V :=
  match r with
  | (v, Some (MigrateError msg)) => (Fatal ("migrate " +:+ what +:+ ": " +:+ msg), v)
  | (v, _) => (Done_with [], v)
  end.

(** [strconv.ParseUint(s, 10, 64)]; [None] is its error. *)
Definition ParseUint (s : string) : option Z :=
  if decide (s = "") then None
  else match scan_digits 0 s with Digits u => Some u | _ => None end.

Definition bool_text (b : bool) : string := if b then "true" else "false".

(** The text of the error is cut short. *)
Definition goto (n : string) (v : V) : ending * V :=
  match ParseUint (TrimSpace n) with
  | None => (Fatal "invalid version", v)
  | Some n => lenient "goto" (Steps (sub64 (wrap64 n) 1) v)
  end.

Definition main (environment : environ) (args : list string) (v : V) : ending * V :=
  let dbURL := getEnv (dotenv environment) "DATABASE_URL" "" in
  if decide (dbURL = "") then (Fatal "DATABASE_URL is required", v)
  else match migrate_New dbURL with
  | Some msg => (Fatal ("Failed to create migrator: " +:+ msg), v)
  | None =>
      match args with
      | [] => (Fatal "Usage: migrate <up|down|drop|version|goto N>", v)
      | cmd :: rest =>
          if decide (cmd = "up") then lenient "up" (Up v)
          else if decide (cmd = "down") then lenient "down" (Down v)
          else if decide (cmd = "drop") then
            match Drop_all v with
            | (v, None) => (Done_with [], v)
            | (v, Some ErrNoChange) => (Fatal "migrate drop: no change", v)
            | (v, Some (MigrateError msg)) => (Fatal ("migrate drop: " +:+ msg), v)
            end
          else if decide (cmd = "version") then
            match Version v with
            | inl msg => (Fatal ("migrate version: " +:+ msg), v)
            | inr (n, dirty) =>
                (Done_with ["Version: " +:+ pretty n +:+ ", Dirty: " +:+ bool_text dirty], v)
            end
          else if decide (cmd = "goto") then
            match rest with
            | [] => (Fatal "goto requires a version number", v)
            | n :: _ => goto n v
            end
          else (Fatal ("unknown command: " +:+ cmd +:+ " (use up, down, drop, version, goto)"), v)
      end
  end.
End migrate.

(** The migrations of the repository: [000] to [019]. *)
Definition latest : Z := 19.

(** [Steps(n)] of golang-migrate on a database at version [v]: [n] migrations
    up, or down when [n] is negative. *)
Class StepsLaw `{!Migrate Z} := {
  Steps_moves n v : n ≠ 0 → 0 ≤ v + n ≤ latest → Steps n v = (v + n, None);
  Steps_none v : Steps 0 v = (v, Some ErrNoChange)
}.

Section goto.
Context `{!Migrate Z, !StepsLaw} (dotenv : environ → environ).

(** The command [goto n] does not go to version [n]. It moves [n - 1] migrations on from
    where the database is, and reports success: only a database at version 1
    ends up at [n]. *)
Theorem goto_moves_relative environment arg n v :
  getEnv (dotenv environment) "DATABASE_URL" "" ≠ "" →
  migrate_New (getEnv (dotenv environment) "DATABASE_URL" "") = None →
  ParseUint (TrimSpace arg) = Some n → 0 ≤ v ≤ latest → 0 ≤ v + n - 1 ≤ latest →
  main dotenv environment ["goto"; arg] v = (Done_with [], v + n - 1) ∧
  (v + n - 1 = n ↔ v = 1).
Proof.
  intros Hurl Hnew Hn Hv Hto. split; [|lia].
  unfold main. rewrite decide_False by done. rewrite Hnew. simpl.
  unfold goto. rewrite Hn. unfold latest in *. unfold sub64.
  rewrite (wrap64_id n), (wrap64_id (n - 1)) by (unfold in_int64, int64_min, int64_max; lia).
  destruct (decide (n = 1)) as [->|Hne].
  - rewrite Steps_none. simpl. f_equal. lia.
  - rewrite Steps_moves by (unfold latest; lia). simpl. f_equal. lia.
Qed.
End goto.

(** ** Witness *)

#[local] Instance twenty_migrations : Migrate Z := {|
  migrate_New := λ _, None;
  Up := λ v, (latest, if decide (v = latest) then Some ErrNoChange else None);
  Down := λ v, (-1, if decide (v = -1) then Some ErrNoChange else None);
  Drop_all := λ _, (-1, None);
  Version := λ v, if decide (v < 0) then inl "no migration" else inr (v, false);
  Steps := λ n v,
    if decide (n = 0) then (v, Some ErrNoChange)
    else if decide (-1 ≤ v + n ≤ latest) then (v + n, None)
    else (v, Some (MigrateError "limit exceeded"))
|}.

#[local] Instance twenty_steps : StepsLaw.
Proof.
  split; [|done]. intros n v Hn Hv. unfold Steps, twenty_migrations.
  rewrite decide_False by done. by rewrite decide_True by lia.
Qed.

(** At the latest version, [goto 5] fails; at version 10 it goes to 14. *)
Lemma goto_moves_relative_witness :
  main id {["DATABASE_URL" := "postgres://localhost/helix"]} ["goto"; "5"] 10 = (Done_with [], 14).
Proof.
  destruct (goto_moves_relative id {["DATABASE_URL" := "postgres://localhost/helix"]} "5" 5 10)
    as [Hmain _]; [done|done|reflexivity|done|done|]. exact Hmain.
Defined.
