(* ===== verification/Hub.v ===== *)
(** The WebSocket hub: [internal/websocket/hub.go] and [handler.go].

    The state is the two maps of the hub and the [Send] channel of every
    client.  [Run] takes one registration, removal or broadcast at a time, and
    [BroadcastToRoom] is called from outside it; each is one step here.  Go
    ranges over a map in an order of its own: [order] below. *)

From S2P Require Import Prelude.

Open Scope nat_scope.

(** A [*Client], by its address; [RoomID] never changes. *)
Definition client : Type := N.

(** A [chan []byte] of capacity 256. *)
Record channel := MkChannel { ch_queue : list string; ch_closed : bool }.
#[export] Instance eta_channel : Eta channel := λ r, MkChannel (ch_queue r) (ch_closed r).

Definition capacity : nat := 256.

Record hub := MkHub {
  clients : gset client;
  rooms : gmap string (gset client);
  chans : gmap client channel
}.
#[export] Instance eta_hub : Eta hub := λ r, MkHub (clients r) (rooms r) (chans r).

Definition NewHub : hub := MkHub ∅ ∅ ∅.

Section hub.
Context (RoomID : client → string).

Definition room (h : hub) (id : string) : gset client := default ∅ (rooms h !! id).

(** [make(chan []byte, 256)], as [HandleWebSocket] makes it for a new client. *)
Definition connect (c : client) (h : hub) : hub :=
  h <| chans := <[c := MkChannel [] false]> (chans h) |>.

Definition register (c : client) (h : hub) : hub :=
  h <| clients := {[c]} ∪ clients h |>
    <| rooms := <[RoomID c := {[c]} ∪ room h (RoomID c)]> (rooms h) |>.

(** [close] of a channel that is closed panics: [None]. *)
Definition close (c : client) (h : hub) : option hub :=
  ch ← chans h !! c;
  if ch_closed ch then None
  else Some (h <| chans := <[c := ch <| ch_closed := true |>]> (chans h) |>).

Definition leave (c : client) (h : hub) : hub :=
  let h := h <| clients := clients h ∖ {[c]} |> in
  match rooms h !! RoomID c with
  | None => h
  | Some r =>
      let r := r ∖ {[c]} in
      if decide (r = ∅) then h <| rooms := delete (RoomID c) (rooms h) |>
      else h <| rooms := <[RoomID c := r]> (rooms h) |>
  end.

Definition unregister (c : client) (h : hub) : option hub :=
  if decide (c ∈ clients h) then close c (leave c h) else Some h.

(** [select { case client.Send <- data: default: close(client.Send);
    delete(h.clients, client) }]: a send on a closed channel panics. *)
Definition send_or_drop (data : string) (c : client) (h : hub) : option hub :=
  ch ← chans h !! c;
  if ch_closed ch then None
  else if decide (length (ch_queue ch) < capacity)
  then Some (h <| chans := <[c := ch <| ch_queue := ch_queue ch ++ [data] |>]> (chans h) |>)
  else h ← close c h; Some (h <| clients := clients h ∖ {[c]} |>).

Fixpoint send_each (data : string) (order : list client) (h : hub) : option hub :=
  match order with
  | [] => Some h
  | c :: order => h ← send_or_drop data c h; send_each data order h
  end.

(** [writePump] takes the next message off the channel. *)
Definition receive (c : client) (h : hub) : option (string * hub) :=
  ch ← chans h !! c;
  match ch_queue ch with
  | [] => None
  | data :: queue =>
      Some (data, h <| chans := <[c := ch <| ch_queue := queue |>]> (chans h) |>)
  end.

(** ** Runs of the hub *)

Inductive hub_event :=
  | EConnect (c : client)              (** [HandleWebSocket]: upgrade and register *)
  | EDisconnect (c : client)           (** [readPump] ends: unregister *)
  | EReceive (c : client) (data : string)
  | EBroadcast (data : string)         (** the [broadcast] case of [Run] *)
  | EBroadcastToRoom (id data : string).

(** What an event makes of the hub; [None]: the process panics. *)
Inductive hub_step (h : hub) : hub_event → option hub → Prop :=
  | step_connect c :
      chans h !! c = None → hub_step h (EConnect c) (Some (register c (connect c h)))
  | step_disconnect c :
      is_Some (chans h !! c) → hub_step h (EDisconnect c) (unregister c h)
  | step_receive c data h' :
      receive c h = Some (data, h') → hub_step h (EReceive c data) (Some h')
  | step_broadcast data order :
      order ≡ₚ elements (clients h) → hub_step h (EBroadcast data) (send_each data order h)
  | step_room id data order :
      order ≡ₚ elements (room h id) →
      hub_step h (EBroadcastToRoom id data) (send_each data order h).

Inductive hub_run : hub → list hub_event → option hub → Prop :=
  | run_nil h : hub_run h [] (Some h)
  | run_panic h e es : hub_step h e None → hub_run h (e :: es) None
  | run_cons h h' e es r : hub_step h e (Some h') → hub_run h' es r → hub_run h (e :: es) r.

(** ** The invariant *)

(** Registered clients have an open channel and are in their room; whoever is
    in a room has a channel; a client that is not registered is closed. *)
Record hub_ok (h : hub) : Prop := MkHubOk {
  ok_open c : c ∈ clients h ↔ ∃ ch, chans h !! c = Some ch ∧ ch_closed ch = false;
  ok_room c : c ∈ clients h → c ∈ room h (RoomID c);
  ok_member c id : c ∈ room h id → RoomID c = id ∧ is_Some (chans h !! c)
}.

Lemma NewHub_ok : hub_ok NewHub.
Proof.
  split; unfold room; simpl; [|set_solver|set_solver].
  intros c. rewrite lookup_empty. split; [set_solver|by intros (? & ? & _)].
Qed.

(** ** Sending *)

Definition full (ch : channel) : bool := bool_decide (capacity ≤ length (ch_queue ch)).

(** What a send makes of an open channel. *)
Definition sent (data : string) (ch : channel) : channel :=
  if full ch then ch <| ch_closed := true |> else ch <| ch_queue := ch_queue ch ++ [data] |>.

Definition open (h : hub) (c : client) : Prop :=
  ∃ ch, chans h !! c = Some ch ∧ ch_closed ch = false.

Definition dropped (h : hub) (c : client) : Prop :=
  ∃ ch, chans h !! c = Some ch ∧ full ch = true.

Lemma send_or_drop_open data c h ch :
  chans h !! c = Some ch → ch_closed ch = false →
  send_or_drop data c h = Some
    (h <| chans := <[c := sent data ch]> (chans h) |>
       <| clients := if full ch then clients h ∖ {[c]} else clients h |>).
Proof.
  intros Hc Ho. unfold send_or_drop, sent, full, close. rewrite Hc; simpl. rewrite Ho.
  destruct (decide _) as [Hlt|Hge].
  - rewrite bool_decide_false by lia. by destruct h.
  - rewrite bool_decide_true by lia. done.
Qed.

(** Sending to distinct clients with open channels, in any order. *)
Lemma send_each_open data order h :
  NoDup order → Forall (open h) order →
  ∃ h', send_each data order h = Some h' ∧ rooms h' = rooms h ∧
    (∀ c, c ∉ order → chans h' !! c = chans h !! c) ∧
    (∀ c ch, c ∈ order → chans h !! c = Some ch → chans h' !! c = Some (sent data ch)) ∧
    (∀ c, c ∈ clients h' ↔ c ∈ clients h ∧ ¬ (c ∈ order ∧ dropped h c)).
Proof.
  revert h. induction order as [|c order IH]; intros h Hnd Hopen.
  { exists h. split_and!; [done|done|done|by intros ? ? ?%elem_of_nil|]. set_solver. }
  apply NoDup_cons in Hnd as [Hc Hnd]. apply Forall_cons in Hopen as [(ch & Hch & Ho) Hopen].
  simpl. rewrite (send_or_drop_open _ _ _ _ Hch Ho). simpl.
  match goal with |- context [send_each data order ?x] => set (h1 := x) end.
  assert (∀ d, d ≠ c → chans h1 !! d = chans h !! d) as Hother
    by (intros d Hd; simpl; by rewrite lookup_insert_ne).
  destruct (IH h1 Hnd) as (h' & -> & Hrooms & Hout & Hin & Hcl).
  { rewrite Forall_forall in *. intros d Hd. unfold open. rewrite Hother; [by apply Hopen|].
    by intros ->. }
  exists h'. split_and!; [done|done|..].
  - intros d [Hd Hd']%not_elem_of_cons. by rewrite Hout, Hother.
  - intros d chd Hd Hchd. destruct (decide (d = c)) as [->|Hne].
    + rewrite Hout by done. simpl. rewrite lookup_insert_eq. congruence.
    + apply Hin; [set_solver|]. by rewrite Hother.
  - intros d. rewrite Hcl. destruct (decide (d = c)) as [->|Hne].
    + simpl. unfold dropped. destruct (full ch) eqn:Hf.
      * split; [set_solver|]. intros [_ Hno]. destruct Hno. split; [set_solver|eauto].
      * split; [|set_solver]. intros [? _]. split; [done|]. intros (_ & ch' & ? & ?). congruence.
    + unfold dropped. rewrite Hother by done. simpl. destruct (full ch); set_solver.
Qed.

(** A client whose channel is closed ends the process. *)
Lemma send_each_closed data order h c ch :
  NoDup order → c ∈ order → chans h !! c = Some ch → ch_closed ch = true →
  (∀ d, d ∈ order → is_Some (chans h !! d)) → send_each data order h = None.
Proof.
  revert h. induction order as [|d order IH]; intros h Hnd Hin Hc Hcl Hall; [by apply elem_of_nil in Hin|].
  apply NoDup_cons in Hnd as [Hd Hnd]. simpl.
  destruct (Hall d) as [chd Hchd]; [set_solver|]. destruct (ch_closed chd) eqn:Hcd.
  { unfold send_or_drop. rewrite Hchd. simpl. by rewrite Hcd. }
  assert (d ≠ c) as Hne by congruence.
  rewrite (send_or_drop_open _ _ _ _ Hchd Hcd). simpl. apply IH; [done|set_solver|..]; simpl.
  - by rewrite lookup_insert_ne.
  - done.
  - intros e He. destruct (decide (d = e)) as [->|]; [by rewrite lookup_insert_eq|].
    rewrite lookup_insert_ne by done. apply Hall. set_solver.
Qed.

(** ** The steps keep the invariant *)

Lemma send_each_ok data order h h' :
  hub_ok h → NoDup order → Forall (λ c, c ∈ clients h) order →
  send_each data order h = Some h' → hub_ok h'.
Proof.
  intros [Hopen Hroom Hmem] Hnd Hall Hsend.
  destruct (send_each_open data order h Hnd) as (h1 & Heq & Hrooms & Hout & Hin & Hcl).
  { eapply Forall_impl; [done|]. intros c Hc. by apply Hopen. }
  rewrite Hsend in Heq. injection Heq as <-.
  assert (∀ id, room h' id = room h id) as Hsame by (intros; unfold room; by rewrite Hrooms).
  rewrite Forall_forall in Hall. split.
  - intros c. rewrite Hcl, Hopen. destruct (decide (c ∈ order)) as [Hc|Hc].
    + destruct (proj1 (Hopen c) (Hall c Hc)) as (ch & Hch & Ho).
      rewrite (Hin c ch Hc Hch). unfold dropped, sent. rewrite Hch. split.
      * intros [_ Hno]. eexists. split; [done|]. destruct (full ch) eqn:Hf; [|done].
        destruct Hno. eauto.
      * intros (ch' & [= <-] & Ho'). split; [eauto|]. intros (_ & ch' & [= <-] & Hf).
        by rewrite Hf in Ho'.
    + rewrite (Hout c Hc). tauto.
  - intros c [Hc _]%Hcl. rewrite Hsame. auto.
  - intros c id. rewrite Hsame. intros [Hid [ch Hch]]%Hmem. split; [done|].
    destruct (decide (c ∈ order)) as [Hc|Hc]; [rewrite (Hin c ch Hc Hch)|rewrite Hout]; eauto.
Qed.

Lemma register_ok c h : chans h !! c = None → hub_ok h → hub_ok (register c (connect c h)).
Proof.
  intros Hnone [Hopen Hroom Hmem].
  assert (∀ d id, d ∈ room (register c (connect c h)) id ↔
    d ∈ room h id ∨ (d = c ∧ id = RoomID c)) as Hin.
  { intros d id. unfold register, connect, room; simpl.
    destruct (decide (RoomID c = id)) as [<-|Hne];
      [rewrite lookup_insert_eq|rewrite lookup_insert_ne by done]; simpl; set_solver. }
  assert (∀ d, d ≠ c → chans (register c (connect c h)) !! d = chans h !! d) as Hch
    by (intros d Hd; simpl; by rewrite lookup_insert_ne).
  split.
  - intros d. simpl. destruct (decide (d = c)) as [->|Hne].
    + rewrite lookup_insert_eq. split; [eauto|set_solver].
    + rewrite lookup_insert_ne, <- (Hopen d) by done. set_solver.
  - intros d Hd. apply Hin. simpl in Hd. destruct (decide (d = c)) as [->|]; [by right|left].
    apply Hroom. set_solver.
  - intros d id [Hd|[-> ->]]%Hin; [|by simpl; rewrite lookup_insert_eq].
    apply Hmem in Hd as [Hid [ch Hd]]. split; [done|]. rewrite Hch; [by eexists|congruence].
Qed.

Lemma room_leave c h id : room (leave c h) id =
  if decide (id = RoomID c) then room h id ∖ {[c]} else room h id.
Proof.
  unfold leave, room. simpl. destruct (rooms h !! RoomID c) as [r|] eqn:Hr;
    destruct (decide (id = RoomID c)) as [->|Hne].
  - rewrite Hr. destruct (decide (r ∖ {[c]} = ∅)) as [He|He]; simpl;
      [by rewrite lookup_delete_eq, He|by rewrite lookup_insert_eq].
  - destruct (decide (r ∖ {[c]} = ∅)); simpl;
      [by rewrite lookup_delete_ne|by rewrite lookup_insert_ne].
  - simpl. rewrite !Hr. simpl. apply set_eq. set_solver.
  - done.
Qed.

Lemma leave_chans c h : chans (leave c h) = chans h ∧ clients (leave c h) = clients h ∖ {[c]}.
Proof. unfold leave. repeat case_match; done. Qed.

Lemma unregister_ok c h : hub_ok h → ∃ h', unregister c h = Some h' ∧ hub_ok h'.
Proof.
  intros [Hopen Hroom Hmem]. unfold unregister.
  case_decide as Hc; [|by exists h]. destruct (leave_chans c h) as [Hch Hcl].
  destruct (proj1 (Hopen c) Hc) as (ch & Hchc & Ho). unfold close. rewrite Hch, Hchc; simpl.
  rewrite Ho. eexists. split; [done|].
  match goal with |- hub_ok ?h => set (h' := h) end.
  assert (∀ id, room h' id = room (leave c h) id) as Hsame by done.
  split.
  - intros d. simpl. rewrite Hcl. destruct (decide (d = c)) as [->|Hne].
    + rewrite lookup_insert_eq. split; [set_solver|]. by intros (? & [= <-] & ?).
    + rewrite lookup_insert_ne, <- (Hopen d) by done. set_solver.
  - intros d Hd. simpl in Hd. rewrite Hcl in Hd. rewrite Hsame, room_leave.
    case_decide; [|apply Hroom; set_solver]. assert (d ∈ room h (RoomID d)) by (apply Hroom; set_solver).
    set_solver.
  - intros d id. rewrite Hsame, room_leave. intros Hd.
    assert (d ∈ room h id) as [Hid [chd Hchd]]%Hmem by (case_decide; set_solver).
    split; [done|]. simpl. destruct (decide (c = d)) as [->|]; [by rewrite lookup_insert_eq|].
    rewrite lookup_insert_ne by done. eauto.
Qed.

Lemma receive_ok c h data h' : hub_ok h → receive c h = Some (data, h') → hub_ok h'.
Proof.
  intros [Hopen Hroom Hmem]. unfold receive. destruct (chans h !! c) as [ch|] eqn:Hch; [|done].
  simpl. destruct (ch_queue ch) as [|m q]; [done|]. intros [= _ <-].
  split; [|done|].
  - intros d. rewrite (Hopen d). simpl. destruct (decide (d = c)) as [->|Hne].
    + rewrite lookup_insert_eq, Hch. by split; intros (? & [= <-] & ?); eexists.
    + by rewrite lookup_insert_ne.
  - intros d id [Hid Hs]%Hmem. split; [done|]. simpl.
    destruct (decide (d = c)) as [->|]; [by rewrite lookup_insert_eq|by rewrite lookup_insert_ne].
Qed.

Lemma clients_open h : hub_ok h → Forall (open h) (elements (clients h)).
Proof. intros Hok. apply Forall_forall. intros c Hc%elem_of_elements. by apply (ok_open _ Hok). Qed.

Lemma hub_step_ok h e r :
  hub_ok h → hub_step h e r →
  (∀ id data, e = EBroadcastToRoom id data → room h id ⊆ clients h) →
  ∃ h', r = Some h' ∧ hub_ok h'.
Proof.
  intros Hok Hstep Hroom. destruct Hstep as [c Hc|c _|c data h' Hr|data order Ho|id data order Ho].
  - eexists. split; [done|by apply register_ok].
  - destruct (unregister_ok c h Hok) as (h' & -> & ?). eauto.
  - eexists. split; [done|by eapply receive_ok].
  - assert (NoDup order) by (rewrite Ho; apply NoDup_elements).
    assert (Forall (λ c, c ∈ clients h) order) as Hall
      by (apply Forall_forall; intros c; rewrite Ho; apply elem_of_elements).
    destruct (send_each_open data order h) as (h' & Hsend & _); [done| |].
    { eapply Forall_impl; [done|]. intros c Hc. by apply (ok_open _ Hok). }
    exists h'. split; [done|by eapply send_each_ok].
  - assert (NoDup order) by (rewrite Ho; apply NoDup_elements).
    assert (Forall (λ c, c ∈ clients h) order) as Hall.
    { apply Forall_forall; intros c. rewrite Ho, elem_of_elements. by apply (Hroom id data). }
    destruct (send_each_open data order h) as (h' & Hsend & _); [done| |].
    { eapply Forall_impl; [done|]. intros c Hc. by apply (ok_open _ Hok). }
    exists h'. split; [done|by eapply send_each_ok].
Qed.

(** ** Properties *)

(** A broadcast reaches every registered client: it is queued behind what
    the client has not read, or, when 256 messages wait, the client is closed
    and struck off the list; nobody else is touched. *)
Theorem Hub_broadcast data h r :
  hub_ok h → hub_step h (EBroadcast data) r →
  ∃ h', r = Some h' ∧
    (∀ c, c ∈ clients h → ∃ ch, (chans h !! c = Some ch) ∧ (chans h' !! c = Some (sent data ch)) ∧
          (c ∈ clients h' ↔ length (ch_queue ch) < capacity)) ∧
    (∀ c, c ∉ clients h → (c ∉ clients h') ∧ chans h' !! c = chans h !! c).
Proof.
  intros Hok Hstep. inversion Hstep as [| | |data' order Ho|]; subst.
  assert (NoDup order) as Hnd by (rewrite Ho; apply NoDup_elements).
  assert (∀ c, c ∈ order ↔ c ∈ clients h) as Hin by (intros c; rewrite Ho; apply elem_of_elements).
  destruct (send_each_open data order h Hnd) as (h' & -> & _ & Hout & Hsent & Hcl).
  { apply Forall_forall. intros c Hc%Hin. by apply (ok_open _ Hok). }
  exists h'. split; [done|]. split; intros c Hc.
  - destruct (proj1 (ok_open _ Hok c) Hc) as (ch & Hch & _). exists ch.
    split; [done|]. split; [by apply Hsent; [apply Hin|]|]. rewrite Hcl, Hin. unfold dropped, full.
    rewrite Hch. split.
    + intros [_ Hno]. apply Nat.nle_gt. intros Hle. apply Hno. split; [done|].
      exists ch. by rewrite bool_decide_true.
    + intros Hlt. split; [done|]. intros (_ & ? & [= <-] & Hf).
      rewrite bool_decide_false in Hf by lia. done.
  - rewrite Hcl. split; [tauto|]. apply Hout. by rewrite Hin.
Qed.

(** A client that was dropped without being taken out of its room. *)
Definition poisoned (h : hub) (c : client) : Prop :=
  c ∈ room h (RoomID c) ∧ c ∉ clients h.

Lemma poisoned_closed h c :
  hub_ok h → poisoned h c → ∃ ch, chans h !! c = Some ch ∧ ch_closed ch = true.
Proof.
  intros Hok [Hroom Hcl]. pose proof (ok_member _ Hok c _ Hroom) as [_ [ch Hch]].
  exists ch. split; [done|]. destruct (ch_closed ch) eqn:Ho; [done|].
  destruct Hcl. apply (ok_open _ Hok). eauto.
Qed.

(** Sending to a room with such a client panics. *)
Lemma poisoned_room h c data order :
  hub_ok h → poisoned h c → order ≡ₚ elements (room h (RoomID c)) → send_each data order h = None.
Proof.
  intros Hok Hp Ho. destruct (poisoned_closed h c Hok Hp) as (ch & Hch & Hclosed).
  apply (send_each_closed data order h c ch); [rewrite Ho; apply NoDup_elements| |done..|].
  - rewrite Ho. by apply elem_of_elements, Hp.
  - intros d. rewrite Ho, elem_of_elements. intros Hd. by apply (ok_member _ Hok d _ Hd).
Qed.

(** A message to a room that goes through found all its members registered. *)
Lemma room_registered h id data order h' :
  hub_ok h → order ≡ₚ elements (room h id) → send_each data order h = Some h' →
  room h id ⊆ clients h.
Proof.
  intros Hok Ho Hsend c Hc. destruct (decide (c ∈ clients h)) as [|Hn]; [done|].
  pose proof (ok_member _ Hok c _ Hc) as [<- _].
  by rewrite (poisoned_room h c data order Hok (conj Hc Hn) Ho) in Hsend.
Qed.

Lemma hub_step_Some h e h' : hub_ok h → hub_step h e (Some h') → hub_ok h'.
Proof.
  intros Hok Hstep. destruct (hub_step_ok h e (Some h') Hok Hstep) as (h1 & [= <-] & ?); [|done].
  intros id data ->. inversion Hstep as [| | | |id' data' order Ho Hid Hsend]; subst.
  by eapply room_registered.
Qed.

(** Nothing makes good for it. *)
Lemma poisoned_step h e h' c :
  hub_ok h → poisoned h c → hub_step h e (Some h') → poisoned h' c.
Proof.
  intros Hok Hp Hstep. destruct (poisoned_closed h c Hok Hp) as (ch & Hch & Hclosed).
  destruct Hp as [Hroom Hcl].
  assert (∀ data order, NoDup order → (∀ d, d ∈ order → open h d) →
    send_each data order h = Some h' → poisoned h' c) as Hsent.
  { intros data order Hnd Hall Hs. rewrite <- Forall_forall in Hall.
    destruct (send_each_open data order h Hnd Hall) as (h1 & Heq & Hrooms & _ & _ & Hcl1).
    rewrite Hs in Heq. injection Heq as <-. split; [unfold room; by rewrite Hrooms|].
    rewrite Hcl1. tauto. }
  inversion Hstep as [d Hd|d Hd|d data h1 Hr|data order Ho|id data order Ho]; subst.
  - assert (d ≠ c) by congruence. split; [|simpl; set_solver].
    unfold register, connect, room; simpl. destruct (decide (RoomID d = RoomID c)) as [Heq|];
      [rewrite Heq, lookup_insert_eq; simpl; set_solver|by rewrite lookup_insert_ne].
  - unfold unregister in *. case_decide as Hin; [|by simplify_eq].
    destruct (leave_chans d h) as [Hlch Hlcl]. unfold close in *. rewrite Hlch in *.
    destruct (chans h !! d) as [chd|]; [|done]. simpl in *. destruct (ch_closed chd); [done|].
    simplify_eq. assert (d ≠ c) by congruence. split; [|simpl; rewrite Hlcl; set_solver].
    change (c ∈ room (leave d h) (RoomID c)). rewrite room_leave. case_decide; set_solver.
  - unfold receive in *. destruct (chans h !! d); [|done]. simpl in *.
    case_match; simplify_eq. by split.
  - eapply (Hsent data order); [rewrite Ho; apply NoDup_elements| |done].
    intros d. rewrite Ho, elem_of_elements. apply (ok_open _ Hok).
  - eapply (Hsent data order); [rewrite Ho; apply NoDup_elements| |done].
    intros d. rewrite Ho, elem_of_elements. intros Hd. apply (ok_open _ Hok).
    by eapply room_registered.
Qed.

(** ** What a step is to one client *)

Definition takes (c : client) (e : hub_event) : option string :=
  match e with EReceive d data => if decide (d = c) then Some data else None | _ => None end.

Definition reaches (e : hub_event) (c : client) : option string :=
  match e with
  | EBroadcast data => Some data
  | EBroadcastToRoom id data => if decide (RoomID c = id) then Some data else None
  | _ => None
  end.

(** Nobody's channel goes away; a message is queued at every client that is
    still registered after it. *)
Lemma send_view data order h h' c ch :
  NoDup order → (∀ d, d ∈ order → open h d) → send_each data order h = Some h' →
  chans h !! c = Some ch → ∃ ch', chans h' !! c = Some ch' ∧
    (c ∈ clients h' → c ∈ clients h) ∧
    (c ∉ order → ch_queue ch' = ch_queue ch) ∧
    (c ∈ order → ch_queue ch' = ch_queue ch ++ [data] ∨ (c ∉ clients h') ∧ ch_queue ch' = ch_queue ch).
Proof.
  intros Hnd Hall Hs Hch. rewrite <- Forall_forall in Hall.
  destruct (send_each_open data order h Hnd Hall) as (h1 & Heq & _ & Hout & Hin & Hcl).
  rewrite Hs in Heq. injection Heq as <-. destruct (decide (c ∈ order)) as [Hc|Hc].
  - exists (sent data ch). split; [by apply Hin|]. split; [rewrite Hcl; tauto|].
    split; [done|]. intros _. unfold sent. destruct (full ch) eqn:Hf; [right|by left].
    split; [|done]. rewrite Hcl. intros [_ Hno]. apply Hno. split; [done|by exists ch].
  - exists ch. rewrite Hout by done. split_and!; [done|rewrite Hcl; tauto|done|done].
Qed.

Definition sends (e : hub_event) : option string :=
  match e with EBroadcast data | EBroadcastToRoom _ data => Some data | _ => None end.

(** The clients a sending step goes through: those registered that it reaches. *)
Lemma send_order h e h' data :
  hub_ok h → hub_step h e (Some h') → sends e = Some data →
  ∃ order, NoDup order ∧ (∀ d, d ∈ order ↔ d ∈ clients h ∧ reaches e d = Some data) ∧
    (∀ d, d ∈ order → open h d) ∧ send_each data order h = Some h'.
Proof.
  intros Hok Hstep Hs.
  inversion Hstep as [d Hd|d Hd|d m h1 Hrc|m order Ho|id m order Ho]; subst; simplify_eq/=;
    exists order; (split; [rewrite Ho; apply NoDup_elements|]).
  - split_and!; [|intros d; rewrite Ho, elem_of_elements; apply (ok_open _ Hok)|done].
    intros d. rewrite Ho, elem_of_elements. naive_solver.
  - assert (room h id ⊆ clients h) as Hsub by (by eapply room_registered).
    split_and!; [|intros d; rewrite Ho, elem_of_elements; intros; by apply (ok_open _ Hok), Hsub|done].
    intros d. rewrite Ho, elem_of_elements. split.
    + intros Hd. split; [by apply Hsub|]. pose proof (ok_member _ Hok d _ Hd) as [? _]. by rewrite decide_True.
    + intros [Hd Hr]. case_decide; [subst|done]. by apply (ok_room _ Hok).
Qed.

Lemma reaches_sends e c data : reaches e c = Some data → sends e = Some data.
Proof. destruct e; simpl; intros; simplify_option_eq; done. Qed.

Lemma hub_send_view h e h' c ch data :
  hub_ok h → hub_step h e (Some h') → chans h !! c = Some ch → reaches e c = Some data →
  ∃ ch', chans h' !! c = Some ch' ∧ (c ∈ clients h' → c ∈ clients h) ∧
    ((c ∈ clients h) ∧ ch_queue ch' = ch_queue ch ++ [data] ∨
     (c ∉ clients h') ∧ ch_queue ch' = ch_queue ch).
Proof.
  intros Hok Hstep Hch Hr.
  destruct (send_order _ _ _ _ Hok Hstep (reaches_sends _ _ _ Hr)) as (order & Hnd & Hin & Hopen & Hs).
  destruct (send_view data order h h' c ch Hnd) as (ch' & Hch' & Hcl & Hno & Hyes); [done..|].
  exists ch'. split; [done|]. split; [done|]. destruct (decide (c ∈ order)) as [Hc|Hc].
  - destruct (Hyes Hc) as [?|?]; [left; split; [by apply Hin|done]|by right].
  - right. split; [|by apply Hno]. intros Hc'. apply Hc, Hin. auto.
Qed.

Lemma hub_other_view h e h' c ch :
  hub_ok h → hub_step h e (Some h') → chans h !! c = Some ch → reaches e c = None →
  takes c e = None →
  ∃ ch', chans h' !! c = Some ch' ∧ (c ∈ clients h' → c ∈ clients h) ∧ ch_queue ch' = ch_queue ch.
Proof.
  intros Hok Hstep Hch Hr Hrec. destruct (sends e) as [data|] eqn:Hs.
  { destruct (send_order _ _ _ _ Hok Hstep Hs) as (order & Hnd & Hin & Hopen & Hsend).
    destruct (send_view data order h h' c ch) as (ch' & Hch' & Hcl & Hno & _); try done.
    exists ch'. split_and!; [done|done|]. apply Hno. rewrite Hin. intros [_ ?]. congruence. }
  inversion Hstep as [d Hd|d Hd|d m h1 Hrc|m order Ho|id m order Ho]; subst; simpl in *; try done.
  - assert (d ≠ c) by congruence. exists ch. rewrite lookup_insert_ne by done.
    split_and!; [done|set_solver|done].
  - unfold unregister in *. case_decide as Hin; [|simplify_eq; by exists ch].
    destruct (leave_chans d h) as [Hlch Hlcl]. unfold close in *. rewrite Hlch in *.
    destruct (chans h !! d) as [chd|] eqn:Hchd; [|done]. simpl in *. destruct (ch_closed chd); [done|].
    simplify_eq. simpl. rewrite Hlcl. destruct (decide (d = c)) as [->|Hne].
    + rewrite lookup_insert_eq. eexists. split_and!; [done|set_solver|simpl; congruence].
    + rewrite lookup_insert_ne by done. exists ch. split_and!; [done|set_solver|done].
  - case_decide; [done|]. unfold receive in *. destruct (chans h !! d); [|done].
    simpl in *. case_match; simplify_eq. simpl. rewrite lookup_insert_ne by done. by exists ch.
Qed.

Lemma hub_chans_new h e h' c :
  hub_ok h → hub_step h e (Some h') → chans h !! c = None → e ≠ EConnect c →
  chans h' !! c = None.
Proof.
  intros Hok Hstep Hch Hne. destruct (sends e) as [data|] eqn:Hs.
  { destruct (send_order _ _ _ _ Hok Hstep Hs) as (order & Hnd & Hin & Hopen & Hsend).
    destruct (send_each_open data order h Hnd) as (h1 & Heq & _ & Hout & _); [by apply Forall_forall|].
    rewrite Hsend in Heq. injection Heq as <-. rewrite Hout; [done|].
    intros (ch & Hch' & _)%Hopen. congruence. }
  inversion Hstep as [d Hd|d Hd|d m h1 Hrc|m order Ho|id m order Ho]; subst; simpl in *; try done.
  - rewrite lookup_insert_ne; [done|congruence].
  - unfold unregister in *. case_decide; [|by simplify_eq]. unfold close in *.
    destruct (leave_chans d h) as [Hlch _]. rewrite Hlch in *. destruct (chans h !! d) eqn:Hd'; [|done].
    simpl in *. case_match; simplify_eq. simpl. rewrite lookup_insert_ne; [done|congruence].
  - unfold receive in *. destruct (chans h !! d) eqn:Hd'; [|done]. simpl in *.
    case_match; simplify_eq. simpl. rewrite lookup_insert_ne; [done|congruence].
Qed.

Lemma hub_receive_view h h' c ch data :
  hub_step h (EReceive c data) (Some h') → chans h !! c = Some ch →
  ∃ ch', chans h' !! c = Some ch' ∧ clients h' = clients h ∧ ch_queue ch = data :: ch_queue ch'.
Proof.
  intros Hstep Hch. inversion Hstep as [| |d m h1 Hrc| |]; subst.
  unfold receive in *. rewrite Hch in *. simpl in *. destruct (ch_queue ch) as [|m q]; simplify_eq/=.
  rewrite lookup_insert_eq. by eexists.
Qed.

Lemma hub_chans_kept h e h' c :
  hub_ok h → hub_step h e (Some h') → is_Some (chans h !! c) → is_Some (chans h' !! c).
Proof.
  intros Hok Hstep [ch Hch]. destruct (reaches e c) as [data|] eqn:Hr.
  { destruct (hub_send_view _ _ _ _ _ _ Hok Hstep Hch Hr) as (ch' & ? & _). eauto. }
  destruct (takes c e) as [data|] eqn:Ht.
  { destruct e; simplify_option_eq. destruct (hub_receive_view _ _ _ _ _ Hstep Hch) as (ch' & ? & _). eauto. }
  destruct (hub_other_view _ _ _ _ _ Hok Hstep Hch Hr Ht) as (ch' & ? & _). eauto.
Qed.

Lemma poisoned_run h c es r data :
  hub_ok h → poisoned h c → hub_run h es r → EBroadcastToRoom (RoomID c) data ∈ es → r = None.
Proof.
  intros Hok Hp Hrun. induction Hrun as [h|h e es Hstep|h h' e es r Hstep _ IH];
    [by intros ?%elem_of_nil|done|].
  intros [<-|Hin]%elem_of_cons.
  - inversion Hstep as [| | | |id' data' order Ho Hid Hsend]; subst. symmetry in Hsend.
    by rewrite (poisoned_room h c data order Hok Hp Ho) in Hsend.
  - apply IH; [by eapply hub_step_Some|by eapply poisoned_step|done].
Qed.

(** A member of a room that is not registered any more, if there is one. *)
Lemma stranger_dec (r s : gset client) : r ⊆ s ∨ ∃ c, c ∈ r ∧ c ∉ s.
Proof.
  destruct (set_choose_or_empty (r ∖ s)) as [[c Hc]|He]; [right; exists c; set_solver|left].
  intros c Hc. destruct (decide (c ∈ s)); [done|]. assert (c ∈ r ∖ s) by set_solver. set_solver.
Qed.

(** The one way in which a step panics. *)
Lemma hub_step_panics h e :
  hub_ok h →
  hub_step h e None ↔
  ∃ id data c, e = EBroadcastToRoom id data ∧ c ∈ room h id ∧ c ∉ clients h.
Proof.
  intros Hok. split.
  - intros Hstep.
    assert (¬ ∀ id data, e = EBroadcastToRoom id data → room h id ⊆ clients h) as Hno.
    { intros Hall. by destruct (hub_step_ok h e None Hok Hstep Hall) as (h' & ? & _). }
    destruct e as [c|c|c data|data|id data]; try (by destruct Hno).
    destruct (stranger_dec (room h id) (clients h)) as [Hsub|(c & Hin & Hout)]; [|eauto 6].
    destruct Hno. by intros id' data' [= <- <-].
  - intros (id & data & c & -> & Hin & Hout).
    pose proof (ok_member _ Hok c _ Hin) as [<- _].
    rewrite <- (poisoned_room h c data (elements (room h (RoomID c))) Hok (conj Hin Hout));
      [by apply step_room|done].
Qed.

Lemma hub_run_outcome h0 es r :
  hub_ok h0 → hub_run h0 es r →
  match r with
  | Some h => hub_ok h
  | None => ∃ es1 e es2 h, es = es1 ++ e :: es2 ∧ hub_run h0 es1 (Some h) ∧
      hub_ok h ∧ hub_step h e None
  end.
Proof.
  intros Hok Hrun. induction Hrun as [h|h e es Hstep|h h' e es r Hstep _ IH]; [done|..].
  - exists [], e, es, h. split_and!; [done|constructor|done|done].
  - specialize (IH (hub_step_Some _ _ _ Hok Hstep)). destruct r as [h1|]; [done|].
    destruct IH as (es1 & e1 & es2 & h1 & -> & Hrun & Hok1 & Hstep1).
    exists (e :: es1), e1, es2, h1. split_and!; [done|by eapply run_cons|done|done].
Qed.

(** C30: every run of the hub. From its start, after any sequence of
    connections, disconnections, reads, broadcasts and messages to rooms, the
    hub is consistent - the registered clients are those with an open channel,
    each in its room, and whoever is in a room has a channel - and the next
    event panics exactly when it is a message to a room with a member that is
    no longer registered. A run that panics did so at such a message, from a
    consistent hub: without messages to rooms there is no panic. *)
Theorem Hub_runs es r :
  hub_run NewHub es r →
  match r with
  | Some h => hub_ok h ∧
      ∀ e, hub_step h e None ↔
           ∃ id data c, e = EBroadcastToRoom id data ∧ c ∈ room h id ∧ c ∉ clients h
  | None => ∃ es1 id data es2 h c,
      es = es1 ++ EBroadcastToRoom id data :: es2 ∧ hub_run NewHub es1 (Some h) ∧
      hub_ok h ∧ c ∈ room h id ∧ c ∉ clients h
  end.
Proof.
  intros Hrun%hub_run_outcome; [|apply NewHub_ok].
  destruct r as [h|]; [split; [done|]; intros e; by apply hub_step_panics|].
  destruct Hrun as (es1 & e & es2 & h & -> & Hrun & Hok & Hstep).
  apply hub_step_panics in Hstep as (id & data & c & -> & ? & ?); [|done].
  by exists es1, id, data, es2, h, c.
Qed.

(** C31: one slow client brings the process down. When a broadcast finds 256
    messages unread the client is struck off the list but stays in its room,
    for good, even after it disconnects; the next message to that room is sent
    on its closed channel, and panics. *)
Theorem Hub_slow_client h c ch data data' es r :
  hub_ok h → c ∈ clients h → chans h !! c = Some ch → length (ch_queue ch) = capacity →
  hub_run h (EBroadcast data :: es) r → EBroadcastToRoom (RoomID c) data' ∈ es → r = None.
Proof.
  intros Hok Hc Hch Hlen Hrun Hin.
  inversion Hrun as [|h' e es' Hstep|h' h1 e es' r' Hstep Hrest]; subst; [done|].
  eapply poisoned_run; [by eapply hub_step_Some| |done|done].
  inversion Hstep as [| | |data'' order Ho Hd Hsend|]; subst. symmetry in Hsend.
  destruct (send_each_open data order h) as (h2 & Heq & Hrooms & _ & _ & Hcl);
    [rewrite Ho; apply NoDup_elements| |].
  { apply Forall_forall. intros d. rewrite Ho, elem_of_elements. apply (ok_open _ Hok). }
  rewrite <- Hsend in Heq. injection Heq as <-. split.
  - unfold room. rewrite Hrooms. by apply (ok_room _ Hok).
  - rewrite Hcl. intros [_ Hno]. apply Hno. split; [by rewrite Ho; apply elem_of_elements|].
    exists ch. split; [done|]. unfold full. apply bool_decide_true. lia.
Qed.
End hub.

(** ** Witnesses *)

Definition default_room : client → string := λ _, "default".
Definition one_client : hub := register default_room 1%N (connect 1%N NewHub).

Lemma one_client_ok : hub_ok default_room one_client.
Proof. apply register_ok; [done|apply NewHub_ok]. Qed.

Lemma one_client_chan c ch : chans one_client !! c = Some ch → c = 1%N.
Proof.
  change (chans one_client) with (<[1%N := MkChannel [] false]> (∅ : gmap client channel)).
  intros [[<- _]|[_ Hch]]%lookup_insert_Some; [done|by rewrite lookup_empty in Hch].
Qed.

(** One client is connected; nobody can make this hub panic. *)
Lemma Hub_runs_witness :
  hub_ok default_room one_client ∧ ∀ e, ¬ hub_step default_room one_client e None.
Proof.
  destruct (Hub_runs default_room [EConnect 1%N] (Some one_client)) as [Hok Hpanics].
  { eapply run_cons; [by apply step_connect|apply run_nil]. }
  split; [exact Hok|]. intros e He. apply Hpanics in He as (id & data & c & _ & Hin & Hout).
  apply Hout. destruct (ok_member _ _ Hok c _ Hin) as [_ [ch Hch]].
  apply one_client_chan in Hch as ->. by apply elem_of_union_l, elem_of_singleton.
Defined.

Lemma Hub_broadcast_witness :
  ∃ h', send_each "hello" [1%N] one_client = Some h' ∧
    chans h' !! 1%N = Some (MkChannel ["hello"] false).
Proof.
  destruct (Hub_broadcast default_room "hello" one_client
    (send_each "hello" [1%N] one_client)) as (h' & Heq & Hin & _);
    [apply one_client_ok|by apply step_broadcast|].
  exists h'. split; [exact Heq|]. destruct (Hin 1%N) as (ch & Hch & Hch' & _);
    [apply elem_of_union_l, elem_of_singleton; reflexivity|].
  refine (eq_trans Hch' _). vm_compute in Hch. injection Hch as <-. reflexivity.
Defined.

(** A client that has read nothing of 256 messages. *)
Definition slow : hub :=
  one_client <| chans := {[1%N := MkChannel (repeat "x" 256) false]} |>.

Lemma Hub_slow_client_witness : send_each "z" [1%N] (default NewHub (send_each "y" [1%N] slow)) = None.
Proof.
  assert (hub_ok default_room slow) as Hok.
  { destruct one_client_ok as [Hopen Hroom Hmem]. split; [|exact Hroom|].
    - intros c. rewrite (Hopen c). simpl. destruct (decide (c = 1%N)) as [->|Hne].
      + split; intros _; eexists; split; vm_compute; reflexivity.
      + split; intros (ch & Hch & _).
        * by apply one_client_chan in Hch.
        * apply lookup_singleton_Some in Hch as [Heq _]. congruence.
    - intros c id [Hid [ch Hch]]%Hmem. split; [done|].
      rewrite (one_client_chan _ _ Hch). by eexists. }
  assert (∃ h', send_each "y" [1%N] slow = Some h') as [h' Hh'] by (vm_compute; eauto).
  rewrite Hh'. simpl default.
  refine (Hub_slow_client default_room slow 1%N (MkChannel (repeat "x" 256) false) "y" "z"
    [EBroadcastToRoom "default" "z"] _ Hok _ _ _ _ _);
    [vm_compute; reflexivity|reflexivity|reflexivity| |apply list_elem_of_singleton; reflexivity].
  eapply run_cons; [rewrite <- Hh'; by apply step_broadcast|].
  assert (send_each "z" [1%N] h' = None) as Hnone
    by (vm_compute in Hh'; injection Hh' as <-; vm_compute; reflexivity).
  rewrite Hnone. apply run_panic. rewrite <- Hnone. apply step_room.
  vm_compute in Hh'. injection Hh' as <-. vm_compute. done.
Defined.
