(* ===== verification/WebSocket.v ===== *)
(** The WebSocket side of the server: [internal/websocket/handler.go] and the
    [broadcast] channel of [hub.go].

    A connection is served by two goroutines, [readPump] and [writePump]; a
    message posted with [BroadcastToAll] waits in the hub's channel until [Run]
    takes it.  [ws_step] interleaves all of them around the hub of [Hub];
    forgetting the connections and the channel gives a run of that hub. *)

From S2P Require Import Prelude GoInt GoTime Model Errors World Effects GoJson Http Hub.

Open Scope nat_scope.

(** ** Messages *)

(** A payload is any Go value: [None] is one [json.Marshal] refuses. *)
Record Message := MkMessage { msg_Type : string; msg_Payload : option json }.

Definition message_text (msg : Message) : option string :=
  payload ← msg_Payload msg;
  Some (Marshal (JObj [("type", JStr (msg_Type msg)); ("payload", payload)])).

(** [websocket.PingMessage] of the gorilla library. *)
Definition PingMessage : Z := 9.

(** [messageType == websocket.PingMessage || msg == "ping" || msg == "ping\n"]. *)
Definition is_ping (messageType : Z) (msg : string) : bool :=
  bool_decide (messageType = PingMessage) || bool_decide (msg = "ping") ||
  bool_decide (msg = "ping" +:+ String (ascii_of_nat 10) "").

(** ** Connections *)

(** What was written on a connection, and by which of the pumps. *)
Inductive frame := Text (data : string) | PongText.

(** A connection and its two goroutines, as long as they run. *)
Record conn := MkConn {
  cn_open : bool; cn_written : list frame; cn_reading : bool; cn_writing : bool
}.
#[export] Instance eta_conn : Eta conn :=
  λ r, MkConn (cn_open r) (cn_written r) (cn_reading r) (cn_writing r).

(** [ws_queue]: what waits in the channel [broadcast]. *)
Record ws := MkWs { ws_hub : hub; ws_queue : list string; ws_conns : gmap client conn }.
#[export] Instance eta_ws : Eta ws := λ r, MkWs (ws_hub r) (ws_queue r) (ws_conns r).

Definition NewWs : ws := MkWs NewHub [] ∅.

Definition on_conn (c : client) (f : conn → conn) (s : ws) : ws :=
  s <| ws_conns := alter f c (ws_conns s) |>.

(** The room a request asks for. *)
Definition room_of (req : Request) : string :=
  let roomID := default "" (Query req "room") in
  if decide (roomID = "") then "default" else roomID.

Section handler.
(** The request that opened the connection of a client. *)
Context (request : client → Request).

Definition RoomID (c : client) : string := room_of (request c).

(** [upgraded]: the library has answered the handshake. *)
Definition HandleWebSocket (c : client) (upgraded : bool) (s : ws) : ws :=
  if upgraded then
    s <| ws_hub := register RoomID c (connect c (ws_hub s)) |>
      <| ws_conns := <[c := MkConn true [] true true]> (ws_conns s) |>
  else s.

(** The deferred end of [readPump]; [None]: the hub panics. *)
Definition readPump_end (c : client) (s : ws) : option ws :=
  h ← unregister RoomID c (ws_hub s);
  Some (on_conn c (λ cn, cn <| cn_open := false |> <| cn_reading := false |>)
         (s <| ws_hub := h |>)).

(** A turn of the loop of [readPump]: [message] is what [ReadMessage] gave,
    [None] its error; [wrote]: the answer could be written. *)
Definition readPump (c : client) (message : option (Z * string)) (wrote : bool) (s : ws)
    : option ws :=
  match message with
  | None => readPump_end c s
  | Some (messageType, msg) =>
      if is_ping messageType msg then
        if wrote then Some (on_conn c (λ cn, cn <| cn_written := cn_written cn ++ [PongText] |>) s)
        else readPump_end c s
      else Some s
  end.

(** The deferred end of [writePump]. *)
Definition writePump_end (c : client) (s : ws) : ws :=
  on_conn c (λ cn, cn <| cn_open := false |> <| cn_writing := false |>) s.

(** A turn of the loop of [writePump]; [None]: it waits for a message. *)
Definition writePump (c : client) (wrote : bool) (s : ws) : option ws :=
  ch ← chans (ws_hub s) !! c;
  match receive c (ws_hub s) with
  | None => if ch_closed ch then Some (writePump_end c s) else None
  | Some (data, h) =>
      let s := s <| ws_hub := h |> in
      if wrote then Some (on_conn c (λ cn, cn <| cn_written := cn_written cn ++ [Text data] |>) s)
      else Some (writePump_end c s)
  end.

(** [h.broadcast <- data] waits while 256 messages are in the channel: [None]. *)
Definition BroadcastToAll (msg : Message) (s : ws) : option ws :=
  match message_text msg with
  | None => Some s
  | Some data =>
      if decide (length (ws_queue s) < capacity)
      then Some (s <| ws_queue := ws_queue s ++ [data] |>) else None
  end.

Definition with_hub (s : ws) (h : option hub) : option ws := (λ h, s <| ws_hub := h |>) <$> h.

(** The case of [Run] that takes a message off the channel; [order] is the one
    of the range over the clients. *)
Definition run_broadcast (order : list client) (s : ws) : option ws :=
  match ws_queue s with
  | [] => Some s
  | data :: queue => with_hub (s <| ws_queue := queue |>) (send_each data order (ws_hub s))
  end.

Definition BroadcastToRoom (msg : Message) (order : list client) (s : ws) : option ws :=
  match message_text msg with
  | None => Some s
  | Some data => with_hub s (send_each data order (ws_hub s))
  end.

(** ** Runs *)

Inductive ws_event :=
  | WConnect (c : client) (upgraded : bool)
  | WRead (c : client) (message : option (Z * string)) (wrote : bool)
  | WWrite (c : client) (wrote : bool)
  | WPost (msg : Message)                   (** a call of [BroadcastToAll] goes through *)
  | WBroadcast (data : string)              (** [Run] takes [data] off the channel *)
  | WRoom (id : string) (msg : Message).    (** a call of [BroadcastToRoom] *)

(** Only an open connection can be read or written. *)
Definition can_read (s : ws) (c : client) (ok : bool) : Prop :=
  ∃ cn, ws_conns s !! c = Some cn ∧ cn_reading cn = true ∧ (ok = true → cn_open cn = true).
Definition can_write (s : ws) (c : client) (ok : bool) : Prop :=
  ∃ cn, ws_conns s !! c = Some cn ∧ cn_writing cn = true ∧ (ok = true → cn_open cn = true).

Inductive ws_step (s : ws) : ws_event → option ws → Prop :=
  | ws_connect c upgraded :
      chans (ws_hub s) !! c = None →
      ws_step s (WConnect c upgraded) (Some (HandleWebSocket c upgraded s))
  | ws_read c message wrote :
      can_read s c (bool_decide (is_Some message)) →
      ws_step s (WRead c message wrote) (readPump c message wrote s)
  | ws_write c wrote s' :
      can_write s c wrote → writePump c wrote s = Some s' → ws_step s (WWrite c wrote) (Some s')
  | ws_post msg s' :
      BroadcastToAll msg s = Some s' → ws_step s (WPost msg) (Some s')
  | ws_run_broadcast data order :
      head (ws_queue s) = Some data → order ≡ₚ elements (clients (ws_hub s)) →
      ws_step s (WBroadcast data) (run_broadcast order s)
  | ws_room id msg order :
      order ≡ₚ elements (room (ws_hub s) id) →
      ws_step s (WRoom id msg) (BroadcastToRoom msg order s).

Inductive ws_run : ws → list ws_event → option ws → Prop :=
  | ws_nil s : ws_run s [] (Some s)
  | ws_panic s e es : ws_step s e None → ws_run s (e :: es) None
  | ws_cons s s' e es r : ws_step s e (Some s') → ws_run s' es r → ws_run s (e :: es) r.
(** ** The hub behind it *)

(** What a step is to the hub, if it is anything to it. *)
Definition project (s : ws) (e : ws_event) : option hub_event :=
  match e with
  | WConnect c true => Some (EConnect c)
  | WRead c None _ => Some (EDisconnect c)
  | WRead c (Some (messageType, msg)) wrote =>
      if is_ping messageType msg && negb wrote then Some (EDisconnect c) else None
  | WWrite c _ => '(data, _) ← receive c (ws_hub s); Some (EReceive c data)
  | WBroadcast data => Some (EBroadcast data)
  | WRoom id msg => data ← message_text msg; Some (EBroadcastToRoom id data)
  | WConnect _ false | WPost _ => None
  end.

(** A connection has a channel; at most 256 messages wait for [Run]. *)
Record ws_ok (s : ws) : Prop := MkWsOk {
  wso_hub : hub_ok RoomID (ws_hub s);
  wso_conns c : is_Some (ws_conns s !! c) → is_Some (chans (ws_hub s) !! c);
  wso_queue : length (ws_queue s) ≤ capacity
}.

Lemma NewWs_ok : ws_ok NewWs.
Proof.
  split; [apply NewHub_ok| |unfold capacity; simpl; lia].
  intros c [cn Hcn]. simpl in Hcn. by rewrite lookup_empty in Hcn.
Qed.

(** Every step is one of the hub's, or leaves the hub alone. *)
Lemma ws_simulates s e r :
  ws_ok s → ws_step s e r →
  match project s e with
  | Some he => hub_step RoomID (ws_hub s) he (ws_hub <$> r)
  | None => ws_hub <$> r = Some (ws_hub s)
  end.
Proof.
  intros Hok Hstep.
  destruct Hstep as [c up Hc|c message wrote (cn & Hcn & _)|c wrote s' _ Hw|msg s' Hp|data order Hq Ho|id msg order Ho].
  - destruct up; simpl; [by apply step_connect|done].
  - assert (is_Some (chans (ws_hub s) !! c)) as Hch by (apply (wso_conns _ Hok); eauto).
    assert (hub_step RoomID (ws_hub s) (EDisconnect c) (ws_hub <$> readPump_end c s)) as Hend.
    { unfold readPump_end.
      replace (ws_hub <$> _) with (unregister RoomID c (ws_hub s)) by (by destruct (unregister _ _ _)).
      by apply step_disconnect. }
    unfold readPump. destruct message as [[t m]|]; simpl; [|done].
    by destruct (is_ping t m), wrote.
  - unfold writePump in Hw. simpl. destruct (chans (ws_hub s) !! c) as [ch|] eqn:Hch; [|done].
    simpl in Hw. destruct (receive c (ws_hub s)) as [[data h]|] eqn:Hr; simpl.
    + apply step_receive. destruct wrote; simplify_eq; done.
    + destruct (ch_closed ch); by simplify_eq.
  - simpl. unfold BroadcastToAll in Hp. repeat case_match; by simplify_eq.
  - unfold run_broadcast, with_hub. destruct (ws_queue s) as [|m queue]; simplify_eq/=.
    replace (ws_hub <$> _) with (send_each data order (ws_hub s)) by (by destruct (send_each _ _ _)).
    by apply step_broadcast.
  - unfold BroadcastToRoom, with_hub. simpl. destruct (message_text msg) as [data|]; simpl; [|done].
    replace (ws_hub <$> _) with (send_each data order (ws_hub s)) by (by destruct (send_each _ _ _)).
    by apply step_room.
Qed.

(** What a step does to the channel and the connections. *)
Lemma ws_step_queue s e s' :
  ws_step s e (Some s') →
  match e with
  | WPost msg => match message_text msg with
                 | Some data => (length (ws_queue s) < capacity) ∧ ws_queue s' = ws_queue s ++ [data]
                 | None => ws_queue s' = ws_queue s
                 end
  | WBroadcast data => ws_queue s = data :: ws_queue s'
  | _ => ws_queue s' = ws_queue s
  end.
Proof.
  intros Hstep.
  inversion Hstep as [c up Hc|c message wrote _ Hr|c wrote s1 _ Hw|msg s1 Hp|data order Hq Ho Hr|id msg order Ho Hr];
    subst.
  - by destruct up.
  - unfold readPump, readPump_end in *. destruct (unregister _ _ _); repeat case_match; by simplify_eq/=.
  - unfold writePump in *. destruct (chans _ !! c); [|done]. simpl in *. repeat case_match; by simplify_eq/=.
  - unfold BroadcastToAll in *. destruct (message_text msg); [case_decide|]; by simplify_eq/=.
  - unfold run_broadcast, with_hub in *. destruct (ws_queue s) as [|m q]; [done|].
    destruct (send_each _ _ _); by simplify_eq/=.
  - unfold BroadcastToRoom, with_hub in *. destruct (message_text msg); [|by simplify_eq/=].
    destruct (send_each _ _ _); by simplify_eq/=.
Qed.
(** ** What a client is sent *)

Definition texts (cn : conn) : list string :=
  omap (λ f, match f with Text data => Some data | PongText => None end) (cn_written cn).

(** The message an event addresses to a client. *)
Definition message_to (c : client) (e : ws_event) : option string :=
  match e with
  | WBroadcast data => Some data
  | WRoom id msg => if decide (RoomID c = id) then message_text msg else None
  | _ => None
  end.

(** All of them since it connected; [None]: it has not. *)
Definition address (c : client) (sent : option (list string)) (e : ws_event) : option (list string) :=
  match e with
  | WConnect d true => if decide (d = c) then Some [] else sent
  | e => match message_to c e with
         | Some data => (λ l, l ++ [data]) <$> sent
         | None => sent
         end
  end.
Definition addressed (c : client) (es : list ws_event) : option (list string) :=
  fold_left (address c) es None.

Lemma project_reaches s e he c : project s e = Some he → reaches RoomID he c = message_to c e.
Proof.
  destruct e as [d []|d [[]|] wrote|d wrote|msg|data|id msg]; simpl; intros; simplify_option_eq; try done.
  - by case_match; simplify_eq.
  - destruct (receive _ _) as [[data h]|]; simplify_eq/=; done.
Qed.

Lemma project_room s e id data :
  project s e = Some (EBroadcastToRoom id data) → ∃ msg, e = WRoom id msg.
Proof.
  destruct e as [d []|d [[]|] wrote|d wrote|msg|m|id' msg]; simpl; try done.
  - by case_match.
  - by destruct (receive _ _) as [[]|].
  - destruct (message_text msg); [|done]. intros [= <- <-]. eauto.
Qed.

Lemma ws_step_conn s e s' c cn :
  ws_step s e (Some s') → is_Some (chans (ws_hub s) !! c) → ws_conns s !! c = Some cn →
  ∃ cn', ws_conns s' !! c = Some cn' ∧
    ((∃ data, (project s e = Some (EReceive c data)) ∧ cn_writing cn = true ∧
        (texts cn' = texts cn ++ [data] ∨ texts cn' = texts cn ∧ cn_writing cn' = false)) ∨
     ((∀ he, project s e = Some he → takes c he = None) ∧ texts cn' = texts cn ∧
        (cn_writing cn' = true → cn_writing cn = true))).
Proof.
  intros Hstep Hch Hcn.
  assert (∀ f d, (∀ cn, texts (f cn) = texts cn) →
    (∀ cn, cn_writing (f cn) = true → cn_writing cn = true) →
    ∃ cn', alter f d (ws_conns s) !! c = Some cn' ∧ texts cn' = texts cn ∧
      (cn_writing cn' = true → cn_writing cn = true)) as Halter.
  { intros f d Ht Hw. destruct (decide (d = c)) as [->|Hne].
    - rewrite lookup_alter_eq, Hcn. simpl. eauto.
    - rewrite lookup_alter_ne, Hcn by done. eauto. }
  inversion Hstep as [d up Hd|d message wrote _ Hr|d wrote s1 (cnd & Hcnd & Hwr & _) Hw|msg s1 Hp|data order Hq Ho Hr|id msg order Ho Hr];
    subst.
  - exists cn. assert (d ≠ c) by (intros ->; rewrite Hd in Hch; by destruct Hch).
    destruct up; simpl; [rewrite lookup_insert_ne by done|]; (split; [done|right; split_and!; try done]);
      by intros he [= <-].
  - assert (∀ s1, readPump_end d s = Some s1 → ∃ cn', ws_conns s1 !! c = Some cn' ∧
      texts cn' = texts cn ∧ (cn_writing cn' = true → cn_writing cn = true)) as Hend.
    { intros s1 He. unfold readPump_end in He. destruct (unregister _ _ _); simplify_eq/=.
      by apply Halter. }
    assert (∃ cn', ws_conns s' !! c = Some cn' ∧ texts cn' = texts cn ∧
      (cn_writing cn' = true → cn_writing cn = true)) as (cn' & Hcn' & Ht & Hw).
    { unfold readPump in *. destruct message as [[t m]|]; [|by apply Hend].
      destruct (is_ping t m); [|simplify_eq; eauto]. destruct wrote; [|by apply Hend].
      simplify_eq. apply Halter; [|done].
      intros cn0. unfold texts. simpl. rewrite omap_app. simpl. apply app_nil_r. }
    exists cn'. split; [done|]. right. split; [|done]. intros he. simpl.
    destruct message as [[t m]|]; [case_match; [|done]|]; by intros [= <-].
  - unfold writePump in Hw. destruct (chans (ws_hub s) !! d) as [chd|] eqn:Hchd; [|done].
    simpl in Hw. destruct (receive d (ws_hub s)) as [[data h]|] eqn:Hrec.
    + destruct (decide (d = c)) as [->|Hne].
      * destruct wrote; simplify_eq/=; rewrite lookup_alter_eq, Hcn; simpl; eexists; (split; [done|]);
          left; exists data; rewrite Hrec; (split_and!; [done|congruence|]); [left|by right].
        unfold texts. simpl. by rewrite omap_app.
      * exists cn. destruct wrote; simplify_eq/=; rewrite lookup_alter_ne by done;
          (split; [done|]); right; rewrite Hrec; simpl; (split; [|done]); intros he [= <-];
          simpl; by rewrite decide_False.
    + destruct (ch_closed chd); [|done]. simplify_eq.
      destruct (Halter (λ cn, cn <| cn_open := false |> <| cn_writing := false |>) d) as (cn' & ? & ? & ?);
        try done. exists cn'. split; [done|]. right. simpl. rewrite Hrec. by split.
  - exists cn. unfold BroadcastToAll in *.
    split; [by repeat case_match; simplify_eq/=|by right].
  - exists cn. unfold run_broadcast, with_hub in *. destruct (ws_queue s); [done|].
    destruct (send_each _ _ _); simplify_eq/=. split; [done|right]. split; [|done]. by intros he [= <-].
  - exists cn. unfold BroadcastToRoom, with_hub in *. simpl.
    destruct (message_text msg); [destruct (send_each _ _ _)|]; simplify_eq/=;
      (split; [done|right]); (split; [|done]); by intros he [= <-].
Qed.
Lemma ws_step_ok s e s' : ws_ok s → ws_step s e (Some s') → ws_ok s'.
Proof.
  intros Hok Hstep. pose proof (ws_simulates _ _ _ Hok Hstep) as Hsim. simpl in Hsim.
  assert (hub_ok RoomID (ws_hub s') ∧
    ∀ c, is_Some (chans (ws_hub s) !! c) → is_Some (chans (ws_hub s') !! c)) as [Hhub Hkept].
  { destruct (project s e) as [he|]; [|injection Hsim as ->; by split; [apply (wso_hub _ Hok)|]].
    split; [by eapply hub_step_Some; [apply (wso_hub _ Hok)|]|].
    intros c. by apply (hub_chans_kept RoomID _ _ _ _ (wso_hub _ Hok) Hsim). }
  split; [done| |].
  - intros c [cn Hcn]. destruct (ws_conns s !! c) as [cn0|] eqn:Hold.
    { apply Hkept, (wso_conns _ Hok). eauto. }
    inversion Hstep as [d up Hd|d message wrote (cnd & Hcnd & _) Hr|d wrote s1 (cnd & Hcnd & _) Hw|msg s1 Hp|data order Hq Ho Hr|id msg order Ho Hr];
      subst.
    + destruct up; simpl in *; [|congruence].
      destruct (decide (d = c)) as [->|Hne]; [by rewrite lookup_insert_eq|].
      rewrite lookup_insert_ne in Hcn by done. congruence.
    + assert (d ≠ c) by congruence. unfold readPump, readPump_end in *.
      destruct (unregister _ _ _); repeat case_match; simplify_eq/=;
        rewrite ?lookup_alter_ne in Hcn by done; congruence.
    + assert (d ≠ c) by congruence. unfold writePump in *. destruct (chans (ws_hub s) !! d); [|done].
      simpl in *. repeat case_match; simplify_eq/=; rewrite ?lookup_alter_ne in Hcn by done; congruence.
    + unfold BroadcastToAll in *. repeat case_match; simplify_eq/=; congruence.
    + unfold run_broadcast, with_hub in *. destruct (ws_queue s); [done|].
      destruct (send_each _ _ _); simplify_eq/=; congruence.
    + unfold BroadcastToRoom, with_hub in *. destruct (message_text msg); [destruct (send_each _ _ _)|];
        simplify_eq/=; congruence.
  - pose proof (wso_queue _ Hok). apply ws_step_queue in Hstep.
    destruct e as [| | |msg|data|]; try by rewrite Hstep.
    + destruct (message_text msg); [|by rewrite Hstep]. destruct Hstep as [? ->].
      rewrite length_app. simpl. lia.
    + rewrite Hstep in *. simpl in *. lia.
Qed.

(** What a client was sent, what its connection got of it and what waits. *)
Definition told (c : client) (s : ws) (sent : option (list string)) : Prop :=
  match chans (ws_hub s) !! c with
  | None => sent = None
  | Some ch => ∃ cn all,
      (ws_conns s !! c = Some cn) ∧ sent = Some all ∧ texts cn `prefix_of` all ∧
      (cn_writing cn = true →
        texts cn ++ ch_queue ch `prefix_of` all ∧
        (c ∈ clients (ws_hub s) → texts cn ++ ch_queue ch = all))
  end.

Lemma address_other c sent e :
  e ≠ WConnect c true →
  address c sent e =
    match message_to c e with Some data => (λ l, l ++ [data]) <$> sent | None => sent end.
Proof. destruct e as [d []| | | | |]; simpl; intros Hne; try done. case_decide; [congruence|done]. Qed.

Lemma message_project s e c data : message_to c e = Some data → is_Some (project s e).
Proof.
  destruct e as [| | | | |id msg]; simpl; try done. case_decide; [|done]. by intros ->.
Qed.

Lemma connects_dec e c : e = WConnect c true ∨ e ≠ WConnect c true.
Proof. destruct e as [d []| | | | |]; try (right; done). destruct (decide (d = c)); [left|right]; congruence. Qed.

(** A step that takes nothing off the channel of a client, seen from there. *)
Lemma ws_view s e s' c ch :
  ws_ok s → ws_step s e (Some s') → chans (ws_hub s) !! c = Some ch →
  (∀ he, project s e = Some he → takes c he = None) →
  ∃ ch', chans (ws_hub s') !! c = Some ch' ∧ (c ∈ clients (ws_hub s') → c ∈ clients (ws_hub s)) ∧
    match message_to c e with
    | None => ch_queue ch' = ch_queue ch
    | Some data => (c ∈ clients (ws_hub s)) ∧ ch_queue ch' = ch_queue ch ++ [data] ∨
                   (c ∉ clients (ws_hub s')) ∧ ch_queue ch' = ch_queue ch
    end.
Proof.
  intros Hok Hstep Hch Hp. pose proof (ws_simulates _ _ _ Hok Hstep) as Hsim. simpl in Hsim.
  pose proof (wso_hub _ Hok) as Hhub. destruct (project s e) as [he|] eqn:Hpe.
  - pose proof (project_reaches _ _ _ c Hpe) as Hm. destruct (message_to c e) as [data|].
    + by apply (hub_send_view RoomID _ he).
    + apply (hub_other_view RoomID _ he); auto.
  - injection Hsim as ->. exists ch. split_and!; [done|done|].
    destruct (message_to c e) eqn:Hm; [|done].
    by destruct (message_project s _ _ _ Hm) as [? ?]; simplify_eq.
Qed.

Lemma told_step c s e s' sent :
  ws_ok s → told c s sent → ws_step s e (Some s') → told c s' (address c sent e).
Proof.
  intros Hok Htold Hstep. pose proof (ws_simulates _ _ _ Hok Hstep) as Hsim. simpl in Hsim.
  pose proof (wso_hub _ Hok) as Hhub. unfold told in *.
  destruct (chans (ws_hub s) !! c) as [ch|] eqn:Hch.
  - assert (e ≠ WConnect c true) as Hne by (intros ->; inversion Hstep; congruence).
    rewrite (address_other _ _ _ Hne). destruct Htold as (cn & all & Hcn & -> & Hpre & Hw).
    assert (is_Some (chans (ws_hub s) !! c)) as Hs by (rewrite Hch; eauto).
    destruct (ws_step_conn _ _ _ _ _ Hstep Hs Hcn) as (cn' & Hcn' & [(data & Hp & Hwr & Hcase)|(Hp & Ht & Hwr)]).
    + rewrite Hp in Hsim. pose proof (project_reaches _ _ _ c Hp) as Hm. simpl in Hm. rewrite <- Hm.
      destruct (hub_receive_view _ _ _ _ _ _ Hsim Hch) as (ch' & -> & -> & Hq).
      specialize (Hw Hwr) as [Hw1 Hw2]. rewrite Hq in *. rewrite (cons_middle data) in Hw1, Hw2.
      rewrite (assoc_L (++)) in Hw1, Hw2.
      exists cn', all. split; [done|]. split; [done|]. destruct Hcase as [->|[-> ->]]; [|done].
      split; [|done]. etrans; [|exact Hw1]. by apply prefix_app_r.
    + destruct (ws_view _ _ _ _ _ Hok Hstep Hch Hp) as (ch' & -> & Hcl & Hq).
      destruct (message_to c e) as [data|].
      * exists cn', (all ++ [data]). rewrite Ht. split_and!; [done|done|by apply prefix_app_r|].
        intros Hwr'%Hwr. specialize (Hw Hwr') as [Hw1 Hw2]. destruct Hq as [[Hc ->]|[Hc ->]].
        -- rewrite (assoc_L (++)), (Hw2 Hc). done.
        -- split; [by apply prefix_app_r|done].
      * exists cn', all. rewrite Ht, Hq. split_and!; [done|done|done|].
        intros Hwr'%Hwr. specialize (Hw Hwr') as [Hw1 Hw2]. auto.
  - rewrite Htold. destruct (connects_dec e c) as [->|Hne].
    + inversion Hstep; subst. simpl. rewrite lookup_insert_eq, decide_True by done.
      exists (MkConn true [] true true), []. rewrite lookup_insert_eq. simpl. by split_and!.
    + assert (chans (ws_hub s') !! c = None) as ->.
      { destruct (project s e) as [he|] eqn:Hpe; [|by injection Hsim as ->].
        apply (hub_chans_new RoomID (ws_hub s) he); [done..|]. intros ->. apply Hne.
        destruct e as [d []|d [[]|] w|d w|msg|data|id msg]; simplify_option_eq; try done.
        - by case_match.
        - destruct (receive _ _) as [[]|]; simplify_eq/=. }
      rewrite address_other by done. by destruct (message_to c e).
Qed.
(** ** Properties *)

Definition posted (e : ws_event) : option string :=
  match e with WPost msg => message_text msg | _ => None end.
Definition taken (e : ws_event) : option string :=
  match e with WBroadcast data => Some data | _ => None end.

(** The channel is first in, first out. *)
Lemma ws_run_queue s es s' :
  ws_run s es (Some s') → ws_queue s ++ omap posted es = omap taken es ++ ws_queue s'.
Proof.
  intros Hrun. remember (Some s') as r eqn:Hr.
  induction Hrun as [s|s e es Hstep|s s1 e es r Hstep _ IH]; simplify_eq; [by rewrite app_nil_r|].
  specialize (IH eq_refl). apply ws_step_queue in Hstep.
  destruct e as [| | |msg|data|]; simpl in *; try by rewrite <- Hstep.
  - destruct (message_text msg); [|by rewrite <- Hstep]. destruct Hstep as [_ Hq].
    rewrite Hq in IH. by rewrite <- (assoc_L (++)) in IH.
  - rewrite Hstep. exact (f_equal (cons data) IH).
Qed.

Lemma ws_run_told s es s' c sent :
  ws_ok s → told c s sent → ws_run s es (Some s') → told c s' (fold_left (address c) es sent).
Proof.
  intros Hok Htold Hrun. revert sent Htold. remember (Some s') as r eqn:Hr.
  induction Hrun as [s|s e es Hstep|s s1 e es r Hstep _ IH]; intros; simplify_eq; [done|].
  apply IH; [by eapply ws_step_ok|done|by eapply told_step].
Qed.

Lemma ws_run_ok s es s' : ws_ok s → ws_run s es (Some s') → ws_ok s'.
Proof.
  intros Hok Hrun. remember (Some s') as r eqn:Hr.
  induction Hrun as [s|s e es Hstep|s s1 e es r Hstep _ IH]; simplify_eq; [done|].
  apply IH; [by eapply ws_step_ok|done].
Qed.

(** C32: what [BroadcastToAll] posts is broadcast in the order of the posts, and
    what a peer reads is, in order and from the first message after it connected
    on, what was addressed to it; as long as the hub keeps the client and its
    [writePump] runs, nothing is lost: the rest waits in its channel. *)
Theorem ws_delivers es s c cn :
  ws_run NewWs es (Some s) → ws_conns s !! c = Some cn →
  omap posted es = omap taken es ++ ws_queue s ∧
  ∃ ch all, chans (ws_hub s) !! c = Some ch ∧ addressed c es = Some all ∧
    texts cn `prefix_of` all ∧
    (cn_writing cn = true → c ∈ clients (ws_hub s) → texts cn ++ ch_queue ch = all).
Proof.
  intros Hrun Hcn. split; [by apply (ws_run_queue _ _ _ Hrun)|].
  pose proof (ws_run_ok _ _ _ NewWs_ok Hrun) as Hok.
  assert (told c NewWs None) as Htold by (unfold told; simpl; by rewrite lookup_empty).
  apply (ws_run_told _ es s) in Htold; [|apply NewWs_ok|done]. unfold told in Htold.
  destruct (wso_conns _ Hok c) as [ch Hch]; [eauto|]. rewrite Hch in Htold.
  destruct Htold as (cn' & all & Hcn' & Hall & Hpre & Hw). assert (cn' = cn) as -> by congruence.
  exists ch, all. split_and!; [done|done|done|]. intros Hwr. by apply Hw.
Qed.

(** Without messages to rooms no interleaving of connections, pumps, posts and
    broadcasts panics. *)
Theorem ws_safe es r :
  (∀ id msg, WRoom id msg ∉ es) → ws_run NewWs es r → ∃ s, r = Some s ∧ ws_ok s.
Proof.
  intros Hes Hrun. assert (ws_ok NewWs) as Hok by apply NewWs_ok. revert Hok.
  induction Hrun as [s|s e es Hstep|s s1 e es r Hstep _ IH]; intros Hok; [eauto|..].
  - pose proof (ws_simulates _ _ _ Hok Hstep) as Hsim. simpl in Hsim.
    destruct (project s e) as [he|] eqn:Hpe; [|done].
    destruct (hub_step_ok RoomID _ _ _ (wso_hub _ Hok) Hsim) as (h & ? & _); [|done].
    intros id data ->. apply project_room in Hpe as [msg ->]. destruct (Hes id msg). set_solver.
  - apply IH; [|by eapply ws_step_ok]. intros id msg Hin. apply (Hes id msg). set_solver.
Qed.

(** [n] turns of the loop of [writePump] while the peer reads. *)
Fixpoint pump (n : nat) (c : client) (s : ws) : option ws :=
  match n with 0 => Some s | S n => s ← writePump c true s; pump n c s end.

(** A client the hub has let go still gets what waits in its channel; then its
    [writePump] ends and closes the connection. *)
Theorem writePump_drains c s cn ch :
  ws_conns s !! c = Some cn → chans (ws_hub s) !! c = Some ch → ch_closed ch = true →
  ∃ s' cn', pump (S (length (ch_queue ch))) c s = Some s' ∧ ws_conns s' !! c = Some cn' ∧
    texts cn' = texts cn ++ ch_queue ch ∧ cn_open cn' = false ∧ cn_writing cn' = false.
Proof.
  remember (ch_queue ch) as queue eqn:Hq. revert s cn ch Hq.
  induction queue as [|data queue IH]; intros s cn ch Hq Hcn Hch Hclosed.
  - cbn [length pump]. unfold writePump, receive. rewrite Hch. simpl. rewrite <- Hq, Hclosed. simpl.
    do 2 eexists. split; [done|]. simpl. rewrite lookup_alter_eq, Hcn. split; [done|].
    simpl. by rewrite app_nil_r.
  - change (S (length (data :: queue))) with (S (S (length queue))).
    set (m := S (length queue)). cbn [pump]. unfold writePump, receive.
    rewrite Hch. simpl. rewrite <- Hq. simpl.
    destruct (IH (on_conn c (λ cn, cn <| cn_written := cn_written cn ++ [Text data] |>)
                  (s <| ws_hub := (ws_hub s) <| chans := <[c := ch <| ch_queue := queue |>]> (chans (ws_hub s)) |> |>))
      (cn <| cn_written := cn_written cn ++ [Text data] |>) (ch <| ch_queue := queue |>))
      as (s' & cn' & Hp & Hcn' & Ht & Ho & Hw); [done|..].
    + simpl. by rewrite lookup_alter_eq, Hcn.
    + simpl. by rewrite lookup_insert_eq.
    + done.
    + exists s', cn'. split_and!; [done|done| |done|done].
      rewrite Ht. unfold texts. simpl. rewrite omap_app. simpl. by rewrite <- (assoc_L (++)).
Qed.
End handler.

(** ** Witnesses *)

Definition chat_request (c : client) : Request :=
  MkRequest [] [] [("room", "chat")] (inr "") "" [].
Definition hello : Message := MkMessage "greeting" (Some (JStr "hello")).
Definition hello_text : string := default "" (message_text hello).

Definition hello_events : list ws_event :=
  [WConnect 1%N true; WPost hello; WRead 1%N (Some (1%Z, "ping")) true; WPost hello;
   WBroadcast hello_text; WWrite 1%N true; WBroadcast hello_text].

(** Both posted; one read, one in the channel of the client. *)
Definition hello_end : ws :=
  MkWs (MkHub {[1%N]} {["chat" := {[1%N]}]} {[1%N := MkChannel [hello_text] false]}) []
    {[1%N := MkConn true [PongText; Text hello_text] true true]}.

Definition hello_state (queue waiting : list string) (written : list frame) : ws :=
  MkWs (MkHub {[1%N]} {["chat" := {[1%N]}]} {[1%N := MkChannel waiting false]}) queue
    {[1%N := MkConn true written true true]}.

Lemma ws_next request s e r t es s' :
  ws_step request s e r → r = Some t → ws_run request t es s' → ws_run request s (e :: es) s'.
Proof. intros Hstep ->. by apply ws_cons. Qed.

Lemma hello_run : ws_run chat_request NewWs hello_events (Some hello_end).
Proof.
  eapply (ws_next _ _ _ _ (hello_state [] [] [])); [by apply ws_connect|by vm_compute|].
  eapply (ws_next _ _ _ _ (hello_state [hello_text] [] [])); [by apply ws_post|by vm_compute|].
  eapply (ws_next _ _ _ _ (hello_state [hello_text] [] [PongText]));
    [apply ws_read; by eexists|by vm_compute|].
  eapply (ws_next _ _ _ _ (hello_state [hello_text; hello_text] [] [PongText]));
    [by apply ws_post|by vm_compute|].
  eapply (ws_next _ _ _ _ (hello_state [hello_text] [hello_text] [PongText]));
    [by apply (ws_run_broadcast _ _ _ [1%N])|by vm_compute|].
  eapply (ws_next _ _ _ _ (hello_state [hello_text] [] [PongText; Text hello_text]));
    [apply ws_write; [by eexists|by vm_compute]|done|].
  eapply (ws_next _ _ _ _ hello_end); [by apply (ws_run_broadcast _ _ _ [1%N])|by vm_compute|].
  apply ws_nil.
Qed.

Lemma ws_delivers_witness : ∃ all,
  addressed chat_request 1%N hello_events = Some all ∧ [hello_text] ++ [hello_text] = all.
Proof.
  destruct (ws_delivers chat_request hello_events hello_end 1%N
    (MkConn true [PongText; Text hello_text] true true) hello_run eq_refl)
    as (_ & ch & all & Hch & Hall & _ & Hw).
  exists all. split; [exact Hall|]. vm_compute in Hch. injection Hch as <-.
  apply Hw; [reflexivity|]. vm_compute. reflexivity.
Defined.
