(* ===== verification/Telemetry.v ===== *)
(** Logs and metrics: [internal/observability], [middleware/metrics.go],
    [middleware/logger.go] and [pkg/logger].

    [main] adds the middleware [Logger] and none of the rest: [InitOTel],
    [Metrics] and [logger.New] have no caller. *)

From S2P Require Import Prelude GoInt GoTime GoFloat GoJson Model Errors World Effects Logic Http.
From Stdlib Require Import SpecFloat.

Open Scope Z_scope.

(** ** observability/metrics.go *)

Inductive instrument_kind :=
  | Float64Histogram | Int64Counter | Float64Counter | Float64Gauge | Int64Gauge.
Record instrument := MkInstrument {
  in_kind : instrument_kind; in_name : string; in_description : string; in_unit : string
}.

(** The calls of [InitMetrics], with the package variable each sets. *)
Definition instruments : list (string * instrument) := [
  ("RequestDuration", MkInstrument Float64Histogram "http.request.duration"
    "HTTP request duration in seconds" "s");
  ("RequestCounter", MkInstrument Int64Counter "http.request.total" "Total HTTP requests" "");
  ("RequestErrors", MkInstrument Int64Counter "http.request.errors.total"
    "Total HTTP request errors" "");
  ("TransactionCounter", MkInstrument Int64Counter "transaction.total" "Total transactions" "");
  ("TransactionAmount", MkInstrument Float64Counter "transaction.amount.total"
    "Total transaction amount" "");
  ("PaymentSuccessRate", MkInstrument Float64Gauge "payment.success.rate" "Payment success rate" "");
  ("ProviderLatency", MkInstrument Float64Histogram "provider.latency"
    "Provider API latency in seconds" "s");
  ("ProviderErrors", MkInstrument Int64Counter "provider.errors.total" "Total provider errors" "");
  ("ProviderCircuitBreak", MkInstrument Int64Gauge "provider.circuit_breaker"
    "Provider circuit breaker status (0=closed, 1=open)" "");
  ("WebhookDeliveryCount", MkInstrument Int64Counter "webhook.delivery.total"
    "Total webhook deliveries" "");
  ("WebhookDeliveryErrors", MkInstrument Int64Counter "webhook.delivery.errors.total"
    "Total webhook delivery errors" "");
  ("WebhookLatency", MkInstrument Float64Histogram "webhook.latency"
    "Webhook delivery latency in seconds" "s");
  ("ActiveMerchants", MkInstrument Int64Gauge "merchant.active.count"
    "Number of active merchants" "")].

(** The package variables that are not nil. *)
Abbreviation variables := (gmap string instrument).

(** OpenTelemetry: what a meter makes of an instrument, and of the setup. A
    meter gives an instrument or an error. *)
Class OTel := {
  meter_error : instrument → option string;
  prometheus_New : option string
}.

Section observability.
Context `{!OTel}.

(** One call after the other; the first error returns. *)
Fixpoint set_instruments (l : list (string * instrument)) (g : variables) : option error * variables :=
  match l with
  | [] => (None, g)
  | (x, i) :: l =>
      match meter_error i with
      | Some msg => (Some (EDriver msg), delete x g)
      | None => set_instruments l (<[x := i]> g)
      end
  end.

Definition InitMetrics (g : variables) : option error * variables := set_instruments instruments g.

(** [None]: no error; the flag says whether the meter provider was set for the
    process. *)
Definition InitOTel (g : variables) : option error * (variables * bool) :=
  match prometheus_New with
  | Some msg => (Some (EDriver msg), (g, false))
  | None =>
      match InitMetrics g with
      | (Some err, g) => (Some err, (g, false))
      | (None, g) => (None, (g, true))
      end
  end.
End observability.

(** ** The middleware *)

Section middleware.
Context `{!Externals}.

Definition seconds (d : Duration) : float64 :=
  fadd (float64_of_int (Z.quot d Second))
    (SFdiv prec emax (float64_of_int (Z.rem d Second)) (float64_of_int (10 ^ 9))).

(** A [Record] or an [Add]: the variable, the value and the attributes. *)
Inductive measurement :=
  | MRecord (variable : string) (v : float64) (attributes : list (string * string))
  | MAdd (variable : string) (v : Z) (attributes : list (string * string)).

(** A method of a nil interface panics. *)
Definition measure (g : variables) (x : string) (m : measurement) : M measurement :=
  match g !! x with
  | Some _ => mret m
  | None => panic "invalid memory address or nil pointer dereference"
  end.

(** [FullPath] is the path of the route. *)
Definition Metrics (g : variables) (method FullPath : string) (next : Request → M Response)
    (req : Request) : M (Response * list measurement) :=
  start ← now;
  resp ← next req;
  stop ← now;
  let duration := seconds (Sub stop start) in
  let attributes := [("method", method); ("path", FullPath); ("status", pretty (rs_status resp))] in
  d ← measure g "RequestDuration" (MRecord "RequestDuration" duration attributes);
  c ← measure g "RequestCounter" (MAdd "RequestCounter" 1 attributes);
  if decide (400 ≤ rs_status resp) then
    e ← measure g "RequestErrors" (MAdd "RequestErrors" 1 attributes);
    mret (resp, [d; c; e])
  else mret (resp, [d; c]).

(** A line of the log: its level, message and fields. *)
Inductive log_level := LInfo | LError.
Record log_entry := MkLogEntry {
  le_level : log_level; le_message : string;
  le_text : list (string * string); le_status : Z; le_latency : Duration
}.

(** [errors]: [c.Errors] after the handlers. *)
Definition Logger (method path request_id : string) (errors : Response → list string)
    (next : Request → M Response) (req : Request) : M (Response * list log_entry) :=
  start ← now;
  resp ← next req;
  stop ← now;
  let entry level message more := MkLogEntry level message
    ([("method", method); ("path", path); ("request_id", request_id);
      ("client_ip", rq_client_ip req)] ++ more) (rs_status resp) (Sub stop start) in
  mret (resp, match errors resp with
              | [] => [entry LInfo "request" []]
              | l => map (λ e, entry LError "request error" [("error", e)]) l
              end).
End middleware.

(** ** pkg/logger *)

(** The configuration given to zap. *)
Inductive zap_preset := Development | Production.
Record zap_config := MkZapConfig {
  zc_preset : zap_preset; zc_level : string; zc_level_encoder : string;
  zc_time_encoder : string; zc_duration_encoder : option string; zc_to_stderr : bool
}.

(** A level that zap does not know is [info]; [known_level] is zap's. *)
Definition New (known_level : string → bool) (level format : string) : zap_config :=
  let lvl := if known_level level then level else "info" in
  if decide (format = "console")
  then MkZapConfig Development lvl "CapitalColor" "ISO8601" (Some "Millis") true
  else MkZapConfig Production lvl "Lowercase" "ISO8601" None false.

(** ** Properties *)

Section properties.
Context `{!Externals, !OTel}.

Definition all_set (g : variables) : Prop := ∀ x i, (x, i) ∈ instruments → g !! x = Some i.

(** No two instruments share a variable or a name: a registry of Prometheus
    would refuse the second. *)
Lemma instruments_distinct :
  NoDup instruments.*1 ∧ NoDup (map (λ xi, in_name xi.2) instruments).
Proof. split; apply (bool_decide_unpack _); by vm_compute. Qed.

Lemma set_instruments_spec l g r g' :
  NoDup l.*1 → set_instruments l g = (r, g') →
  (∀ x, x ∉ l.*1 → g' !! x = g !! x) ∧
  match r with
  | None => Forall (λ xi, meter_error xi.2 = None) l ∧ ∀ x i, (x, i) ∈ l → g' !! x = Some i
  | Some err => ∃ before x i after msg, l = before ++ (x, i) :: after ∧
      Forall (λ xi, meter_error xi.2 = None) before ∧
      meter_error i = Some msg ∧ err = EDriver msg ∧ g' !! x = None ∧
      ∀ y j, (y, j) ∈ before → g' !! y = Some j
  end.
Proof.
  revert g. induction l as [|[x i] l IH]; intros g Hnd Hset; simpl in *.
  { injection Hset as <- <-. split; [done|]. split; [constructor|]. by intros ? ? ?%elem_of_nil. }
  apply NoDup_cons in Hnd as [Hx Hnd]. destruct (meter_error i) as [msg|] eqn:Hi.
  { injection Hset as <- <-. split; [intros y Hy; apply lookup_delete_ne; set_solver|].
    exists [], x, i, l, msg. split_and!; [done|constructor|done|done|apply lookup_delete_eq|].
    by intros ? ? ?%elem_of_nil. }
  destruct (IH _ Hnd Hset) as [Hout Hr]. split.
  { intros y [Hy Hl]%not_elem_of_cons. rewrite Hout by done. by apply lookup_insert_ne. }
  assert (g' !! x = Some i) as Hxi by (rewrite Hout by done; apply lookup_insert_eq).
  destruct r as [err|].
  - destruct Hr as (before & y & j & after & msg & -> & Hb & Hj & -> & Hno & Hset').
    exists ((x, i) :: before), y, j, after, msg.
    split_and!; [done|by constructor|done|done|done|]. intros z k [[= -> ->]|Hin]%elem_of_cons; auto.
  - destruct Hr as [Hall Hset']. split; [by constructor|].
    intros z k [[= -> ->]|Hin]%elem_of_cons; auto.
Qed.

(** [InitMetrics] sets every variable, or returns the error of the first
    instrument the meter refuses, whose variable stays nil. *)
Theorem InitMetrics_outcome g r g' :
  InitMetrics g = (r, g') →
  match r with
  | None => all_set g'
  | Some err => ∃ x i msg, (x, i) ∈ instruments ∧ meter_error i = Some msg ∧ err = EDriver msg ∧
      g' !! x = None
  end.
Proof.
  intros Hset. destruct (set_instruments_spec _ _ _ _ (proj1 instruments_distinct) Hset) as [_ Hr].
  destruct r as [err|]; [|exact (proj2 Hr)].
  destruct Hr as (before & x & i & after & msg & Heq & _ & Hi & -> & Hno & _).
  exists x, i, msg. split_and!; [|done..]. rewrite Heq. set_solver.
Qed.

(** With the instruments set, a request is counted once, under the status it
    was answered with, and as an error from 400 on. *)
Theorem Metrics_counts g method path next req w resp w1 :
  all_set g → run (next req) (w <| w_tick := S (w_tick w) |>) = (Ret resp, w1) →
  let attributes := [("method", method); ("path", path); ("status", pretty (rs_status resp))] in
  ∃ d w', run (Metrics g method path next req) w =
    (Ret (resp, MRecord "RequestDuration" d attributes :: MAdd "RequestCounter" 1 attributes ::
           if decide (400 ≤ rs_status resp) then [MAdd "RequestErrors" 1 attributes] else []), w').
Proof.
  intros Hall Hnext attributes. unfold Metrics, now, ask.
  rewrite run_bind, run_act. cbv beta iota. rewrite run_bind, Hnext. cbv beta iota.
  rewrite run_bind, run_act. cbv beta iota zeta. unfold measure.
  rewrite (Hall "RequestDuration" _), (Hall "RequestCounter" _), (Hall "RequestErrors" _)
    by (unfold instruments; repeat (apply list_elem_of_here || apply list_elem_of_further)).
  rewrite run_bind, run_ret. cbv beta iota. rewrite run_bind, run_ret. cbv beta iota.
  case_decide.
  - rewrite run_bind, run_ret. cbv beta iota. rewrite run_ret. by do 2 eexists.
  - rewrite run_ret. by do 2 eexists.
Qed.

(** Without [InitMetrics] the middleware panics after the handlers have run. *)
Theorem Metrics_uninitialised method path next req w resp w1 :
  run (next req) (w <| w_tick := S (w_tick w) |>) = (Ret resp, w1) →
  ∃ msg w', run (Metrics ∅ method path next req) w = (Panic msg, w').
Proof.
  intros Hnext. unfold Metrics, now, ask.
  rewrite run_bind, run_act. cbv beta iota. rewrite run_bind, Hnext. cbv beta iota.
  rewrite run_bind, run_act. cbv beta iota zeta. unfold measure. rewrite lookup_empty.
  rewrite run_bind. by do 2 eexists.
Qed.

(** The log has at least one line for every request that is answered. *)
Theorem Logger_logs method path id errors next req w resp w1 :
  run (next req) (w <| w_tick := S (w_tick w) |>) = (Ret resp, w1) →
  ∃ entries w', run (Logger method path id errors next req) w = (Ret (resp, entries), w') ∧
    length entries = Nat.max 1 (length (errors resp)) ∧ Forall (λ e, le_status e = rs_status resp) entries.
Proof.
  intros Hnext. unfold Logger, now, ask.
  rewrite run_bind, run_act. cbv beta iota. rewrite run_bind, Hnext. cbv beta iota.
  rewrite run_bind, run_act. cbv beta iota zeta. rewrite run_ret.
  do 2 eexists. split; [done|]. destruct (errors resp) as [|e l].
  - split; [done|]. by repeat constructor.
  - split; [by rewrite length_map|]. by apply Forall_map, Forall_true.
Qed.
End properties.
